(* ===== verification/_CoqProject ===== *)
-Q . S2P
Prelude.v
WebsocketProtocol.v
StreamingProtocol.v
DynamicBuffer.v
Json.v
BasePeer.v
Peer.v
PeerTls.v
PeerLimits.v
Semver.v
Benchmark.v
Pump.v
Base64.v
Url.v
Metadata.v
MetadataBuilder.v
BuilderTypes.v
LinearTable.v
LocalSignal.v
OrderedMap.v
RemoteSignal.v
RemoteSignalContainer.v
Receiver.v
LocalSignalContainer.v
Publisher.v
Subscriptions.v
EndToEnd.v
Synchrony.v
Rounds.v
CommandInterface.v
Connection.v
FullStack.v
Handshake.v
Sources.v
CanSource.v
Sinks.v
Http.v
HttpServicer.v
HttpClient.v
Tls.v
Client.v
Registration.v
Server.v
ClientIterator.v
UnitTests.v
