(* ===== verification/Prelude.v ===== *)
(** * ws-streaming: a model of the library and its correctness

    ws-streaming is a C++ implementation of the WebSocket Streaming Protocol: a
    source publishes signals, a sink subscribes to them, and both ends exchange
    binary data packets and JSON metadata over a WebSocket or a plain TCP
    connection.  This development models the library proper ([src/src/] and
    [src/include/ws-streaming/]) as executable definitions and proves what makes
    it correct.  This first file also holds the vocabulary all others share:
    fixed-width integers, bytes, slices, exceptions, the generic loop over
    frames, the tactic [len] and the hint databases.

    ** The program and its model

    From the wire upwards:

    - frame and packet headers: [WebsocketProtocol] (websocket_protocol.cpp),
      [StreamingProtocol] (streaming_protocol.cpp);
    - buffering of what is sent: [DynamicBuffer] (dynamic_buffer.cpp);
    - the peer object: [BasePeer] (base_peer.cpp: receiving, parsing, closing),
      with the two transports [Peer] (peer.cpp, a TCP socket) and [PeerTls]
      (peer_tls.cpp, a TLS stream) as instances of its classes [Transport] and
      [ControlSender], which stand for the virtual functions; [PeerLimits] says
      when a full receive buffer closes a connection;
    - values: [Json] (the interface of nlohmann::json the code relies on),
      [Semver] (semver.cpp), [Base64] (base64.hpp and the accept key), [Url]
      (url.cpp), [Metadata] and [MetadataBuilder] (metadata.cpp and the
      builders), [BuilderTypes] (the builders with the type checks of the JSON
      library), [LinearTable] (linear_table.cpp);
    - signals: [LocalSignal] (local_signal.cpp), [LocalSignalContainer]
      (local_signal_container.cpp), [RemoteSignal] (remote_signal_impl.cpp),
      [RemoteSignalContainer] (remote_signal_container.cpp), with [OrderedMap]
      for iteration over std::map;
    - a connection (connection.cpp), in three parts: [Receiver] (what the peer
      says about its signals), [Publisher] (what is done with the local ones)
      and [Connection] (the object that joins them: hello, dispatch, requests
      and responses, closing); [CommandInterface] (the two command interface
      clients and their factory);
    - HTTP and the two ends: [Http] (messages), [HttpServicer]
      (http_client_servicer.hpp), [HttpClient] (http_client.hpp), [Tls] (tls.hpp),
      [Client] (client.cpp, client.hpp: the object with its HTTP clients and TLS
      settings), [Server] (server.cpp, server.hpp, listener.hpp: signals,
      listeners, sessions, clients and the TLS context), [ClientIterator]
      (connected_client_iterator.hpp);
    - compositions: [EndToEnd] (publisher and receiver in step), [Synchrony] (how
      a subscription brings them into step), [Rounds] (subscribing and giving
      back again and again), [Handshake] (two
      connections joined by the messages they send), [FullStack] (two
      connections with their peer objects joined by the bytes of a socket),
      [Subscriptions] and [Registration] (what the publishing side does to
      subscription counts and registrations);
    - programs over the library: [Sources], [CanSource] and [Sinks] (examples/:
      the signals they declare, their acquisition loops and handlers),
      [Benchmark] and [Pump] (bench/peer_throughput.cpp: the command line, the
      transmit pump, its measurement, the throttled receiver, the exit status);
    - [UnitTests] (tests/): the repository's unit tests evaluated on the
      definitions, a check of the model and not of the program.

    The parts interact by calls and by Boost signals.  A call is a function
    application; state is passed explicitly.  A signal that is raised is
    recorded ([raised], [sent], lists of events or notices), and the file of the
    object whose slot is connected says what the slot does with it
    ([Connection.on_peer_signal], [Connection.react], [Server.forward],
    [Server.command_slot]).  Objects that are shared or referred to by pointer
    live in heaps: the remote signals and their tables ([RemoteSignal.heap]),
    the local signals and tables ([LocalSignalContainer.local_state]); raw
    pointers that the code keeps may dangle in the model as they may in the
    code, and using one is a failure ([Receiver.use_after_free]).  Asynchronous
    operations are recorded when they are started, and their completion
    handlers are operations that a history or a step relation may run in any
    order the executor allows.

    ** What is proved

    - Delivery.  [Peer.messages_arrive]: what one peer sends, cut into chunks in
      any way, is what the other one raises.  [Peer.peer_sends_in_order] and
      [PeerTls.tls_queue_correct]: both transports send whole messages in order;
      [DynamicBuffer.buffer_refines_fifo]: the transmit buffer is a byte queue.
      [BasePeer.delivery_independent_of_chunking] and [BasePeer.base_peer_safe]:
      parsing does not depend on how bytes arrive, and keeps its bounds;
      [PeerLimits.closes_exactly_when_full]: a peer gives up exactly when an
      incomplete packet or frame fills its buffer at its limit.  Round
      trips and equivalence with RFC 6455 for both kinds of headers.
    - The whole path.  [FullStack.published_values_cross_the_wire] composes the
      above with what follows: through any interleaving of publications, partial
      writes, reads and failures, over either protocol, the application receives
      a prefix of what was published, and all of it once the wire has drained.
    - Signals.  [EndToEnd.domain_values_preserved]: the domain values that are
      published are the ones received.  [Synchrony.subscription_streams]: from two
      sides that have exchanged the advertisement, a subscription succeeds and all
      that is published after it arrives.  [Rounds.subscription_rounds]: so does
      what is published in every later subscription of the same signal, and
      nothing in between.  [Receiver.receiver_memory_safe]:
      with a peer that does not renumber a signal in use no erased entry is used;
      [Receiver.remote_signal_lifecycle]: with any peer the events of every
      remote signal follow its life cycle, up to the first failure.
      [Subscriptions.subscriptions_refine_spec]: explicit and implicit
      subscription counts implement a set of subscribed signals, when domains
      have no domain of their own and only what was requested is given back;
      [Subscriptions.unsubscribe_terminates].
      [LocalSignal.subscription_count], [LinearTable.linear_table_rule],
      [MetadataBuilder.builder_roundtrip] and [BuilderTypes.builders_type_safe]:
      built metadata reads back as it was set (struct fields when their text is
      UTF-8), and no builder operation can fail on the type of a value, whatever JSON it starts from.
    - Connections.  [Handshake.handshake_completes],
      [Handshake.remote_command_roundtrip],
      [Connection.disconnection_reported_once],
      [CommandInterface.in_band_handlers_called_once].
    - HTTP, clients and servers.  [HttpServicer.servicer_accounts_for_itself],
      [HttpServicer.response_action], [HttpClient.handler_called_exactly_once],
      [Client.upgrade_request_accepted], [Server.clients_have_the_signals],
      [Server.http_command_performed].  [Server.subscribed_while_wanted]: a
      signal shared by all connections is subscribed exactly while one of them
      wants it.  [Tls.tls_policy], [Client.verified_unless_disabled]: whom a TLS
      context admits, and that only the application can switch verification off;
      [Client.failed_enable_tls_keeps_client] and
      [Server.last_tls_listener_decides] say what failures and repeated calls
      leave behind.  [Client.cancel_aborts_upgrades]: what a cancelled attempt
      comes to, depending on whether its operation under way was still waiting.
    - Programs.  [Sources.source_streams]: a peer of an example source obtains
      the blocks acquired while it is subscribed; [Sources.turn_economy]: with one
      domain packet at most; [Sources.lazy_thread_follows]: the lazy thread runs
      exactly while it is wanted; [Sinks.sinks_and_sources]: which sink finds its
      signal at which source; [CanSource.can_message_described]: the metadata of
      a structure describe its bytes.  [Pump.pump_keeps_connection]: the pump's
      cap keeps the transmit buffer from overflowing, whatever the threads'
      interleaving; [Benchmark.options_parsed], [Pump.measured_window],
      [Pump.throttled_rate] and [Pump.main_succeeds].
    - Where the code does not do what it means to, a theorem says what it does:
      [StreamingProtocol.empty_packet_desync], [Peer.tcp_metadata_lost],
      [Receiver.renumbered_signal_dangles],
      [Subscriptions.unrequested_unsubscribe_wraps],
      [Subscriptions.domain_chain_wraps], [MetadataBuilder.struct_fields_throw],
      [Connection.malformed_request_escapes],
      [HttpClient.request_from_handler_lost],
      [HttpServicer.upgraded_servicer_stays_silent] and others beside them.

    ** Bounds and fuel

    Integers are [Z] with the wrap-around of their C++ type written out
    ([wrap], [swrap]); sizes of buffers that exist in memory are [nat].  Loops
    that are not structural carry fuel.  The frame and packet loops get one unit
    per byte still unread plus one, each round consuming a byte; the buffer
    loops one per block or byte; the walk along the domains in
    [Publisher.unsubscribe] one per registered signal plus two, since each step
    takes a signal out of the subscribed ones.  For each, a theorem or lemma
    says that the fuel is enough.  Identifiers that count upwards (request ids,
    signal numbers) are 32 bits wide, and theorems about fresh ones bound the
    length of the history by that width.

    ** What is not modelled

    Boost (Asio, Beast, Signals2, multiprecision), OpenSSL and nlohmann::json
    are not part of the program: they appear as classes or parameters with the
    documented behaviour the code relies on ([Json.JsonLib], [Peer.Socket],
    [PeerTls.TlsStream], [Base64.ArchiveIterators], [Base64.Sha1]), and each
    class has an instance that the witnesses evaluate.  An exception that leaves
    a handler is a result, not a continuation: what the executor does with it is
    outside.  Object lifetimes are modelled where a property needs them (remote
    signal entries, linear tables, holders, the connections a server drops) and
    otherwise not: [weak_ptr]s that guard handlers are taken to lock.  Threads
    are not modelled, as the library requires its executor to be a strand; where
    a program brings its own (the acquisition loops, the benchmark's receiver),
    its steps interleave with those of the executor.  Of TLS, the contexts and
    the certificate policy are modelled; reading files and the handshake itself
    are OpenSSL's.  The acceptors behind a listener and the product string are
    left out, as are the executors, signal handlers, clocks and console output of
    the example programs and the benchmark.  Of the tests, those that move large
    buffers or certificates over sockets are left out. *)
From stdpp Require Export base tactics option list list_numbers numbers gmap strings.
From Stdlib Require Export ZArith Lia ZifyBool.
#[global] Open Scope Z_scope.

Declare Scope ws_scope.
Delimit Scope ws_scope with ws.
Open Scope ws_scope.

(** ** Fixed-width integers

    A C++ unsigned integer of [w] bits is a [Z] in [[0, 2^w)]; a signed one is
    a [Z] in [[-2^(w-1), 2^(w-1))].  Conversions are the modular ones. *)

Definition wrap (w z : Z) : Z := z mod 2 ^ w.

Definition swrap (w z : Z) : Z := (z + 2 ^ (w - 1)) mod 2 ^ w - 2 ^ (w - 1).

Abbreviation u8 := (wrap 8) (only parsing).
Abbreviation u16 := (wrap 16) (only parsing).
Abbreviation u32 := (wrap 32) (only parsing).
Abbreviation u64 := (wrap 64) (only parsing).
Abbreviation s32 := (swrap 32) (only parsing).
Abbreviation s64 := (swrap 64) (only parsing).

(** [in_u w z]: [z] is a value of the unsigned [w]-bit type. *)
Definition in_u (w z : Z) : Prop := 0 <= z < 2 ^ w.

Definition in_s (w z : Z) : Prop := - 2 ^ (w - 1) <= z < 2 ^ (w - 1).

Abbreviation is_byte := (in_u 8) (only parsing).

#[export] Instance in_u_dec w z : Decision (in_u w z).
Proof. unfold in_u; apply _. Defined.

#[export] Instance in_s_dec w z : Decision (in_s w z).
Proof. unfold in_s; apply _. Defined.

(** ** Bytes in memory *)

(** The four bytes a 32-bit word occupies in little-endian order (what
    [boost::endian::native_to_little] leaves in memory). *)
Definition le_bytes (n : nat) (z : Z) : list Z :=
  (fun i => wrap 8 (z ≫ (8 * Z.of_nat i))) <$> seq 0 n.

Definition le_value (bs : list Z) : Z := little_endian_to_Z 8 bs.

Definition be_value (bs : list Z) : Z := le_value (reverse bs).

(** The [i]-th byte of a buffer; every read of the models is guarded by a
    length test, so the default is never observed. *)
Definition byte_at (data : list Z) (i : nat) : Z := nth i data 0.

(** The length of a buffer as a [std::size_t]. *)
Definition size_of {A} (l : list A) : Z := Z.of_nat (length l).

(** The sub-buffer of [n] bytes starting at [off] ([data + off], length [n]). *)
Definition slice {A} (off n : nat) (data : list A) : list A :=
  take n (drop off data).

Arguments le_bytes : simpl never.
Arguments size_of : simpl never.
Arguments byte_at : simpl never.
Arguments wrap : simpl never.
Arguments swrap : simpl never.
Arguments slice : simpl never.

(** ** Errors

    [result E A]: either a value or a thrown exception. *)

Inductive result (E A : Type) : Type :=
| Ok (a : A)
| Throw (e : E).
Arguments Ok {E A} a.
Arguments Throw {E A} e.

Definition rbind {E A B} (m : result E A) (k : A -> result E B) : result E B :=
  match m with
  | Ok a => k a
  | Throw e => Throw e
  end.

Notation "x <-? m ; k" := (rbind m (fun x => k))
  (at level 100, m at next level, right associativity) : ws_scope.

(** ** Option helpers in the manner of std::optional *)

Definition value_or {A} (o : option A) (d : A) : A :=
  match o with Some a => a | None => d end.

(** ** Lemmas on fixed-width integers *)

Lemma wrap_range w z : 0 <= w -> in_u w (wrap w z).
Proof. intros ?. apply Z.mod_pos_bound. lia. Qed.

Lemma wrap_small w z : in_u w z -> wrap w z = z.
Proof. apply Z.mod_small. Qed.

Lemma swrap_range w z : 0 < w -> in_s w (swrap w z).
Proof.
  intros ?. unfold swrap, in_s.
  pose proof (Z.mod_pos_bound (z + 2 ^ (w - 1)) (2 ^ w) ltac:(lia)).
  replace (2 ^ w) with (2 * 2 ^ (w - 1)) in *; [lia|].
  rewrite <- Z.pow_succ_r by lia. f_equal; lia.
Qed.

Lemma swrap_small w z : 0 < w -> in_s w z -> swrap w z = z.
Proof.
  intros ? Hz. unfold swrap, in_s in *. rewrite Z.mod_small; [lia|].
  replace (2 ^ w) with (2 * 2 ^ (w - 1)); [lia|].
  rewrite <- Z.pow_succ_r by lia. f_equal; lia.
Qed.

Lemma swrap_add_l w a b : 0 < w -> swrap w (swrap w a + b) = swrap w (a + b).
Proof.
  intros ?. unfold swrap. f_equal.
  replace ((a + 2 ^ (w - 1)) mod 2 ^ w - 2 ^ (w - 1) + b + 2 ^ (w - 1))
    with ((a + 2 ^ (w - 1)) mod 2 ^ w + b) by lia.
  rewrite Z.add_mod_idemp_l by lia. f_equal; lia.
Qed.

Lemma swrap_add_r w a b : 0 < w -> swrap w (a + swrap w b) = swrap w (a + b).
Proof. intros. rewrite Z.add_comm, swrap_add_l by done. f_equal; lia. Qed.

Lemma swrap_mod w a b : 0 < w -> a mod 2 ^ w = b mod 2 ^ w -> swrap w a = swrap w b.
Proof.
  intros ? Heq. unfold swrap. f_equal.
  rewrite <- (Z.add_mod_idemp_l a), <- (Z.add_mod_idemp_l b) by lia. by rewrite Heq.
Qed.

Lemma swrap_eqmod w z : 0 < w -> swrap w z mod 2 ^ w = z mod 2 ^ w.
Proof.
  intros ?. unfold swrap. rewrite Zminus_mod, Z.mod_mod by lia.
  rewrite <- Zminus_mod. f_equal; lia.
Qed.

Lemma swrap_wrap w z : 0 < w -> swrap w (wrap w z) = swrap w z.
Proof. intros ?. apply swrap_mod; [done|]. unfold wrap. by rewrite Z.mod_mod by lia. Qed.

Lemma swrap_mul_r w a b : 0 < w -> swrap w (a * swrap w b) = swrap w (a * b).
Proof.
  intros ?. apply swrap_mod; [done|].
  rewrite Z.mul_mod, swrap_eqmod, <- Z.mul_mod by lia. done.
Qed.

(** ** Bit operations as arithmetic *)

(** A shifted word or'ed with a word that fits below the shift is a sum. *)
Lemma lor_shiftl_add a b n : 0 <= n -> 0 <= b < 2 ^ n -> Z.lor (a ≪ n) b = a * 2 ^ n + b.
Proof.
  intros Hn Hb. rewrite <- Z.add_lor_land, <- Z.shiftl_mul_pow2 by done.
  replace (Z.land (a ≪ n) b) with 0; [lia|].
  symmetry. apply Z.bits_inj'. intros i Hi.
  rewrite Z.land_spec, Z.bits_0, Z.shiftl_spec by lia.
  destruct (decide (i < n)).
  - by rewrite Z.testbit_neg_r by lia.
  - rewrite <- (Z.mod_small b (2 ^ n)) by done.
    rewrite Z.mod_pow2_bits_high by lia. apply andb_false_r.
Qed.

Lemma lor_add_shiftl a b n : 0 <= n -> 0 <= b < 2 ^ n -> Z.lor b (a ≪ n) = b + a * 2 ^ n.
Proof. intros. rewrite Z.lor_comm, lor_shiftl_add by done. lia. Qed.

Lemma land_ones_mod a n : 0 <= n -> Z.land a (2 ^ n - 1) = a mod 2 ^ n.
Proof. intros. rewrite <- Z.land_ones by done. f_equal. rewrite Z.ones_equiv. lia. Qed.

(** Prepending one more byte to the low bytes of [n]. *)
Lemma join_byte n k :
  0 <= k -> 0 <= n -> Z.lor (u8 (n ≫ k) ≪ k) (n mod 2 ^ k) = n mod 2 ^ (k + 8).
Proof.
  intros. rewrite lor_shiftl_add by (done || (apply Z.mod_pos_bound; lia)).
  unfold wrap. rewrite Z.shiftr_div_pow2, Z.pow_add_r, Z.rem_mul_r by lia. lia.
Qed.

Lemma Ok_inj {E A} (a b : A) : @Ok E A a = Ok b -> a = b.
Proof. congruence. Qed.

(** ** Buffers *)

Lemma size_of_nonneg {A} (l : list A) : 0 <= size_of l.
Proof. unfold size_of. lia. Qed.

Lemma size_of_app {A} (l k : list A) : size_of (l ++ k) = size_of l + size_of k.
Proof. unfold size_of. rewrite length_app. lia. Qed.

Lemma length_le_bytes n z : length (le_bytes n z) = n.
Proof. unfold le_bytes. by rewrite length_fmap, length_seq. Qed.

Lemma drop_le_bytes n z l : drop n (le_bytes n z ++ l) = l.
Proof. apply drop_app_length'. by rewrite length_le_bytes. Qed.

Lemma le_bytes_byte n z : Forall is_byte (le_bytes n z).
Proof. unfold le_bytes. apply Forall_fmap, Forall_true. intros. by apply wrap_range. Qed.

Lemma le_bytes_S n z : le_bytes (S n) z = wrap 8 z :: le_bytes n (z ≫ 8).
Proof.
  unfold le_bytes. rewrite <- cons_seq, fmap_cons, <- fmap_S_seq, <- list_fmap_compose.
  f_equal. apply list_fmap_ext. intros i ? _.
  cbn [compose]. rewrite Z.shiftr_shiftr by lia. do 2 f_equal. lia.
Qed.

Lemma le_value_cons b bs : is_byte b -> le_value (b :: bs) = b + 2 ^ 8 * le_value bs.
Proof.
  intros. unfold le_value. cbn [little_endian_to_Z].
  rewrite lor_add_shiftl by (done || lia). lia.
Qed.

Lemma le_value_le_bytes n z : le_value (le_bytes n z) = wrap (8 * Z.of_nat n) z.
Proof.
  revert z. induction n as [|n IH]; intros z.
  { cbn. unfold wrap. by rewrite Z.mod_1_r. }
  rewrite le_bytes_S, le_value_cons, IH by (by apply wrap_range).
  unfold wrap. rewrite Z.shiftr_div_pow2 by lia.
  replace (8 * Z.of_nat (S n)) with (8 + 8 * Z.of_nat n) by lia.
  rewrite Z.pow_add_r, Z.rem_mul_r by lia. lia.
Qed.

Lemma byte_at_byte data i : Forall is_byte data -> is_byte (byte_at data i).
Proof.
  intros Hd. unfold byte_at. destruct (decide (i < length data)%nat).
  - rewrite Forall_forall in Hd. apply Hd, list_elem_of_In, nth_In. lia.
  - rewrite nth_overflow by lia. unfold in_u. lia.
Qed.

Lemma byte_at_app_l l k i : (i < length l)%nat -> byte_at (l ++ k) i = byte_at l i.
Proof. intros. unfold byte_at. by apply app_nth1. Qed.

Lemma byte_at_drop n data i : byte_at (drop n data) i = byte_at data (n + i).
Proof.
  unfold byte_at. revert data. induction n as [|n IH]; intros [|x data]; try done.
  - by destruct i.
  - apply IH.
Qed.

Lemma length_slice {A} off n (l : list A) : (off + n <= length l)%nat -> length (slice off n l) = n.
Proof. intros. unfold slice. rewrite length_take, length_drop. lia. Qed.

(** ** Automation *)

Create HintDb ws discriminated.
Create Rewrite HintDb ws.
#[export] Hint Resolve wrap_range swrap_range size_of_nonneg le_bytes_byte byte_at_byte : ws.
#[export] Hint Resolve Forall_app_2 Forall_take Forall_drop : ws.
#[export] Hint Rewrite @length_app @length_take @length_drop @length_fmap @length_replicate
  @length_insert @length_reverse length_le_bytes : ws.

(** Split the first [if]/[match] on a boolean or a decision found in the goal. *)
Ltac split_if :=
  match goal with
  | |- context [if bool_decide ?P then _ else _] => destruct (bool_decide_reflect P)
  | |- context [if ?a <? ?b then _ else _] => destruct (Z.ltb_spec a b)
  | |- context [if ?a <=? ?b then _ else _] => destruct (Z.leb_spec a b)
  | |- context [if ?a =? ?b then _ else _] => destruct (Z.eqb_spec a b)
  | |- context [if (?a <? ?b)%nat then _ else _] => destruct (Nat.ltb_spec a b)
  | |- context [if (?a <=? ?b)%nat then _ else _] => destruct (Nat.leb_spec a b)
  | |- context [if (?a =? ?b)%nat then _ else _] => destruct (Nat.eqb_spec a b)
  | |- context [if ?b then _ else _] => destruct b eqn:?
  end.

(** Linear arithmetic over lengths: normalise the lengths, then [lia]. *)
Ltac len := unfold size_of in *; autorewrite with ws in *; simpl length in *; lia.

(** ** Memory ranges

    [splice off xs l] overwrites the range of [l] that starts at [off] with
    [xs]; [slice] reads a range. *)

#[local] Open Scope nat_scope.

Definition splice (off : nat) (xs l : list Z) : list Z :=
  take off l ++ xs ++ drop (off + length xs) l.

Lemma splice_app A B C xs off :
  off = length A -> length xs = length B -> splice off xs (A ++ B ++ C) = A ++ xs ++ C.
Proof.
  intros -> Hx. unfold splice. rewrite take_app_length. do 2 f_equal.
  rewrite drop_app_ge by lia. rewrite drop_app_length' by lia. done.
Qed.

(** A list of at least [off + n] elements, cut around that range. *)
Lemma cut_at (off n : nat) (l : list Z) :
  off + n <= length l ->
  exists A B C, l = A ++ B ++ C /\ length A = off /\ length B = n.
Proof.
  intros Hl. exists (take off l), (take n (drop off l)), (drop n (drop off l)).
  rewrite !take_drop. split; [done|]. len.
Qed.

Lemma length_splice off xs l : off + length xs <= length l -> length (splice off xs l) = length l.
Proof. intros. unfold splice. len. Qed.

Lemma splice_nil off l : splice off [] l = l.
Proof. unfold splice. cbn. rewrite Nat.add_0_r. apply take_drop. Qed.

Lemma splice_splice off a c l :
  off + length a + length c <= length l ->
  splice (off + length a) c (splice off a l) = splice off (a ++ c) l.
Proof.
  intros Hl. destruct (cut_at off (length a + length c) l) as (A & B & C & -> & HA & HB); [lia|].
  destruct (cut_at (length a) (length c) B) as (B1 & B2 & B3 & -> & HB1 & HB2); [lia|].
  assert (B3 = []) as -> by (apply length_zero_iff_nil; len). rewrite app_nil_r in *.
  rewrite (splice_app A (B1 ++ B2) C (a ++ c)) by len.
  rewrite <- (app_assoc B1), (splice_app A B1 (B2 ++ C) a) by lia.
  rewrite app_assoc, (splice_app (A ++ a) B2 C c) by len. by rewrite <- !app_assoc.
Qed.

Lemma slice_splice ro sz (xs l : list Z) :
  ro + sz + length xs <= length l ->
  slice ro (sz + length xs) (splice (ro + sz) xs l) = slice ro sz l ++ xs.
Proof.
  intros Hl. destruct (cut_at ro (sz + length xs) l) as (A & B & C & -> & HA & HB); [lia|].
  destruct (cut_at sz (length xs) B) as (B1 & B2 & B3 & -> & HB1 & HB2); [lia|].
  assert (B3 = []) as -> by (apply length_zero_iff_nil; len). rewrite app_nil_r in *.
  rewrite <- (app_assoc B1), (app_assoc A B1), (splice_app (A ++ B1) B2 C xs) by len.
  rewrite <- !app_assoc. unfold slice. rewrite !drop_app_length' by done.
  rewrite (take_app_length' B1 (B2 ++ C)) by done.
  rewrite (app_assoc B1 xs), take_app_length' by len. done.
Qed.

Lemma slice_app_l ro sz (l k : list Z) :
  ro + sz <= length l -> slice ro sz (l ++ k) = slice ro sz l.
Proof. intros. unfold slice. rewrite drop_app_le, take_app_le by len. done. Qed.

Lemma drop_slice k ro sz (l : list Z) : drop k (slice ro sz l) = slice (ro + k) (sz - k) l.
Proof. unfold slice. rewrite skipn_firstn_comm, drop_drop. do 2 f_equal; lia. Qed.

Lemma slice_app_slice ro a c (l : list Z) : slice ro a l ++ slice (ro + a) c l = slice ro (a + c) l.
Proof. unfold slice. rewrite <- drop_drop. by rewrite take_take_drop. Qed.

Lemma slice_slice a c ro sz (l : list Z) :
  a + c <= sz -> slice a c (slice ro sz l) = slice (ro + a) c l.
Proof.
  intros. change (take c (drop a (slice ro sz l)) = slice (ro + a) c l).
  rewrite drop_slice. unfold slice. rewrite take_take. f_equal. lia.
Qed.

Lemma slice_app_mid {A} (l k m : list A) : slice (length l) (length k) (l ++ k ++ m) = k.
Proof. unfold slice. by rewrite drop_app_length, take_app_length. Qed.

(** Overwriting a range does not disturb what lies behind it. *)
Lemma slice_splice_after off xs off' n (l : list Z) :
  off + length xs <= off' -> off + length xs <= length l ->
  slice off' n (splice off xs l) = slice off' n l.
Proof.
  intros Ho Hl. destruct (cut_at off (length xs) l) as (A & B & C & -> & HA & HB); [lia|].
  rewrite (splice_app A B C xs) by lia. unfold slice. f_equal.
  rewrite !app_assoc, !(drop_app_ge (A ++ _)) by len. f_equal. len.
Qed.

Lemma slice_splice_same off xs (l : list Z) :
  off + length xs <= length l -> slice off (length xs) (splice off xs l) = xs.
Proof.
  intros Hl. destruct (cut_at off (length xs) l) as (A & B & C & -> & HA & HB); [lia|].
  rewrite (splice_app A B C xs) by lia. unfold slice.
  by rewrite drop_app_length', take_app_length' by done.
Qed.

Lemma slice_0 n (l : list Z) : slice 0 n l = take n l.
Proof. done. Qed.

Lemma take_splice_0 xs (l : list Z) : take (length xs) (splice 0 xs l) = xs.
Proof. apply (take_app_length xs). Qed.

Lemma take_splice_at off xs (l : list Z) :
  off <= length l -> take (off + length xs) (splice off xs l) = take off l ++ xs.
Proof. intros. unfold splice. rewrite app_assoc, take_app_length' by len. done. Qed.

Lemma slice_byte off n l : Forall is_byte l -> Forall is_byte (slice off n l).
Proof. intros. unfold slice. by apply Forall_take, Forall_drop. Qed.

Lemma splice_byte off xs l :
  Forall is_byte xs -> Forall is_byte l -> Forall is_byte (splice off xs l).
Proof. intros. unfold splice. auto using Forall_app_2, Forall_take, Forall_drop. Qed.

Lemma lxor_byte a b : is_byte a -> is_byte b -> is_byte (Z.lxor a b).
Proof.
  intros Ha Hb. unfold in_u in *. split; [rewrite Z.lxor_nonneg; lia|].
  destruct (decide (Z.lxor a b = 0%Z)) as [->|]; [done|].
  apply Z.log2_lt_pow2.
  { pose proof (proj2 (Z.lxor_nonneg a b)). lia. }
  eapply Z.le_lt_trans; [apply Z.log2_lxor; lia|].
  assert (forall x, 0 <= x < 2 ^ 8 -> Z.log2 x < 8)%Z as H.
  { intros x Hx. destruct (decide (x = 0%Z)) as [->|]; [done|]. apply Z.log2_lt_pow2; lia. }
  pose proof (H a Ha). pose proof (H b Hb). lia.
Qed.

#[export] Hint Resolve slice_byte splice_byte lxor_byte : ws.
#[export] Hint Rewrite length_splice using (autorewrite with ws; lia) : ws.

(** ** Splitting a byte stream into messages

    A decoder looks at the front of a buffer and reports a complete message
    and its length, or that more bytes are needed.  [deframe] is the split of
    a whole stream: the messages and the incomplete rest. *)
Class Decoder (A : Type) (dec : list Z -> option (A * nat)) : Prop := {
  dec_bound : forall d a n, Forall is_byte d -> dec d = Some (a, n) -> 0 < n <= length d;
  dec_extend : forall d e a n, Forall is_byte d -> dec d = Some (a, n) -> dec (d ++ e) = Some (a, n)
}.

Section Deframe.
Context {A : Type} (dec : list Z -> option (A * nat)) `{!Decoder A dec}.

Fixpoint deframe_loop (fuel : nat) (d : list Z) : list A * list Z :=
  match fuel with
  | 0 => ([], d)
  | S fuel =>
      match dec d with
      | Some (a, n) => let '(l, r) := deframe_loop fuel (drop n d) in (a :: l, r)
      | None => ([], d)
      end
  end.

Definition deframe (d : list Z) : list A * list Z := deframe_loop (length d) d.

Lemma deframe_loop_fuel f : forall f' d, Forall is_byte d ->
  length d <= f -> length d <= f' -> deframe_loop f d = deframe_loop f' d.
Proof.
  induction f as [|f IH]; intros [|f'] d Hb Hf Hf'; cbn [deframe_loop]; [done| | |].
  1,2: destruct (dec d) as [[a n]|] eqn:E; [|done]; apply dec_bound in E; [lia|done].
  destruct (dec d) as [[a n]|] eqn:E; [|done]. apply dec_bound in E; [|done].
  rewrite (IH f' (drop n d)); [done|by apply Forall_drop|len|len].
Qed.

Lemma deframe_none d : dec d = None -> deframe d = ([], d).
Proof. intros E. unfold deframe. destruct d; cbn; by rewrite ?E. Qed.

Lemma deframe_some d a n :
  Forall is_byte d -> dec d = Some (a, n) ->
  deframe d = (a :: (deframe (drop n d)).1, (deframe (drop n d)).2).
Proof.
  intros Hb E. pose proof (dec_bound d a n Hb E). unfold deframe at 1.
  destruct (length d) as [|f] eqn:Hf; [lia|]. cbn [deframe_loop]. rewrite E.
  rewrite (deframe_loop_fuel f (length (drop n d))) by (try apply Forall_drop; try done; len).
  fold (deframe (drop n d)). by destruct (deframe (drop n d)).
Qed.

(** Induction along the messages of a stream. *)
Lemma deframe_ind (P : list Z -> Prop) :
  (forall d, dec d = None -> P d) ->
  (forall d a n, Forall is_byte d -> dec d = Some (a, n) -> 0 < n <= length d ->
     P (drop n d) -> P d) ->
  forall d, Forall is_byte d -> P d.
Proof.
  intros H0 H1 d. remember (length d) as k eqn:Hk. revert d Hk.
  induction (Nat.lt_wf_0 k) as [k _ IH]. intros d -> Hb.
  destruct (dec d) as [[a n]|] eqn:E; [|by apply H0].
  pose proof (dec_bound d a n Hb E). apply (H1 d a n Hb E); [done|].
  eapply IH; [|done|by apply Forall_drop]. len.
Qed.

(** The rest is a suffix. *)
Lemma deframe_rest d :
  Forall is_byte d -> length (deframe d).2 <= length d /\
  (deframe d).2 = drop (length d - length (deframe d).2) d.
Proof.
  revert d. refine (deframe_ind _ _ _).
  - intros d E. rewrite (deframe_none d E). cbn. by rewrite Nat.sub_diag.
  - intros d a n Hb E Hn [IH1 IH2]. rewrite (deframe_some d a n) by done. cbn.
    rewrite length_drop in *. split; [lia|]. rewrite IH2 at 1. rewrite drop_drop. f_equal. lia.
Qed.

(** What arrives later is parsed behind what is left over. *)
Lemma deframe_app d e :
  Forall is_byte d -> Forall is_byte e ->
  deframe (d ++ e)
  = ((deframe d).1 ++ (deframe ((deframe d).2 ++ e)).1, (deframe ((deframe d).2 ++ e)).2).
Proof.
  intros Hd He. revert d Hd. refine (deframe_ind _ _ _).
  - intros d E. rewrite (deframe_none d E). cbn [fst snd app]. apply surjective_pairing.
  - intros d a n Hb E Hn IH.
    rewrite (deframe_some d a n), (deframe_some (d ++ e) a n) by
      (try apply Forall_app_2; try done; by apply dec_extend).
    rewrite drop_app_le, IH by lia. done.
Qed.

End Deframe.
