(* ===== verification/WebsocketProtocol.v ===== *)
(** * WebSocket frame headers

    [src/detail/websocket_protocol.cpp] and
    [include/ws-streaming/detail/websocket_protocol.hpp]: the constants,
    [generate_header] and [decode_header].  A buffer is the list of its bytes,
    so the C++ [(data, size)] pair is one list and [size] is its length.
    [rfc_header] is the frame header as RFC 6455 section 5.2 lays it out; it
    is the specification both functions are proved against. *)
From S2P Require Import Prelude.

(** ** Constants *)

Definition MAX_HEADER_SIZE : Z := 10.
Definition MAGIC_KEY : string := "258EAFA5-E914-47DA-95CA-C5AB0DC85B11".
Definition flags_FIN : Z := 0x80.
Definition opcode_TEXT : Z := 1.
Definition opcode_BINARY : Z := 2.
Definition opcode_CLOSE : Z := 8.
Definition opcode_PING : Z := 9.
Definition opcode_PONG : Z := 10.

(** ** Sending: [generate_header]

    [opcode], [flags] and [payload_size] are an [unsigned], an [unsigned] and a
    [std::size_t]; the result is the bytes written to [header], whose number is
    the value the C++ function returns. *)
Definition generate_header (opcode flags payload_size : Z) : list Z :=
  let b0 := u8 (Z.lor opcode flags) in
  if payload_size <=? 125 then [b0; u8 payload_size]
  else if payload_size <=? 65535 then
    [b0; 126; u8 (payload_size ≫ 8); u8 payload_size]
  else
    [b0; 127; u8 (payload_size ≫ 56); u8 (payload_size ≫ 48);
     u8 (payload_size ≫ 40); u8 (payload_size ≫ 32); u8 (payload_size ≫ 24);
     u8 (payload_size ≫ 16); u8 (payload_size ≫ 8); u8 payload_size].

(** ** Receiving: [decode_header] *)

Record decoded_header := mk_header {
  header_size : Z;
  flags : Z;
  opcode : Z;
  payload_size : Z;
  is_masked : bool;
  masking_key : list Z
}.

(** [decoded_header header { };] *)
Definition zero_header : decoded_header := mk_header 0 0 0 0 false [0; 0; 0; 0].

Definition set_header_size (n : Z) (h : decoded_header) : decoded_header :=
  mk_header n (flags h) (opcode h) (payload_size h) (is_masked h) (masking_key h).

Definition set_payload_size (n : Z) (h : decoded_header) : decoded_header :=
  mk_header (header_size h) (flags h) (opcode h) n (is_masked h) (masking_key h).

Definition set_masking_key (k : list Z) (h : decoded_header) : decoded_header :=
  mk_header (header_size h) (flags h) (opcode h) (payload_size h) (is_masked h) k.

(** The two fixed bytes. *)
Definition decode_fixed (data : list Z) : decoded_header :=
  {| header_size := 0;
     opcode := Z.land (byte_at data 0) 0xF;
     flags := Z.land (byte_at data 0) 0xF0;
     is_masked := negb (0 =? Z.land (byte_at data 1) 0x80);
     payload_size := Z.land (byte_at data 1) 0x7F;
     masking_key := [0; 0; 0; 0] |}.

(** The extended payload length: [None] is the early [return header], [Some]
    is the advanced [data] pointer. *)
Definition decode_extended (h : decoded_header) (data : list Z)
    : decoded_header * option (list Z) :=
  if payload_size h =? 126 then
    if size_of data <? 2 then (h, None)
    else (set_payload_size (Z.lor (byte_at data 0 ≪ 8) (byte_at data 1)) h,
          Some (drop 2 data))
  else if payload_size h =? 127 then
    if size_of data <? 8 then (h, None)
    else (set_payload_size
            (Z.lor (byte_at data 0 ≪ 56) (Z.lor (byte_at data 1 ≪ 48)
            (Z.lor (byte_at data 2 ≪ 40) (Z.lor (byte_at data 3 ≪ 32)
            (Z.lor (byte_at data 4 ≪ 24) (Z.lor (byte_at data 5 ≪ 16)
            (Z.lor (byte_at data 6 ≪ 8) (byte_at data 7)))))))) h,
          Some (drop 8 data))
  else (h, Some data).

(** The masking key. *)
Definition decode_masking_key (h : decoded_header) (data : list Z)
    : decoded_header * option (list Z) :=
  if is_masked h then
    if size_of data <? 4 then (h, None)
    else (set_masking_key (take 4 data) h, Some (drop 4 data))
  else (h, Some data).

Definition decode_header (data : list Z) : decoded_header :=
  if size_of data <? 2 then zero_header else
  match decode_extended (decode_fixed data) (drop 2 data) with
  | (h, None) => h
  | (h, Some rest) =>
      match decode_masking_key h rest with
      | (h, None) => h
      | (h, Some rest) =>
          if payload_size h <=? size_of rest
          then set_header_size (size_of data - size_of rest) h
          else h
      end
  end.

(** ** Specification *)

(** The header of RFC 6455 section 5.2 for a payload of [n] bytes, with an
    optional masking key. *)
Definition rfc_len7 (n : Z) : Z :=
  if n <=? 125 then n else if n <=? 65535 then 126 else 127.

Definition rfc_ext (n : Z) : list Z :=
  if n <=? 125 then [] else if n <=? 65535 then reverse (le_bytes 2 n)
  else reverse (le_bytes 8 n).

Definition rfc_mask_bit (key : option (list Z)) : Z :=
  if key is Some _ then 128 else 0.

Definition rfc_header (op fl n : Z) (key : option (list Z)) : list Z :=
  fl + op :: rfc_mask_bit key + rfc_len7 n :: rfc_ext n ++ value_or key [].

(** What a receiver must see of it. *)
Definition rfc_decoded (op fl n : Z) (key : option (list Z)) : decoded_header :=
  {| header_size := size_of (rfc_header op fl n key);
     flags := fl; opcode := op; payload_size := n;
     is_masked := if key is Some _ then true else false;
     masking_key := value_or key [0; 0; 0; 0] |}.

(** Field values a header can carry: a 4-bit opcode, flags in the high nibble. *)
Definition wf_fields (op fl n : Z) : Prop :=
  in_u 4 op /\ (exists f, in_u 4 f /\ fl = 16 * f) /\ in_u 64 n.

Definition wf_key (key : option (list Z)) : Prop :=
  if key is Some k then length k = 4%nat /\ Forall is_byte k else True.

(** ** Lemmas *)

Lemma reverse_le_bytes_2 n : reverse (le_bytes 2 n) = [u8 (n ≫ 8); u8 n].
Proof. unfold le_bytes. cbn. by rewrite Z.shiftr_0_r. Qed.

Lemma reverse_le_bytes_8 n :
  reverse (le_bytes 8 n) =
  [u8 (n ≫ 56); u8 (n ≫ 48); u8 (n ≫ 40); u8 (n ≫ 32);
   u8 (n ≫ 24); u8 (n ≫ 16); u8 (n ≫ 8); u8 n].
Proof. unfold le_bytes. cbn. by rewrite Z.shiftr_0_r. Qed.

Lemma fields_byte op fl n :
  wf_fields op fl n -> Z.lor op fl = fl + op /\ is_byte (fl + op).
Proof.
  intros (Ho & (f & Hf & ->) & _). unfold in_u in *.
  rewrite Z.lor_comm. replace (16 * f) with (f ≪ 4) at 1 by (rewrite Z.shiftl_mul_pow2; lia).
  rewrite lor_shiftl_add by lia. lia.
Qed.

Lemma generate_header_rfc op fl n :
  wf_fields op fl n -> generate_header op fl n = rfc_header op fl n None.
Proof.
  intros Hwf. destruct (fields_byte _ _ _ Hwf) as [Hor Hb]. destruct Hwf as (_ & _ & Hn).
  unfold generate_header, rfc_header, rfc_mask_bit, rfc_len7, rfc_ext. rewrite Hor, wrap_small by done.
  unfold in_u in *. repeat split_if; try lia.
  - by rewrite (wrap_small 8 n) by (unfold in_u; lia).
  - by rewrite reverse_le_bytes_2.
  - by rewrite reverse_le_bytes_8.
Qed.

(** Joining big-endian bytes gives the number back. *)
Lemma join_be_2 n :
  0 <= n < 2 ^ 16 -> Z.lor (u8 (n ≫ 8) ≪ 8) (u8 n) = n.
Proof.
  intros. change (u8 n) with (n mod 2 ^ 8).
  rewrite join_byte by lia. by apply Z.mod_small.
Qed.

Lemma join_be_8 n :
  in_u 64 n ->
  Z.lor (u8 (n ≫ 56) ≪ 56) (Z.lor (u8 (n ≫ 48) ≪ 48)
  (Z.lor (u8 (n ≫ 40) ≪ 40) (Z.lor (u8 (n ≫ 32) ≪ 32)
  (Z.lor (u8 (n ≫ 24) ≪ 24) (Z.lor (u8 (n ≫ 16) ≪ 16)
  (Z.lor (u8 (n ≫ 8) ≪ 8) (u8 n))))))) = n.
Proof.
  intros Hn. change (u8 n) with (n mod 2 ^ 8). unfold in_u in Hn.
  rewrite !join_byte by lia. by apply Z.mod_small.
Qed.

Lemma land_low4 op f : in_u 4 op -> Z.land (16 * f + op) 15 = op.
Proof.
  intros. change 15 with (2 ^ 4 - 1). rewrite land_ones_mod by lia.
  unfold in_u in *. Z.to_euclidean_division_equations; lia.
Qed.

Lemma land_high4 op f : in_u 4 op -> in_u 4 f -> Z.land (16 * f + op) 0xF0 = 16 * f.
Proof.
  intros Ho Hf. change 0xF0 with ((2 ^ 4 - 1) ≪ 4).
  replace (16 * f + op) with (Z.lor (f ≪ 4) op)
    by (rewrite lor_shiftl_add by (done || lia); lia).
  rewrite Z.land_lor_distr_l, <- Z.shiftl_land, land_ones_mod, Z.mod_small by (done || lia).
  replace (Z.land op ((2 ^ 4 - 1) ≪ 4)) with 0.
  { rewrite Z.lor_0_r, Z.shiftl_mul_pow2 by lia. lia. }
  symmetry. apply Z.bits_inj'. intros i Hi. rewrite Z.land_spec, Z.bits_0.
  unfold in_u in *. destruct (decide (i < 4)).
  - rewrite Z.shiftl_spec_low by lia. apply andb_false_r.
  - rewrite <- (Z.mod_small op (2 ^ 4)), Z.mod_pow2_bits_high by lia. done.
Qed.

Lemma masked_byte (m len7 : Z) :
  in_u 7 len7 -> m = 0 \/ m = 128 ->
  Z.land (m + len7) 0x7F = len7 /\ negb (0 =? Z.land (m + len7) 0x80) = bool_decide (m = 128).
Proof.
  intros Hl Hm. unfold in_u in *. split.
  - change 0x7F with (2 ^ 7 - 1). rewrite land_ones_mod by lia.
    Z.to_euclidean_division_equations; lia.
  - replace (Z.land (m + len7) 0x80) with m.
    { destruct Hm; subst; done. }
    replace (m + len7) with (Z.lor ((m / 128) ≪ 7) len7).
    2: { rewrite lor_shiftl_add by lia. destruct Hm; subst; reflexivity. }
    rewrite Z.land_lor_distr_l. change 0x80 with (1 ≪ 7). rewrite <- Z.shiftl_land.
    replace (Z.land len7 (1 ≪ 7)) with 0.
    { destruct Hm; subst; reflexivity. }
    symmetry. apply Z.bits_inj'. intros i Hi. rewrite Z.land_spec, Z.bits_0.
    destruct (decide (i < 7)).
    + rewrite Z.shiftl_spec_low by lia. apply andb_false_r.
    + rewrite <- (Z.mod_small len7 (2 ^ 7)), Z.mod_pow2_bits_high by lia. done.
Qed.

Lemma rfc_len7_range n : in_u 64 n -> in_u 7 (rfc_len7 n).
Proof. unfold rfc_len7, in_u. intros. repeat split_if; lia. Qed.

(** The payload length of a well-formed header is read back. *)
Lemma decode_extended_rfc (h : decoded_header) (n : Z) (rest : list Z) :
  in_u 64 n -> payload_size h = rfc_len7 n ->
  decode_extended h (rfc_ext n ++ rest) = (set_payload_size n h, Some rest).
Proof.
  intros Hn Hp. unfold decode_extended. rewrite Hp. unfold rfc_len7, rfc_ext.
  destruct (Z.leb_spec n 125); [|destruct (Z.leb_spec n 65535)].
  - unfold in_u in Hn. destruct (Z.eqb_spec n 126), (Z.eqb_spec n 127); try lia.
    destruct h; cbn in *. rewrite Hp. unfold rfc_len7.
    by destruct (Z.leb_spec n 125); [|lia].
  - rewrite reverse_le_bytes_2. cbn [Z.eqb Pos.eqb app].
    destruct (Z.ltb_spec (size_of (u8 (n ≫ 8) :: u8 n :: rest)) 2); [len|].
    unfold byte_at; cbn [nth drop]. by rewrite join_be_2 by lia.
  - rewrite reverse_le_bytes_8. cbn [Z.eqb Pos.eqb app].
    match goal with |- context [size_of ?l <? 8] =>
      destruct (Z.ltb_spec (size_of l) 8); [len|] end.
    unfold byte_at; cbn [nth drop]. by rewrite join_be_8.
Qed.

Lemma decode_masking_key_rfc (h : decoded_header) key rest :
  wf_key key -> is_masked h = (if key is Some _ then true else false) ->
  masking_key h = [0; 0; 0; 0] ->
  decode_masking_key h (value_or key [] ++ rest)
  = (set_masking_key (value_or key [0; 0; 0; 0]) h, Some rest).
Proof.
  intros Hk Hm Hz. unfold decode_masking_key. rewrite Hm. destruct key as [k|]; cbn [value_or app].
  - destruct Hk as [Hk _]. destruct (Z.ltb_spec (size_of (k ++ rest)) 4); [len|].
    by rewrite take_app_length', drop_app_length' by done.
  - destruct h; cbn in *. by subst.
Qed.

Lemma decode_fixed_rfc op f n key rest :
  in_u 4 op -> in_u 4 f -> in_u 64 n ->
  decode_fixed (16 * f + op :: rfc_mask_bit key + rfc_len7 n :: rest)
  = mk_header 0 (16 * f) op (rfc_len7 n) (if key is Some _ then true else false) [0; 0; 0; 0].
Proof.
  intros Hop Hf Hn. destruct (masked_byte (rfc_mask_bit key) (rfc_len7 n)) as [Hl Hm].
  { by apply rfc_len7_range. }
  { destruct key; cbn; auto. }
  unfold decode_fixed, byte_at; cbn [nth]. rewrite land_low4, land_high4, Hl, Hm by done.
  by destruct key.
Qed.

(** A complete frame decodes to exactly the fields it was built from,
    whatever follows it in the buffer. *)
Lemma decode_rfc_header op fl n key payload rest :
  wf_fields op fl n -> wf_key key -> size_of payload = n ->
  decode_header (rfc_header op fl n key ++ payload ++ rest) = rfc_decoded op fl n key.
Proof.
  intros (Hop & (f & Hf & ->) & Hn) Hkey Hlen. unfold decode_header.
  destruct (Z.ltb_spec (size_of (rfc_header op (16 * f) n key ++ payload ++ rest)) 2) as [Hs|_].
  { unfold rfc_header in Hs. len. }
  unfold rfc_header at 1 2. cbn [app drop]. rewrite decode_fixed_rfc by done.
  rewrite drop_0, <- app_assoc, decode_extended_rfc, decode_masking_key_rfc by done.
  cbn [payload_size set_masking_key set_payload_size].
  destruct (Z.leb_spec n (size_of (payload ++ rest))); [|len].
  unfold rfc_decoded, set_header_size; cbn [flags opcode payload_size is_masked masking_key
    set_masking_key set_payload_size].
  f_equal. len.
Qed.

(** Each decoding step keeps its result when more bytes follow. *)
Lemma frame_decode_extended_app h d h' r e :
  decode_extended h d = (h', Some r) -> decode_extended h (d ++ e) = (h', Some (r ++ e)).
Proof.
  unfold decode_extended. intros H.
  destruct (payload_size h =? 126); [|destruct (payload_size h =? 127)].
  - destruct (Z.ltb_spec (size_of d) 2); [done|]. simplify_eq.
    destruct (Z.ltb_spec (size_of (d ++ e)) 2); [len|].
    rewrite !byte_at_app_l by len. by rewrite drop_app_le by len.
  - destruct (Z.ltb_spec (size_of d) 8); [done|]. simplify_eq.
    destruct (Z.ltb_spec (size_of (d ++ e)) 8); [len|].
    rewrite !byte_at_app_l by len. by rewrite drop_app_le by len.
  - by simplify_eq.
Qed.

Lemma decode_masking_key_app h d h' r e :
  decode_masking_key h d = (h', Some r) -> decode_masking_key h (d ++ e) = (h', Some (r ++ e)).
Proof.
  unfold decode_masking_key. intros H. destruct (is_masked h); [|by simplify_eq].
  destruct (Z.ltb_spec (size_of d) 4); [done|]. simplify_eq.
  destruct (Z.ltb_spec (size_of (d ++ e)) 4); [len|].
  by rewrite take_app_le, drop_app_le by len.
Qed.

(** What each step consumes, and what it leaves of the fields. *)
Lemma decode_extended_size h d h' r :
  decode_extended h d = (h', Some r) ->
  size_of d - 8 <= size_of r <= size_of d /\ header_size h' = header_size h.
Proof.
  unfold decode_extended. intros. repeat case_match; simplify_eq; cbn; len.
Qed.

Lemma decode_masking_key_size h d h' r :
  decode_masking_key h d = (h', Some r) ->
  size_of d - 4 <= size_of r <= size_of d /\ header_size h' = header_size h /\
  payload_size h' = payload_size h.
Proof.
  unfold decode_masking_key. intros. repeat case_match; simplify_eq; cbn; len.
Qed.

Lemma decode_extended_none h d h' :
  decode_extended h d = (h', None) -> h' = h.
Proof. unfold decode_extended. intros. repeat case_match; by simplify_eq. Qed.

Lemma decode_masking_key_none h d h' :
  decode_masking_key h d = (h', None) -> h' = h.
Proof. unfold decode_masking_key. intros. repeat case_match; by simplify_eq. Qed.

(** The shape of a successful decoding: the two optional parts were present
    and the payload is complete. *)
Lemma decode_header_inv d :
  header_size (decode_header d) <> 0 ->
  2 <= size_of d /\
  exists h1 r1 h2 r2,
    decode_extended (decode_fixed d) (drop 2 d) = (h1, Some r1) /\
    decode_masking_key h1 r1 = (h2, Some r2) /\
    payload_size h2 <= size_of r2 /\
    decode_header d = set_header_size (size_of d - size_of r2) h2.
Proof.
  unfold decode_header. destruct (Z.ltb_spec (size_of d) 2); [done|]. intros Hh.
  split; [done|].
  destruct (decode_extended _ _) as [h1 [r1|]] eqn:E1.
  2: { by apply decode_extended_none in E1 as ->. }
  destruct (decode_masking_key _ _) as [h2 [r2|]] eqn:E2.
  2: { apply decode_masking_key_none in E2 as ->.
       apply decode_extended_size in E1 as [_ E1]. by rewrite E1 in Hh. }
  destruct (Z.leb_spec (payload_size h2) (size_of r2)); [by eauto 10|].
  apply decode_extended_size in E1 as [_ E1].
  apply decode_masking_key_size in E2 as (_ & E2 & _). rewrite E2, E1 in Hh. done.
Qed.

(** A frame reported complete stays complete, with the same fields, when more
    data has arrived behind it. *)
Lemma frame_decode_header_extend d e :
  header_size (decode_header d) <> 0 -> decode_header (d ++ e) = decode_header d.
Proof.
  intros (Hd & h1 & r1 & h2 & r2 & E1 & E2 & Hp & ->)%decode_header_inv.
  unfold decode_header. destruct (Z.ltb_spec (size_of (d ++ e)) 2); [len|].
  assert (Hfix : decode_fixed (d ++ e) = decode_fixed d).
  { unfold decode_fixed. by rewrite !byte_at_app_l by len. }
  rewrite Hfix, drop_app_le by len.
  rewrite (frame_decode_extended_app _ _ _ _ e E1), (decode_masking_key_app _ _ _ _ e E2).
  destruct (Z.leb_spec (payload_size h2) (size_of (r2 ++ e))); [|len].
  f_equal. len.
Qed.

Lemma frame_decode_header_bounds d :
  header_size (decode_header d) <> 0 ->
  2 <= header_size (decode_header d) <= 14 /\
  header_size (decode_header d) + payload_size (decode_header d) <= size_of d.
Proof.
  intros (Hd & h1 & r1 & h2 & r2 & E1 & E2 & Hp & ->)%decode_header_inv. cbn.
  apply decode_extended_size in E1 as [E1 _].
  apply decode_masking_key_size in E2 as (E2 & _ & E2'). len.
Qed.

Lemma frame_decode_payload_nonneg d :
  Forall is_byte d -> 0 <= payload_size (decode_header d).
Proof.
  intros Hd. pose proof (fun i => byte_at_byte d i Hd) as Hb.
  pose proof (fun i => byte_at_byte (drop 2 d) i ltac:(by apply Forall_drop)) as Hb'.
  assert (H0 : 0 <= payload_size (decode_fixed d)).
  { cbn. apply Z.land_nonneg. by right. }
  assert (H1 : 0 <= payload_size (decode_extended (decode_fixed d) (drop 2 d)).1).
  { unfold decode_extended. repeat case_match; try done; cbn [fst set_payload_size payload_size];
      repeat (apply Z.lor_nonneg; split); try apply Z.shiftl_nonneg; apply Hb'. }
  unfold decode_header. destruct (size_of d <? 2); [done|].
  destruct (decode_extended _ _) as [h [r|]]; [|done]. cbn [fst] in H1.
  destruct (decode_masking_key h r) as [h' [r'|]] eqn:E.
  - apply decode_masking_key_size in E as (_ & _ & E). destruct (payload_size h' <=? size_of r'); cbn; lia.
  - by apply decode_masking_key_none in E as ->.
Qed.

Lemma decode_header_masking_key d :
  Forall is_byte d -> Forall is_byte (masking_key (decode_header d)).
Proof.
  intros Hd. assert (Hz : Forall is_byte [0; 0; 0; 0]) by (repeat constructor; by vm_compute).
  unfold decode_header. destruct (size_of d <? 2); [done|].
  destruct (decode_extended _ _) as [h r] eqn:E.
  assert (Hh : masking_key h = [0; 0; 0; 0] /\ Forall is_byte (value_or r [])).
  { unfold decode_extended in E. repeat case_match; simplify_eq; cbn; auto using Forall_drop. }
  destruct Hh as [Hh Hr], r as [r|]; [|by rewrite Hh]. cbn in Hr.
  destruct (decode_masking_key h r) as [h' r'] eqn:E'.
  assert (Forall is_byte (masking_key h')).
  { unfold decode_masking_key in E'. repeat case_match; simplify_eq; cbn; rewrite ?Hh;
      auto using Forall_take. }
  repeat case_match; done.
Qed.

(** ** Properties *)

(** A frame header written by [generate_header], followed by its payload
    and by anything else, decodes to the opcode, flags and payload size it was
    generated from, unmasked, with [header_size] the number of header bytes,
    at most [MAX_HEADER_SIZE]. *)
Theorem frame_generate_decode_roundtrip op fl payload rest :
  wf_fields op fl (size_of payload) ->
  decode_header (generate_header op fl (size_of payload) ++ payload ++ rest)
  = {| header_size := size_of (generate_header op fl (size_of payload));
       flags := fl; opcode := op; payload_size := size_of payload;
       is_masked := false; masking_key := [0; 0; 0; 0] |}
  /\ size_of (generate_header op fl (size_of payload)) <= MAX_HEADER_SIZE.
Proof.
  intros Hwf. split.
  - rewrite generate_header_rfc by done. by rewrite decode_rfc_header.
  - unfold generate_header, size_of. repeat split_if; done.
Qed.

Lemma frame_generate_decode_roundtrip_witness :
  decode_header (generate_header opcode_BINARY flags_FIN 300 ++ replicate 300 7 ++ [1; 2])
  = mk_header 4 128 2 300 false [0; 0; 0; 0] /\ 4 <= MAX_HEADER_SIZE.
Proof.
  apply (frame_generate_decode_roundtrip opcode_BINARY flags_FIN (replicate 300 7) [1; 2]).
  split; [by vm_compute|]. split; [exists 8; by vm_compute|by vm_compute].
Defined.

(** C35: a frame laid out as RFC 6455 section 5.2 prescribes, masked or not,
    with any payload length below 2^64, decodes to its own fields and masking
    key. *)
Theorem decode_rfc_frame op fl n key payload rest :
  wf_fields op fl n -> wf_key key -> size_of payload = n ->
  decode_header (rfc_header op fl n key ++ payload ++ rest) = rfc_decoded op fl n key.
Proof. apply decode_rfc_header. Qed.

Lemma decode_rfc_frame_witness :
  decode_header (rfc_header opcode_PING flags_FIN 3 (Some [1; 2; 3; 4]) ++ [9; 8; 7] ++ [])
  = mk_header 6 128 9 3 true [1; 2; 3; 4].
Proof.
  apply (decode_rfc_frame opcode_PING flags_FIN 3 (Some [1; 2; 3; 4]) [9; 8; 7] []).
  - split; [by vm_compute|]. split; [exists 8; by vm_compute|by vm_compute].
  - split; [done|]. repeat constructor; by vm_compute.
  - done.
Defined.

(** Frame boundaries are unambiguous: once a buffer is reported to start
    with a complete frame (a nonzero [header_size]), that verdict and every
    field survive the arrival of more data, the frame lies inside the buffer,
    and every buffer that stops short of the frame's end is reported
    truncated. *)
Theorem frame_decode_header_boundary d :
  header_size (decode_header d) <> 0 ->
  (forall e, decode_header (d ++ e) = decode_header d) /\
  header_size (decode_header d) + payload_size (decode_header d) <= size_of d /\
  (forall p, p `prefix_of` d ->
     size_of p < header_size (decode_header d) + payload_size (decode_header d) ->
     header_size (decode_header p) = 0).
Proof.
  intros Hd. split; [|split].
  - intros e. by apply frame_decode_header_extend.
  - by apply frame_decode_header_bounds.
  - intros p [e ->] Hlt. destruct (decide (header_size (decode_header p) = 0)) as [|Hp]; [done|].
    pose proof (frame_decode_header_bounds p Hp) as [_ Hb].
    rewrite (frame_decode_header_extend p e Hp) in Hlt. lia.
Qed.

Lemma frame_decode_header_boundary_witness :
  header_size (decode_header [0x82; 2; 5]) = 0.
Proof.
  destruct (frame_decode_header_boundary [0x82; 2; 5; 6]) as (_ & _ & H); [by vm_compute|].
  apply H; [by exists [6]|by vm_compute].
Defined.
