(* ===== verification/StreamingProtocol.v ===== *)
(** * Streaming-protocol packet headers

    [src/detail/streaming_protocol.cpp] and
    [include/ws-streaming/detail/streaming_protocol.hpp].  The header is one
    little-endian 32-bit word, signal number in bits 0..19, payload size in
    bits 20..27, packet type in bits 28..31, and a second size word when the
    inline size field is zero. *)
From S2P Require Import Prelude.

(** ** Constants *)

Definition DEFAULT_TCP_PORT : Z := 7411.
Definition DEFAULT_WEBSOCKET_PORT : Z := 7414.
Definition DEFAULT_SECURE_WEBSOCKET_PORT : Z := 7415.
Definition DEFAULT_COMMAND_INTERFACE_PORT : Z := 7438.
Definition MAX_HEADER_SIZE : Z := 8.
Definition packet_type_DATA : Z := 1.
Definition packet_type_METADATA : Z := 2.
Definition metadata_encoding_JSON : Z := 1.
Definition metadata_encoding_MSGPACK : Z := 2.

(** [struct linear_payload]: two little-endian 64-bit integers. *)
Record linear_payload := { sample_index : Z; value : Z }.

Definition linear_payload_size : Z := 16.

(** ** Sending *)

(** [std::runtime_error] of [generate_header]. *)
Inductive packet_error : Type := packet_too_large.

(** [unsigned] arithmetic is modulo 2^32; [payload_size] is a [std::size_t]. *)
Definition generate_header (signo type payload_size : Z) : result packet_error (list Z) :=
  if payload_size <? 256 then
    Ok (le_bytes 4 (Z.lor (Z.lor signo (u32 (u32 payload_size ≪ 20))) (u32 (type ≪ 28))))
  else if payload_size <=? 2 ^ 32 - 1 then
    Ok (le_bytes 4 (Z.lor signo (u32 (type ≪ 28))) ++ le_bytes 4 (u32 payload_size))
  else Throw packet_too_large.

(** ** Receiving *)

Record decoded_header := mk_header {
  header_size : Z;
  signo : Z;
  type : Z;
  payload_size : Z
}.

Definition zero_header : decoded_header := mk_header 0 0 0 0.

(** The three fields of the first word. *)
Definition decode_type (data : list Z) : Z := byte_at data 3 ≫ 4.

Definition decode_signo (data : list Z) : Z :=
  Z.lor (Z.lor (Z.land (byte_at data 2) 0xF ≪ 16) (byte_at data 1 ≪ 8)) (byte_at data 0).

Definition decode_inline_size (data : list Z) : Z :=
  Z.lor (Z.land (byte_at data 3) 0xF ≪ 4) (byte_at data 2 ≫ 4).

(** The second size word is assembled in [int] arithmetic (the bytes are
    promoted to [int]) and then converted to [std::size_t]: bit 31 of the word
    is the sign bit, and the conversion extends it. *)
Definition decode_extended_size (data : list Z) : Z :=
  u64 (s32 (Z.lor (Z.lor (Z.lor (byte_at data 3 ≪ 24) (byte_at data 2 ≪ 16))
                         (byte_at data 1 ≪ 8)) (byte_at data 0))).

Definition decode_header (data : list Z) : decoded_header :=
  if size_of data <? 4 then zero_header else
  let header := mk_header 0 (decode_signo data) (decode_type data) (decode_inline_size data) in
  let finish (ps : Z) (rest : list Z) :=
    if ps <=? size_of rest
    then mk_header (size_of data - size_of rest) (signo header) (type header) ps
    else mk_header 0 (signo header) (type header) ps in
  let rest := drop 4 data in
  if payload_size header =? 0 then
    if size_of rest <? 4 then header
    else finish (decode_extended_size rest) (drop 4 rest)
  else finish (payload_size header) rest.

(** ** Lemmas *)

(** The first word as a number: the three fields are disjoint. *)
Lemma header_word signo type size :
  in_u 20 signo -> in_u 4 type -> in_u 8 size ->
  Z.lor (Z.lor signo (u32 (u32 size ≪ 20))) (u32 (type ≪ 28))
  = signo + size * 2 ^ 20 + type * 2 ^ 28.
Proof.
  intros Hs Ht Hz. unfold in_u in *.
  rewrite (wrap_small 32 size) by (unfold in_u; lia).
  rewrite (wrap_small 32 (size ≪ 20)) by (rewrite Z.shiftl_mul_pow2 by lia; unfold in_u; lia).
  rewrite (wrap_small 32 (type ≪ 28)) by (rewrite Z.shiftl_mul_pow2 by lia; unfold in_u; lia).
  rewrite (lor_add_shiftl size signo) by lia. rewrite lor_add_shiftl by lia. lia.
Qed.

Lemma le_bytes_4 w :
  le_bytes 4 w = [u8 w; u8 (w ≫ 8); u8 (w ≫ 16); u8 (w ≫ 24)].
Proof. unfold le_bytes. cbn. by rewrite Z.shiftr_0_r. Qed.

Lemma byte_at_le_bytes_4 w rest :
  byte_at (le_bytes 4 w ++ rest) 0 = u8 w /\
  byte_at (le_bytes 4 w ++ rest) 1 = u8 (w ≫ 8) /\
  byte_at (le_bytes 4 w ++ rest) 2 = u8 (w ≫ 16) /\
  byte_at (le_bytes 4 w ++ rest) 3 = u8 (w ≫ 24).
Proof. by rewrite le_bytes_4. Qed.

(** Reading the three fields of a word back from its four bytes. *)
Lemma header_fields signo type size w :
  in_u 20 signo -> in_u 4 type -> in_u 8 size ->
  w = signo + size * 2 ^ 20 + type * 2 ^ 28 ->
  u8 (w ≫ 24) ≫ 4 = type /\
  Z.lor (Z.lor (Z.land (u8 (w ≫ 16)) 0xF ≪ 16) (u8 (w ≫ 8) ≪ 8)) (u8 w) = signo /\
  Z.lor (Z.land (u8 (w ≫ 24)) 0xF ≪ 4) (u8 (w ≫ 16) ≫ 4) = size.
Proof.
  intros Hs Ht Hz Hw. change 0xF with (2 ^ 4 - 1). rewrite !land_ones_mod by lia.
  rewrite !Z.shiftr_div_pow2 by lia. unfold wrap, in_u in *.
  split; [subst w; Z.to_euclidean_division_equations; lia|split].
  - rewrite <- Z.lor_assoc. rewrite (lor_shiftl_add _ (w mod 2 ^ 8) 8) by (try apply Z.mod_pos_bound; lia).
    rewrite lor_shiftl_add by (lia || (Z.to_euclidean_division_equations; lia)).
    subst w; Z.to_euclidean_division_equations; lia.
  - rewrite lor_shiftl_add by (lia || (Z.to_euclidean_division_equations; lia)).
    subst w; Z.to_euclidean_division_equations; lia.
Qed.

Lemma size_word n :
  in_u 32 n ->
  Z.lor (Z.lor (Z.lor (u8 (n ≫ 24) ≪ 24) (u8 (n ≫ 16) ≪ 16)) (u8 (n ≫ 8) ≪ 8)) (u8 n) = n.
Proof.
  intros Hn. rewrite <- !Z.lor_assoc. change (u8 n) with (n mod 2 ^ 8). unfold in_u in Hn.
  rewrite !join_byte by lia. by apply Z.mod_small.
Qed.

Lemma decode_fields signo type size rest :
  in_u 20 signo -> in_u 4 type -> in_u 8 size ->
  let d := le_bytes 4 (signo + size * 2 ^ 20 + type * 2 ^ 28) ++ rest in
  decode_signo d = signo /\ decode_type d = type /\ decode_inline_size d = size.
Proof.
  intros Hs Ht Hz d. destruct (header_fields signo type size _ Hs Ht Hz eq_refl) as (? & ? & ?).
  unfold d, decode_signo, decode_type, decode_inline_size.
  by destruct (byte_at_le_bytes_4 (signo + size * 2 ^ 20 + type * 2 ^ 28) rest)
    as (-> & -> & -> & ->).
Qed.

(** [decode_header] on a buffer that starts with an encoded word. *)
Lemma decode_word signo type size rest :
  in_u 20 signo -> in_u 4 type -> in_u 8 size ->
  decode_header (le_bytes 4 (signo + size * 2 ^ 20 + type * 2 ^ 28) ++ rest)
  = if size =? 0 then
      if size_of rest <? 4 then mk_header 0 signo type size
      else
        let ps := decode_extended_size rest in
        if ps <=? size_of rest - 4 then mk_header 8 signo type ps
        else mk_header 0 signo type ps
    else if size <=? size_of rest then mk_header 4 signo type size
    else mk_header 0 signo type size.
Proof.
  intros Hs Ht Hz. destruct (decode_fields signo type size rest Hs Ht Hz) as (Esn & Ety & Esz).
  unfold decode_header. rewrite Esn, Ety, Esz, drop_le_bytes. cbn.
  destruct (Z.ltb_spec (size_of (le_bytes 4 (signo + size * 2 ^ 20 + type * 2 ^ 28) ++ rest)) 4);
    [len|]. destruct (size =? 0).
  - split_if; [done|]. replace (size_of (drop 4 rest)) with (size_of rest - 4) by len.
    split_if; [|done]. f_equal. len.
  - split_if; [|done]. f_equal. len.
Qed.

(** The extended size word: a 32-bit number whose top bit is the sign. *)
Lemma decode_word_extended signo type n rest :
  in_u 20 signo -> in_u 4 type -> in_u 32 n ->
  decode_header (le_bytes 4 (signo + type * 2 ^ 28) ++ le_bytes 4 n ++ rest)
  = if u64 (s32 n) <=? size_of rest then mk_header 8 signo type (u64 (s32 n))
    else mk_header 0 signo type (u64 (s32 n)).
Proof.
  intros Hs Ht Hn. replace (signo + type * 2 ^ 28) with (signo + 0 * 2 ^ 20 + type * 2 ^ 28) by lia.
  rewrite decode_word by (done || (unfold in_u; lia)). cbn [Z.eqb].
  split_if; [len|]. unfold decode_extended_size.
  destruct (byte_at_le_bytes_4 n rest) as (-> & -> & -> & ->).
  rewrite size_word by done. cbv zeta.
  by replace (size_of (le_bytes 4 n ++ rest) - 4) with (size_of rest) by len.
Qed.

Lemma u64_s32_small n : 0 <= n < 2 ^ 31 -> u64 (s32 n) = n.
Proof. intros. rewrite swrap_small by (unfold in_s; lia). apply wrap_small. unfold in_u; lia. Qed.

Lemma u64_s32_large n : 2 ^ 31 <= n < 2 ^ 32 -> u64 (s32 n) = n + (2 ^ 64 - 2 ^ 32).
Proof.
  intros. unfold swrap, wrap.
  replace ((n + 2 ^ (32 - 1)) mod 2 ^ 32) with (n - 2 ^ 31).
  - replace (n - 2 ^ 31 - 2 ^ (32 - 1)) with (n - 2 ^ 32) by lia.
    symmetry. apply Z.mod_unique with (-1); lia.
  - apply Z.mod_unique with 1; lia.
Qed.

(** What [generate_header] writes. *)
Lemma generate_header_small signo type n :
  in_u 20 signo -> in_u 4 type -> 0 <= n < 256 ->
  generate_header signo type n = Ok (le_bytes 4 (signo + n * 2 ^ 20 + type * 2 ^ 28)).
Proof.
  intros. unfold generate_header. destruct (Z.ltb_spec n 256); [|lia].
  by rewrite header_word by (done || (unfold in_u; lia)).
Qed.

Lemma generate_header_large signo type n :
  in_u 20 signo -> in_u 4 type -> 256 <= n < 2 ^ 32 ->
  generate_header signo type n = Ok (le_bytes 4 (signo + type * 2 ^ 28) ++ le_bytes 4 n).
Proof.
  intros Hs Ht Hn. unfold generate_header.
  destruct (Z.ltb_spec n 256); [lia|]. destruct (Z.leb_spec n (2 ^ 32 - 1)); [|lia].
  rewrite (wrap_small 32 n) by (unfold in_u; lia).
  pose proof (header_word signo type 0 Hs Ht ltac:(unfold in_u; lia)) as Hw.
  change (u32 (u32 0 ≪ 20)) with 0 in Hw. rewrite Z.lor_0_r in Hw. rewrite Hw.
  do 3 f_equal. lia.
Qed.

(** ** Stability of a decoded packet under more data *)

Lemma decode_signo_app d e : (4 <= length d)%nat -> decode_signo (d ++ e) = decode_signo d.
Proof. intros. unfold decode_signo. by rewrite !byte_at_app_l by lia. Qed.

Lemma decode_type_app d e : (4 <= length d)%nat -> decode_type (d ++ e) = decode_type d.
Proof. intros. unfold decode_type. by rewrite !byte_at_app_l by lia. Qed.

Lemma decode_inline_app d e :
  (4 <= length d)%nat -> decode_inline_size (d ++ e) = decode_inline_size d.
Proof. intros. unfold decode_inline_size. by rewrite !byte_at_app_l by lia. Qed.

Lemma decode_extended_app d e :
  (4 <= length d)%nat -> decode_extended_size (d ++ e) = decode_extended_size d.
Proof. intros. unfold decode_extended_size. by rewrite !byte_at_app_l by lia. Qed.

Lemma packet_decode_header_extend d e :
  header_size (decode_header d) <> 0 -> decode_header (d ++ e) = decode_header d.
Proof.
  unfold decode_header. intros Hd.
  destruct (Z.ltb_spec (size_of d) 4); [done|].
  destruct (Z.ltb_spec (size_of (d ++ e)) 4); [len|].
  rewrite decode_signo_app, decode_type_app, decode_inline_app by len.
  rewrite (drop_app_le d e) by len. cbn [payload_size signo type] in *.
  destruct (decode_inline_size d =? 0).
  - destruct (Z.ltb_spec (size_of (drop 4 d)) 4); [done|].
    destruct (Z.ltb_spec (size_of (drop 4 d ++ e)) 4); [len|].
    rewrite decode_extended_app, (drop_app_le (drop 4 d) e) by len.
    destruct (Z.leb_spec (decode_extended_size (drop 4 d)) (size_of (drop 4 (drop 4 d)))); [|done].
    split_if; [|len]. f_equal. len.
  - destruct (Z.leb_spec (decode_inline_size d) (size_of (drop 4 d))); [|done].
    split_if; [|len]. f_equal. len.
Qed.

Lemma packet_decode_header_bounds d :
  header_size (decode_header d) <> 0 ->
  4 <= header_size (decode_header d) <= 8 /\
  header_size (decode_header d) + payload_size (decode_header d) <= size_of d.
Proof.
  unfold decode_header. cbv zeta. cbn [payload_size signo type]. intros Hd.
  repeat case_match; cbn [header_size payload_size zero_header] in *; len.
Qed.

Lemma packet_decode_payload_nonneg d : Forall is_byte d -> 0 <= payload_size (decode_header d).
Proof.
  intros Hd. assert (0 <= decode_inline_size d).
  { pose proof (byte_at_byte d 3 Hd) as [? _]. pose proof (byte_at_byte d 2 Hd) as [? _].
    apply Z.lor_nonneg. split; [apply Z.shiftl_nonneg, Z.land_nonneg; by left|].
    by apply Z.shiftr_nonneg. }
  unfold decode_header. cbv zeta. cbn [payload_size signo type].
  repeat case_match; cbn [payload_size zero_header]; try done; apply wrap_range; lia.
Qed.

Lemma decode_generated signo type payload rest h :
  in_u 20 signo -> in_u 4 type -> 1 <= size_of payload < 2 ^ 31 ->
  generate_header signo type (size_of payload) = Ok h ->
  decode_header (h ++ payload ++ rest) = mk_header (size_of h) signo type (size_of payload)
  /\ size_of h <= MAX_HEADER_SIZE.
Proof.
  intros Hs Ht Hn Hg. destruct (decide (size_of payload < 256)).
  - rewrite generate_header_small in Hg by (done || lia). apply Ok_inj in Hg as <-.
    rewrite decode_word by (done || (unfold in_u; lia)). unfold MAX_HEADER_SIZE.
    destruct (Z.eqb_spec (size_of payload) 0); [lia|].
    destruct (Z.leb_spec (size_of payload) (size_of (payload ++ rest))); [|len].
    split; [f_equal|]; len.
  - rewrite generate_header_large in Hg by (done || lia). apply Ok_inj in Hg as <-.
    rewrite <- app_assoc, decode_word_extended by (done || (unfold in_u; lia)).
    rewrite u64_s32_small by lia. unfold MAX_HEADER_SIZE.
    destruct (Z.leb_spec (size_of payload) (size_of (payload ++ rest))); [|len].
    split; [f_equal|]; len.
Qed.

(** [generate_header] succeeds on every payload of less than 2^32 bytes. *)
Lemma generate_header_ok signo type n :
  0 <= n < 2 ^ 32 -> exists h, generate_header signo type n = Ok h /\ Forall is_byte h.
Proof.
  intros Hn. unfold generate_header. repeat split_if; [..|lia];
    (eexists; split; [done|]); try apply Forall_app_2; apply le_bytes_byte.
Qed.

(** ** Properties *)

(** C36: a packet header written by [generate_header] for a nonempty payload of
    less than 2^31 bytes decodes, in front of that payload, to the same signal
    number, packet type and payload size, and [header_size] is its length. *)
Theorem packet_generate_decode_roundtrip signo type payload rest h :
  in_u 20 signo -> in_u 4 type -> 1 <= size_of payload < 2 ^ 31 ->
  generate_header signo type (size_of payload) = Ok h ->
  decode_header (h ++ payload ++ rest) = mk_header (size_of h) signo type (size_of payload)
  /\ size_of h <= MAX_HEADER_SIZE.
Proof. apply decode_generated. Qed.

Lemma packet_generate_decode_roundtrip_witness :
  decode_header ([7; 0; 0; 16; 32; 3; 0; 0] ++ replicate 800 1 ++ [5])
  = mk_header 8 7 1 800 /\ 8 <= MAX_HEADER_SIZE.
Proof.
  apply (packet_generate_decode_roundtrip 7 packet_type_DATA (replicate 800 1) [5]);
    [by vm_compute|by vm_compute|split; by vm_compute|by vm_compute].
Defined.

(** An empty packet is not self-delimiting: [generate_header] leaves the
    inline size field zero and writes no second word, but the decoder reads a
    zero field as the announcement of a second word, so the packet alone is
    reported truncated, and in a byte stream the next four bytes [n] are taken
    for its payload size. *)
Theorem empty_packet_desync signo type n rest :
  in_u 20 signo -> in_u 4 type -> 0 <= n < 2 ^ 31 ->
  exists h, generate_header signo type 0 = Ok h /\ size_of h = 4 /\
    header_size (decode_header h) = 0 /\
    payload_size (decode_header (h ++ le_bytes 4 n ++ rest)) = n.
Proof.
  intros Hs Ht Hn. eexists. rewrite generate_header_small by (done || lia).
  split; [done|]. split; [len|]. split.
  - rewrite <- (app_nil_r (le_bytes 4 _)), decode_word by (done || (unfold in_u; lia)). done.
  - replace (signo + 0 * 2 ^ 20 + type * 2 ^ 28) with (signo + type * 2 ^ 28) by lia.
    rewrite decode_word_extended by (done || (unfold in_u; lia)).
    rewrite u64_s32_small by lia. by split_if.
Qed.

Lemma empty_packet_desync_witness :
  exists h, generate_header 1 packet_type_DATA 0 = Ok h /\ size_of h = 4 /\
    header_size (decode_header h) = 0 /\
    payload_size (decode_header (h ++ le_bytes 4 77 ++ [0])) = 77.
Proof. apply (empty_packet_desync 1 packet_type_DATA 77 [0]); [by vm_compute..|lia]. Defined.

(** A packet whose payload has 2^31 bytes or more, which [generate_header]
    accepts, is never recognised as complete by [decode_header]: the size word
    is read as a negative [int]. *)
Theorem huge_packet_undecodable signo type n payload :
  in_u 20 signo -> in_u 4 type -> 2 ^ 31 <= n < 2 ^ 32 -> size_of payload < 2 ^ 63 ->
  exists h, generate_header signo type n = Ok h /\
    header_size (decode_header (h ++ payload)) = 0.
Proof.
  intros Hs Ht Hn Hp. eexists. rewrite generate_header_large by (done || lia).
  split; [done|]. rewrite <- app_assoc, decode_word_extended by (done || (unfold in_u; lia)).
  rewrite u64_s32_large by lia. split_if; [lia|done].
Qed.

Lemma huge_packet_undecodable_witness :
  exists h, generate_header 1 packet_type_DATA (2 ^ 31) = Ok h /\
    header_size (decode_header (h ++ [1; 2; 3])) = 0.
Proof. apply huge_packet_undecodable; [by vm_compute..|lia|by vm_compute]. Defined.

(** Packet boundaries are unambiguous: a packet reported complete stays
    so, with the same fields, when more data follows, lies inside the buffer,
    and is reported truncated in every shorter buffer. *)
Theorem packet_decode_header_boundary d :
  header_size (decode_header d) <> 0 ->
  (forall e, decode_header (d ++ e) = decode_header d) /\
  header_size (decode_header d) + payload_size (decode_header d) <= size_of d /\
  (forall p, p `prefix_of` d ->
     size_of p < header_size (decode_header d) + payload_size (decode_header d) ->
     header_size (decode_header p) = 0).
Proof.
  intros Hd. split; [intros e; by apply packet_decode_header_extend|].
  split; [by apply packet_decode_header_bounds|]. intros p [e ->] Hlt.
  destruct (decide (header_size (decode_header p) = 0)) as [|Hp]; [done|].
  pose proof (packet_decode_header_bounds p Hp) as [_ Hb].
  rewrite (packet_decode_header_extend p e Hp) in Hlt. lia.
Qed.

Lemma packet_decode_header_boundary_witness :
  header_size (decode_header [7; 0; 32; 16; 9]) = 0.
Proof.
  destruct (packet_decode_header_boundary [7; 0; 32; 16; 9; 9]) as (_ & _ & H); [by vm_compute|].
  apply H; [by exists [9]|by vm_compute].
Defined.
