(* ===== verification/DynamicBuffer.v ===== *)
(** * The transmit buffer

    [src/detail/dynamic_buffer.cpp] and
    [include/ws-streaming/detail/dynamic_buffer.hpp].  The deque of blocks is a
    list of byte lists; an Asio buffer descriptor into it is a block index, an
    offset and a length.  Sizes are [nat]: no sum the code forms exceeds the
    memory it has allocated.  The loops carry fuel and return [None] when it
    runs out; [write], [consume] and [data] are proved never to.

    The contract ([fifo]): the buffer is a byte queue.  [write] appends the
    longest prefix that fits, [consume] drops from the front, [data] shows a
    prefix of the queue. *)
From S2P Require Import Prelude.
#[local] Open Scope nat_scope.

(** ** State *)

Record dynamic_buffer := mk_buffer {
  blocks : list (list Z);
  block_size : nat;
  max_blocks : nat;
  used : nat;
  read_offset : nat;
  write_offset : nat;
  size : nat
}.

Definition MAX_BUFFERS : nat := 64.

(** [boost::asio::mutable_buffer] into block [mb_block]. *)
Record mutable_buffer := { mb_block : nat; mb_offset : nat; mb_len : nat }.

Definition set_blocks (bl : list (list Z)) (b : dynamic_buffer) : dynamic_buffer :=
  mk_buffer bl (block_size b) (max_blocks b) (used b) (read_offset b) (write_offset b) (size b).

Definition set_offsets (u ro wo sz : nat) (b : dynamic_buffer) : dynamic_buffer :=
  mk_buffer (blocks b) (block_size b) (max_blocks b) u ro wo sz.

(** ** boost::asio::buffer_copy

    The library copies bytes from a source sequence into the memory a target
    sequence describes, in order, until either is exhausted, and returns the
    number copied. *)

Definition bufs_total (bufs : list mutable_buffer) : nat := sum_list (mb_len <$> bufs).

Fixpoint scatter (bufs : list mutable_buffer) (src : list Z) (mem : list (list Z))
    : list (list Z) :=
  match bufs with
  | [] => mem
  | d :: bufs =>
      scatter bufs (drop (mb_len d) src)
        (alter (splice (mb_offset d) (take (mb_len d) src)) (mb_block d) mem)
  end.

Class BufferCopy := {
  buffer_copy : list (list Z) -> list mutable_buffer -> list Z -> list (list Z) * nat;
  buffer_copy_spec : forall mem bufs src,
    buffer_copy mem bufs src
    = (scatter bufs (take (bufs_total bufs) src) mem, length src `min` bufs_total bufs)
}.

(** A concrete instance, for evaluation. *)
#[export] Instance reference_buffer_copy : BufferCopy.
Proof.
  refine {| buffer_copy mem bufs src :=
    (scatter bufs (take (bufs_total bufs) src) mem, length src `min` bufs_total bufs) |}.
  done.
Defined.

(** ** Operations *)

(** Constructor. *)
Definition make (max_size blk : nat) : dynamic_buffer :=
  let bs := blk `min` max_size in
  mk_buffer [] bs (if bs =? 0 then 0 else max_size `div` bs) 0 0 0 0.

Definition empty (b : dynamic_buffer) : bool := size b =? 0.

(** [data()]: the bytes of each descriptor, for [i] from [i0]. *)
Fixpoint data_loop (n i : nat) (b : dynamic_buffer) (gather : list (list Z)) : list (list Z) :=
  match n with
  | 0 => gather
  | S n =>
      if (i <? used b) && (length gather <? MAX_BUFFERS) then
        let begin := if i =? 0 then read_offset b else 0 in
        let end_ := if i =? used b - 1 then write_offset b else block_size b in
        let blk := nth i (blocks b) [] in
        data_loop n (S i) b
          (if begin <? end_ then gather ++ [slice begin (end_ - begin) blk] else gather)
      else gather
  end.

Definition data (b : dynamic_buffer) : list (list Z) := data_loop (used b) 0 b [].

Definition recycle_front_block (b : dynamic_buffer) : dynamic_buffer :=
  let bl := match blocks b with [] => [] | f :: rest => rest ++ [f] end in
  let u := used b - 1 in
  mk_buffer bl (block_size b) (max_blocks b) u 0 (if u =? 0 then 0 else write_offset b) (size b).

Fixpoint consume_loop (fuel n : nat) (b : dynamic_buffer) : option dynamic_buffer :=
  if n =? 0 then Some b else
  match fuel with
  | 0 => None
  | S fuel =>
      let end_ := if used b =? 1 then write_offset b else block_size b in
      let bytes_consumed := n `min` (end_ - read_offset b) in
      let b := set_offsets (used b) (read_offset b + bytes_consumed) (write_offset b) (size b) b in
      let b := if read_offset b =? end_ then recycle_front_block b else b in
      consume_loop fuel (n - bytes_consumed) b
  end.

Definition consume (n : nat) (b : dynamic_buffer) : option dynamic_buffer :=
  let n := n `min` size b in
  consume_loop n n (set_offsets (used b) (read_offset b) (write_offset b) (size b - n) b).

Fixpoint prepare_loop (fuel i n bs maxb : nat) (bl : list (list Z)) (sc : list mutable_buffer)
    : option (list (list Z) * list mutable_buffer) :=
  if n =? 0 then Some (bl, sc) else
  match fuel with
  | 0 => None
  | S fuel =>
      let step bl :=
        let available := n `min` bs in
        prepare_loop fuel (S i) (n - available) bs maxb bl
          (sc ++ [{| mb_block := i; mb_offset := 0; mb_len := available |}]) in
      if i =? length bl then
        if length bl =? maxb then Some (bl, sc)
        else step (bl ++ [replicate bs 0%Z])
      else step bl
  end.

Definition prepare (n : nat) (b : dynamic_buffer)
    : option (dynamic_buffer * list mutable_buffer) :=
  let tail := negb (n =? 0) && negb (used b =? 0) && (write_offset b <? block_size b) in
  let available := if tail then n `min` (block_size b - write_offset b) else 0 in
  let sc := if tail
            then [{| mb_block := used b - 1; mb_offset := write_offset b; mb_len := available |}]
            else [] in
  match prepare_loop (n - available) (used b) (n - available) (block_size b) (max_blocks b)
          (blocks b) sc with
  | Some (bl, sc) => Some (set_blocks bl b, sc)
  | None => None
  end.

Fixpoint commit_loop (fuel n bs u wo : nat) : option (nat * nat) :=
  if n =? 0 then Some (u, wo) else
  match fuel with
  | 0 => None
  | S fuel => commit_loop fuel (n - n `min` bs) bs (S u) (n `min` bs)
  end.

Definition commit (n : nat) (b : dynamic_buffer) : option dynamic_buffer :=
  let sz := size b + n in
  let k := if negb (used b =? 0) && (write_offset b <? block_size b)
           then n `min` (block_size b - write_offset b) else 0 in
  match commit_loop (n - k) (n - k) (block_size b) (used b) (write_offset b + k) with
  | Some (u, wo) => Some (set_offsets u (read_offset b) wo sz b)
  | None => None
  end.

Definition write `{BufferCopy} (src : list Z) (b : dynamic_buffer) : option (dynamic_buffer * nat) :=
  match prepare (length src) b with
  | Some (b, bufs) =>
      let '(mem, n) := buffer_copy (blocks b) bufs src in
      match commit n (set_blocks mem b) with
      | Some b => Some (b, n)
      | None => None
      end
  | None => None
  end.

(** ** Specification: a bounded byte queue *)

(** The allocated memory seen as one array, and the queued bytes in it. *)
Definition flat (b : dynamic_buffer) : list Z := mjoin (blocks b).

Definition content (b : dynamic_buffer) : list Z := slice (read_offset b) (size b) (flat b).

(** Bytes that can still be appended. *)
Definition room (b : dynamic_buffer) : nat :=
  max_blocks b * block_size b - (read_offset b + size b).

Definition wf_blocks (bs : nat) (bl : list (list Z)) : Prop :=
  Forall (fun blk => length blk = bs) bl.

(** The class invariant: the blocks have the block size and do not exceed the
    allocation limit; data occupies the first [used] blocks, from
    [read_offset] of the first to [write_offset] of the last. *)
Record wf (b : dynamic_buffer) : Prop := {
  wf_len : wf_blocks (block_size b) (blocks b);
  wf_used : used b <= length (blocks b);
  wf_max : length (blocks b) <= max_blocks b;
  wf_bs : block_size b = 0 -> max_blocks b = 0;
  wf_empty : used b = 0 -> read_offset b = 0 /\ write_offset b = 0 /\ size b = 0;
  wf_data : used b <> 0 ->
    0 < size b /\ read_offset b < block_size b /\ 0 < write_offset b <= block_size b /\
    read_offset b + size b = (used b - 1) * block_size b + write_offset b
}.

(** ** Lemmas on flat memory *)

Lemma length_mjoin bs bl : wf_blocks bs bl -> length (mjoin bl) = length bl * bs.
Proof.
  induction 1 as [|x bl Hx _ IH]; [done|].
  change (length (x ++ mjoin bl) = S (length bl) * bs). rewrite length_app. lia.
Qed.

Lemma mjoin_alter_splice bs bl i off xs :
  wf_blocks bs bl -> i < length bl -> off + length xs <= bs ->
  mjoin (alter (splice off xs) i bl) = splice (i * bs + off) xs (mjoin bl)
  /\ wf_blocks bs (alter (splice off xs) i bl).
Proof.
  intros Hwf. revert i. induction Hwf as [|x bl Hx Hwf IH]; intros i Hi Ho; [cbn in Hi; lia|].
  destruct i as [|i].
  - change (mjoin (alter (splice off xs) 0 (x :: bl))) with (splice off xs x ++ mjoin bl).
    change (mjoin (x :: bl)) with (x ++ mjoin bl). split; [|apply Forall_cons_2; [rewrite length_splice; lia|done]]. cbn [Nat.mul Nat.add].
    destruct (cut_at off (length xs) x) as (A & B & C & -> & HA & HB); [lia|].
    rewrite <- !app_assoc, !splice_app by lia. by rewrite <- !app_assoc.
  - destruct (IH i) as [IH1 IH2]; [cbn in Hi; lia|done|]. split; [|by apply Forall_cons_2].
    change (mjoin (alter (splice off xs) (S i) (x :: bl)))
      with (x ++ mjoin (alter (splice off xs) i bl)).
    change (mjoin (x :: bl)) with (x ++ mjoin bl). rewrite IH1. pose proof (length_mjoin bs bl Hwf).
    destruct (cut_at (i * bs + off) (length xs) (mjoin bl)) as (A & B & C & E & HA & HB).
    { cbn in Hi. nia. }
    rewrite E, (splice_app A B C xs), !(app_assoc x A) by lia.
    rewrite (splice_app (x ++ A) B C xs) by (rewrite ?length_app; lia). done.
Qed.

Lemma bufs_total_cons d bufs : bufs_total (d :: bufs) = mb_len d + bufs_total bufs.
Proof. done. Qed.

(** Descriptors that follow each other in flat memory, from position [p]. *)
Fixpoint contiguous (bs n p : nat) (bufs : list mutable_buffer) : Prop :=
  match bufs with
  | [] => True
  | d :: bufs =>
      mb_block d * bs + mb_offset d = p /\ mb_offset d + mb_len d <= bs /\ mb_block d < n /\
      contiguous bs n (p + mb_len d) bufs
  end.

Lemma contiguous_bound bs n p bufs :
  contiguous bs n p bufs -> bufs <> [] -> p + bufs_total bufs <= n * bs.
Proof.
  revert p. induction bufs as [|d bufs IH]; intros p; [done|].
  cbn. intros (Hp & Ho & Hn & Hc) _. unfold bufs_total in *; cbn in *.
  destruct bufs as [|d' bufs]; [cbn; nia|].
  specialize (IH _ Hc ltac:(done)). lia.
Qed.

Lemma length_scatter bufs src mem : length (scatter bufs src mem) = length mem.
Proof.
  revert src mem. induction bufs as [|d bufs IH]; intros src mem; cbn; [done|].
  by rewrite IH, length_alter.
Qed.

(** Copying into contiguous descriptors is one write in flat memory. *)
Lemma scatter_splice bs p bufs src mem :
  wf_blocks bs mem -> contiguous bs (length mem) p bufs -> length src <= bufs_total bufs ->
  mjoin (scatter bufs src mem) = splice p src (mjoin mem) /\
  wf_blocks bs (scatter bufs src mem).
Proof.
  revert p src mem. induction bufs as [|d bufs IH]; intros p src mem Hwf Hc Hs.
  { destruct src; [|cbn in Hs; lia]. by rewrite splice_nil. }
  pose proof (contiguous_bound _ _ _ _ Hc ltac:(done)) as Hb.
  destruct Hc as (Hp & Ho & Hn & Hc). unfold bufs_total in Hs, Hb; cbn in Hs, Hb. cbn [scatter].
  destruct (mjoin_alter_splice bs mem (mb_block d) (mb_offset d) (take (mb_len d) src))
    as [Ha Hw]; [done|done|len|].
  rewrite <- (length_alter (splice (mb_offset d) (take (mb_len d) src)) mem (mb_block d)) in Hc.
  destruct (IH _ (drop (mb_len d) src) _ Hw Hc) as [IH1 IH2]; [unfold bufs_total; len|].
  split; [|done]. rewrite IH1, Ha, Hp. pose proof (length_mjoin bs mem Hwf).
  destruct (decide (length src <= mb_len d)) as [Hle|Hgt].
  - rewrite drop_ge, take_ge by lia. by rewrite splice_nil.
  - replace (p + mb_len d) with (p + length (take (mb_len d) src)) by len.
    rewrite splice_splice by len. by rewrite take_drop.
Qed.

(** ** [prepare] and [commit] *)

Lemma contiguous_weaken bs n m p bufs : n <= m -> contiguous bs n p bufs -> contiguous bs m p bufs.
Proof.
  intros Hm. revert p. induction bufs as [|d bufs IH]; intros p; [done|].
  intros (? & ? & ? & ?). repeat split; try lia. by apply IH.
Qed.

Lemma prepare_loop_0 fuel i bs maxb bl sc : prepare_loop fuel i 0 bs maxb bl sc = Some (bl, sc).
Proof. by destruct fuel. Qed.

(** One further block is used for [min n bs] bytes; the rest follows it. *)
Lemma contiguous_cons_block bs m i n sc :
  i < m -> contiguous bs m (S i * bs) sc -> (n <= bs -> sc = []) ->
  contiguous bs m (i * bs) ({| mb_block := i; mb_offset := 0; mb_len := n `min` bs |} :: sc).
Proof.
  intros Hi Hc Hn. cbn. split; [lia|]. split; [lia|]. split; [done|].
  destruct (decide (n <= bs)); [by rewrite Hn|].
  replace (i * bs + n `min` bs) with (S i * bs) by lia. done.
Qed.

Lemma prepare_loop_spec bs maxb fuel : forall i n bl sc,
  wf_blocks bs bl -> length bl <= maxb -> i <= length bl -> (bs = 0 -> maxb = 0) -> n <= fuel ->
  exists bl' sc',
    prepare_loop fuel i n bs maxb bl sc = Some (bl', sc ++ sc') /\
    bl `prefix_of` bl' /\ wf_blocks bs bl' /\ length bl' <= maxb /\
    contiguous bs (length bl') (i * bs) sc' /\
    bufs_total sc' = n `min` ((maxb - i) * bs) /\ (n = 0 -> sc' = []).
Proof.
  induction fuel as [|fuel IH]; intros i n bl sc Hwf Hmax Hi Hbs Hn; cbn [prepare_loop].
  { exists bl, []. replace n with 0 by lia. by rewrite app_nil_r. }
  destruct (Nat.eqb_spec n 0) as [->|Hn0]; [exists bl, []; by rewrite app_nil_r|].
  assert (Hstep : forall bl2, wf_blocks bs bl2 -> length bl2 <= maxb -> i < length bl2 ->
    bl `prefix_of` bl2 -> exists bl' sc',
    prepare_loop fuel (S i) (n - n `min` bs) bs maxb bl2
      (sc ++ [{| mb_block := i; mb_offset := 0; mb_len := n `min` bs |}])
    = Some (bl', sc ++ sc') /\
    bl `prefix_of` bl' /\ wf_blocks bs bl' /\ length bl' <= maxb /\
    contiguous bs (length bl') (i * bs) sc' /\
    bufs_total sc' = n `min` ((maxb - i) * bs) /\ (n = 0 -> sc' = [])).
  { intros bl2 Hw2 Hm2 Hi2 Hp2.
    destruct (IH (S i) (n - n `min` bs) bl2
      (sc ++ [{| mb_block := i; mb_offset := 0; mb_len := n `min` bs |}]))
      as (bl' & sc' & E & Hp & Hw & Hm & Hc & Ht & Hz); try lia; [done|].
    rewrite <- app_assoc in E. eexists bl', _. split; [exact E|].
    pose proof (prefix_length _ _ Hp).
    split; [by etrans|]. split; [done|]. split; [done|]. split.
    - apply contiguous_cons_block; [lia|done|]. intros. apply Hz. lia.
    - split; [|lia]. cbn [app]. rewrite bufs_total_cons, Ht. cbn [mb_len].
      replace ((maxb - i) * bs) with (bs + (maxb - S i) * bs) by nia. lia. }
  destruct (Nat.eqb_spec i (length bl)) as [->|].
  - destruct (Nat.eqb_spec (length bl) maxb) as [Hfull|].
    + exists bl, []. rewrite app_nil_r. rewrite Hfull, Nat.sub_diag, Nat.mul_0_l, Nat.min_0_r. done.
    + apply Hstep; [|len|len|by eexists].
      apply Forall_app_2; [done|]. apply Forall_singleton. by rewrite length_replicate.
  - apply Hstep; [done|lia|lia|done].
Qed.

(** The flat position of the first free byte. *)
Lemma wf_position b :
  wf b -> read_offset b + size b <= length (blocks b) * block_size b /\
  (used b = 0 -> read_offset b + size b = 0) /\
  (used b <> 0 -> read_offset b + size b + (block_size b - write_offset b) = used b * block_size b).
Proof.
  intros [Hl Hu Hm Hb He Hd]. destruct (decide (used b = 0)) as [E|E].
  - destruct (He E) as (-> & -> & ->). lia.
  - destruct (Hd E) as (? & ? & ? & ?). nia.
Qed.

Lemma prepare_spec n b :
  wf b -> exists bl bufs,
    prepare n b = Some (set_blocks bl b, bufs) /\
    blocks b `prefix_of` bl /\ wf_blocks (block_size b) bl /\ length bl <= max_blocks b /\
    contiguous (block_size b) (length bl) (read_offset b + size b) bufs /\
    bufs_total bufs = n `min` room b.
Proof.
  intros Hwf. pose proof (wf_position b Hwf) as (Hpos & Hpos0 & Hpos1).
  pose proof Hwf as [Hl Hu Hm Hb He Hd]. unfold prepare.
  destruct (_ && _ && _) eqn:Htail.
  - assert (n <> 0 /\ used b <> 0 /\ write_offset b < block_size b) as (Hn & Hu0 & Hwo) by lia.
    destruct (Hd Hu0) as (Hs & Hro & Hw & Heq). specialize (Hpos1 Hu0).
    set (av := n `min` (block_size b - write_offset b)).
    destruct (prepare_loop_spec (block_size b) (max_blocks b) (n - av) (used b) (n - av) (blocks b)
      [{| mb_block := used b - 1; mb_offset := write_offset b; mb_len := av |}])
      as (bl & sc & -> & Hp & Hwb & Hmx & Hc & Ht & Hz); [done|done|done|done|lia|].
    pose proof (prefix_length _ _ Hp). eexists bl, _. split; [done|]. split_and!; [done|done|done| |].
    + cbn [app contiguous]. split; [cbn; lia|]. split; [cbn; lia|]. split; [cbn; lia|]. cbn [mb_len].
      destruct (decide (n <= block_size b - write_offset b)); [rewrite Hz by lia; done|].
      replace (read_offset b + size b + av) with (used b * block_size b) by lia. done.
    + cbn [app]. rewrite bufs_total_cons, Ht. cbn [mb_len]. unfold room.
      assert (used b * block_size b <= max_blocks b * block_size b) by nia.
      replace ((max_blocks b - used b) * block_size b)
        with (max_blocks b * block_size b - used b * block_size b) by nia. subst av. lia.
  - destruct (prepare_loop_spec (block_size b) (max_blocks b) (n - 0) (used b) (n - 0) (blocks b) [])
      as (bl & sc & -> & Hp & Hwb & Hmx & Hc & Ht & Hz); [done|done|done|done|lia|].
    eexists bl, _. split; [done|]. rewrite Nat.sub_0_r in *.
    assert (Hroom : n = 0 \/ used b * block_size b = read_offset b + size b).
    { destruct (decide (n = 0)); [by left|right].
      destruct (decide (used b = 0)) as [E|E]; [rewrite E, Hpos0; lia|].
      destruct (Hd E) as (? & ? & ? & ?). specialize (Hpos1 E). lia. }
    split_and!; [done|done|done| |].
    + cbn [app]. destruct Hroom as [Hn| <-]; [by rewrite (Hz Hn)|done].
    + cbn [app]. rewrite Ht. unfold room. destruct Hroom as [->|<-]; [lia|].
      f_equal. nia.
Qed.

Lemma commit_loop_spec bs fuel : forall n u wo,
  (bs = 0 -> n = 0) -> n <= fuel -> exists u' wo',
    commit_loop fuel n bs u wo = Some (u', wo') /\
    (n = 0 -> u' = u /\ wo' = wo) /\
    (n <> 0 -> u < u' /\ 0 < wo' <= bs /\ (u' - 1) * bs + wo' = u * bs + n).
Proof.
  induction fuel as [|fuel IH]; intros n u wo Hbs Hn; cbn [commit_loop].
  { replace n with 0 by lia. exists u, wo. split_and!; [done|done|intros; lia]. }
  destruct (Nat.eqb_spec n 0) as [->|Hn0].
  { exists u, wo. split_and!; [done|done|intros; lia]. }
  destruct (IH (n - n `min` bs) (S u) (n `min` bs)) as (u' & wo' & E & H0 & H1); [lia|lia|].
  exists u', wo'. split; [done|]. split; [done|]. intros _.
  destruct (decide (n <= bs)) as [Hle|Hgt].
  - destruct H0 as [-> ->]; [lia|]. cbn. repeat split; nia.
  - destruct H1 as (? & ? & ?); [lia|]. repeat split; nia.
Qed.

Lemma commit_spec n b :
  wf b -> (block_size b = 0 -> n = 0) -> exists u wo,
    commit n b = Some (set_offsets u (read_offset b) wo (size b + n) b) /\
    (n = 0 -> u = used b /\ wo = write_offset b) /\
    (n <> 0 -> u <> 0 /\ 0 < wo <= block_size b /\
       read_offset b + (size b + n) = (u - 1) * block_size b + wo).
Proof.
  intros Hwf Hbs. pose proof (wf_position b Hwf) as (Hpos & Hpos0 & Hpos1).
  pose proof Hwf as [Hl Hu Hm Hb He Hd]. unfold commit.
  set (k := if negb (used b =? 0) && (write_offset b <? block_size b)
            then n `min` (block_size b - write_offset b) else 0).
  assert (Hk : k <= n /\ (k <> 0 -> used b <> 0 /\ k <= block_size b - write_offset b) /\
    (n - k <> 0 -> used b * block_size b = read_offset b + size b + k)).
  { subst k. destruct (negb (used b =? 0) && (write_offset b <? block_size b)) eqn:E.
    - split; [lia|]. split; [lia|]. intros. assert (used b <> 0) as Hu0 by lia.
      specialize (Hpos1 Hu0). lia.
    - split; [lia|]. split; [lia|]. intros _.
      destruct (decide (used b = 0)) as [E0|E0]; [rewrite E0, Hpos0; lia|].
      destruct (Hd E0) as (? & ? & ? & ?). specialize (Hpos1 E0). lia. }
  destruct Hk as (Hkn & Hk1 & Hk2).
  destruct (commit_loop_spec (block_size b) (n - k) (n - k) (used b) (write_offset b + k))
    as (u & wo & -> & H0 & H1); [lia|lia|].
  exists u, wo. split; [done|]. split; [intros ->; destruct H0; lia|]. intros Hn.
  destruct (decide (n - k = 0)) as [Hz|Hz].
  - destruct (H0 Hz) as [-> ->]. destruct Hk1 as [Hu0 Hk1]; [lia|].
    destruct (Hd Hu0) as (? & ? & ? & ?). lia.
  - destruct (H1 Hz) as (? & ? & ?). specialize (Hk2 Hz). lia.
Qed.

(** ** [write] *)

Lemma wf_set_blocks b bl :
  wf b -> wf_blocks (block_size b) bl -> length (blocks b) <= length bl <= max_blocks b ->
  wf (set_blocks bl b).
Proof. intros [] ? ?. constructor; cbn; try done; lia. Qed.

Lemma mjoin_app (l k : list (list Z)) : mjoin (l ++ k) = mjoin l ++ mjoin k.
Proof.
  induction l as [|x l IH]; [done|].
  change (x ++ mjoin (l ++ k) = (x ++ mjoin l) ++ mjoin k). by rewrite IH, app_assoc.
Qed.

Lemma length_content b : wf b -> length (content b) = size b.
Proof.
  intros Hwf. apply length_slice. unfold flat. rewrite (length_mjoin (block_size b)) by apply Hwf.
  apply wf_position, Hwf.
Qed.

Lemma write_spec `{BufferCopy} src b :
  wf b -> exists b',
    write src b = Some (b', length src `min` room b) /\ wf b' /\
    content b' = content b ++ take (room b) src /\
    block_size b' = block_size b /\ max_blocks b' = max_blocks b /\
    read_offset b' = read_offset b /\ size b' = size b + length src `min` room b.
Proof.
  intros Hwf. unfold write. pose proof (wf_position b Hwf) as (Hpos & _ & _).
  destruct (prepare_spec (length src) b Hwf) as (bl & bufs & -> & Hp & Hw & Hm & Hc & Ht).
  pose proof (prefix_length _ _ Hp) as Hlen. cbn [blocks set_blocks].
  rewrite buffer_copy_spec, Ht. set (n := length src `min` room b).
  replace (length src `min` n) with n by lia. set (src' := take n src).
  assert (Hs' : length src' = n) by (unfold src'; len).
  destruct (scatter_splice _ _ _ src' _ Hw Hc) as [Hj Hw']; [lia|].
  assert (Hwf' : wf (set_blocks (scatter bufs src' bl) b)).
  { apply wf_set_blocks; [done|done|]. rewrite length_scatter. lia. }
  pose proof Hwf as [_ _ _ Hb _ _].
  assert (Hroom : block_size b = 0 -> n = 0) by (unfold n, room; intros Z; rewrite Z; lia).
  destruct (commit_spec n _ Hwf' Hroom) as (u & wo & Hcommit & Hu0 & Hu1).
  change (set_blocks (scatter bufs src' bl) (set_blocks bl b))
    with (set_blocks (scatter bufs src' bl) b).
  rewrite Hcommit. eexists. split; [done|]. cbn in Hu0, Hu1.
  destruct Hp as [ext ->].
  assert (Hbound : n <> 0 -> read_offset b + size b + n <= length (blocks b ++ ext) * block_size b).
  { intros Hn. pose proof (contiguous_bound _ _ _ _ Hc) as Hcb. rewrite Ht in Hcb.
    apply Hcb. intros ->. cbn in Ht. unfold n in Hn. lia. }
  split_and!; try done.
  - destruct (decide (n = 0)) as [Hn|Hn].
    + destruct (Hu0 Hn) as [-> ->]. rewrite Hn, Nat.add_0_r. destruct Hwf' as [? ? ? ? ? ?].
      constructor; cbn in *; done.
    + destruct (Hu1 Hn) as (? & ? & ?). specialize (Hbound Hn). destruct Hwf' as [? ? ? ? ? Hd'].
      constructor; cbn in *; try done; try lia. rewrite length_scatter. nia.
  - unfold content at 1. cbn. unfold flat; cbn. rewrite Hj, mjoin_app.
    rewrite <- Hs', slice_splice.
    + unfold content, flat. rewrite slice_app_l.
      * f_equal. unfold src', n. destruct (decide (length src <= room b)).
        -- by rewrite !take_ge by lia.
        -- by rewrite Nat.min_r by lia.
      * rewrite (length_mjoin (block_size b)) by apply Hwf. done.
    + rewrite <- mjoin_app, (length_mjoin (block_size b)) by done.
      destruct (decide (n = 0)); [|lia]. rewrite length_app. nia.
Qed.

(** ** [consume] *)

(** The buffer with [n] more bytes counted: inside [consume] the size has
    already been reduced while the bytes are still there. *)
Definition with_pending (n : nat) (b : dynamic_buffer) : dynamic_buffer :=
  set_offsets (used b) (read_offset b) (write_offset b) (size b + n) b.

Lemma with_pending_0 b : with_pending 0 b = b.
Proof. unfold with_pending, set_offsets. rewrite Nat.add_0_r. by destruct b. Qed.

(** Rotating the first block to the back keeps everything behind it in place. *)
Lemma recycle_content f rest bs s :
  wf_blocks bs (f :: rest) -> s <= length rest * bs ->
  slice 0 s (mjoin (rest ++ [f])) = slice bs s (mjoin (f :: rest)).
Proof.
  intros [Hf Hr]%Forall_cons Hs. pose proof (length_mjoin bs rest Hr).
  rewrite mjoin_app, slice_app_l by lia. change (mjoin (f :: rest)) with (f ++ mjoin rest).
  unfold slice. by rewrite drop_app_length' by lia.
Qed.

Lemma recycle_spec n b :
  wf (with_pending n b) -> used b <> 0 ->
  let end_ := if used b =? 1 then write_offset b else block_size b in
  end_ - read_offset b <= n ->
  let b' := recycle_front_block b in
  let k := end_ - read_offset b in
  wf (with_pending (n - k) b') /\
  content (with_pending (n - k) b') = drop k (content (with_pending n b)).
Proof.
  intros Hwf Hu end_ Hend b' k. destruct Hwf as [Hl Hlen Hmax Hbs He Hd]. cbn in *.
  destruct (Hd Hu) as (Hs & Hro & Hwo & Heq). unfold b', recycle_front_block.
  destruct (blocks b) as [|f rest] eqn:Eb; [cbn in Hlen; lia|]. cbn in Hlen, Hmax.
  assert (Hk : used b - 1 = 0 /\ k = n /\ size b = 0 \/
               used b - 1 <> 0 /\ k = block_size b - read_offset b /\ k <= n).
  { subst k end_. destruct (Nat.eqb_spec (used b) 1) as [E|E]; [left|right; lia].
    rewrite E in Heq. lia. }
  clearbody k. clear Hend end_.
  split.
  - constructor; cbn.
    + apply Forall_cons in Hl as [? ?]. apply Forall_app_2; [done|by apply Forall_singleton].
    + len.
    + len.
    + done.
    + destruct Hk as [(Hk1 & Hk2 & Hk3)|(Hk1 & Hk2 & Hk3)]; [|lia]. rewrite Hk1. cbn. lia.
    + destruct Hk as [(Hk1 & Hk2 & Hk3)|(Hk1 & Hk2 & Hk3)]; [lia|]. intros _.
      destruct (Nat.eqb_spec (used b - 1) 0); [done|].
      replace ((used b - 1) * block_size b)
        with (block_size b + (used b - 1 - 1) * block_size b) in Heq by nia. clear Hd. generalize dependent ((used b - 1 - 1) * block_size b). lia.
  - unfold content, with_pending; cbn. unfold flat; cbn. rewrite drop_slice, Eb.
    destruct Hk as [(Hk1 & Hk2 & Hk3)|(Hk1 & Hk2 & Hk3)].
    + replace (size b + (n - k)) with 0 by lia. by replace (size b + n - k) with 0 by lia.
    + rewrite (recycle_content f rest (block_size b)); [f_equal; lia|done|].
      assert ((used b - 1) * block_size b <= length rest * block_size b) by nia. lia.
Qed.

Lemma consume_loop_spec fuel : forall n b,
  wf (with_pending n b) -> n <= fuel -> exists b',
    consume_loop fuel n b = Some b' /\ wf b' /\ content b' = drop n (content (with_pending n b)) /\
    block_size b' = block_size b /\ max_blocks b' = max_blocks b.
Proof.
  induction fuel as [|fuel IH]; intros n b Hwf Hn; cbn [consume_loop].
  { replace n with 0 in * by lia. rewrite with_pending_0 in *. by exists b. }
  destruct (Nat.eqb_spec n 0) as [->|Hn0]; [rewrite with_pending_0 in *; by exists b|].
  assert (Hu : used b <> 0).
  { intros Hu. destruct (wf_empty _ Hwf Hu) as (_ & _ & Hs). cbn in Hs. lia. }
  pose proof (wf_data _ Hwf Hu) as (Hs & Hro & Hwo & Heq). cbn in Hs, Hro, Hwo, Heq.
  set (end_ := if used b =? 1 then write_offset b else block_size b).
  assert (Hend : read_offset b < end_ /\ end_ <= block_size b /\
                 (n < end_ - read_offset b -> 0 < size b)).
  { subst end_. destruct (Nat.eqb_spec (used b) 1) as [E|E]; [rewrite E in Heq; lia|].
    assert (block_size b <= (used b - 1) * block_size b) by nia. lia. }
  destruct Hend as (Hend1 & Hend2 & Hend3). cbn [set_offsets used read_offset write_offset].
  destruct (Nat.eqb_spec (read_offset b + n `min` (end_ - read_offset b)) end_) as [Efull|Epart].
  - set (b1 := set_offsets _ _ _ _ _).
    change (recycle_front_block b1) with (recycle_front_block b).
    destruct (recycle_spec n b Hwf Hu) as [Hw Hc]; [fold end_; lia|]. fold end_ in Hw, Hc.
    replace (n `min` (end_ - read_offset b)) with (end_ - read_offset b) by lia.
    destruct (IH _ _ Hw) as (b' & E & Hwb & Hcb & Hb1 & Hb2); [lia|].
    exists b'. split; [done|]. split; [done|]. split; [|done].
    rewrite Hcb, Hc, drop_drop. f_equal. lia.
  - replace (n `min` (end_ - read_offset b)) with n by lia. rewrite Nat.sub_diag.
    eexists. split; [by destruct fuel|]. split; [|split; [|done]].
    + destruct Hwf as [? ? ? ? ? ?]. constructor; cbn in *; try done; try lia.
    + unfold content at 2. rewrite drop_slice. cbn. unfold content; cbn. f_equal; lia.
Qed.

Lemma consume_spec n b :
  wf b -> exists b', consume n b = Some b' /\ wf b' /\ content b' = drop n (content b) /\
    block_size b' = block_size b /\ max_blocks b' = max_blocks b.
Proof.
  intros Hwf. unfold consume. set (m := n `min` size b).
  set (b0 := set_offsets _ _ _ _ _).
  assert (Hb0 : with_pending m b0 = b).
  { unfold with_pending, b0, set_offsets; cbn. replace (size b - m + m) with (size b) by lia.
    by destruct b. }
  destruct (consume_loop_spec m m b0) as (b' & E & Hw & Hc & Hb1 & Hb2); [by rewrite Hb0|done|].
  exists b'. rewrite Hb0 in Hc. split; [done|]. split; [done|]. split; [|done].
  rewrite Hc. pose proof (length_content b Hwf). destruct (decide (n <= size b)).
  - by replace m with n by lia.
  - by rewrite !drop_ge by lia.
Qed.

(** ** [data] *)

Lemma slice_block bs bl i off n :
  wf_blocks bs bl -> i < length bl -> off + n <= bs ->
  slice off n (nth i bl []) = slice (i * bs + off) n (mjoin bl).
Proof.
  intros Hwf. revert i. induction Hwf as [|x bl Hx Hwf IH]; intros i Hi Ho; [cbn in Hi; lia|].
  change (mjoin (x :: bl)) with (x ++ mjoin bl). destruct i as [|i]; cbn [nth].
  - cbn [Nat.mul Nat.add]. by rewrite slice_app_l by lia.
  - rewrite IH by (cbn in Hi; lia). unfold slice. f_equal.
    rewrite drop_app_ge by (rewrite Hx; lia). f_equal. lia.
Qed.

(** Where block [i] of the occupied ones begins and ends in flat memory. *)
Lemma block_range b i :
  wf b -> i < used b ->
  let begin := if i =? 0 then read_offset b else 0 in
  let end_ := if i =? used b - 1 then write_offset b else block_size b in
  begin < end_ /\ end_ <= block_size b /\
  (read_offset b `max` (i * block_size b) = i * block_size b + begin) /\
  (S i * block_size b) `min` (read_offset b + size b) = i * block_size b + end_.
Proof.
  intros [Hl Hu Hm Hb He Hd] Hi begin end_.
  destruct Hd as (Hs & Hro & Hwo & Heq); [lia|]. subst begin end_.
  assert (i * block_size b <= (used b - 1) * block_size b) by nia.
  destruct (Nat.eqb_spec i 0) as [E0|], (Nat.eqb_spec i (used b - 1)) as [E|].
  - rewrite <- E, E0 in Heq. rewrite E0. lia.
  - assert (block_size b <= (used b - 1) * block_size b) by nia. rewrite E0. lia.
  - assert (block_size b <= i * block_size b) by nia. rewrite <- E in Heq. lia.
  - assert (block_size b <= i * block_size b) by nia.
    assert (S i * block_size b <= (used b - 1) * block_size b) by nia. lia.
Qed.

Lemma data_loop_spec b : wf b -> forall n i gather,
  n + i = used b -> length gather = i -> i <= MAX_BUFFERS ->
  mjoin gather = slice (read_offset b)
    ((i * block_size b) `min` (read_offset b + size b) - read_offset b) (flat b) ->
  let r := data_loop n i b gather in
  length r = used b `min` MAX_BUFFERS /\
  mjoin r = slice (read_offset b)
    (((used b `min` MAX_BUFFERS) * block_size b) `min` (read_offset b + size b) - read_offset b)
    (flat b).
Proof.
  intros Hwf. induction n as [|n IH]; intros i gather Hn Hg Hi Hj; cbn [data_loop].
  { replace i with (used b `min` MAX_BUFFERS) in * by lia. done. }
  destruct (Nat.ltb_spec (length gather) MAX_BUFFERS) as [Hlt|Hge].
  2: { rewrite andb_false_r. replace i with (used b `min` MAX_BUFFERS) in * by lia. done. }
  destruct (Nat.ltb_spec i (used b)); [|lia]. cbn [andb].
  destruct (block_range b i Hwf ltac:(lia)) as (Hbe & Hend & Hb & He).
  set (begin := if i =? 0 then read_offset b else 0) in *.
  set (end_ := if i =? used b - 1 then write_offset b else block_size b) in *.
  destruct (Nat.ltb_spec begin end_); [|lia]. apply IH; [lia|len|lia|].
  rewrite mjoin_app, Hj. change (mjoin [slice begin (end_ - begin) (nth i (blocks b) [])])
    with (slice begin (end_ - begin) (nth i (blocks b) []) ++ []).
  rewrite app_nil_r, (slice_block (block_size b)); [|apply Hwf| |lia].
  2: { pose proof (wf_used _ Hwf). lia. }
  replace (i * block_size b + begin) with
    (read_offset b + ((i * block_size b) `min` (read_offset b + size b) - read_offset b)) by lia.
  unfold flat. rewrite slice_app_slice. f_equal. lia.
Qed.

Lemma data_spec b :
  wf b -> length (data b) = used b `min` MAX_BUFFERS /\
  mjoin (data b) = take (MAX_BUFFERS * block_size b - read_offset b) (content b).
Proof.
  intros Hwf. destruct (data_loop_spec b Hwf (used b) 0 []) as [Hlen Hj]; [lia|done|unfold MAX_BUFFERS; lia| |].
  { by replace ((0 * block_size b) `min` (read_offset b + size b) - read_offset b) with 0 by lia. }
  split; [done|]. unfold data. rewrite Hj. unfold content, slice. rewrite take_take. f_equal.
  destruct (wf_position b Hwf) as (_ & H0 & H1). destruct (decide (used b = 0)) as [E|E].
  - specialize (H0 E). rewrite E. cbn. lia.
  - specialize (H1 E). destruct (decide (used b <= MAX_BUFFERS)).
    + replace (used b `min` MAX_BUFFERS) with (used b) by lia.
      assert (used b * block_size b <= MAX_BUFFERS * block_size b) by nia. lia.
    + replace (used b `min` MAX_BUFFERS) with MAX_BUFFERS by lia. lia.
Qed.

(** ** The contract: a bounded byte queue *)

Inductive op : Type :=
| Write (src : list Z)
| Consume (n : nat).

(** [fifo_step cap blk q o ret q']: what one operation may do to a queue [q]
    limited to [cap] bytes with blocks of [blk]. A write accepts a prefix, and
    a short one only when at most [blk - 1] bytes are left under the limit. *)
Inductive fifo_step (cap blk : nat) (q : list Z) : op -> nat -> list Z -> Prop :=
| fifo_write src n :
    n <= length src -> length q + n <= cap ->
    (n < length src -> cap <= length q + n + (blk - 1)) ->
    fifo_step cap blk q (Write src) n (q ++ take n src)
| fifo_consume n :
    fifo_step cap blk q (Consume n) 0 (drop n q).

Inductive fifo_run (cap blk : nat) : list Z -> list op -> list nat -> list Z -> Prop :=
| fifo_done q : fifo_run cap blk q [] [] q
| fifo_more q o n q' os ns q'' :
    fifo_step cap blk q o n q' -> fifo_run cap blk q' os ns q'' ->
    fifo_run cap blk q (o :: os) (n :: ns) q''.

Definition exec `{BufferCopy} (o : op) (b : dynamic_buffer) : option (dynamic_buffer * nat) :=
  match o with
  | Write src => write src b
  | Consume n => (fun b => (b, 0)) <$> consume n b
  end.

Fixpoint run `{BufferCopy} (os : list op) (b : dynamic_buffer) : option (dynamic_buffer * list nat) :=
  match os with
  | [] => Some (b, [])
  | o :: os =>
      match exec o b with
      | Some (b, n) => (fun '(b, ns) => (b, n :: ns)) <$> run os b
      | None => None
      end
  end.

Lemma make_wf max_size blk : wf (make max_size blk).
Proof.
  constructor; cbn; try done; [by constructor|lia|].
  intros ->. done.
Qed.

Lemma exec_refines `{BufferCopy} o b :
  wf b -> exists b' n, exec o b = Some (b', n) /\ wf b' /\
    fifo_step (max_blocks b * block_size b) (block_size b) (content b) o n (content b') /\
    block_size b' = block_size b /\ max_blocks b' = max_blocks b.
Proof.
  intros Hwf. pose proof (length_content b Hwf) as Hlen.
  destruct (wf_position b Hwf) as (Hpos & Hpos0 & Hpos1).
  destruct o as [src|n]; cbn [exec].
  - destruct (write_spec src b Hwf) as (b' & -> & Hwf' & Hc & Hbs & Hmax & _).
    exists b', (length src `min` room b). split; [done|]. split; [done|]. split; [|done].
    rewrite Hc. replace (take (room b) src) with (take (length src `min` room b) src).
    2: { destruct (decide (length src <= room b)); [by rewrite !take_ge by lia|].
         by rewrite Nat.min_r by lia. }
    assert (length (blocks b) * block_size b <= max_blocks b * block_size b)
      by (pose proof (wf_max _ Hwf); nia).
    constructor; rewrite ?Hlen; unfold room; [lia|lia|]. intros Hshort.
    destruct (decide (used b = 0)) as [E|E].
    + destruct (wf_empty _ Hwf E) as (Hro & _ & Hs). lia.
    + destruct (wf_data _ Hwf E) as (_ & Hro & _). lia.
  - destruct (consume_spec n b Hwf) as (b' & -> & Hwf' & Hc & Hbs & Hmax).
    exists b', 0. split; [done|]. split; [done|]. split; [|done]. rewrite Hc. constructor.
Qed.

Lemma run_refines `{BufferCopy} os b :
  wf b -> exists b' ns, run os b = Some (b', ns) /\ wf b' /\
    fifo_run (max_blocks b * block_size b) (block_size b) (content b) os ns (content b').
Proof.
  revert b. induction os as [|o os IH]; intros b Hwf; cbn [run].
  { exists b, []. split; [done|]. split; [done|]. constructor. }
  destruct (exec_refines o b Hwf) as (b1 & n & -> & Hw1 & Hs & Hbs & Hmax).
  destruct (IH b1 Hw1) as (b2 & ns & E & Hw2 & Hr). cbn in E. rewrite E.
  exists b2, (n :: ns). split; [done|]. split; [done|].
  rewrite Hbs, Hmax in Hr. by econstructor.
Qed.

(** ** Properties *)

(** C24: the buffer implements a bounded byte queue: any sequence of writes and
    consumes on a fresh buffer runs to completion, every write returns the
    number of bytes it accepted (everything, unless the limit leaves less than
    a block), and the bytes held are exactly those accepted and not yet
    consumed, in order. *)
Theorem buffer_refines_fifo `{BufferCopy} max_size blk os :
  exists b ns, run os (make max_size blk) = Some (b, ns) /\ wf b /\
    fifo_run (max_blocks (make max_size blk) * block_size (make max_size blk))
      (block_size (make max_size blk)) [] os ns (content b).
Proof. apply (run_refines os (make max_size blk)), make_wf. Qed.

Lemma buffer_refines_fifo_witness :
  exists b ns, run [Write [1; 2; 3; 4; 5]%Z; Consume 3; Write [6; 7]%Z] (make 6 2) = Some (b, ns) /\
    wf b /\ fifo_run 6 2 [] [Write [1; 2; 3; 4; 5]%Z; Consume 3; Write [6; 7]%Z] ns (content b).
Proof. apply (buffer_refines_fifo 6 2). Defined.

(** [data] describes at most [MAX_BUFFERS] blocks and their bytes are a
    prefix of the queue; when the backlog occupies no more blocks than that,
    they are the whole queue. *)
Theorem data_shows_prefix b :
  wf b -> length (data b) <= MAX_BUFFERS /\ mjoin (data b) `prefix_of` content b /\
    (used b <= MAX_BUFFERS -> mjoin (data b) = content b).
Proof.
  intros Hwf. destruct (data_spec b Hwf) as [Hl Hj]. split; [lia|]. rewrite Hj. split.
  - eexists. by rewrite take_drop.
  - intros Hu. apply take_ge. rewrite (length_content b Hwf).
    destruct (wf_position b Hwf) as (_ & H0 & H1).
    destruct (decide (used b = 0)) as [E|E]; [specialize (H0 E); lia|]. specialize (H1 E).
    assert (used b * block_size b <= MAX_BUFFERS * block_size b) by nia. lia.
Qed.

Lemma data_shows_prefix_witness :
  match run [Write [1; 2; 3; 4; 5]%Z; Consume 3] (make 6 2) with
  | Some (b, _) => mjoin (data b) = content b
  | None => False
  end.
Proof.
  destruct (run_refines [Write [1; 2; 3; 4; 5]%Z; Consume 3] (make 6 2) (make_wf 6 2))
    as (b & ns & E & Hwf & _).
  assert (Hu : forall r, run [Write [1; 2; 3; 4; 5]%Z; Consume 3] (make 6 2) = Some r ->
    used (fst r) <= MAX_BUFFERS).
  { intros r Hr. vm_compute in Hr. injection Hr as <-. vm_compute. lia. }
  rewrite E. apply (data_shows_prefix b Hwf). apply (Hu _ E).
Defined.

(** Blocks are never allocated beyond [max_size] bytes, and the
    constructor's rounding wastes less than one block of it. *)
Theorem allocation_bound `{BufferCopy} max_size blk os b ns :
  run os (make max_size blk) = Some (b, ns) ->
  length (flat b) <= max_size /\ size b <= max_size /\
  (0 < block_size b -> max_size < max_blocks b * block_size b + block_size b).
Proof.
  intros E. destruct (run_refines os (make max_size blk) (make_wf _ _)) as (b' & ns' & E' & Hwf & _).
  rewrite E in E'. simplify_eq.
  assert (Hcap : block_size b' = blk `min` max_size /\
    max_blocks b' = max_blocks (make max_size blk)).
  { clear Hwf. change (blk `min` max_size) with (block_size (make max_size blk)).
    pose proof (make_wf max_size blk) as Hw. revert E Hw. generalize (make max_size blk) as b0.
    intros b0. revert b0 ns'. induction os as [|o os IH]; intros b0 ns' E Hw; cbn in E; [by simplify_eq|].
    destruct (exec_refines o b0 Hw) as (b1 & n & E1 & Hw1 & _ & Hbs & Hmax). rewrite E1 in E.
    destruct (run os b1) as [[b2 ns2]|] eqn:E2; [|done]. cbn in E. simplify_eq.
    destruct (IH _ _ E2 Hw1) as [-> ->]. by rewrite Hbs, Hmax. }
  destruct Hcap as [Hbs Hmax]. cbn in Hmax.
  pose proof (length_mjoin _ _ (wf_len _ Hwf)) as Hflat. fold (flat b') in Hflat.
  destruct (wf_position b' Hwf) as (Hpos & _ & _). pose proof (wf_max _ Hwf) as Hm.
  destruct (Nat.eqb_spec (blk `min` max_size) 0) as [E0|E0].
  - rewrite Hmax in Hm. lia.
  - pose proof (Nat.div_mod_eq max_size (blk `min` max_size)).
    pose proof (Nat.mod_upper_bound max_size (blk `min` max_size) E0).
    rewrite <- Hbs, <- Hmax in *. nia.
Qed.

Lemma allocation_bound_witness :
  exists b ns, run [Write (replicate 9 0%Z)] (make 7 3) = Some (b, ns) /\ size b <= 7.
Proof.
  eexists _, _. split; [by vm_compute|].
  eapply (allocation_bound 7 3 [Write (replicate 9 0%Z)]). by vm_compute.
Defined.
