(* ===== verification/Json.v ===== *)
(** * The JSON values the program handles

    nlohmann::json is not part of the program.  It appears here as a class:
    a carrier type of values, a [view] that says which of the documented value
    types a value has and what it holds, an [inject]ion that builds a value of
    each type, the text and MessagePack codecs, and the laws its documentation
    states.  [dump] throws a [type_error] exactly when a string or a key, however
    deep, is not valid UTF-8.  The
    accessors the sources call ([is_object], [contains], [operator[]], [value],
    [get], [push_back], JSON pointers) are defined here from [view] and [inject]
    as that documentation describes them, with the exceptions they throw.  [jv] is a concrete instance for evaluation. *)
From S2P Require Import Prelude.

(** The value types of nlohmann::json. Objects are std::map, so an object is a
    finite map; signed and unsigned integers are one type of integers. *)
Inductive jvalue (J F : Type) : Type :=
| JNull
| JBoolean (b : bool)
| JInteger (z : Z)
| JFloat (f : F)
| JString (s : string)
| JArray (l : list J)
| JObject (m : gmap string J)
| JBinary (bs : list Z).
Arguments JNull {J F}.
Arguments JBoolean {J F} b.
Arguments JInteger {J F} z.
Arguments JFloat {J F} f.
Arguments JString {J F} s.
Arguments JArray {J F} l.
Arguments JObject {J F} m.
Arguments JBinary {J F} bs.

(** nlohmann::json::exception and the subclasses the sources meet. *)
Inductive json_exception : Type := type_error | parse_error | out_of_range.

(** ** UTF-8

    The byte sequences of RFC 3629: characters of one to four bytes, in the
    shortest form, up to U+10FFFF and without the surrogates. *)

(** A byte 10xxxxxx, and which of them when the first byte restricts it. *)
Inductive continuation : Type :=
| any_tail | tail_160_191 | tail_128_159 | tail_144_191 | tail_128_143.

Definition continues (k : continuation) (c : Ascii.ascii) : bool :=
  match c with
  | Ascii.Ascii _ _ _ _ b4 b5 false true =>
      match k with
      | any_tail => true
      | tail_160_191 => b5
      | tail_128_159 => negb b5
      | tail_144_191 => b4 || b5
      | tail_128_143 => negb (b4 || b5)
      end
  | _ => false
  end.

(** What follows a first byte. *)
Definition utf8_rest (c : Ascii.ascii) : option (list continuation) :=
  match c with
  | Ascii.Ascii _ _ _ _ _ _ _ false => Some []
  | Ascii.Ascii _ b1 b2 b3 b4 false true true =>
      if b1 || b2 || b3 || b4 then Some [any_tail] else None
  | Ascii.Ascii false false false false false true true true => Some [tail_160_191; any_tail]
  | Ascii.Ascii true false true true false true true true => Some [tail_128_159; any_tail]
  | Ascii.Ascii _ _ _ _ false true true true => Some [any_tail; any_tail]
  | Ascii.Ascii false false false false true true true true => Some [tail_144_191; any_tail; any_tail]
  | Ascii.Ascii _ _ false false true true true true => Some [any_tail; any_tail; any_tail]
  | Ascii.Ascii false false true false true true true true => Some [tail_128_143; any_tail; any_tail]
  | _ => None
  end.

(** [expected] are the bytes still to come of the character begun. *)
Fixpoint utf8_from (expected : list continuation) (s : string) : bool :=
  match s, expected with
  | String.EmptyString, [] => true
  | String.EmptyString, _ => false
  | String.String c s, k :: expected => continues k c && utf8_from expected s
  | String.String c s, [] => if utf8_rest c is Some expected then utf8_from expected s else false
  end.

Definition utf8_text : string -> bool := utf8_from [].

(** The same bytes as the ranges of the standard's grammar. *)
Definition range_of (k : continuation) : Z * Z :=
  match k with
  | any_tail => (128, 191)
  | tail_160_191 => (160, 191)
  | tail_128_159 => (128, 159)
  | tail_144_191 => (144, 191)
  | tail_128_143 => (128, 143)
  end.

Lemma continues_range k c :
  let b := Z.of_N (Ascii.N_of_ascii c) in continues k c = ((range_of k).1 <=? b) && (b <=? (range_of k).2).
Proof. by destruct k, c as [[] [] [] [] [] [] [] []]. Qed.

Lemma utf8_rest_first c :
  let b := Z.of_N (Ascii.N_of_ascii c) in
  is_Some (utf8_rest c) <-> b <= 127 \/ 194 <= b <= 244.
Proof.
  destruct c as [[] [] [] [] [] [] [] []]; cbn; split; try lia; try (intros _; by eexists).
  all: by intros [? [=]].
Qed.

(** All the text in a value is UTF-8. *)
Inductive printable {J F : Type} (view : J -> jvalue J F) (j : J) : Prop :=
| printable_string s : view j = JString s -> utf8_text s = true -> printable view j
| printable_array l : view j = JArray l -> (forall x, x ∈ l -> printable view x) -> printable view j
| printable_object m :
    view j = JObject m -> (forall k v, m !! k = Some v -> utf8_text k = true) ->
    (forall k v, m !! k = Some v -> printable view v) -> printable view j
| printable_other :
    match view j with JString _ | JArray _ | JObject _ => False | _ => True end -> printable view j.

(** [brace_null] is the value of the expression [nlohmann::json{nullptr}]:
    brace initialisation with one element is documented to give the element or
    an array holding it, depending on the compiler. *)
Class JsonLib := {
  json : Type;
  double : Type;
  view : json -> jvalue json double;
  inject : jvalue json double -> json;
  view_inject : forall v, view (inject v) = v;
  trunc : double -> Z;
  double_of : Z -> double;
  brace_null : json;
  brace_null_law : brace_null = inject JNull \/ brace_null = inject (JArray [inject JNull]);
  parse : list Z -> result json_exception json;
  from_msgpack : list Z -> result json_exception json;
  to_msgpack : json -> list Z;
  dump : json -> result json_exception (list Z);
  dump_law : forall j, (printable view j -> exists text, dump j = Ok text) /\
                       (~ printable view j -> dump j = Throw type_error);
  msgpack_roundtrip : forall j, from_msgpack (to_msgpack j) = Ok j;
  msgpack_bytes : forall j, Forall is_byte (to_msgpack j)
}.

Section Accessors.
Context `{JL : JsonLib}.

(** ** Building values *)

Definition jnull : json := inject JNull.
Definition jbool (b : bool) : json := inject (JBoolean b).
Definition jint (z : Z) : json := inject (JInteger z).
Definition jfloat (f : double) : json := inject (JFloat f).
Definition jstr (s : string) : json := inject (JString s).
Definition jarr (l : list json) : json := inject (JArray l).

(** An initializer list of key/value pairs. *)
Definition jobj (l : list (string * json)) : json := inject (JObject (list_to_map l)).

(** ** Type tests *)

Definition is_null (j : json) : bool := if view j is JNull then true else false.
Definition is_object (j : json) : bool := if view j is JObject _ then true else false.
Definition is_array (j : json) : bool := if view j is JArray _ then true else false.
Definition is_string (j : json) : bool := if view j is JString _ then true else false.
Definition is_boolean (j : json) : bool := if view j is JBoolean _ then true else false.
Definition is_number_integer (j : json) : bool := if view j is JInteger _ then true else false.
Definition is_number (j : json) : bool :=
  match view j with JInteger _ | JFloat _ => true | _ => false end.

(** ** Access *)

(** The members of an object; empty for every other type. *)
Definition members (j : json) : gmap string json :=
  if view j is JObject m then m else ∅.

Definition elements (j : json) : list json :=
  if view j is JArray l then l else [].

Definition contains (j : json) (k : string) : bool := bool_decide (is_Some (members j !! k)).

(** [j[k]] where the caller has tested [contains]. *)
Definition field (j : json) (k : string) : json := value_or (members j !! k) jnull.

(** [j.value<nlohmann::json>(k, nullptr)] *)
Definition value_of (j : json) (k : string) : result json_exception json :=
  if is_object j then Ok (field j k) else Throw type_error.

(** [get<std::string>()] where the caller has tested [is_string]. *)
Definition string_of (j : json) : string := if view j is JString s then s else "".

(** [get<T>()] for [std::int64_t] and [std::uint64_t]: numbers only. *)
Definition get_int64 (j : json) : result json_exception Z :=
  match view j with
  | JInteger z => Ok (s64 z)
  | JFloat f => Ok (s64 (trunc f))
  | _ => Throw type_error
  end.

Definition get_uint64 (j : json) : result json_exception Z :=
  match view j with
  | JInteger z => Ok (u64 z)
  | JFloat f => Ok (u64 (trunc f))
  | _ => Throw type_error
  end.

(** [get<T>()] for the narrower integer types: booleans are converted too. *)
Definition get_uint32 (j : json) : result json_exception Z :=
  match view j with
  | JInteger z => Ok (u32 z)
  | JFloat f => Ok (u32 (trunc f))
  | JBoolean b => Ok (if b then 1 else 0)
  | _ => Throw type_error
  end.

Definition get_int32 (j : json) : result json_exception Z :=
  match view j with
  | JInteger z => Ok (s32 z)
  | JFloat f => Ok (s32 (trunc f))
  | JBoolean b => Ok (if b then 1 else 0)
  | _ => Throw type_error
  end.

Definition get_string (j : json) : result json_exception string :=
  if view j is JString s then Ok s else Throw type_error.

Definition get_double (j : json) : double :=
  match view j with
  | JFloat f => f
  | JInteger z => double_of z
  | _ => double_of 0
  end.

(** ** Update *)

(** [j[k] = v] on an object. *)
Definition set_field (j : json) (k : string) (v : json) : json :=
  inject (JObject (<[k := v]> (members j))).

(** [j.erase(k)] on an object. *)
Definition erase (j : json) (k : string) : json := inject (JObject (delete k (members j))).

(** [j.push_back(v)] on an array. *)
Definition push_back (j v : json) : json := inject (JArray (elements j ++ [v])).

(** ** JSON pointers

    [j.value<nlohmann::json>(json_pointer(path), nullptr)]: the value must be an
    object; a missing key or a token applied to a primitive value gives the
    default; a non-numeric token applied to an array is a [parse_error], which
    [value] does not catch.  The tokens of the sources are all names. *)
Fixpoint resolve (j : json) (path : list string) : result json_exception json :=
  match path with
  | [] => Ok j
  | k :: path =>
      match view j with
      | JObject m => if m !! k is Some v then resolve v path else Throw out_of_range
      | JArray _ => Throw parse_error
      | _ => Throw out_of_range
      end
  end.

Definition value_at (j : json) (path : list string) : result json_exception json :=
  if is_object j then
    match resolve j path with
    | Throw out_of_range => Ok jnull
    | r => r
    end
  else Throw type_error.

(** ** Lemmas *)

Lemma view_jnull : view jnull = JNull. Proof. apply view_inject. Qed.
Lemma view_jbool b : view (jbool b) = JBoolean b. Proof. apply view_inject. Qed.
Lemma view_jint z : view (jint z) = JInteger z. Proof. apply view_inject. Qed.
Lemma view_jfloat f : view (jfloat f) = JFloat f. Proof. apply view_inject. Qed.
Lemma view_jstr s : view (jstr s) = JString s. Proof. apply view_inject. Qed.
Lemma view_jarr l : view (jarr l) = JArray l. Proof. apply view_inject. Qed.
Lemma view_jobj l : view (jobj l) = JObject (list_to_map l). Proof. apply view_inject. Qed.

Lemma view_set_field j k v : view (set_field j k v) = JObject (<[k := v]> (members j)).
Proof. apply view_inject. Qed.
Lemma view_erase j k : view (erase j k) = JObject (delete k (members j)).
Proof. apply view_inject. Qed.
Lemma view_push_back j v : view (push_back j v) = JArray (elements j ++ [v]).
Proof. apply view_inject. Qed.

Lemma members_set_field j k v : members (set_field j k v) = <[k := v]> (members j).
Proof. unfold members at 1. by rewrite view_set_field. Qed.

Lemma members_erase j k : members (erase j k) = delete k (members j).
Proof. unfold members at 1. by rewrite view_erase. Qed.

Lemma members_jobj l : members (jobj l) = list_to_map l.
Proof. unfold members. by rewrite view_jobj. Qed.

Lemma elements_jarr l : elements (jarr l) = l.
Proof. unfold elements. by rewrite view_jarr. Qed.

Lemma elements_push_back j v : elements (push_back j v) = elements j ++ [v].
Proof. unfold elements at 1. by rewrite view_push_back. Qed.

Lemma field_set_eq j k v : field (set_field j k v) k = v.
Proof. unfold field. by rewrite members_set_field, lookup_insert_eq. Qed.

Lemma field_set_ne j k k' v : k <> k' -> field (set_field j k v) k' = field j k'.
Proof. intros. unfold field. by rewrite members_set_field, lookup_insert_ne. Qed.

Lemma contains_set_eq j k v : contains (set_field j k v) k = true.
Proof. unfold contains. rewrite members_set_field, lookup_insert_eq. by apply bool_decide_true. Qed.

Lemma contains_set_ne j k k' v : k <> k' -> contains (set_field j k v) k' = contains j k'.
Proof. intros. unfold contains. by rewrite members_set_field, lookup_insert_ne. Qed.

Lemma is_object_set_field j k v : is_object (set_field j k v) = true.
Proof. unfold is_object. by rewrite view_set_field. Qed.

Lemma is_object_jobj l : is_object (jobj l) = true.
Proof. unfold is_object. by rewrite view_jobj. Qed.

Lemma contains_jobj l k :
  contains (jobj l) k = bool_decide (is_Some ((list_to_map l : gmap string json) !! k)).
Proof. unfold contains. by rewrite members_jobj. Qed.

Lemma is_string_jstr s : is_string (jstr s) = true.
Proof. unfold is_string. by rewrite view_jstr. Qed.

Lemma string_of_jstr s : string_of (jstr s) = s.
Proof. unfold string_of. by rewrite view_jstr. Qed.

Lemma contains_is_object j k : contains j k = true -> is_object j = true.
Proof.
  unfold contains, members, is_object. intros H%bool_decide_eq_true.
  destruct (view j); try done. all: rewrite lookup_empty in H; by destruct H.
Qed.

Lemma is_string_get j : is_string j = true -> get_string j = Ok (string_of j).
Proof. unfold is_string, get_string, string_of. by destruct (view j). Qed.

(** ** Printing *)

Lemma printable_dump j : printable view j -> exists text, dump j = Ok text.
Proof. apply (dump_law j). Qed.

Lemma unprintable_dump j : ~ printable view j -> dump j = Throw type_error.
Proof. apply (dump_law j). Qed.

Lemma printable_jstr s : utf8_text s = true -> printable view (jstr s).
Proof. intros. eapply printable_string; [apply view_jstr|done]. Qed.

Lemma printable_jint z : printable view (jint z).
Proof. apply printable_other. by rewrite view_jint. Qed.

Lemma printable_jarr l : (forall x, x ∈ l -> printable view x) -> printable view (jarr l).
Proof. intros. eapply printable_array; [apply view_jarr|done]. Qed.

Lemma printable_jobj l :
  Forall (fun x => utf8_text x.1 = true /\ printable view x.2) l -> printable view (jobj l).
Proof.
  intros Hl. rewrite Forall_forall in Hl. eapply printable_object; [apply view_jobj|..];
    intros k v Hv%elem_of_list_to_map_2; by destruct (Hl (k, v) Hv).
Qed.

Lemma printable_member j k v :
  printable view j -> members j !! k = Some v -> utf8_text k = true /\ printable view v.
Proof.
  unfold members. intros [s E _|l E _|m E Hk Hv|H]; [by rewrite E|by rewrite E| |].
  - rewrite E. intros Hm. split; [by eapply Hk|by eapply Hv].
  - by destruct (view j).
Qed.

Lemma printable_set_field j k v :
  printable view j -> utf8_text k = true -> printable view v -> printable view (set_field j k v).
Proof.
  intros Hj Hk Hv. eapply printable_object; [apply view_set_field|..];
    (intros k' v' [[<- <-]|[_ Hm]]%lookup_insert_Some; [done|by apply (printable_member j k' v')]).
Qed.
End Accessors.

#[export] Hint Resolve printable_jstr printable_jint : ws.

(** Printability of a literal value, down to the text it is made of. *)
Ltac print_literal :=
  repeat first
    [ done | apply printable_jstr | apply printable_jint | apply printable_jobj
    | apply printable_set_field | apply Forall_cons_2 | apply Forall_nil_2
    | apply printable_jarr; let x := fresh in intros x ->%list_elem_of_singleton
    | match goal with |- _ /\ _ => split end ].

#[export] Hint Rewrite @view_jnull @view_jbool @view_jint @view_jfloat @view_jstr @view_jarr
  @view_jobj @view_set_field @view_erase @view_push_back @members_set_field @members_erase
  @members_jobj @elements_jarr @elements_push_back @field_set_eq @contains_set_eq
  @is_object_set_field @is_object_jobj @is_string_jstr @string_of_jstr : ws.

(** ** A concrete instance

    Values as a tree, doubles represented by integers, both codecs the bits of
    stdpp's injective encoding of countable types.  It exists to evaluate the
    definitions and to show that the laws can hold together. *)
#[warnings="-register-all"] Inductive jv : Type :=
| VNull
| VBoolean (b : bool)
| VInteger (z : Z)
| VFloat (f : Z)
| VString (s : string)
| VArray (l : list jv)
| VObject (l : list (string * jv))
| VBinary (bs : list Z).

Fixpoint jv_tree (j : jv) : gen_tree (Z + string) :=
  match j with
  | VNull => GenNode 0 []
  | VBoolean b => GenNode 1 [GenLeaf (inl (if b then 1 else 0))]
  | VInteger z => GenNode 2 [GenLeaf (inl z)]
  | VFloat f => GenNode 3 [GenLeaf (inl f)]
  | VString s => GenNode 4 [GenLeaf (inr s)]
  | VArray l => GenNode 5 (map jv_tree l)
  | VObject l => GenNode 6 (map (fun kv => GenNode 8 [GenLeaf (inr kv.1); jv_tree kv.2]) l)
  | VBinary bs => GenNode 7 (map (fun z => GenLeaf (inl z)) bs)
  end.

Fixpoint tree_jv (t : gen_tree (Z + string)) : jv :=
  match t with
  | GenNode 1 [GenLeaf (inl z)] => VBoolean (negb (z =? 0))
  | GenNode 2 [GenLeaf (inl z)] => VInteger z
  | GenNode 3 [GenLeaf (inl f)] => VFloat f
  | GenNode 4 [GenLeaf (inr s)] => VString s
  | GenNode 5 l => VArray (map tree_jv l)
  | GenNode 6 l =>
      VObject (map (fun t => match t with
                             | GenNode 8 [GenLeaf (inr k); v] => (k, tree_jv v)
                             | _ => ("", VNull)
                             end) l)
  | GenNode 7 l => VBinary (map (fun t => if t is GenLeaf (inl z) then z else 0) l)
  | _ => VNull
  end.

Lemma tree_jv_tree : forall j, tree_jv (jv_tree j) = j.
Proof.
  fix IH 1. intros [| | | | |l|l|bs]; cbn; try done.
  - by destruct b.
  - f_equal. induction l as [|x l IHl]; cbn; [done|]. by rewrite IH, IHl.
  - f_equal. induction l as [|[k v] l IHl]; cbn; [done|]. by rewrite IH, IHl.
  - f_equal. induction bs as [|z bs IHl]; cbn; [done|]. by rewrite IHl.
Qed.

#[export] Instance jv_eq_dec : EqDecision jv.
Proof.
  intros x y. destruct (decide (jv_tree x = jv_tree y)) as [E|E]; [left|right; congruence].
  by rewrite <- (tree_jv_tree x), E, tree_jv_tree.
Defined.

#[export] Instance jv_countable : Countable jv.
Proof. apply (inj_countable' jv_tree tree_jv). apply tree_jv_tree. Defined.

Fixpoint pos_bits (p : positive) : list Z :=
  match p with
  | xH => []
  | xO p => 0 :: pos_bits p
  | xI p => 1 :: pos_bits p
  end.

Fixpoint bits_pos (l : list Z) : positive :=
  match l with
  | [] => xH
  | b :: l => if b =? 0 then xO (bits_pos l) else xI (bits_pos l)
  end.

Lemma bits_pos_bits p : bits_pos (pos_bits p) = p.
Proof. induction p as [p IH|p IH|]; cbn; by rewrite ?IH. Qed.

Lemma pos_bits_byte p : Forall is_byte (pos_bits p).
Proof. induction p; cbn; constructor; try done; unfold in_u; lia. Qed.

Definition jv_view (j : jv) : jvalue jv Z :=
  match j with
  | VNull => JNull
  | VBoolean b => JBoolean b
  | VInteger z => JInteger z
  | VFloat f => JFloat f
  | VString s => JString s
  | VArray l => JArray l
  | VObject l => JObject (list_to_map l)
  | VBinary bs => JBinary bs
  end.

Definition jv_inject (v : jvalue jv Z) : jv :=
  match v with
  | JNull => VNull
  | JBoolean b => VBoolean b
  | JInteger z => VInteger z
  | JFloat f => VFloat f
  | JString s => VString s
  | JArray l => VArray l
  | JObject m => VObject (map_to_list m)
  | JBinary bs => VBinary bs
  end.

Definition jv_encode (j : jv) : list Z := pos_bits (encode j).

Definition jv_decode (bs : list Z) : result json_exception jv :=
  if decode (bits_pos bs) is Some j then Ok j else Throw parse_error.

Lemma jv_decode_encode j : jv_decode (jv_encode j) = Ok j.
Proof. unfold jv_decode, jv_encode. by rewrite bits_pos_bits, decode_encode. Qed.

(** A key that was seen before is shadowed. *)
Fixpoint jv_printable (j : jv) : bool :=
  match j with
  | VString s => utf8_text s
  | VArray l => forallb jv_printable l
  | VObject l =>
      (fix go (seen : list string) (l : list (string * jv)) : bool :=
         match l with
         | [] => true
         | (k, v) :: l => (existsb (String.eqb k) seen || utf8_text k && jv_printable v) && go (k :: seen) l
         end) [] l
  | _ => true
  end.

Fixpoint printable_members (seen : list string) (l : list (string * jv)) : bool :=
  match l with
  | [] => true
  | (k, v) :: l => (existsb (String.eqb k) seen || utf8_text k && jv_printable v) && printable_members (k :: seen) l
  end.

Lemma seen_spec k seen : existsb (String.eqb k) seen = true <-> k ∈ seen.
Proof.
  rewrite existsb_exists. split.
  - intros (k' & Hk & ->%String.eqb_eq). by apply list_elem_of_In.
  - intros Hk. exists k. split; [by apply list_elem_of_In|apply String.eqb_refl].
Qed.

Lemma printable_members_spec l : forall seen,
  printable_members seen l = true <->
  forall k v, k ∉ seen -> (list_to_map l : gmap string jv) !! k = Some v ->
    utf8_text k = true /\ jv_printable v = true.
Proof.
  induction l as [|[k v] l IH]; intros seen; cbn [printable_members list_to_map foldr uncurry fst snd].
  { split; [intros _ k v _; by rewrite lookup_empty|done]. }
  rewrite andb_true_iff, orb_true_iff, andb_true_iff, seen_spec, IH. split.
  - intros [Hk Hl] k' v' Hs. destruct (decide (k = k')) as [<-|Hne].
    + rewrite lookup_insert_eq. intros [= <-]. by destruct Hk.
    + rewrite lookup_insert_ne by done. apply Hl. rewrite not_elem_of_cons. by split; [intros ->|].
  - intros H. split.
    + destruct (decide (k ∈ seen)) as [Hin|Hin]; [by left|right]. apply H; [done|by rewrite lookup_insert_eq].
    + intros k' v' [Hne Hs]%not_elem_of_cons Hv'. apply H; [done|]. by rewrite lookup_insert_ne.
Qed.

Lemma jv_printable_iff : forall j, jv_printable j = true <-> printable jv_view j.
Proof.
  fix IH 1. intros j.
  destruct j as [|b|z|f|s|l|l|bs]; try (split; [intros _; by apply printable_other|done]).
  - split; [intros Hs; by eapply printable_string|]. cbn. by inversion 1; simplify_eq/=.
  - assert (Hl : forall x, x ∈ l -> jv_printable x = true <-> printable jv_view x).
    { induction l as [|y l IHl]; intros x Hx; [clear IH; exfalso; by apply not_elem_of_nil in Hx|].
      apply elem_of_cons in Hx as [->|Hx]; [apply IH|by apply IHl]. }
    cbn [jv_printable]. rewrite forallb_forall. split.
    + intros H. apply (printable_array _ _ l); [done|]. intros x Hx. by apply Hl, H, list_elem_of_In.
    + inversion 1; simplify_eq/=; [|done]. intros x Hx%list_elem_of_In. by apply Hl; [|eauto].
  - assert (Hl : forall k x, (list_to_map l : gmap string jv) !! k = Some x -> jv_printable x = true <-> printable jv_view x).
    { induction l as [|[k' y] l IHl]; intros k x; cbn; [clear IH; by rewrite lookup_empty|].
      destruct (decide (k' = k)) as [->|Hne]; [rewrite lookup_insert_eq; intros [= <-]; apply IH|].
      rewrite lookup_insert_ne by done. apply IHl. }
    change (jv_printable (VObject l)) with (printable_members [] l). rewrite printable_members_spec. split.
    + intros H. apply (printable_object _ _ (list_to_map l)); [done|..]; intros k v Hv;
        (destruct (H k v) as [Hk Hb]; [apply not_elem_of_nil|done|]); [done|by apply (Hl k)].
    + inversion 1 as [| |m E Hk Hv|]; simplify_eq/=; [|done].
      intros k v _ Hm. split; [by eapply Hk|]. apply (Hl k); [done|by eapply Hv].
Qed.

Definition jv_dump (j : jv) : result json_exception (list Z) :=
  if jv_printable j then Ok (jv_encode j) else Throw type_error.

Lemma jv_dump_law j : (printable jv_view j -> exists text, jv_dump j = Ok text) /\
  (~ printable jv_view j -> jv_dump j = Throw type_error).
Proof.
  unfold jv_dump. rewrite <- jv_printable_iff. destruct (jv_printable j); split; try done. by eexists.
Qed.

Lemma jv_view_inject v : jv_view (jv_inject v) = v.
Proof. destruct v; try done. cbn. by rewrite list_to_map_to_list. Qed.

Lemma jv_brace_null : VArray [VNull] = jv_inject JNull \/
  VArray [VNull] = jv_inject (JArray [jv_inject JNull]).
Proof. by right. Qed.

Lemma jv_bytes j : Forall is_byte (jv_encode j).
Proof. apply pos_bits_byte. Qed.

Definition jv_json : JsonLib :=
  {| json := jv; double := Z; view := jv_view; inject := jv_inject; view_inject := jv_view_inject;
     trunc := id; double_of := id; brace_null := VArray [VNull]; brace_null_law := jv_brace_null;
     parse := jv_decode; from_msgpack := jv_decode; to_msgpack := jv_encode;
     dump := jv_dump; dump_law := jv_dump_law; msgpack_roundtrip := jv_decode_encode; msgpack_bytes := jv_bytes |}.
