(* ===== verification/BasePeer.v ===== *)
(** * The transport-independent half of a peer

    [src/detail/base_peer.cpp] and [include/ws-streaming/detail/base_peer.hpp]:
    the receive buffer, frame and packet parsing, metadata decoding, and the
    close protocol.  The object is a pair of the base-class state and the state
    [T] of the derived class; the pure virtual functions are the operations of
    the classes [Transport] and [ControlSender], whose laws say what a derived
    class may do to the base state.  Raising a signal appends to [raised]; the
    slots themselves belong to the connection.  A pointer into the receive
    buffer is an offset.  The parsing loops carry fuel, and are proved never to
    run out of it. *)
From S2P Require Import Prelude Json.
From S2P Require WebsocketProtocol StreamingProtocol.
Module WS := WebsocketProtocol.
Module SP := StreamingProtocol.
#[local] Open Scope nat_scope.

(** ** Shared types *)

(** boost::system::error_code, with the values the sources name. *)
Inductive error_code : Type :=
| success
| no_buffer_space
| operation_not_supported
| operation_aborted
| would_block
| timeout
| bad_status
| other_error (n : Z).

#[export] Instance error_code_eq_dec : EqDecision error_code.
Proof. solve_decision. Defined.

(** Handlers posted to the executor by [run(data, size)]. *)
Inductive posted_handler : Type :=
| post_close (ec : error_code)
| post_process_buffer.

Section Types.
Context `{JL : JsonLib}.

(** The three signals. *)
Inductive signal : Type :=
| on_data_received (signo : Z) (data : list Z)
| on_metadata_received (signo : Z) (method : string) (params : json)
| on_closed (ec : error_code).

Record base_peer := mk_base {
  use_tcp_protocol : bool;
  is_closed : bool;
  rx_buffer : list Z;
  rx_buffer_bytes : nat;
  rx_buffer_max : nat;
  posted : list posted_handler;
  raised : list signal
}.

Definition set_rx (buf : list Z) (n : nat) (b : base_peer) : base_peer :=
  mk_base (use_tcp_protocol b) (is_closed b) buf n (rx_buffer_max b) (posted b) (raised b).

Definition set_closed (b : base_peer) : base_peer :=
  mk_base (use_tcp_protocol b) true (rx_buffer b) (rx_buffer_bytes b) (rx_buffer_max b)
    (posted b) (raised b).

Definition post (h : posted_handler) (b : base_peer) : base_peer :=
  mk_base (use_tcp_protocol b) (is_closed b) (rx_buffer b) (rx_buffer_bytes b) (rx_buffer_max b)
    (posted b ++ [h]) (raised b).

Definition raise (s : list signal) (b : base_peer) : base_peer :=
  mk_base (use_tcp_protocol b) (is_closed b) (rx_buffer b) (rx_buffer_bytes b) (rx_buffer_max b)
    (posted b) (raised b ++ s).

(** ** Construction and buffer growth *)

Definition INITIAL_RX_BUFFER_SIZE : nat := N.to_nat (64 * 1024).

Definition make (tcp : bool) (rx_buffer_size : nat) : base_peer :=
  mk_base tcp false (replicate (INITIAL_RX_BUFFER_SIZE `min` rx_buffer_size) 0%Z) 0
    rx_buffer_size [] [].

Definition grow_rx_buffer (b : base_peer) : base_peer * bool :=
  if rx_buffer_max b <=? length (rx_buffer b) then (b, false)
  else (set_rx (resize ((length (rx_buffer b) * 2) `min` rx_buffer_max b) 0%Z (rx_buffer b))
          (rx_buffer_bytes b) b, true).

(** ** Packets *)

Definition process_data_packet (signo : Z) (data : list Z) (b : base_peer) : base_peer :=
  raise [on_data_received signo data] b.

(** The encoding word is assembled from promoted [int]s and converted. *)
Definition metadata_encoding (tcp : bool) (data : list Z) : Z :=
  let d0 := byte_at data 0 in let d1 := byte_at data 1 in
  let d2 := byte_at data 2 in let d3 := byte_at data 3 in
  u32 (s32 (if tcp
            then Z.lor (Z.lor (Z.lor d3 (d2 ≪ 8)) (d1 ≪ 16)) (d0 ≪ 24)
            else Z.lor (Z.lor (Z.lor d0 (d1 ≪ 8)) (d2 ≪ 16)) (d3 ≪ 24))%Z).

(** [metadata] keeps its initial null value when the parser throws. *)
Definition decode_metadata (encoding : Z) (data : list Z) : json :=
  if (encoding =? SP.metadata_encoding_JSON)%Z then
    match parse data with Ok j => j | Throw _ => jnull end
  else if (encoding =? SP.metadata_encoding_MSGPACK)%Z then
    match from_msgpack data with Ok j => j | Throw _ => jnull end
  else jnull.

Definition process_metadata_packet (signo : Z) (data : list Z) (b : base_peer) : base_peer :=
  if length data <? 4 then b else
  let metadata := decode_metadata (metadata_encoding (use_tcp_protocol b) data) (drop 4 data) in
  if is_object metadata && contains metadata "method" && is_string (field metadata "method") then
    raise [on_metadata_received signo (string_of (field metadata "method"))
             (if contains metadata "params" then field metadata "params" else brace_null)] b
  else b.

(** Processes the packet at the front of [data] and returns its size, or 0. *)
Definition process_packet (data : list Z) (b : base_peer) : base_peer * nat :=
  let header := SP.decode_header data in
  if (SP.header_size header =? 0)%Z then (b, 0) else
  let payload := slice (Z.to_nat (SP.header_size header)) (Z.to_nat (SP.payload_size header)) data in
  let b :=
    if (SP.type header =? SP.packet_type_DATA)%Z
    then process_data_packet (SP.signo header) payload b
    else if (SP.type header =? SP.packet_type_METADATA)%Z
    then process_metadata_packet (SP.signo header) payload b
    else b in
  (b, Z.to_nat (SP.header_size header) + Z.to_nat (SP.payload_size header)).

(** The packet loops of [process_buffer_tcp] and of a BINARY frame: process
    packets of [data] from [offset] until none is complete. *)
Fixpoint packet_loop (fuel offset : nat) (data : list Z) (b : base_peer)
    : option (base_peer * nat) :=
  match fuel with
  | 0 => None
  | S fuel =>
      let '(b, bytes_consumed) := process_packet (drop offset data) b in
      if bytes_consumed =? 0 then Some (b, offset)
      else packet_loop fuel (offset + bytes_consumed) data b
  end.

(** Slides what remains from [offset] to the front of the buffer. *)
Definition compact (offset : nat) (b : base_peer) : base_peer :=
  if offset =? 0 then b else
  let n := rx_buffer_bytes b - offset in
  set_rx (splice 0 (slice offset n (rx_buffer b)) (rx_buffer b)) n b.

(** The bytes received and not yet processed. *)
Definition pending (b : base_peer) : list Z := take (rx_buffer_bytes b) (rx_buffer b).

(** Unmasking a frame's payload. *)
Definition unmask (key data : list Z) : list Z :=
  imap (fun i x => Z.lxor x (byte_at key (i `mod` 4))) data.
End Types.

(** ** The virtual functions

    [do_read] starts an asynchronous read, [shutdown_and_close] and
    [close_socket] act on the socket. *)
Class Transport (T : Type) := {
  do_read : T -> T;
  shutdown_and_close : T -> T;
  close_socket : T -> T
}.

Section Operations.
Context `{JL : JsonLib} {T : Type} `{!Transport T}.
Abbreviation peer := (base_peer * T)%type.

Definition on_base (f : base_peer -> base_peer) (p : peer) : peer := (f p.1, p.2).

Definition close (ec : error_code) (p : peer) : peer :=
  if is_closed p.1 then p
  else (raise [on_closed ec] (set_closed p.1), shutdown_and_close p.2).

(** [stop()] *)
Definition stop (p : peer) : peer := (p.1, close_socket p.2).

(** [run()] *)
Definition start_reading (p : peer) : peer := (p.1, do_read p.2).

(** [run(data, size)] *)
Fixpoint grow_to (fuel n : nat) (b : base_peer) : option base_peer :=
  if length (rx_buffer b) <? n then
    match grow_rx_buffer b with
    | (b, false) => Some b
    | (b, true) => if fuel is S fuel then grow_to fuel n b else None
    end
  else Some b.

Definition run_data (data : list Z) (p : peer) : option peer :=
  match grow_to (length data) (length data) p.1 with
  | None => None
  | Some b =>
      Some (if length (rx_buffer b) <? length data
            then (post (post_close no_buffer_space) b, p.2)
            else (post post_process_buffer
                    (set_rx (splice 0 data (rx_buffer b)) (length data) b), p.2))
  end.

(** The common tail of both [process_buffer] functions. *)
Definition finish_processing (p : peer) : peer :=
  if rx_buffer_bytes p.1 =? length (rx_buffer p.1) then
    match grow_rx_buffer p.1 with
    | (b, true) => (b, do_read p.2)
    | (b, false) => close no_buffer_space (b, p.2)
    end
  else (p.1, do_read p.2).

Definition process_buffer_tcp (p : peer) : option peer :=
  match packet_loop (S (rx_buffer_bytes p.1)) 0 (pending p.1) p.1 with
  | None => None
  | Some (b, offset) => Some (finish_processing (compact offset b, p.2))
  end.

(** How a derived class may change the base state while it sends: it may close
    the connection, and nothing else. *)
Record may_close (b b' : base_peer) : Prop := {
  mc_tcp : use_tcp_protocol b' = use_tcp_protocol b;
  mc_buf : rx_buffer b' = rx_buffer b;
  mc_bytes : rx_buffer_bytes b' = rx_buffer_bytes b;
  mc_max : rx_buffer_max b' = rx_buffer_max b;
  mc_posted : posted b' = posted b;
  mc_raised : is_closed b' = is_closed b /\ raised b' = raised b \/
    is_closed b = false /\ is_closed b' = true /\
    exists ec, raised b' = raised b ++ [on_closed ec]
}.
End Operations.

(** A derived class that can transmit control frames: the operation may run
    out of fuel only outside the derived class's own invariant, [transport_wf],
    which may depend on whether the peer is closed. *)
Class ControlSender `{JL : JsonLib} (T : Type) `{!Transport T} := {
  send_control_frame : Z -> list Z -> nat -> bool -> base_peer * T -> option (base_peer * T);
  transport_wf : bool -> T -> Prop;
  wf_do_read : forall c t, transport_wf c t -> transport_wf c (do_read t);
  wf_shutdown_and_close : forall t,
    transport_wf false t -> transport_wf true (shutdown_and_close t);
  wf_close_socket : forall c t, transport_wf c t -> transport_wf c (close_socket t);
  send_control_frame_law : forall opcode payload size shutdown_after p,
    transport_wf (is_closed p.1) p.2 -> length payload = size ->
    exists p', send_control_frame opcode payload size shutdown_after p = Some p' /\
      may_close p.1 p'.1 /\ transport_wf (is_closed p'.1) p'.2
}.

Section Receiving.
Context `{JL : JsonLib} {T : Type} `{!Transport T} `{!ControlSender T}.
Abbreviation peer := (base_peer * T)%type.

Definition sender_ok (p : peer) : Prop := transport_wf (is_closed p.1) p.2.

(** [process_websocket_frame]: the payload is the range of [size] bytes at
    [off] of the receive buffer, and is unmasked in place. *)
Definition process_websocket_frame (header : WS.decoded_header) (off size : nat) (p : peer)
    : option (peer * error_code) :=
  if (Z.land (WS.flags header) WS.flags_FIN =? 0)%Z then Some (p, operation_not_supported) else
  let b := p.1 in
  let b := if WS.is_masked header
           then set_rx (splice off (unmask (WS.masking_key header) (slice off size (rx_buffer b)))
                          (rx_buffer b)) (rx_buffer_bytes b) b
           else b in
  let data := slice off size (rx_buffer b) in
  if (WS.opcode header =? WS.opcode_CLOSE)%Z then
    (fun p => (p, success)) <$> send_control_frame WS.opcode_CLOSE [] 0 true (b, p.2)
  else if (WS.opcode header =? WS.opcode_PING)%Z then
    (fun p => (p, success)) <$> send_control_frame WS.opcode_PONG data size false (b, p.2)
  else if (WS.opcode header =? WS.opcode_BINARY)%Z then
    (fun '(b, _) => ((b, p.2), success)) <$> packet_loop (S size) 0 data b
  else Some ((b, p.2), success).

(** The frame loop of [process_buffer_ws]; the boolean tells whether it ended
    in the early [return close(process_ec)]. *)
Fixpoint frame_loop (fuel offset : nat) (p : peer) : option (peer * nat * bool) :=
  match fuel with
  | 0 => None
  | S fuel =>
      let header :=
        WS.decode_header (slice offset (rx_buffer_bytes p.1 - offset) (rx_buffer p.1)) in
      if (WS.header_size header =? 0)%Z then Some (p, offset, false) else
      let hs := Z.to_nat (WS.header_size header) in
      let size := Z.to_nat (WS.payload_size header) in
      match process_websocket_frame header (offset + hs) size p with
      | None => None
      | Some (p, process_ec) =>
          if bool_decide (process_ec = success) then frame_loop fuel (offset + (hs + size)) p
          else Some (close process_ec p, offset, true)
      end
  end.

Definition process_buffer_ws (p : peer) : option peer :=
  match frame_loop (S (rx_buffer_bytes p.1)) 0 p with
  | None => None
  | Some (p, _, true) => Some p
  | Some (p, offset, false) => Some (finish_processing (on_base (compact offset) p))
  end.

Definition process_buffer (p : peer) : option peer :=
  if use_tcp_protocol p.1 then process_buffer_tcp p else process_buffer_ws p.

(** Running the first posted handler. *)
Definition run_posted (p : peer) : option peer :=
  match posted p.1 with
  | [] => Some p
  | h :: rest =>
      let p := (mk_base (use_tcp_protocol p.1) (is_closed p.1) (rx_buffer p.1)
                  (rx_buffer_bytes p.1) (rx_buffer_max p.1) rest (raised p.1), p.2) in
      match h with
      | post_close ec => Some (close ec p)
      | post_process_buffer => process_buffer p
      end
  end.

(** What the completion handlers of both derived classes do with received
    bytes: store them behind those already there, then process. *)
Definition store (chunk : list Z) (b : base_peer) : base_peer :=
  set_rx (splice (rx_buffer_bytes b) chunk (rx_buffer b)) (rx_buffer_bytes b + length chunk) b.

Definition receive (chunk : list Z) (p : peer) : option peer :=
  process_buffer (on_base (store chunk) p).
End Receiving.

(** ** Specification: what a received byte stream means

    The stream is split into messages; a TCP stream's messages are packets, a
    WebSocket stream's are frames, whose BINARY payloads hold packets. *)

Definition dec_packet (d : list Z) : option ((Z * Z * list Z) * nat) :=
  let h := SP.decode_header d in
  if (SP.header_size h =? 0)%Z then None else
  let hs := Z.to_nat (SP.header_size h) in
  let ps := Z.to_nat (SP.payload_size h) in
  Some ((SP.type h, SP.signo h, slice hs ps d), hs + ps).

Definition dec_frame (d : list Z) : option ((WS.decoded_header * list Z) * nat) :=
  let h := WS.decode_header d in
  if (WS.header_size h =? 0)%Z then None else
  let hs := Z.to_nat (WS.header_size h) in
  let ps := Z.to_nat (WS.payload_size h) in
  Some ((h, slice hs ps d), hs + ps).

#[export] Instance dec_packet_decoder : Decoder _ dec_packet.
Proof.
  constructor; unfold dec_packet.
  - intros d a n Hb. destruct (Z.eqb_spec (SP.header_size (SP.decode_header d)) 0); [done|].
    intros [= <- <-]. pose proof (SP.packet_decode_header_bounds d).
    pose proof (SP.packet_decode_payload_nonneg d Hb). len.
  - intros d e a n Hb. destruct (Z.eqb_spec (SP.header_size (SP.decode_header d)) 0); [done|].
    rewrite SP.packet_decode_header_extend by done. intros [= <- <-].
    destruct (Z.eqb_spec (SP.header_size (SP.decode_header d)) 0); [done|].
    pose proof (SP.packet_decode_header_bounds d).
    pose proof (SP.packet_decode_payload_nonneg d Hb). rewrite slice_app_l; [done|len].
Qed.

#[export] Instance dec_frame_decoder : Decoder _ dec_frame.
Proof.
  constructor; unfold dec_frame.
  - intros d a n Hb. destruct (Z.eqb_spec (WS.header_size (WS.decode_header d)) 0); [done|].
    intros [= <- <-]. pose proof (WS.frame_decode_header_bounds d).
    pose proof (WS.frame_decode_payload_nonneg d Hb). len.
  - intros d e a n Hb. destruct (Z.eqb_spec (WS.header_size (WS.decode_header d)) 0); [done|].
    rewrite WS.frame_decode_header_extend by done. intros [= <- <-].
    destruct (Z.eqb_spec (WS.header_size (WS.decode_header d)) 0); [done|].
    pose proof (WS.frame_decode_header_bounds d).
    pose proof (WS.frame_decode_payload_nonneg d Hb). rewrite slice_app_l; [done|len].
Qed.

Section Specification.
Context `{JL : JsonLib}.

Definition metadata_signals (tcp : bool) (signo : Z) (payload : list Z) : list signal :=
  if length payload <? 4 then [] else
  let m := decode_metadata (metadata_encoding tcp payload) (drop 4 payload) in
  if is_object m && contains m "method" && is_string (field m "method") then
    [on_metadata_received signo (string_of (field m "method"))
       (if contains m "params" then field m "params" else brace_null)]
  else [].

Definition packet_signals (tcp : bool) (pk : Z * Z * list Z) : list signal :=
  let '(type, signo, payload) := pk in
  if (type =? SP.packet_type_DATA)%Z then [on_data_received signo payload]
  else if (type =? SP.packet_type_METADATA)%Z then metadata_signals tcp signo payload
  else [].

Definition packets_signals (tcp : bool) (d : list Z) : list signal :=
  mjoin (packet_signals tcp <$> (deframe dec_packet d).1).

Definition unmasked (h : WS.decoded_header) (data : list Z) : list Z :=
  if WS.is_masked h then unmask (WS.masking_key h) data else data.

Definition frame_signals (f : WS.decoded_header * list Z) : list signal :=
  if (WS.opcode f.1 =? WS.opcode_BINARY)%Z
  then packets_signals false (unmasked f.1 f.2) else [].

(** The signals a whole stream stands for, and its incomplete rest. *)
Definition stream_signals (tcp : bool) (d : list Z) : list signal :=
  if tcp then packets_signals true d else mjoin (frame_signals <$> (deframe dec_frame d).1).

Definition stream_rest (tcp : bool) (d : list Z) : list Z :=
  if tcp then (deframe dec_packet d).2 else (deframe dec_frame d).2.

Definition is_delivery (s : signal) : bool :=
  match s with on_closed _ => false | _ => true end.

Definition deliveries (b : base_peer) : list signal := List.filter is_delivery (raised b).

Definition closings (b : base_peer) : list signal :=
  List.filter (fun s => negb (is_delivery s)) (raised b).

(** The class invariant. *)
Record wf (b : base_peer) : Prop := {
  wf_bytes : rx_buffer_bytes b <= length (rx_buffer b);
  wf_cap : length (rx_buffer b) <= rx_buffer_max b;
  wf_nonempty : 0 < rx_buffer_max b -> 0 < length (rx_buffer b);
  wf_byte : Forall is_byte (rx_buffer b);
  wf_closed : length (closings b) = if is_closed b then 1 else 0
}.

(** ** Lemmas *)

Lemma raise_nil b : raise [] b = b.
Proof. destruct b. unfold raise; cbn. by rewrite app_nil_r. Qed.

Lemma raise_raise s s' b : raise s' (raise s b) = raise (s ++ s') b.
Proof. destruct b. unfold raise; cbn. by rewrite app_assoc. Qed.

Lemma process_packet_spec d b :
  process_packet d b =
  match dec_packet d with
  | Some (pk, n) => (raise (packet_signals (use_tcp_protocol b) pk) b, n)
  | None => (b, 0)
  end.
Proof.
  unfold process_packet, dec_packet. destruct (SP.header_size (SP.decode_header d) =? 0)%Z; [done|].
  cbn [packet_signals]. f_equal. destruct (_ =? SP.packet_type_DATA)%Z; [done|].
  destruct (_ =? SP.packet_type_METADATA)%Z; [|by rewrite raise_nil].
  unfold process_metadata_packet, metadata_signals.
  destruct (_ <? 4); [by rewrite raise_nil|]. cbn zeta.
  destruct (_ && _ && _); [done|by rewrite raise_nil].
Qed.

Lemma packet_loop_spec fuel : forall offset data b,
  Forall is_byte data -> offset <= length data -> length data - offset < fuel ->
  packet_loop fuel offset data b
  = Some (raise (packets_signals (use_tcp_protocol b) (drop offset data)) b,
          length data - length (deframe dec_packet (drop offset data)).2).
Proof.
  induction fuel as [|fuel IH]; intros offset data b Hb Ho Hf; [lia|]. cbn [packet_loop].
  rewrite process_packet_spec. unfold packets_signals.
  destruct (dec_packet (drop offset data)) as [[pk n]|] eqn:E.
  - pose proof (dec_bound _ _ _ (Forall_drop _ offset _ Hb) E) as Hn. rewrite length_drop in Hn.
    destruct (Nat.eqb_spec n 0); [lia|]. rewrite IH by (done || lia).
    rewrite (deframe_some _ (drop offset data) pk n) by (done || by apply Forall_drop).
    cbn [fst snd]. rewrite fmap_cons, drop_drop, raise_raise. done.
  - rewrite (deframe_none _ (drop offset data)) by done. cbn. rewrite raise_nil. f_equal. f_equal. len.
Qed.

Lemma deliveries_raise s b : deliveries (raise s b) = deliveries b ++ List.filter is_delivery s.
Proof. unfold deliveries, raise; cbn. by rewrite List.filter_app. Qed.

Lemma closings_raise s b :
  closings (raise s b) = closings b ++ List.filter (fun s => negb (is_delivery s)) s.
Proof. unfold closings, raise; cbn. by rewrite List.filter_app. Qed.

Lemma packet_signals_delivery tcp pk : Forall (fun s => is_delivery s = true) (packet_signals tcp pk).
Proof.
  destruct pk as [[? ?] ?]. unfold packet_signals, metadata_signals. cbn zeta.
  repeat case_match; repeat constructor.
Qed.

Lemma packets_signals_delivery tcp d :
  Forall (fun s => is_delivery s = true) (packets_signals tcp d).
Proof.
  unfold packets_signals. induction (deframe dec_packet d).1 as [|pk l IH]; [constructor|].
  rewrite fmap_cons. apply Forall_app_2; [apply packet_signals_delivery|done].
Qed.

Lemma filter_deliveries l : Forall (fun s => is_delivery s = true) l -> List.filter is_delivery l = l.
Proof. induction 1 as [|s l Hs _ IH]; cbn; [done|]. by rewrite Hs, IH. Qed.

Lemma filter_closings l :
  Forall (fun s => is_delivery s = true) l -> List.filter (fun s => negb (is_delivery s)) l = [].
Proof. induction 1 as [|s l Hs _ IH]; cbn; [done|]. by rewrite Hs, IH. Qed.
End Specification.

Section Invariants.
Context `{JL : JsonLib}.

(** [evolves s b b']: [b'] is a well-formed later state of [b] that has
    delivered the signals [s] since. *)
Record evolves (s : list signal) (b b' : base_peer) : Prop := {
  ev_wf : wf b';
  ev_tcp : use_tcp_protocol b' = use_tcp_protocol b;
  ev_max : rx_buffer_max b' = rx_buffer_max b;
  ev_closed : is_closed b = true -> is_closed b' = true;
  ev_raised : raised b `prefix_of` raised b';
  ev_deliveries : deliveries b' = deliveries b ++ s
}.

Lemma evolves_refl b : wf b -> evolves [] b b.
Proof. intros. constructor; try done. by rewrite app_nil_r. Qed.

Lemma evolves_trans s1 s2 a b c : evolves s1 a b -> evolves s2 b c -> evolves (s1 ++ s2) a c.
Proof.
  intros [] [H1 H2 H3 H4 H5 H6]. constructor; try done; [congruence|congruence|tauto|by etrans|].
  rewrite H6, app_assoc. congruence.
Qed.

Lemma evolves_raise s b :
  wf b -> Forall (fun s => is_delivery s = true) s -> evolves s b (raise s b).
Proof.
  intros [] Hs. constructor; try done.
  - constructor; try done. rewrite closings_raise, filter_closings, app_nil_r by done. done.
  - by apply prefix_app_r.
  - by rewrite deliveries_raise, filter_deliveries.
Qed.

Lemma evolves_may_close b b' : wf b -> may_close b b' -> evolves [] b b'.
Proof.
  intros [] [Ht Hb Hn Hm Hp Hr]. constructor; try done.
  - constructor; rewrite ?Hb, ?Hn, ?Hm; try done. unfold closings in *.
    destruct Hr as [[-> ->]|(E & -> & ec & ->)]; [done|].
    rewrite List.filter_app, length_app, E in *. cbn. lia.
  - by destruct Hr as [[-> _]|(_ & -> & _)].
  - destruct Hr as [[_ ->]|(_ & _ & ec & ->)]; [done|by apply prefix_app_r].
  - unfold deliveries. rewrite app_nil_r.
    destruct Hr as [[_ ->]|(_ & _ & ec & ->)]; [done|]. rewrite List.filter_app. cbn.
    by rewrite app_nil_r.
Qed.

Lemma evolves_set_rx buf n b :
  wf b -> n <= length buf -> length buf <= rx_buffer_max b ->
  length (rx_buffer b) <= length buf -> Forall is_byte buf -> evolves [] b (set_rx buf n b).
Proof.
  intros [] ? ? ? ?. constructor; try done; [|by rewrite app_nil_r]. constructor; try done; cbn; lia.
Qed.

Lemma compact_spec offset b :
  wf b -> offset <= rx_buffer_bytes b ->
  evolves [] b (compact offset b) /\
  rx_buffer (compact offset b) = splice 0 (drop offset (pending b)) (rx_buffer b) /\
  pending (compact offset b) = drop offset (pending b) /\
  rx_buffer_bytes (compact offset b) = rx_buffer_bytes b - offset.
Proof.
  intros Hwf Ho. pose proof (wf_bytes b Hwf). unfold compact, pending.
  assert (Hs : drop offset (take (rx_buffer_bytes b) (rx_buffer b))
               = slice offset (rx_buffer_bytes b - offset) (rx_buffer b)).
  { by rewrite <- slice_0, drop_slice. }
  rewrite Hs. assert (Hl : length (slice offset (rx_buffer_bytes b - offset) (rx_buffer b))
               = rx_buffer_bytes b - offset) by (apply length_slice; lia).
  destruct (Nat.eqb_spec offset 0) as [->|].
  - rewrite Nat.sub_0_r, slice_0 in *. split_and!; try done; [by apply evolves_refl|].
    unfold splice. cbn. rewrite Hl. by rewrite take_drop.
  - split_and!; cbn; try done.
    + apply evolves_set_rx; rewrite ?length_splice by (rewrite ?Hl; lia); try done; try lia.
      * apply wf_cap, Hwf.
      * apply splice_byte, Hwf. apply slice_byte, Hwf.
    + rewrite <- Hl at 1. apply take_splice_0.
Qed.

Lemma grow_rx_buffer_spec b :
  wf b -> let '(b', grown) := grow_rx_buffer b in
  evolves [] b b' /\ pending b' = pending b /\ rx_buffer_bytes b' = rx_buffer_bytes b /\
  is_closed b' = is_closed b /\
  (if grown then length (rx_buffer b) < length (rx_buffer b')
   else b' = b /\ length (rx_buffer b) = rx_buffer_max b).
Proof.
  intros Hwf. destruct Hwf as [Hn Hc Hp Hb Hcl] eqn:E. clear E. unfold grow_rx_buffer.
  destruct (Nat.leb_spec (rx_buffer_max b) (length (rx_buffer b))).
  { split_and!; try done; [by apply evolves_refl|lia]. }
  assert (Hl : length (rx_buffer b) < (length (rx_buffer b) * 2) `min` rx_buffer_max b) by lia.
  split_and!; try done; cbn.
  - apply evolves_set_rx; rewrite ?length_resize; try done; try lia.
    apply Forall_resize; [unfold in_u; lia|done].
  - unfold pending; cbn. rewrite resize_ge by lia. rewrite take_app_le by lia. done.
  - rewrite length_resize. done.
Qed.

Lemma store_spec chunk b :
  wf b -> Forall is_byte chunk -> rx_buffer_bytes b + length chunk <= length (rx_buffer b) ->
  evolves [] b (store chunk b) /\ pending (store chunk b) = pending b ++ chunk /\
  rx_buffer_bytes (store chunk b) = rx_buffer_bytes b + length chunk /\
  length (rx_buffer (store chunk b)) = length (rx_buffer b).
Proof.
  intros Hwf Hb Hl. pose proof (wf_bytes b Hwf). unfold store, pending; cbn.
  rewrite length_splice by lia. split_and!; try done.
  - apply evolves_set_rx; rewrite ?length_splice by lia; try done; [apply Hwf|].
    apply splice_byte; [done|apply Hwf].
  - apply take_splice_at. lia.
Qed.
End Invariants.

Section Transport.
Context `{JL : JsonLib} {T : Type} `{!Transport T}.
Abbreviation peer := (base_peer * T)%type.

Lemma may_close_refl b : may_close b b.
Proof. constructor; try done. by left. Qed.

Lemma close_may_close ec (p : peer) : may_close p.1 (close ec p).1.
Proof.
  unfold close. destruct (is_closed p.1) eqn:E; [apply may_close_refl|].
  constructor; try done. right. cbn. eauto.
Qed.

Lemma close_is_closed ec (p : peer) : is_closed (close ec p).1 = true.
Proof. unfold close. by destruct (is_closed p.1) eqn:E. Qed.

Lemma finish_processing_spec (p : peer) :
  wf p.1 -> evolves [] p.1 (finish_processing p).1 /\
  pending (finish_processing p).1 = pending p.1 /\
  rx_buffer_bytes (finish_processing p).1 = rx_buffer_bytes p.1 /\
  (if bool_decide (rx_buffer_bytes p.1 = rx_buffer_max p.1)
   then is_closed (finish_processing p).1 = true
   else is_closed (finish_processing p).1 = is_closed p.1 /\
        rx_buffer_bytes p.1 < length (rx_buffer (finish_processing p).1)).
Proof.
  intros Hwf. pose proof (wf_bytes _ Hwf). pose proof (wf_cap _ Hwf). unfold finish_processing.
  destruct (Nat.eqb_spec (rx_buffer_bytes p.1) (length (rx_buffer p.1))) as [E|E].
  - pose proof (grow_rx_buffer_spec p.1 Hwf) as Hg.
    destruct (grow_rx_buffer p.1) as [b [|]].
    + destruct Hg as (He & Hp & Hn & Hc & Hl). cbn. split_and!; try done.
      rewrite bool_decide_false; [split; [done|lia]|].
      pose proof (wf_cap _ (ev_wf _ _ _ He)). rewrite (ev_max _ _ _ He) in *. lia.
    + destruct Hg as (_ & _ & _ & _ & -> & Hl). rewrite bool_decide_true by lia.
      pose proof (close_may_close no_buffer_space (p.1, p.2)) as Hm.
      pose proof (evolves_may_close _ _ Hwf Hm) as He. destruct Hm as [? Hb Hn ? ? ?]. cbn in Hb, Hn.
      split_and!; [done| |done|apply close_is_closed]. unfold pending. by rewrite Hb, Hn.
  - cbn. split_and!; try done; [by apply evolves_refl|].
    rewrite bool_decide_false by lia. split; [done|lia].
Qed.

Lemma process_buffer_tcp_spec (p : peer) :
  wf p.1 -> use_tcp_protocol p.1 = true -> exists p', process_buffer_tcp p = Some p' /\
  evolves (stream_signals true (pending p.1)) p.1 p'.1 /\
  pending p'.1 = stream_rest true (pending p.1) /\
  (if bool_decide (length (pending p'.1) = rx_buffer_max p.1) then is_closed p'.1 = true
   else is_closed p'.1 = is_closed p.1 /\ length (pending p'.1) < length (rx_buffer p'.1)).
Proof.
  intros Hwf Ht. pose proof (wf_bytes _ Hwf) as Hn. unfold process_buffer_tcp.
  assert (Hpl : length (pending p.1) = rx_buffer_bytes p.1) by (unfold pending; len).
  assert (Hpb : Forall is_byte (pending p.1)) by apply Forall_take, Hwf.
  rewrite packet_loop_spec by (done || lia). rewrite Ht, drop_0. eexists. split; [done|].
  pose proof (evolves_raise (packets_signals true (pending p.1)) p.1 Hwf
    (packets_signals_delivery _ _)) as H1.
  set (b1 := raise _ _) in *. set (off := _ - _).
  assert (Hoff : off <= rx_buffer_bytes b1) by (subst off; cbn; lia).
  destruct (compact_spec off b1 (ev_wf _ _ _ H1) Hoff) as (H2 & _ & Hp2 & Hn2).
  change (pending b1) with (pending p.1) in Hp2.
  destruct (finish_processing_spec (compact off b1, p.2) (ev_wf _ _ _ H2)) as (H3 & Hp3 & Hn3 & H4).
  cbn [fst] in *. rewrite Hp2 in Hp3.
  destruct (deframe_rest dec_packet (pending p.1) Hpb) as [Hr1 Hr2].
  assert (Hrest : pending (finish_processing (compact off b1, p.2)).1 = stream_rest true (pending p.1)).
  { rewrite Hp3. unfold stream_rest. rewrite Hr2. done. }
  split_and!; [|done|].
  - pose proof (evolves_trans _ _ _ _ _ (evolves_trans _ _ _ _ _ H1 H2) H3) as He.
    by rewrite !app_nil_r in He.
  - assert (Hlen : length (stream_rest true (pending p.1)) = rx_buffer_bytes (compact off b1)).
    { unfold stream_rest. rewrite Hn2. subst off. cbn. lia. }
    rewrite Hrest, Hlen. rewrite (ev_max _ _ _ H2) in H4. cbn in H4.
    destruct (bool_decide _); [done|]. destruct H4 as [H4 H5]. split; [|done].
    rewrite H4. unfold compact. by destruct (off =? 0).
Qed.
End Transport.

Section Frames.
Context `{JL : JsonLib} {T : Type} `{!Transport T} `{!ControlSender T}.
Abbreviation peer := (base_peer * T)%type.

Lemma unmask_byte key data :
  Forall is_byte key -> Forall is_byte data -> Forall is_byte (unmask key data).
Proof.
  intros Hk Hd. unfold unmask. apply Forall_forall. intros x Hx.
  apply elem_of_lookup_imap in Hx as (i & y & -> & Hy). apply lxor_byte.
  - rewrite Forall_forall in Hd. by eapply Hd, list_elem_of_lookup_2.
  - by apply byte_at_byte.
Qed.

Lemma length_unmask key data : length (unmask key data) = length data.
Proof. apply length_imap. Qed.

Lemma sender_ok_close ec (p : peer) : sender_ok p -> sender_ok (close ec p).
Proof.
  unfold sender_ok, close. intros Hp. destruct (is_closed p.1) eqn:E; cbn; [by rewrite E|].
  by apply wf_shutdown_and_close.
Qed.

(** Everything behind [off] is untouched. *)
Definition same_after (off : nat) (b b' : base_peer) : Prop :=
  rx_buffer_bytes b' = rx_buffer_bytes b /\ length (rx_buffer b') = length (rx_buffer b) /\
  forall off' n, off <= off' -> slice off' n (rx_buffer b') = slice off' n (rx_buffer b).

Lemma process_websocket_frame_spec h off size (p : peer) :
  wf p.1 -> sender_ok p -> use_tcp_protocol p.1 = false ->
  Forall is_byte (WS.masking_key h) -> off + size <= rx_buffer_bytes p.1 ->
  exists p' ec, process_websocket_frame h off size p = Some (p', ec) /\ sender_ok p' /\
    (ec = success /\
     evolves (frame_signals (h, slice off size (rx_buffer p.1))) p.1 p'.1 /\
     same_after (off + size) p.1 p'.1
     \/ ec = operation_not_supported /\ p' = p).
Proof.
  intros Hwf Ht Htcp Hk Hs. pose proof (wf_bytes _ Hwf) as Hn. unfold process_websocket_frame.
  destruct (Z.land _ _ =? 0)%Z; [by exists p, operation_not_supported; eauto|].
  set (b := if WS.is_masked h then _ else _).
  set (payload := slice off size (rx_buffer p.1)).
  assert (Hlp : length payload = size) by (apply length_slice; lia).
  assert (Hb : evolves [] p.1 b /\ same_after (off + size) p.1 b /\
    slice off size (rx_buffer b) = unmasked h payload /\ use_tcp_protocol b = false /\
    is_closed b = is_closed p.1).
  { subst b. unfold unmasked. fold payload. destruct (WS.is_masked h); [|by split_and!; try apply evolves_refl].
    assert (Hlen : length (splice off (unmask (WS.masking_key h) payload) (rx_buffer p.1))
                   = length (rx_buffer p.1)) by (apply length_splice; rewrite length_unmask; lia).
    split_and!; try done.
    - apply evolves_set_rx; rewrite ?Hlen; try done; [apply Hwf|].
      apply splice_byte, Hwf. apply unmask_byte; [done|]. apply slice_byte, Hwf.
    - split; [done|]. split; [exact Hlen|]. intros off' n Ho. apply slice_splice_after; rewrite length_unmask; lia.
    - cbn. rewrite <- Hlp at 1. rewrite <- (length_unmask (WS.masking_key h) payload).
      apply slice_splice_same. rewrite length_unmask. lia. }
  destruct Hb as (He & Hsa & Hpl & Htb & Hcb). clearbody b. rewrite Hpl.
  assert (Hok : sender_ok (b, p.2)) by (unfold sender_ok; cbn; by rewrite Hcb).
  assert (Hul : length (unmasked h payload) = size).
  { unfold unmasked. destruct (WS.is_masked h); by rewrite ?length_unmask. }
  assert (Hsend : forall op pl n sh, WS.opcode h <> WS.opcode_BINARY -> length pl = n -> exists p' ec,
    (fun p => (p, success)) <$> send_control_frame op pl n sh (b, p.2) = Some (p', ec) /\
    sender_ok p' /\
    (ec = success /\ evolves (frame_signals (h, payload)) p.1 p'.1 /\
     same_after (off + size) p.1 p'.1 \/ ec = operation_not_supported /\ p' = p)).
  { intros op pl n sh Hop Hpn. destruct (send_control_frame_law op pl n sh (b, p.2) Hok Hpn) as (p' & -> & Hm & Ht').
    exists p', success. split; [done|]. split; [done|]. left. split; [done|]. split.
    - unfold frame_signals. cbn [fst]. destruct (Z.eqb_spec (WS.opcode h) WS.opcode_BINARY); [done|].
      apply (evolves_trans [] [] _ _ _ He), evolves_may_close; [apply He|done].
    - destruct Hm as [_ Hb Hbn _ _ _], Hsa as (? & ? & Hsl). cbn in Hb, Hbn.
      unfold same_after. rewrite Hb, Hbn. split_and!; try done; auto. }
  destruct (Z.eqb_spec (WS.opcode h) WS.opcode_CLOSE) as [E|_].
  { apply Hsend; [by rewrite E|done]. }
  destruct (Z.eqb_spec (WS.opcode h) WS.opcode_PING) as [E|_].
  { apply Hsend; [by rewrite E|done]. }
  destruct (Z.eqb_spec (WS.opcode h) WS.opcode_BINARY) as [E|E].
  - assert (Hub : Forall is_byte (unmasked h payload)).
    { rewrite <- Hpl. apply slice_byte, He. }
    rewrite packet_loop_spec by (done || lia). rewrite Htb, drop_0. cbn [fmap option_fmap option_map].
    eexists _, _. split; [done|]. split; [done|]. left. split; [done|]. split; [|done].
    unfold frame_signals. cbn [fst snd]. rewrite E. cbn.
    apply (evolves_trans [] _ _ _ _ He), evolves_raise; [apply He|apply packets_signals_delivery].
  - eexists _, _. split; [done|]. split; [done|]. left. split; [done|]. split; [|done].
    unfold frame_signals. cbn [fst]. by destruct (Z.eqb_spec (WS.opcode h) WS.opcode_BINARY).
Qed.

Lemma frame_loop_spec fuel : forall offset (p : peer),
  wf p.1 -> sender_ok p -> use_tcp_protocol p.1 = false ->
  offset <= rx_buffer_bytes p.1 -> rx_buffer_bytes p.1 - offset < fuel ->
  let D := slice offset (rx_buffer_bytes p.1 - offset) (rx_buffer p.1) in
  exists p' offset' early, frame_loop fuel offset p = Some (p', offset', early) /\
    sender_ok p' /\
    if early : bool
    then is_closed p'.1 = true /\
         exists s, s `prefix_of` mjoin (frame_signals <$> (deframe dec_frame D).1) /\
                   evolves s p.1 p'.1
    else evolves (mjoin (frame_signals <$> (deframe dec_frame D).1)) p.1 p'.1 /\
         rx_buffer_bytes p'.1 = rx_buffer_bytes p.1 /\ offset' <= rx_buffer_bytes p.1 /\
         slice offset' (rx_buffer_bytes p'.1 - offset') (rx_buffer p'.1) = (deframe dec_frame D).2.
Proof.
  induction fuel as [|fuel IH]; intros offset p Hwf Ht Htcp Ho Hf D; [lia|]. cbn [frame_loop].
  pose proof (wf_bytes _ Hwf) as Hn. fold D.
  assert (HD : length D = rx_buffer_bytes p.1 - offset) by (apply length_slice; lia).
  assert (HDb : Forall is_byte D) by apply slice_byte, Hwf.
  destruct (dec_frame D) as [[f n]|] eqn:E; unfold dec_frame in E;
    destruct (Z.eqb_spec (WS.header_size (WS.decode_header D)) 0) as [E0|E0]; try done.
  2: { exists p, offset, false. rewrite (deframe_none dec_frame D).
       2: { unfold dec_frame. rewrite E0. done. }
       split_and!; try done. by apply evolves_refl. }
  assert (Hdec : dec_frame D = Some (f, n)).
  { unfold dec_frame. destruct (Z.eqb_spec (WS.header_size (WS.decode_header D)) 0); done. }
  rewrite (deframe_some dec_frame D f n HDb Hdec). cbn [fst snd].
  pose proof (dec_bound D f n HDb Hdec) as Hb. injection E as <- <-.
  set (h := WS.decode_header D) in *. set (hs := Z.to_nat (WS.header_size h)) in *.
  set (size := Z.to_nat (WS.payload_size h)) in *.
  destruct (process_websocket_frame_spec h (offset + hs) size p Hwf Ht Htcp) as
    (p1 & ec & -> & Ht1 & Hres); [by apply WS.decode_header_masking_key|lia|].
  assert (Hpay : slice (offset + hs) size (rx_buffer p.1) = slice hs size D).
  { unfold D. by rewrite slice_slice by lia. }
  destruct Hres as [(-> & He & Hn1 & Hl1 & Hsl)|[-> ->]].
  - rewrite bool_decide_true by done. rewrite Hpay in He.
    destruct (IH (offset + (hs + size)) p1) as (p' & off' & early & Hloop & Ht' & Hr).
    { apply He. } { done. } { by rewrite (ev_tcp _ _ _ He). } { lia. } { lia. }
    exists p', off', early. split; [done|]. split; [done|].
    assert (HD' : slice (offset + (hs + size)) (rx_buffer_bytes p1.1 - (offset + (hs + size)))
                   (rx_buffer p1.1) = drop (hs + size) D).
    { rewrite Hsl, Hn1 by lia. unfold D. rewrite drop_slice. f_equal; lia. }
    rewrite HD' in Hr. destruct early.
    + destruct Hr as (Hc & s & Hs & He'). split; [done|]. eexists. split.
      2: { apply (evolves_trans _ _ _ _ _ He He'). }
      rewrite fmap_cons. by apply prefix_app.
    + destruct Hr as (He' & Hn' & Ho' & Hrest). split_and!; [|lia|lia|done].
      apply (evolves_trans _ _ _ _ _ He He').
  - rewrite bool_decide_false by done. eexists _, _, _. split; [done|]. split.
    + by apply sender_ok_close.
    + split; [apply close_is_closed|]. exists []. split; [apply prefix_nil|].
      apply evolves_may_close; [done|]. apply close_may_close.
Qed.
End Frames.

Section Runs.
Context `{JL : JsonLib} {T : Type} `{!Transport T} `{!ControlSender T}.
Abbreviation peer := (base_peer * T)%type.

Lemma sender_ok_compact off (p : peer) : sender_ok p -> sender_ok (on_base (compact off) p).
Proof. unfold sender_ok, on_base, compact. cbn. by destruct (off =? 0). Qed.

Lemma finish_processing_transport (p : peer) :
  sender_ok p -> sender_ok (finish_processing p).
Proof.
  intros Ht. unfold finish_processing, grow_rx_buffer. repeat case_match; simplify_eq;
    try (by apply sender_ok_close); by apply wf_do_read.
Qed.

Lemma process_buffer_ws_spec (p : peer) :
  wf p.1 -> sender_ok p -> use_tcp_protocol p.1 = false ->
  exists p' s, process_buffer_ws p = Some p' /\ sender_ok p' /\ evolves s p.1 p'.1 /\
    s `prefix_of` stream_signals false (pending p.1) /\
    (is_closed p'.1 = false -> s = stream_signals false (pending p.1) /\
       pending p'.1 = stream_rest false (pending p.1) /\
       rx_buffer_bytes p'.1 < length (rx_buffer p'.1)).
Proof.
  intros Hwf Ht Htcp. unfold process_buffer_ws.
  destruct (frame_loop_spec (S (rx_buffer_bytes p.1)) 0 p) as (p1 & off & early & -> & Ht1 & Hr);
    [done..|lia|lia|]. rewrite Nat.sub_0_r, slice_0 in Hr. fold (pending p.1) in Hr.
  destruct early.
  - destruct Hr as (Hc & s & Hp & He). exists p1, s. split_and!; try done. by rewrite Hc.
  - destruct Hr as (He & Hn & Ho & Hrest).
    destruct (compact_spec off p1.1) as (He2 & _ & Hp2 & Hn2); [apply He|lia|].
    destruct (finish_processing_spec (on_base (compact off) p1)) as (He3 & Hp3 & Hn3 & Hfin);
      [apply He2|]. cbn [on_base fst] in *.
    eexists _, (stream_signals false (pending p.1)). split; [done|].
    split; [by apply finish_processing_transport, sender_ok_compact|]. split; [|split; [done|]].
    + pose proof (evolves_trans _ _ _ _ _ He (evolves_trans _ _ _ _ _ He2 He3)) as H.
      by rewrite app_nil_r in H.
    + intros Hc. split; [done|]. destruct (bool_decide _); [congruence|]. split; [|lia].
      rewrite Hp3, Hp2. unfold pending at 1. rewrite <- slice_0, drop_slice. exact Hrest.
Qed.

Lemma process_buffer_spec (p : peer) :
  wf p.1 -> sender_ok p ->
  exists p' s, process_buffer p = Some p' /\ sender_ok p' /\ evolves s p.1 p'.1 /\
    s `prefix_of` stream_signals (use_tcp_protocol p.1) (pending p.1) /\
    (is_closed p'.1 = false -> s = stream_signals (use_tcp_protocol p.1) (pending p.1) /\
       pending p'.1 = stream_rest (use_tcp_protocol p.1) (pending p.1) /\
       rx_buffer_bytes p'.1 < length (rx_buffer p'.1)).
Proof.
  intros Hwf Ht. unfold process_buffer. destruct (use_tcp_protocol p.1) eqn:E;
    [|by apply process_buffer_ws_spec].
  destruct (process_buffer_tcp_spec p Hwf E) as (p' & Hp & He & Hrest & Hc).
  exists p', (stream_signals true (pending p.1)). split; [done|]. split.
  { unfold process_buffer_tcp in Hp. pose proof (wf_bytes _ Hwf).
    rewrite packet_loop_spec in Hp by (unfold pending; try apply Forall_take, Hwf; len).
    injection Hp as <-. set (b1 := raise _ _).
    by apply finish_processing_transport, (sender_ok_compact _ (b1, p.2)). }
  split; [done|]. split; [done|]. intros Hcl. split; [done|]. split; [done|].
  destruct (bool_decide _); [congruence|]. destruct Hc as [_ Hc].
  pose proof (wf_bytes _ (ev_wf _ _ _ He)). unfold pending in Hc. rewrite length_take in Hc. lia.
Qed.

Lemma receive_spec chunk (p : peer) :
  wf p.1 -> sender_ok p -> Forall is_byte chunk ->
  rx_buffer_bytes p.1 + length chunk <= length (rx_buffer p.1) ->
  exists p' s, receive chunk p = Some p' /\ sender_ok p' /\ evolves s p.1 p'.1 /\
    s `prefix_of` stream_signals (use_tcp_protocol p.1) (pending p.1 ++ chunk) /\
    (is_closed p'.1 = false -> s = stream_signals (use_tcp_protocol p.1) (pending p.1 ++ chunk) /\
       pending p'.1 = stream_rest (use_tcp_protocol p.1) (pending p.1 ++ chunk) /\
       rx_buffer_bytes p'.1 < length (rx_buffer p'.1)).
Proof.
  intros Hwf Ht Hb Hl. destruct (store_spec chunk p.1 Hwf Hb Hl) as (He & Hp & _ & _).
  destruct (process_buffer_spec (on_base (store chunk) p)) as (p' & s & Hp' & Ht' & He' & Hs & Hc);
    [apply He|done|]. cbn [on_base fst] in *. rewrite Hp in *.
  exists p', s. split; [done|]. split; [done|]. split; [|done].
  apply (evolves_trans _ _ _ _ _ He He').
Qed.

(** ** Byte streams in chunks *)

(** [fed chunks p p']: the chunks arrive one by one, none larger than the room
    left in the receive buffer. *)
Inductive fed : list (list Z) -> peer -> peer -> Prop :=
| fed_nil p : fed [] p p
| fed_cons chunk chunks p p1 p2 :
    Forall is_byte chunk -> rx_buffer_bytes p.1 + length chunk <= length (rx_buffer p.1) ->
    receive chunk p = Some p1 -> fed chunks p1 p2 -> fed (chunk :: chunks) p p2.

(** The chunks fed by a function. *)
Fixpoint feed (chunks : list (list Z)) (p : peer) : option peer :=
  match chunks with
  | [] => Some p
  | chunk :: chunks =>
      if bool_decide (Forall is_byte chunk) &&
         (rx_buffer_bytes p.1 + length chunk <=? length (rx_buffer p.1))
      then match receive chunk p with Some p => feed chunks p | None => None end
      else None
  end.

Lemma feed_fed chunks p p' : feed chunks p = Some p' -> fed chunks p p'.
Proof.
  revert p. induction chunks as [|chunk chunks IH]; intros p; cbn [feed].
  { intros [= ->]. constructor. }
  destruct (bool_decide_reflect (Forall is_byte chunk)); [|done]. cbn [andb].
  destruct (Nat.leb_spec (rx_buffer_bytes p.1 + length chunk) (length (rx_buffer p.1))); [|done].
  destruct (receive chunk p) eqn:E; [|done]. intros Hrest%IH. by eapply fed_cons.
Qed.

Lemma stream_app tcp d e :
  Forall is_byte d -> Forall is_byte e ->
  stream_signals tcp (d ++ e) = stream_signals tcp d ++ stream_signals tcp (stream_rest tcp d ++ e) /\
  stream_rest tcp (d ++ e) = stream_rest tcp (stream_rest tcp d ++ e).
Proof.
  intros. unfold stream_signals, stream_rest, packets_signals.
  destruct tcp; [rewrite (deframe_app dec_packet d e)|rewrite (deframe_app dec_frame d e)];
    try done; cbn [fst snd]; split; try done; rewrite fmap_app; apply join_app.
Qed.

Lemma fed_wf chunks p p' :
  fed chunks p p' -> wf p.1 -> sender_ok p -> wf p'.1 /\ sender_ok p'.
Proof.
  induction 1 as [|chunk chunks p p1 p2 Hb Hl Hr _ IH]; intros Hwf Ht; [done|].
  destruct (receive_spec chunk p Hwf Ht Hb Hl) as (p1' & s & Hr' & Ht' & He & _).
  rewrite Hr in Hr'. simplify_eq. apply IH; [apply He|done].
Qed.

Lemma fed_closed chunks p p' :
  fed chunks p p' -> wf p.1 -> sender_ok p -> is_closed p.1 = true -> is_closed p'.1 = true.
Proof.
  induction 1 as [|chunk chunks p p1 p2 Hb Hl Hr _ IH]; intros Hwf Ht Hc; [done|].
  destruct (receive_spec chunk p Hwf Ht Hb Hl) as (p1' & s & Hr' & Ht' & He & _).
  rewrite Hr in Hr'. simplify_eq. apply IH; [apply He|done|]. by apply (ev_closed _ _ _ He).
Qed.

Lemma fed_delivery chunks p p' :
  fed chunks p p' -> wf p.1 -> sender_ok p -> is_closed p'.1 = false ->
  let tcp := use_tcp_protocol p.1 in
  stream_signals tcp (pending p.1) = [] -> stream_rest tcp (pending p.1) = pending p.1 ->
  deliveries p'.1 = deliveries p.1 ++ stream_signals tcp (pending p.1 ++ mjoin chunks) /\
  pending p'.1 = stream_rest tcp (pending p.1 ++ mjoin chunks).
Proof.
  induction 1 as [p|chunk chunks p p1 p2 Hb Hl Hr Hfed IH]; intros Hwf Ht Hc tcp H0 H1.
  { change (mjoin []) with (@nil Z). rewrite app_nil_r, H0, H1. by rewrite app_nil_r. }
  destruct (receive_spec chunk p Hwf Ht Hb Hl) as (p1' & s & Hr' & Ht' & He & _ & Hopen).
  rewrite Hr in Hr'. simplify_eq. fold tcp in Hopen.
  assert (Hc1 : is_closed p1'.1 = false).
  { destruct (is_closed p1'.1) eqn:E; [|done].
    rewrite (fed_closed _ _ _ Hfed (ev_wf _ _ _ He) Ht' E) in Hc. done. }
  destruct (Hopen Hc1) as (-> & Hp & _).
  assert (Hbytes : Forall is_byte (pending p.1 ++ chunk)).
  { apply Forall_app_2; [|done]. apply Forall_take, Hwf. }
  assert (Hcb : Forall is_byte (mjoin chunks)).
  { clear -Hfed. induction Hfed; [constructor|]. by apply Forall_app_2. }
  destruct (stream_app tcp (pending p.1 ++ chunk) [] Hbytes) as [Hs0 Hr0]; [constructor|].
  rewrite !app_nil_r in Hs0, Hr0.
  assert (Hnil : stream_signals tcp (stream_rest tcp (pending p.1 ++ chunk)) = []).
  { apply (f_equal length) in Hs0. rewrite length_app in Hs0. apply length_zero_iff_nil. lia. }
  destruct IH as [IH1 IH2]; [apply He|done|done| | |].
  1,2: rewrite (ev_tcp _ _ _ He), Hp; fold tcp; done.
  rewrite (ev_tcp _ _ _ He), Hp, (ev_deliveries _ _ _ He) in *. fold tcp in IH1, IH2.
  change (mjoin (chunk :: chunks)) with (chunk ++ mjoin chunks). rewrite app_assoc.
  destruct (stream_app tcp (pending p.1 ++ chunk) (mjoin chunks)) as [Hs Hrs]; [done|done|].
  rewrite Hs, Hrs, IH1, app_assoc. done.
Qed.
End Runs.

(** ** Every operation preserves the invariant *)

Inductive operation : Type :=
| op_receive (chunk : list Z)
| op_run_data (data : list Z)
| op_run_posted
| op_start_reading
| op_close (ec : error_code)
| op_stop.

Section Safety.
Context `{JL : JsonLib} {T : Type} `{!Transport T} `{!ControlSender T}.
Abbreviation peer := (base_peer * T)%type.

Definition exec (o : operation) (p : peer) : option peer :=
  match o with
  | op_receive chunk => receive chunk p
  | op_run_data data => run_data data p
  | op_run_posted => run_posted p
  | op_start_reading => Some (start_reading p)
  | op_close ec => Some (close ec p)
  | op_stop => Some (stop p)
  end.

(** A read completes with at most the bytes it was given room for. *)
Definition admissible (o : operation) (p : peer) : Prop :=
  match o with
  | op_receive chunk =>
      Forall is_byte chunk /\ rx_buffer_bytes p.1 + length chunk <= length (rx_buffer p.1)
  | op_run_data data => Forall is_byte data
  | _ => True
  end.

Inductive reachable (tcp : bool) (max : nat) : peer -> Prop :=
| reachable_make t : transport_wf false t -> reachable tcp max (make tcp max, t)
| reachable_exec p o p' :
    reachable tcp max p -> admissible o p -> exec o p = Some p' -> reachable tcp max p'.

Lemma wf_make tcp max : wf (make tcp max).
Proof.
  unfold make. constructor; cbn; rewrite ?length_replicate; try lia.
  - unfold INITIAL_RX_BUFFER_SIZE. lia.
  - apply Forall_replicate. unfold in_u. lia.
Qed.

Lemma grow_to_spec n fuel : forall b,
  wf b -> n <= fuel + length (rx_buffer b) -> exists b', grow_to fuel n b = Some b' /\
    evolves [] b b' /\ (n <= rx_buffer_max b -> n <= length (rx_buffer b')).
Proof.
  induction fuel as [|fuel IH]; intros b Hwf Hf; cbn [grow_to];
    (destruct (Nat.ltb_spec (length (rx_buffer b)) n);
      [|exists b; split_and!; try done; by apply evolves_refl]); [lia|].
  pose proof (grow_rx_buffer_spec b Hwf) as Hg. destruct (grow_rx_buffer b) as [b1 [|]].
  - destruct Hg as (He & _ & _ & _ & Hl). destruct (IH b1 (ev_wf _ _ _ He)) as (b' & -> & He' & Hn); [lia|].
    exists b'. split; [done|]. rewrite (ev_max _ _ _ He) in Hn. split; [|done].
    apply (evolves_trans _ _ _ _ _ He He').
  - destruct Hg as (He & _ & _ & _ & -> & Hl). exists b. split_and!; try done. lia.
Qed.

Lemma grow_to_same n fuel : forall b b',
  grow_to fuel n b = Some b' -> is_closed b' = is_closed b /\ posted b' = posted b.
Proof.
  induction fuel as [|fuel IH]; intros b b'; cbn [grow_to]; unfold grow_rx_buffer;
    destruct (length (rx_buffer b) <? n), (rx_buffer_max b <=? length (rx_buffer b));
    intros E; simplify_eq; try done. by apply IH in E.
Qed.

Lemma wf_post h b : wf b -> wf (post h b).
Proof. intros []. by constructor. Qed.

Lemma run_data_spec data (p : peer) :
  wf p.1 -> Forall is_byte data -> exists p', run_data data p = Some p' /\ p'.2 = p.2 /\
  wf p'.1 /\ is_closed p'.1 = is_closed p.1 /\
  (length data <= rx_buffer_max p.1 -> pending p'.1 = data) /\
  exists h, posted p'.1 = posted p.1 ++ [h].
Proof.
  intros Hwf Hb. unfold run_data.
  destruct (grow_to_spec (length data) (length data) p.1 Hwf) as (b & E & He & Hn); [lia|].
  rewrite E.
  pose proof (grow_to_same _ _ _ _ E) as Hsame.
  destruct Hsame as [Hc Hpo]. eexists. split; [done|].
  destruct (Nat.ltb_spec (length (rx_buffer b)) (length data)); cbn.
  - split_and!; try done; [apply wf_post, He|lia|rewrite Hpo; eauto].
  - split_and!; try done; [| |rewrite Hpo; eauto].
    + apply wf_post. eapply ev_wf, (evolves_set_rx _ _ b); rewrite ?length_splice by (cbn; lia); try done;
        try apply He. apply splice_byte; [done|apply He].
    + intros _. unfold pending; cbn. apply take_splice_0.
Qed.

Lemma exec_safe o (p : peer) :
  wf p.1 -> sender_ok p -> admissible o p ->
  exists p', exec o p = Some p' /\ wf p'.1 /\ sender_ok p' /\
    (is_closed p.1 = true -> is_closed p'.1 = true).
Proof.
  intros Hwf Ht Ha. destruct o as [chunk|data| | |ec|]; cbn [exec admissible] in *.
  - destruct Ha as [Hb Hl]. destruct (receive_spec chunk p Hwf Ht Hb Hl) as (p' & s & Hr & Ht' & He & _).
    exists p'. split_and!; try done; apply He.
  - destruct (run_data_spec data p Hwf Ha) as (p' & Hr & Heq & Hw & Hc & _).
    exists p'. unfold sender_ok. rewrite Heq, Hc. done.
  - unfold run_posted. destruct (posted p.1) as [|h rest]; [by exists p|].
    set (b := mk_base _ _ _ _ _ _ _). assert (Hb : wf b) by (destruct Hwf; by constructor).
    destruct h as [ec|].
    + eexists. split; [done|]. pose proof (close_may_close ec (b, p.2)) as Hm.
      pose proof (evolves_may_close _ _ Hb Hm) as He. split; [apply He|]. split.
      * by apply sender_ok_close.
      * intros _. apply close_is_closed.
    + destruct (process_buffer_spec (b, p.2) Hb Ht) as (p' & s & Hr & Ht' & He & _).
      exists p'. split_and!; try done; apply He.
  - eexists. split; [done|]. split; [done|]. split; [by apply wf_do_read|done].
  - eexists. split; [done|]. pose proof (close_may_close ec p) as Hm.
    pose proof (evolves_may_close _ _ Hwf Hm) as He. split; [apply He|]. split.
    + by apply sender_ok_close.
    + intros _. apply close_is_closed.
  - eexists. split; [done|]. split; [done|]. split; [by apply wf_close_socket|done].
Qed.
End Safety.

(** A transport that does nothing, for evaluation. *)
Record idle := mk_idle { idle_reads : nat; idle_sent : list (Z * list Z) }.

Definition idle_transport : Transport idle :=
  {| do_read t := mk_idle (S (idle_reads t)) (idle_sent t);
     shutdown_and_close t := t;
     close_socket t := t |}.
#[local] Existing Instance idle_transport.

Definition idle_sender (JL : JsonLib) : ControlSender idle.
Proof.
  refine {| send_control_frame op payload size sh p :=
      Some (p.1, mk_idle (idle_reads p.2) (idle_sent p.2 ++ [(op, payload)]));
    transport_wf _ t := True |}; try done.
  intros. eexists. split; [done|]. split; [apply may_close_refl|done].
Defined.

(** ** Properties *)

(** C12: in every state a peer can reach from construction, whatever data
    arrives in whatever pieces and in whatever order its operations run, the
    receive buffer stays within its bounds (received bytes, allocated bytes,
    configured maximum), on_closed has been raised exactly once if the peer is
    closed and never otherwise, and no operation gets stuck: each parsing loop
    terminates. *)
Theorem base_peer_safe `{JL : JsonLib} {T} `{!Transport T} `{!ControlSender T}
    tcp max (p : base_peer * T) :
  reachable tcp max p ->
  rx_buffer_bytes p.1 <= length (rx_buffer p.1) <= rx_buffer_max p.1 /\
  length (closings p.1) = (if is_closed p.1 then 1 else 0) /\
  (forall o, admissible o p -> exists p', exec o p = Some p' /\
     (is_closed p.1 = true -> is_closed p'.1 = true)).
Proof.
  intros Hr. assert (Hwf : wf p.1 /\ sender_ok p).
  { induction Hr as [t Ht|p o p' _ [Hwf Ht] Ha He]; [split; [apply wf_make|done]|].
    destruct (exec_safe o p Hwf Ht Ha) as (p1 & E & ? & ? & _). rewrite He in E. by simplify_eq. }
  destruct Hwf as [Hwf Ht]. split; [split; apply Hwf|]. split; [apply Hwf|].
  intros o Ha. destruct (exec_safe o p Hwf Ht Ha) as (p' & ? & _ & _ & ?). eauto.
Qed.

Definition idle_start : base_peer (JL := jv_json) * idle :=
  (make true 16, mk_idle 0 []).

Lemma base_peer_safe_witness :
  exists p', @exec jv_json idle _ (idle_sender jv_json) (op_receive [7; 0; 32; 16; 1]%Z) idle_start
             = Some p' /\ (is_closed (JL := jv_json) idle_start.1 = true -> is_closed p'.1 = true).
Proof.
  destruct (@base_peer_safe jv_json idle _ (idle_sender jv_json) true 16 idle_start) as (_ & _ & H).
  - by apply (@reachable_make jv_json idle _ (idle_sender jv_json)).
  - apply H. split; [repeat constructor; by vm_compute|]. by vm_compute; lia.
Defined.

(** C13: the signals a peer delivers depend only on the bytes received, not on
    how the transport cut them into reads: as long as the connection is open,
    exactly the packets of the stream's complete messages have been delivered,
    in order, and the buffer holds the incomplete rest. *)
Theorem delivery_independent_of_chunking `{JL : JsonLib} {T} `{!Transport T} `{!ControlSender T}
    tcp max chunks (t : T) (p : base_peer * T) :
  transport_wf false t -> fed chunks (make tcp max, t) p -> is_closed p.1 = false ->
  deliveries p.1 = stream_signals tcp (mjoin chunks) /\
  pending p.1 = stream_rest tcp (mjoin chunks).
Proof.
  intros Ht Hf Hc. destruct (fed_delivery chunks (make tcp max, t) p Hf) as [H1 H2];
    [apply wf_make|done|done|by destruct tcp|by destruct tcp|].
  done.
Qed.

#[local] Existing Instance jv_json.

Lemma delivery_independent_of_chunking_witness :
  exists p, @deliveries jv_json p
    = [on_data_received (JL := jv_json) 7 [9]; on_data_received (JL := jv_json) 5 [1; 2]]%Z.
Proof.
  pose (chunks := [[7; 0; 16]; [16; 9; 5; 0; 32]; [16; 1; 2; 44]]%Z).
  assert (H : exists p, @feed jv_json idle _ (idle_sender jv_json) chunks idle_start = Some p /\
    is_closed (JL := jv_json) p.1 = false).
  { eexists. split; [vm_compute; reflexivity|]. reflexivity. }
  destruct H as (p & Hf & Hc). exists p.1.
  destruct (@delivery_independent_of_chunking jv_json idle _ (idle_sender jv_json) true 16 chunks
    (mk_idle 0 []) p I (feed_fed _ _ _ Hf) Hc) as [Hd _].
  rewrite Hd. by vm_compute.
Defined.

(** *** Masked frames *)

Lemma unmask_unmask key data : unmask key (unmask key data) = data.
Proof.
  unfold unmask. apply list_eq. intros i. rewrite !list_lookup_imap.
  destruct (data !! i) as [x|]; [|done]. cbn. f_equal.
  by rewrite Z.lxor_assoc, Z.lxor_nilpotent, Z.lxor_0_r.
Qed.

Lemma rfc_header_byte op fl n key :
  WS.wf_fields op fl n -> WS.wf_key key -> Forall is_byte (WS.rfc_header op fl n key).
Proof.
  intros (Hop & (f & Hf & ->) & Hn) Hk. unfold WS.rfc_header.
  pose proof (WS.rfc_len7_range n Hn). unfold in_u in *.
  repeat apply Forall_cons_2; [lia|destruct key; cbn; lia|].
  apply Forall_app_2; [|destruct key; [apply Hk|constructor]].
  unfold WS.rfc_ext. repeat case_match; [constructor| |];
    apply Forall_reverse, le_bytes_byte.
Qed.

Lemma dec_frame_rfc op fl n key payload rest :
  WS.wf_fields op fl n -> WS.wf_key key -> size_of payload = n ->
  dec_frame (WS.rfc_header op fl n key ++ payload ++ rest)
  = Some ((WS.rfc_decoded op fl n key, payload), length (WS.rfc_header op fl n key) + length payload).
Proof.
  intros Hf Hk Hn. set (hd := WS.rfc_header op fl n key).
  assert (Hhd : 2 <= length hd) by (unfold hd, WS.rfc_header; cbn; lia).
  unfold dec_frame, hd. rewrite WS.decode_rfc_header by done.
  cbn [WS.rfc_decoded WS.header_size WS.payload_size]. fold hd.
  destruct (Z.eqb_spec (size_of hd) 0); [len|].
  assert (Z.to_nat (size_of hd) = length hd) as -> by len.
  assert (Z.to_nat n = length payload) as -> by len.
  by rewrite slice_app_mid.
Qed.

(** One frame in front of a WebSocket stream. *)
Lemma stream_signals_frame `{JL : JsonLib} op fl n key payload rest :
  WS.wf_fields op fl n -> WS.wf_key key -> size_of payload = n ->
  Forall is_byte payload -> Forall is_byte rest ->
  stream_signals false (WS.rfc_header op fl n key ++ payload ++ rest)
  = frame_signals (WS.rfc_decoded op fl n key, payload) ++ stream_signals false rest /\
  stream_rest false (WS.rfc_header op fl n key ++ payload ++ rest) = stream_rest false rest.
Proof.
  intros Hf Hk Hn Hp Hr. set (hd := WS.rfc_header op fl n key).
  assert (Hb : Forall is_byte (hd ++ payload ++ rest)).
  { apply Forall_app_2; [by apply rfc_header_byte|by apply Forall_app_2]. }
  unfold stream_signals, stream_rest.
  rewrite (deframe_some dec_frame _ _ _ Hb (dec_frame_rfc op fl n key payload rest Hf Hk Hn)).
  cbn [fst snd]. fold hd. rewrite app_assoc, drop_app_length' by len. done.
Qed.

(** Masking is transparent: a frame masked with any key as RFC 6455
    prescribes delivers exactly what the same frame sent unmasked does, and
    leaves the parser at the same place in the stream. *)
Theorem masked_frame_delivery `{JL : JsonLib} op fl key payload rest :
  WS.wf_fields op fl (size_of payload) -> WS.wf_key (Some key) ->
  Forall is_byte payload -> Forall is_byte rest ->
  stream_signals false (WS.rfc_header op fl (size_of payload) (Some key)
                        ++ unmask key payload ++ rest)
  = stream_signals false (WS.rfc_header op fl (size_of payload) None ++ payload ++ rest) /\
  stream_rest false (WS.rfc_header op fl (size_of payload) (Some key)
                     ++ unmask key payload ++ rest)
  = stream_rest false (WS.rfc_header op fl (size_of payload) None ++ payload ++ rest).
Proof.
  intros Hf Hk Hp Hr.
  destruct (stream_signals_frame op fl (size_of payload) (Some key) (unmask key payload) rest)
    as [-> ->]; try done.
  { unfold size_of. by rewrite length_unmask. } { apply unmask_byte; [apply Hk|done]. }
  destruct (stream_signals_frame op fl (size_of payload) None payload rest) as [-> ->]; try done.
  split; [|done]. f_equal. unfold frame_signals, unmasked.
  cbn [fst snd WS.rfc_decoded WS.is_masked WS.opcode WS.masking_key value_or].
  by rewrite unmask_unmask.
Qed.

Lemma masked_frame_delivery_witness :
  stream_signals false (WS.rfc_header 2 128 6 (Some [1; 2; 3; 4])
    ++ unmask [1; 2; 3; 4] [7; 0; 32; 16; 8; 9] ++ [])%Z
  = [on_data_received 7 [8; 9]%Z].
Proof.
  destruct (masked_frame_delivery 2 128 [1; 2; 3; 4]%Z [7; 0; 32; 16; 8; 9]%Z []) as [H _].
  - split; [by vm_compute|]. split; [exists 8%Z; by vm_compute|by vm_compute].
  - split; [done|]. repeat constructor; by vm_compute.
  - repeat constructor; by vm_compute.
  - constructor.
  - etrans; [exact H|]. by vm_compute.
Defined.

(** Over TCP, processing the buffer closes an open connection exactly when
    the incomplete packet left over fills the configured maximum; otherwise
    there is room for the next read. *)
Theorem tcp_closes_iff_full `{JL : JsonLib} {T} `{!Transport T} `{!ControlSender T}
    (p : base_peer * T) :
  wf p.1 -> use_tcp_protocol p.1 = true -> is_closed p.1 = false ->
  exists p', process_buffer p = Some p' /\
    (is_closed p'.1 = true <-> length (stream_rest true (pending p.1)) = rx_buffer_max p.1) /\
    (is_closed p'.1 = false -> length (pending p'.1) < length (rx_buffer p'.1)).
Proof.
  intros Hwf Ht Hc. destruct (process_buffer_tcp_spec p Hwf Ht) as (p' & Hp & He & Hr & Hcl).
  exists p'. unfold process_buffer. rewrite Ht. split; [done|]. rewrite <- Hr.
  destruct (bool_decide_reflect (length (pending p'.1) = rx_buffer_max p.1)).
  - split; [done|]. by rewrite Hcl.
  - destruct Hcl as [Hcl ?]. rewrite Hcl, Hc. split; done.
Qed.

Lemma tcp_closes_iff_full_witness :
  exists p', @process_buffer jv_json idle _ (idle_sender jv_json)
    (on_base (store (JL := jv_json) [7; 0; 32; 16; 1]%Z) idle_start) = Some p' /\
    (is_closed p'.1 = true <-> 5 = 16).
Proof.
  destruct (@tcp_closes_iff_full jv_json idle _ (idle_sender jv_json)
    (on_base (store (JL := jv_json) [7; 0; 32; 16; 1]%Z) idle_start)) as (p' & Hp & Hc & _).
  - destruct (store_spec [7; 0; 32; 16; 1]%Z (make true 16) (wf_make true 16)) as [H _].
    + repeat constructor; by vm_compute.
    + by vm_compute; lia.
    + exact (ev_wf _ _ _ H).
  - done.
  - done.
  - exists p'. split; [exact Hp|]. split; intros H; [apply Hc in H; by vm_compute in H|lia].
Defined.
