(* ===== verification/Peer.v ===== *)
(** * The plaintext transport

    [src/detail/peer.cpp] and [include/ws-streaming/detail/peer.hpp].  The TCP
    socket is a parameter, the class [Socket]: its operations take the socket's
    state and return the new one with the result; [wire] is the sequence of
    bytes the operating system has accepted, [sock_open] whether the socket is
    open: a closed one accepts nothing.  A buffer sequence is the list of
    its bytes.  Starting an asynchronous wait increments a counter; its
    completion handler is [finish_wait_rx] or [finish_wait_tx].

    Contract: over an open connection the bytes accepted by the operating
    system followed by those in the transmit buffer are exactly the bytes
    written, in order; a write wait is pending exactly while the buffer is not
    empty. *)
From S2P Require Import Prelude Json BasePeer.
From S2P Require DynamicBuffer.
Module DB := DynamicBuffer.
#[local] Open Scope nat_scope.

(** boost::asio::ip::tcp::socket in non-blocking mode. *)
Class Socket (S : Type) := {
  wire : S -> list Z;
  sock_open : S -> bool;
  sock_send : S -> list Z -> S * nat * error_code;
  sock_receive : S -> nat -> S * list Z * error_code;
  sock_set_send_buffer : S -> Z -> S;
  sock_non_blocking : S -> S;
  sock_shutdown : S -> S;
  sock_close : S -> S;
  sock_send_law : forall s bs s' n ec, sock_send s bs = (s', n, ec) ->
    n <= length bs /\ wire s' = wire s ++ take n bs /\ (ec <> success -> n = 0);
  sock_receive_law : forall s n s' data ec, sock_receive s n = (s', data, ec) ->
    length data <= n /\ Forall is_byte data /\ wire s' = wire s /\ (ec <> success -> data = []);
  wire_set_send_buffer : forall s n, wire (sock_set_send_buffer s n) = wire s;
  wire_non_blocking : forall s, wire (sock_non_blocking s) = wire s;
  wire_shutdown : forall s, wire (sock_shutdown s) = wire s;
  wire_close : forall s, wire (sock_close s) = wire s;
  sock_open_close : forall s, sock_open (sock_close s) = false;
  sock_send_closed : forall s bs s' n ec, sock_open s = false -> sock_send s bs = (s', n, ec) ->
    n = 0 /\ sock_open s' = false;
  sock_receive_closed : forall s n s' data ec, sock_open s = false ->
    sock_receive s n = (s', data, ec) -> sock_open s' = false
}.

Record peer_state (S : Type) := mk_peer {
  socket : S;
  tx_buffer : DB.dynamic_buffer;
  waiting_tx : bool;
  shutdown_when_empty : bool;
  rx_waits : nat;
  tx_waits : nat
}.
Arguments mk_peer {S}.
Arguments socket {S}.
Arguments tx_buffer {S}.
Arguments waiting_tx {S}.
Arguments shutdown_when_empty {S}.
Arguments rx_waits {S}.
Arguments tx_waits {S}.

(** The default of [rx_buffer_size] and [tx_buffer_size], and the block size
    [_tx_buffer] is constructed with. *)
Definition DEFAULT_RX_BUFFER_SIZE : nat := N.to_nat (1024 * 1024).
Definition DEFAULT_TX_BUFFER_SIZE : nat := N.to_nat (32 * 1024 * 1024).
Definition DEFAULT_BLOCK_SIZE : nat := N.to_nat (64 * 1024).

Section Peer.
Context `{JL : JsonLib} {S : Type} `{!Socket S} `{DB.BufferCopy}.
Abbreviation state := (peer_state S).
Abbreviation peer := (base_peer * state)%type.

Definition set_socket (s : S) (t : state) : state :=
  mk_peer s (tx_buffer t) (waiting_tx t) (shutdown_when_empty t) (rx_waits t) (tx_waits t).

Definition set_tx (b : DB.dynamic_buffer) (t : state) : state :=
  mk_peer (socket t) b (waiting_tx t) (shutdown_when_empty t) (rx_waits t) (tx_waits t).

Definition set_shutdown (t : state) : state :=
  mk_peer (socket t) (tx_buffer t) (waiting_tx t) true (rx_waits t) (tx_waits t).

(** ** Waits and closing *)

Definition do_wait_rx (t : state) : state :=
  mk_peer (socket t) (tx_buffer t) (waiting_tx t) (shutdown_when_empty t)
    (rx_waits t + 1) (tx_waits t).

Definition do_wait_tx (t : state) : state :=
  mk_peer (socket t) (tx_buffer t) true (shutdown_when_empty t) (rx_waits t) (tx_waits t + 1).

Definition peer_shutdown_and_close (t : state) : state :=
  set_socket (sock_close (sock_shutdown (socket t))) t.

#[export] Instance peer_transport : Transport state :=
  {| do_read := do_wait_rx;
     shutdown_and_close := peer_shutdown_and_close;
     close_socket t := set_socket (sock_close (socket t)) t |}.

(** [set_send_buffer_size]: clamped to the largest [int]. *)
Definition set_send_buffer_size (size : nat) (t : state) : state :=
  set_socket (sock_set_send_buffer (socket t) (Z.min (Z.of_nat size) (2 ^ 31 - 1))) t.

Definition make_peer (s : S) (tcp : bool) (rx_buffer_size tx_buffer_size : nat) : peer :=
  (make tcp rx_buffer_size,
   set_send_buffer_size tx_buffer_size
     (mk_peer (sock_non_blocking s) (DB.make tx_buffer_size DEFAULT_BLOCK_SIZE) false false 0 0)).

(** ** Sending *)

Definition enqueue (buffers : list Z) (size : nat) (do_shutdown_after : bool) (p : peer)
    : option peer :=
  match DB.write buffers (tx_buffer p.2) with
  | None => None
  | Some (b, n) =>
      let p := (p.1, set_tx b p.2) in
      if n <? size then Some (close no_buffer_space p) else
      let p := if do_shutdown_after then (p.1, set_shutdown p.2) else p in
      Some (if waiting_tx p.2 then p else (p.1, do_wait_tx p.2))
  end.

Definition write (buffers : list Z) (size : option nat) (do_shutdown_after : bool) (p : peer)
    : option peer :=
  let calculated_size := value_or size (length buffers) in
  if waiting_tx p.2 then enqueue buffers calculated_size do_shutdown_after p else
  let '(s, bytes_sent, send_ec) := sock_send (socket p.2) buffers in
  let p := (p.1, set_socket s p.2) in
  if bool_decide (send_ec <> success /\ send_ec <> would_block) then Some (close send_ec p)
  else if bytes_sent =? calculated_size then
    Some (if do_shutdown_after then close success p else p)
  else enqueue (drop bytes_sent buffers) (calculated_size - bytes_sent) do_shutdown_after p.

Definition send_websocket_frame (opcode : Z) (payload : list Z) (payload_size : option nat)
    (do_shutdown_after : bool) (p : peer) : option peer :=
  let calculated_payload_size := value_or payload_size (length payload) in
  let ws_header := WS.generate_header opcode WS.flags_FIN (Z.of_nat calculated_payload_size) in
  write (ws_header ++ payload) (Some (length ws_header + calculated_payload_size))
    do_shutdown_after p.

(** [generate_header] may throw; everything else may only run out of fuel. *)
Definition send_packet (signo type : Z) (payload : list Z) (payload_size : option nat) (p : peer)
    : result SP.packet_error (option peer) :=
  let calculated_payload_size := value_or payload_size (length payload) in
  streaming_header <-? SP.generate_header signo type (Z.of_nat calculated_payload_size) ;
  Ok (let size := length streaming_header + calculated_payload_size in
      if use_tcp_protocol p.1
      then write (streaming_header ++ payload) (Some size) false p
      else send_websocket_frame WS.opcode_BINARY (streaming_header ++ payload) (Some size) false p).

Definition send_data (signo : Z) (data : list Z) (p : peer) : result SP.packet_error (option peer) :=
  send_packet signo SP.packet_type_DATA data None p.

(** The encoding word is sent as it lies in memory, that is, little-endian on
    the hosts the program supports. *)
Definition metadata_payload (method : string) (params : json) : list Z :=
  le_bytes 4 SP.metadata_encoding_MSGPACK
  ++ to_msgpack (jobj [("method", jstr method); ("params", params)]).

Definition send_metadata (signo : Z) (method : string) (params : json) (p : peer)
    : result SP.packet_error (option peer) :=
  send_packet signo SP.packet_type_METADATA (metadata_payload method params)
    (Some (length (metadata_payload method params))) p.

(** ** Completion handlers *)

Definition finish_wait_tx (wait_ec : error_code) (p : peer) : option peer :=
  let p := (p.1, mk_peer (socket p.2) (tx_buffer p.2) false (shutdown_when_empty p.2)
                   (rx_waits p.2) (tx_waits p.2 - 1)) in
  if bool_decide (wait_ec <> success) then Some (close wait_ec p) else
  let '(s, bytes_sent, send_ec) := sock_send (socket p.2) (mjoin (DB.data (tx_buffer p.2))) in
  let p := (p.1, set_socket s p.2) in
  if bool_decide (send_ec <> success /\ send_ec <> would_block) then Some (close send_ec p) else
  match DB.consume bytes_sent (tx_buffer p.2) with
  | None => None
  | Some b =>
      let p := (p.1, set_tx b p.2) in
      if shutdown_when_empty p.2 && DB.empty b then Some (close success p)
      else Some (if DB.empty b then p else (p.1, do_wait_tx p.2))
  end.

(** ** The invariant and the order of bytes *)

(** While the peer is open, a write wait is pending exactly when bytes are
    buffered; there is never more than one. *)
Record peer_ok (closed : bool) (t : state) : Prop := {
  ok_tx : DB.wf (tx_buffer t);
  ok_waiting : closed = false -> waiting_tx t = negb (DB.empty (tx_buffer t));
  ok_waits : tx_waits t = if waiting_tx t then 1 else 0;
  ok_socket : closed = true -> sock_open (socket t) = false
}.

(** What the peer has been given to send: accepted by the socket, or queued. *)
Definition outgoing (t : state) : list Z := wire (socket t) ++ DB.content (tx_buffer t).

(** What a run may do to the wire, with the bytes [bs] to send: it grows, by
    bytes that are outgoing, and no more once the peer is closed. *)
Record wired (bs : list Z) (p p' : peer) : Prop := {
  wire_grow : wire (socket p.2) `prefix_of` wire (socket p'.2);
  wire_bytes : wire (socket p'.2) `prefix_of` outgoing p.2 ++ bs;
  wire_frozen : is_closed p.1 = true ->
    wire (socket p'.2) = wire (socket p.2) /\ sock_open (socket p'.2) = false
}.

(** [sent bs p p']: [p'] is a good state in which, if still open, the bytes
    [bs] have joined the outgoing ones and the base state is untouched. *)
Record sent (bs : list Z) (p p' : peer) : Prop := {
  sent_ok : peer_ok (is_closed p'.1) p'.2;
  sent_base : may_close p.1 p'.1;
  sent_bytes : is_closed p'.1 = false -> outgoing p'.2 = outgoing p.2 ++ bs /\ p'.1 = p.1;
  sent_wired : wired bs p p'
}.

Lemma wired_same bs (p q : peer) :
  (is_closed p.1 = true -> sock_open (socket p.2) = false) -> socket q.2 = socket p.2 -> wired bs p q.
Proof.
  intros Hc Hs. constructor; rewrite Hs; [done| |auto].
  unfold outgoing. rewrite <- app_assoc. by apply prefix_app_r.
Qed.

(** One send of bytes that are next in line. *)
Lemma wired_send bs data s n ec (p q : peer) :
  (is_closed p.1 = true -> sock_open (socket p.2) = false) ->
  sock_send (socket p.2) data = (s, n, ec) -> socket q.2 = s ->
  (is_closed p.1 = false -> data `prefix_of` DB.content (tx_buffer p.2) ++ bs) -> wired bs p q.
Proof.
  intros Hc Hs Hq Hd. pose proof (sock_send_law _ _ _ _ _ Hs) as (Hn & Hw & _).
  destruct (is_closed p.1) eqn:E.
  - destruct (sock_send_closed _ _ _ _ _ (Hc eq_refl) Hs) as [-> Ho].
    rewrite take_0, app_nil_r in Hw. constructor; rewrite Hq, Hw; [done| |done].
    unfold outgoing. rewrite <- app_assoc. by apply prefix_app_r.
  - constructor; rewrite Hq, Hw; [by apply prefix_app_r| |congruence].
    unfold outgoing. rewrite <- app_assoc. apply prefix_app. etrans; [|by apply Hd].
    apply prefix_take.
Qed.

Lemma wired_after bs (p q p' : peer) :
  wired bs p q -> wire (socket p'.2) = wire (socket q.2) ->
  (sock_open (socket q.2) = false -> sock_open (socket p'.2) = false) -> wired bs p p'.
Proof. intros [H1 H2 H3] Hw Ho. constructor; rewrite ?Hw; [done..|]. intros Hc. naive_solver. Qed.

Lemma wired_close bs ec (p q : peer) :
  q.1 = p.1 -> wired bs p q -> wired bs p (close ec q).
Proof.
  intros Hq [H1 H2 H3]. unfold close. destruct (is_closed q.1) eqn:E; [by constructor|].
  constructor; cbn; rewrite wire_close, wire_shutdown; [done..|]. by rewrite <- Hq, E.
Qed.

Lemma peer_sent_close bs ec (p q : peer) :
  q.1 = p.1 -> DB.wf (tx_buffer q.2) -> tx_waits q.2 = (if waiting_tx q.2 then 1 else 0) ->
  wired bs p q -> sent bs p (close ec q).
Proof.
  intros Hq Hw Hn Hwd. constructor.
  - rewrite close_is_closed. unfold close.
    destruct (is_closed q.1) eqn:E; constructor; try done; intros _; cbn; [|apply sock_open_close].
    apply (wire_frozen _ _ _ Hwd). congruence.
  - rewrite <- Hq. apply close_may_close.
  - by rewrite close_is_closed.
  - by apply wired_close.
Qed.

Lemma enqueue_spec buffers sh (p : peer) :
  DB.wf (tx_buffer p.2) -> tx_waits p.2 = (if waiting_tx p.2 then 1 else 0) ->
  (waiting_tx p.2 = false -> is_closed p.1 = false -> DB.content (tx_buffer p.2) = []) ->
  (waiting_tx p.2 = true -> is_closed p.1 = false -> DB.content (tx_buffer p.2) <> []) ->
  (waiting_tx p.2 = false -> buffers <> []) ->
  (is_closed p.1 = true -> sock_open (socket p.2) = false) ->
  exists p', enqueue buffers (length buffers) sh p = Some p' /\ sent buffers p p' /\
    wire (socket p'.2) = wire (socket p.2) /\
    (sock_open (socket p.2) = false -> sock_open (socket p'.2) = false).
Proof.
  intros Hw Hn He Hne Hb Ho. unfold enqueue.
  destruct (DB.write_spec buffers (tx_buffer p.2) Hw) as (b & -> & Hwb & Hc & _ & _ & _ & Hsz).
  pose proof (DB.length_content b Hwb) as Hlen.
  destruct (Nat.ltb_spec (length buffers `min` DB.room (tx_buffer p.2)) (length buffers)) as [Hs|Hs].
  { eexists. split; [done|]. split; [apply peer_sent_close; try done; by apply wired_same|].
    unfold close. destruct (is_closed _); [done|]. cbn. rewrite wire_close, wire_shutdown.
    split; [done|]. intros _. apply sock_open_close. }
  eexists. split; [done|]. rewrite take_ge in Hc by lia.
  assert (Hempty : is_closed p.1 = false -> DB.empty b = false).
  { intros Hcl. unfold DB.empty. rewrite <- Hlen, Hc. apply Nat.eqb_neq. rewrite length_app.
    destruct (waiting_tx p.2); [specialize (Hne eq_refl Hcl)|specialize (Hb eq_refl)].
    - destruct (DB.content (tx_buffer p.2)); [done|cbn; lia].
    - destruct buffers; [done|cbn; lia]. }
  assert (Hout : outgoing (set_tx b p.2) = outgoing p.2 ++ buffers).
  { unfold outgoing. cbn. by rewrite Hc, app_assoc. }
  split; [|by destruct sh, (waiting_tx p.2) eqn:E; cbn; rewrite ?E].
  assert (Hwd : forall q : peer, socket q.2 = socket p.2 -> wired buffers p q) by (intros; by apply wired_same).
  destruct sh, (waiting_tx p.2) eqn:E; cbn; rewrite ?E; cbn; (constructor;
    [constructor; cbn; rewrite ?E; try done; try (intros Hcl; by rewrite Hempty); lia
    |apply may_close_refl|intros _; split; [exact Hout|done]|by apply Hwd]).
Qed.

Lemma peer_write_spec buffers sh (p : peer) :
  peer_ok (is_closed p.1) p.2 -> exists p',
  write buffers (Some (length buffers)) sh p = Some p' /\ sent buffers p p'.
Proof.
  intros [Hw Hwait Hn Ho]. unfold write. cbn [value_or].
  pose proof (DB.length_content _ Hw) as Hlen.
  assert (Hcontent : is_closed p.1 = false ->
    if waiting_tx p.2 then DB.content (tx_buffer p.2) <> [] else DB.content (tx_buffer p.2) = []).
  { intros Hc. rewrite (Hwait Hc). unfold DB.empty. destruct (Nat.eqb_spec (DB.size (tx_buffer p.2)) 0); cbn.
    - apply length_zero_iff_nil. lia.
    - intros E. rewrite E in Hlen. cbn in Hlen. lia. }
  destruct (waiting_tx p.2) eqn:E.
  { destruct (enqueue_spec buffers sh p) as (p' & Hp & Hs & _); rewrite ?E; try done. by exists p'. }
  destruct (sock_send (socket p.2) buffers) as [[s n] ec] eqn:Es.
  assert (Hwd : forall q : peer, socket q.2 = s -> wired buffers p q).
  { intros q Hq. eapply wired_send; [done|exact Es|done|]. intros Hc. by rewrite (Hcontent Hc). }
  pose proof (sock_send_law _ _ _ _ _ Es) as (Hle & Hwire & _).
  case_bool_decide; [eexists; split; [done|]; apply peer_sent_close; cbn; rewrite ?E; [done..|by apply Hwd]|].
  destruct (Nat.eqb_spec n (length buffers)) as [->|Hne].
  - eexists. split; [done|].
    destruct sh; [apply peer_sent_close; cbn; rewrite ?E; [done..|by apply Hwd]|].
    constructor; [|apply may_close_refl| |by apply Hwd].
    + constructor; cbn; rewrite ?E; try done. intros Hc. by destruct (sock_send_closed _ _ _ _ _ (Ho Hc) Es).
    + intros Hc. split; [|done]. unfold outgoing; cbn. rewrite Hwire, firstn_all, (Hcontent Hc).
      by rewrite !app_nil_r.
  - replace (length buffers - n) with (length (drop n buffers)) by len.
    destruct (enqueue_spec (drop n buffers) sh (p.1, set_socket s p.2))
      as (p' & Hp & [H1 H2 H3 _] & H4 & H5); cbn; rewrite ?E; try done.
    + intros _ Hd. apply (f_equal length) in Hd. rewrite length_drop in Hd. cbn in Hd. lia.
    + intros Hc. by destruct (sock_send_closed _ _ _ _ _ (Ho Hc) Es).
    + exists p'. split; [done|]. constructor; [done|done| |].
      * intros Hc. destruct (H3 Hc) as [Hout Hb]. split; [|done]. rewrite Hout. cbn in Hb. rewrite Hb in Hc.
        unfold outgoing; cbn. rewrite Hwire, (Hcontent Hc), !app_nil_r, <- app_assoc. by rewrite take_drop.
      * by apply (wired_after _ _ (p.1, set_socket s p.2)); [apply Hwd| |].
Qed.
End Peer.

(** ** The peer as a transport, and its completion handlers *)

Section Handlers.
Context `{JL : JsonLib} {S : Type} `{!Socket S} `{DB.BufferCopy}.
Abbreviation state := (peer_state S).
Abbreviation peer := (base_peer * state)%type.

Lemma peer_send_websocket_frame_spec opcode payload sh (p : peer) :
  peer_ok (is_closed p.1) p.2 -> exists p',
  send_websocket_frame opcode payload (Some (length payload)) sh p = Some p' /\
  sent (WS.generate_header opcode WS.flags_FIN (size_of payload) ++ payload) p p'.
Proof.
  intros Hp. unfold send_websocket_frame. cbn [value_or].
  fold (size_of payload). rewrite <- length_app. by apply peer_write_spec.
Qed.

(** [send_control_frame] *)
Definition peer_send_control_frame (opcode : Z) (payload : list Z) (size : nat)
    (shutdown_after : bool) (p : peer) : option peer :=
  send_websocket_frame opcode payload (Some size) shutdown_after p.

#[export] Instance peer_sender : ControlSender state.
Proof.
  refine {| send_control_frame := peer_send_control_frame; transport_wf := peer_ok |}.
  - intros c t []. by constructor.
  - intros t []. constructor; try done. intros _. apply sock_open_close.
  - intros c t []. constructor; try done. intros _. apply sock_open_close.
  - intros opcode payload size sh p Hp <-. unfold peer_send_control_frame.
    destruct (peer_send_websocket_frame_spec opcode payload sh p Hp) as (p' & Hs & [H1 H2 _ _]). eauto.
Defined.

Definition finish_wait_rx (wait_ec : error_code) (p : peer) : option peer :=
  let p := (p.1, mk_peer (socket p.2) (tx_buffer p.2) (waiting_tx p.2) (shutdown_when_empty p.2)
                   (rx_waits p.2 - 1) (tx_waits p.2)) in
  if bool_decide (wait_ec <> success) then Some (close wait_ec p) else
  let '(s, data, receive_ec) :=
    sock_receive (socket p.2) (length (rx_buffer p.1) - rx_buffer_bytes p.1) in
  let p := (p.1, set_socket s p.2) in
  if length data =? 0 then Some (close success p)
  else if bool_decide (receive_ec <> success /\ receive_ec <> would_block)
  then Some (close receive_ec p)
  else receive data p.

Lemma finish_wait_tx_spec ec (p : peer) :
  peer_ok (is_closed p.1) p.2 -> waiting_tx p.2 = true ->
  exists p', finish_wait_tx ec p = Some p' /\ sent [] p p'.
Proof.
  intros [Hw Hwait Hn Ho] E. unfold finish_wait_tx. rewrite E in Hn.
  case_bool_decide;
    [eexists; split; [done|]; apply peer_sent_close; cbn; try done; [lia|by apply wired_same]|].
  cbn [fst snd socket tx_buffer]. destruct (sock_send _ _) as [[s n] sec] eqn:Es.
  destruct (DB.data_spec (tx_buffer p.2) Hw) as [_ Hdata].
  assert (Hwd : forall q : peer, socket q.2 = s -> wired [] p q).
  { intros q Hq. eapply wired_send; [done|exact Es|done|]. intros Hc.
    rewrite app_nil_r, Hdata. apply prefix_take. }
  pose proof (sock_send_law _ _ _ _ _ Es) as (Hle & Hwire & _).
  case_bool_decide;
    [eexists; split; [done|]; apply peer_sent_close; cbn; try done; [lia|by apply Hwd]|].
  cbn [fst snd set_socket tx_buffer].
  destruct (DB.consume_spec n (tx_buffer p.2) Hw) as (b & -> & Hwb & Hc & _).
  assert (Hout : forall t : state, socket t = s -> tx_buffer t = b -> outgoing t = outgoing p.2).
  { intros t Ht1 Ht2. unfold outgoing. rewrite Ht1, Ht2, Hwire, Hc, <- app_assoc. f_equal.
    rewrite Hdata in Hle |- *. rewrite length_take in Hle. rewrite take_take, Nat.min_l by lia.
    by rewrite take_drop. }
  assert (Hso : is_closed p.1 = true -> sock_open s = false).
  { intros Hcl. by destruct (sock_send_closed _ _ _ _ _ (Ho Hcl) Es). }
  destruct (_ && _) eqn:Eb0;
    [eexists; split; [done|]; apply peer_sent_close; cbn; try done; [lia|by apply Hwd]|].
  eexists. split; [done|]. destruct (DB.empty b) eqn:Eb; (constructor;
    [constructor; cbn; rewrite ?Eb; try done; lia|apply may_close_refl
    |intros _; split; [rewrite app_nil_r; by apply Hout|done]|by apply Hwd]).
Qed.

Lemma finish_wait_rx_spec ec (p : peer) :
  wf p.1 -> peer_ok (is_closed p.1) p.2 ->
  exists p', finish_wait_rx ec p = Some p' /\ wf p'.1 /\ peer_ok (is_closed p'.1) p'.2 /\
    (is_closed p.1 = true -> is_closed p'.1 = true).
Proof.
  intros Hwf Hp. unfold finish_wait_rx.
  assert (Hclose : forall e (q : peer), q.1 = p.1 -> peer_ok (is_closed q.1) q.2 ->
    wf (close e q).1 /\ peer_ok (is_closed (close e q).1) (close e q).2 /\
    (is_closed p.1 = true -> is_closed (close e q).1 = true)).
  { intros e q Hq Hok. split_and!; [|exact (sender_ok_close (ControlSender0 := peer_sender) e q Hok)|intros; apply close_is_closed].
    eapply ev_wf, (evolves_may_close q.1); [by rewrite Hq|apply close_may_close]. }
  destruct Hp as [Hp1 Hp2 Hp3 Hp4].
  case_bool_decide; [eexists; split; [done|]; apply Hclose; [done|by constructor]|].
  cbn [fst snd socket]. destruct (sock_receive _ _) as [[s data] rec] eqn:Er.
  assert (Hso : is_closed p.1 = true -> sock_open s = false).
  { intros Hc. exact (sock_receive_closed _ _ _ _ _ (Hp4 Hc) Er). }
  apply sock_receive_law in Er as (Hl & Hb & _ & _). pose proof (wf_bytes _ Hwf).
  destruct (length data =? 0); [eexists; split; [done|]; apply Hclose; [done|by constructor]|].
  case_bool_decide; [eexists; split; [done|]; apply Hclose; [done|by constructor]|].
  destruct (receive_spec data (p.1, set_socket s (mk_peer (socket p.2) (tx_buffer p.2)
    (waiting_tx p.2) (shutdown_when_empty p.2) (rx_waits p.2 - 1) (tx_waits p.2))))
    as (p' & sg & Hr & Hok & He & _); [done|by constructor|done|cbn; lia|].
  exists p'. split; [done|]. split; [apply He|]. split; [done|apply (ev_closed _ _ _ He)].
Qed.

(** ** What is sent *)

(** The bytes of one message on the wire. *)
Definition framed (tcp : bool) (packet : list Z) : list Z :=
  if tcp then packet
  else WS.generate_header WS.opcode_BINARY WS.flags_FIN (size_of packet) ++ packet.

Lemma peer_send_packet_spec signo type payload (p : peer) h :
  peer_ok (is_closed p.1) p.2 ->
  SP.generate_header signo type (size_of payload) = Ok h ->
  forall size, size = None \/ size = Some (length payload) ->
  exists p', send_packet signo type payload size p = Ok (Some p') /\
    sent (framed (use_tcp_protocol p.1) (h ++ payload)) p p'.
Proof.
  intros Hp Hh size Hs. unfold send_packet.
  assert (Hsz : value_or size (length payload) = length payload) by (by destruct Hs as [-> | ->]).
  rewrite Hsz. fold (size_of payload). rewrite Hh. cbn [rbind].
  rewrite <- length_app. unfold framed. destruct (use_tcp_protocol p.1).
  - destruct (peer_write_spec (h ++ payload) false p Hp) as (p' & -> & ?). eauto.
  - destruct (peer_send_websocket_frame_spec WS.opcode_BINARY (h ++ payload) false p Hp)
      as (p' & -> & ?). eauto.
Qed.

(** A message given to [send_data] or [send_metadata]. *)
Inductive message : Type :=
| data_message (signo : Z) (data : list Z)
| metadata_message (signo : Z) (method : string) (params : json).

Definition message_packet (m : message) : Z * Z * list Z :=
  match m with
  | data_message signo data => (SP.packet_type_DATA, signo, data)
  | metadata_message signo method params =>
      (SP.packet_type_METADATA, signo, metadata_payload method params)
  end.

Definition message_signal (m : message) : signal :=
  match m with
  | data_message signo data => on_data_received signo data
  | metadata_message signo method params => on_metadata_received signo method params
  end.

(** Payloads every packet header can describe and the decoder understands. *)
Definition sendable (m : message) : Prop :=
  let '(type, signo, payload) := message_packet m in
  in_u 20 signo /\ (1 <= size_of payload < 2 ^ 31)%Z /\ Forall is_byte payload.

Definition message_bytes (tcp : bool) (m : message) : list Z :=
  let '(type, signo, payload) := message_packet m in
  match SP.generate_header signo type (size_of payload) with
  | Ok h => framed tcp (h ++ payload)
  | Throw _ => []
  end.

Definition send_message (m : message) (p : peer) : result SP.packet_error (option peer) :=
  match m with
  | data_message signo data => send_data signo data p
  | metadata_message signo method params => send_metadata signo method params p
  end.

Lemma send_message_spec m (p : peer) :
  sendable m -> peer_ok (is_closed p.1) p.2 -> exists p',
  send_message m p = Ok (Some p') /\ sent (message_bytes (use_tcp_protocol p.1) m) p p'.
Proof.
  intros Hm Hp.
  assert (Hgen : exists h, SP.generate_header (message_packet m).1.2 (message_packet m).1.1
    (size_of (message_packet m).2) = Ok h).
  { unfold sendable in Hm. destruct (message_packet m) as [[ty sg] pl]. cbn.
    destruct (SP.generate_header_ok sg ty (size_of pl)) as (h & ? & _); [lia|eauto]. }
  destruct Hgen as [h Hh]. unfold message_bytes.
  destruct m as [signo data|signo method params]; cbn [message_packet fst snd] in *; rewrite Hh;
    apply peer_send_packet_spec; auto.
Qed.
End Handlers.

(** ** End to end *)

Section EndToEnd.
Context `{JL : JsonLib}.

Definition is_data (m : message) : bool := if m is data_message _ _ then true else false.

Lemma dec_packet_generated signo type payload rest h :
  in_u 20 signo -> in_u 4 type -> (1 <= size_of payload < 2 ^ 31)%Z ->
  SP.generate_header signo type (size_of payload) = Ok h ->
  dec_packet (h ++ payload ++ rest) = Some ((type, signo, payload), length h + length payload).
Proof.
  intros Hs Ht Hn Hh. destruct (SP.decode_generated signo type payload rest h Hs Ht Hn Hh) as [Hd _].
  assert (size_of h <> 0)%Z.
  { unfold SP.generate_header in Hh. repeat case_match; simplify_eq; len. }
  unfold dec_packet. rewrite Hd. cbn [SP.header_size SP.payload_size SP.type SP.signo].
  destruct (Z.eqb_spec (size_of h) 0); [done|].
  assert (Z.to_nat (size_of h) = length h) as -> by len.
  assert (Z.to_nat (size_of payload) = length payload) as -> by len.
  by rewrite slice_app_mid.
Qed.

Lemma metadata_encoding_le (rest : list Z) :
  metadata_encoding false (le_bytes 4 SP.metadata_encoding_MSGPACK ++ rest)
  = SP.metadata_encoding_MSGPACK.
Proof. by vm_compute. Qed.

Lemma metadata_encoding_be (rest : list Z) :
  metadata_encoding true (le_bytes 4 SP.metadata_encoding_MSGPACK ++ rest) = (2 * 2 ^ 24)%Z.
Proof. by vm_compute. Qed.

(** The receiver of a WebSocket peer understands the metadata payload. *)
Lemma metadata_signals_payload signo method params :
  metadata_signals false signo (metadata_payload method params)
  = [on_metadata_received signo method params].
Proof.
  unfold metadata_signals, metadata_payload.
  destruct (Nat.ltb_spec (length (le_bytes 4 SP.metadata_encoding_MSGPACK
    ++ to_msgpack (jobj [("method", jstr method); ("params", params)]))) 4) as [H|_].
  { rewrite length_app, length_le_bytes in H. lia. }
  rewrite metadata_encoding_le, drop_le_bytes. unfold decode_metadata.
  change (SP.metadata_encoding_MSGPACK =? SP.metadata_encoding_JSON)%Z with false.
  change (SP.metadata_encoding_MSGPACK =? SP.metadata_encoding_MSGPACK)%Z with true.
  rewrite msgpack_roundtrip. unfold field. cbv iota zeta. rewrite is_object_jobj, !contains_jobj, members_jobj.
  cbn [list_to_map foldr uncurry fst snd].
  rewrite !lookup_insert_eq, (lookup_insert_ne _ "method" "params"), lookup_insert_eq by done.
  rewrite !bool_decide_true by eauto. cbn [value_or andb]. by rewrite is_string_jstr, string_of_jstr.
Qed.

Lemma packet_signals_message tcp m :
  (tcp = true -> is_data m = true) ->
  packet_signals tcp (message_packet m) = [message_signal m].
Proof.
  intros Ht. destruct m as [signo data|signo method params]; [done|].
  destruct tcp; [by specialize (Ht eq_refl)|]. apply metadata_signals_payload.
Qed.

Lemma message_bytes_byte tcp m : sendable m -> Forall is_byte (message_bytes tcp m).
Proof.
  unfold sendable, message_bytes. destruct (message_packet m) as [[ty sg] pl]. intros (Hs & Hn & Hb).
  destruct (SP.generate_header_ok sg ty (size_of pl)) as (h & -> & Hh); [lia|].
  assert (Forall is_byte (h ++ pl)) by by apply Forall_app_2.
  unfold framed. destruct tcp; [done|]. apply Forall_app_2; [|done].
  unfold WS.generate_header. repeat case_match;
    repeat (apply Forall_cons_2; [first [by apply wrap_range|by vm_compute]|]);
    apply Forall_nil_2.
Qed.

(** One message in front of a stream. *)
Lemma stream_message tcp m rest :
  sendable m -> (tcp = true -> is_data m = true) -> Forall is_byte rest ->
  stream_signals tcp (message_bytes tcp m ++ rest) = message_signal m :: stream_signals tcp rest /\
  stream_rest tcp (message_bytes tcp m ++ rest) = stream_rest tcp rest.
Proof.
  intros Hm Ht Hr. pose proof (message_bytes_byte tcp m Hm) as Hmb.
  pose proof (packet_signals_message tcp m Ht) as Hsig.
  unfold sendable, message_bytes in *.
  assert (Hty : in_u 4 (message_packet m).1.1) by (destruct m; by vm_compute).
  destruct (message_packet m) as [[ty sg] pl]. cbn in Hty. destruct Hm as (Hs & Hn & Hb).
  destruct (SP.generate_header_ok sg ty (size_of pl)) as (h & Hh & Hhb); [lia|]. rewrite Hh in *.
  assert (Hhl : length h <= 8).
  { unfold SP.generate_header in Hh. repeat case_match; simplify_eq; len. }
  unfold framed in *. destruct tcp.
  - unfold stream_signals, stream_rest, packets_signals. rewrite <- app_assoc.
    assert (Hall : Forall is_byte (h ++ pl ++ rest)).
    { apply Forall_app_2; [done|]. by apply Forall_app_2. }
    rewrite (deframe_some dec_packet _ _ _ Hall (dec_packet_generated _ _ _ rest _ Hs Hty Hn Hh)).
    cbn [fst snd]. rewrite fmap_cons, Hsig, (app_assoc h), drop_app_length' by len. done.
  - assert (Hwf : WS.wf_fields WS.opcode_BINARY WS.flags_FIN (size_of (h ++ pl))).
    { split; [by vm_compute|]. split; [exists 8%Z; by vm_compute|]. unfold in_u. len. }
    rewrite <- app_assoc, WS.generate_header_rfc by done.
    destruct (stream_signals_frame WS.opcode_BINARY WS.flags_FIN (size_of (h ++ pl)) None (h ++ pl)
      rest Hwf I eq_refl) as [-> ->]; [by apply Forall_app_2|done|]. split; [|done].
    unfold frame_signals, unmasked, packets_signals.
    cbn [fst snd WS.rfc_decoded WS.is_masked WS.opcode Z.eqb].
    pose proof (dec_packet_generated _ _ pl [] _ Hs Hty Hn Hh) as Hd. rewrite app_nil_r in Hd.
    change (WS.opcode_BINARY =? WS.opcode_BINARY)%Z with true. cbn iota.
    assert (Hall : Forall is_byte (h ++ pl)) by by apply Forall_app_2.
    rewrite (deframe_some dec_packet _ _ _ Hall Hd).
    cbn [fst snd]. rewrite <- length_app, drop_all, fmap_cons, Hsig. done.
Qed.

Lemma stream_messages tcp ms :
  Forall sendable ms -> (tcp = true -> Forall (fun m => is_data m = true) ms) ->
  stream_signals tcp (mjoin (message_bytes tcp <$> ms)) = message_signal <$> ms /\
  stream_rest tcp (mjoin (message_bytes tcp <$> ms)) = [] /\
  Forall is_byte (mjoin (message_bytes tcp <$> ms)).
Proof.
  induction 1 as [|m ms Hm Hms IH]; intros Ht; [by destruct tcp|].
  destruct IH as (IH1 & IH2 & IH3); [intros E; apply Ht in E; by apply Forall_cons in E as [_ ?]|].
  cbn [fmap list_fmap]. fold (fmap (M:=list) (message_bytes tcp) ms) (fmap (M:=list) message_signal ms).
  change (mjoin (message_bytes tcp m :: (message_bytes tcp <$> ms)))
    with (message_bytes tcp m ++ mjoin (message_bytes tcp <$> ms)).
  destruct (stream_message tcp m (mjoin (message_bytes tcp <$> ms))) as [-> ->]; try done.
  { intros E. apply Ht in E. by apply Forall_cons in E as [? _]. }
  rewrite IH1, IH2. split; [done|]. split; [done|]. apply Forall_app_2; [|done].
  by apply message_bytes_byte.
Qed.
End EndToEnd.

Section Runs.
Context `{JL : JsonLib} {S : Type} `{!Socket S} `{DB.BufferCopy}.
Abbreviation state := (peer_state S).
Abbreviation peer := (base_peer * state)%type.

(** What drives the transmit side: a message to send, or the completion of a
    write wait (which happens only while one is pending). *)
Inductive action : Type :=
| act_send (m : message)
| act_writable (ec : error_code).

Definition act (a : action) (p : peer) : option peer :=
  match a with
  | act_send m => match send_message m p with Ok r => r | Throw _ => None end
  | act_writable ec => if waiting_tx p.2 then finish_wait_tx ec p else Some p
  end.

Fixpoint acts (l : list action) (p : peer) : option peer :=
  match l with
  | [] => Some p
  | a :: l => match act a p with Some p => acts l p | None => None end
  end.

Definition sends (l : list action) : list message :=
  omap (fun a => if a is act_send m then Some m else None) l.

Lemma peer_act_spec a (p : peer) :
  (forall m, a = act_send m -> sendable m) -> peer_ok (is_closed p.1) p.2 ->
  exists p', act a p = Some p' /\
    sent (mjoin (message_bytes (use_tcp_protocol p.1) <$> sends [a])) p p'.
Proof.
  intros Hm Hp. destruct a as [m|ec]; cbn [act].
  - destruct (send_message_spec m p (Hm m eq_refl) Hp) as (p' & -> & Hs). exists p'.
    split; [done|]. cbn. by rewrite app_nil_r.
  - destruct (waiting_tx p.2) eqn:E; [by apply finish_wait_tx_spec|].
    exists p. split; [done|]. constructor; [done|apply may_close_refl| |apply wired_same; [apply Hp|done]].
    intros _. cbn. by rewrite app_nil_r.
Qed.

Lemma wired_trans bs1 bs2 (p p1 p2 : peer) :
  sent bs1 p p1 -> wired bs2 p1 p2 -> wired (bs1 ++ bs2) p p2.
Proof.
  intros [_ Hb Hs [G1 B1 F1]] [G2 B2 F2]. constructor; [by etrans| |].
  - destruct (is_closed p1.1) eqn:E.
    + destruct (F2 eq_refl) as [-> _]. rewrite app_assoc. by apply prefix_app_r.
    + destruct (Hs eq_refl) as [Ho _]. by rewrite Ho, <- app_assoc in B2.
  - intros Hc. destruct (F1 Hc) as [<- _]. apply F2.
    destruct Hb as [_ _ _ _ _ [[-> _]|(_ & -> & _)]]; done.
Qed.

Lemma may_close_trans (a b c : base_peer) : may_close a b -> may_close b c -> may_close a c.
Proof.
  intros [A1 A2 A3 A4 A5 A6] [B1 B2 B3 B4 B5 B6]. constructor; [congruence..|].
  destruct A6 as [[A6 A7]|(A6 & A7 & ec & A8)].
  - rewrite A6, A7 in B6. exact B6.
  - right. destruct B6 as [[B6 B7]|(B6 & _)]; [|congruence].
    split; [done|]. split; [congruence|]. exists ec. congruence.
Qed.

(** A run of the transmit side, seen from outside. *)
Lemma peer_acts_sent l : forall p : peer,
  Forall sendable (sends l) -> peer_ok (is_closed p.1) p.2 ->
  exists p', acts l p = Some p' /\ peer_ok (is_closed p'.1) p'.2 /\ may_close p.1 p'.1 /\
    wired (mjoin (message_bytes (use_tcp_protocol p.1) <$> sends l)) p p' /\
    (is_closed p'.1 = false ->
       outgoing p'.2 = outgoing p.2 ++ mjoin (message_bytes (use_tcp_protocol p.1) <$> sends l)).
Proof.
  induction l as [|a l IH]; intros p Hm Hp; cbn [acts].
  { exists p. split_and!; try done; [apply may_close_refl|apply wired_same; [apply Hp|done]|].
    intros _. cbn. by rewrite app_nil_r. }
  assert (Hsplit : sends (a :: l) = sends [a] ++ sends l).
  { unfold sends. change (a :: l) with ([a] ++ l). apply omap_app. }
  rewrite Hsplit in *. apply Forall_app in Hm as [Hm1 Hm2].
  destruct (peer_act_spec a p) as (p1 & -> & Hsent); [|done|].
  { intros m ->. by apply Forall_cons in Hm1 as [? _]. }
  pose proof Hsent as [Ho Hb Hs _].
  destruct (IH p1 Hm2 Ho) as (p' & -> & Ho' & Hb' & Hw' & Hs'). exists p'. split; [done|]. split; [done|].
  assert (Htcp : use_tcp_protocol p1.1 = use_tcp_protocol p.1) by apply Hb. rewrite Htcp in *.
  rewrite fmap_app. unfold mjoin. rewrite join_app.
  split; [by eapply may_close_trans|]. split; [by eapply wired_trans|].
  intros Hc. rewrite (Hs' Hc). rewrite app_assoc. f_equal. apply Hs.
  by destruct Hb' as [_ _ _ _ _ [[<- _]|(E & E' & _)]]; [|congruence].
Qed.

Lemma peer_acts_spec l (p : peer) :
  Forall sendable (sends l) -> peer_ok (is_closed p.1) p.2 ->
  exists p', acts l p = Some p' /\ peer_ok (is_closed p'.1) p'.2 /\
    (is_closed p.1 = true -> is_closed p'.1 = true) /\
    (is_closed p'.1 = false ->
       outgoing p'.2 = outgoing p.2 ++ mjoin (message_bytes (use_tcp_protocol p.1) <$> sends l)).
Proof.
  intros Hm Hp. destruct (peer_acts_sent l p Hm Hp) as (p' & -> & Ho & Hb & _ & Hs).
  exists p'. split_and!; try done. destruct Hb as [_ _ _ _ _ [[-> _]|(_ & -> & _)]]; done.
Qed.

Lemma peer_make_peer_ok s tcp rx tx : peer_ok false (make_peer s tcp rx tx).2.
Proof. constructor; cbn; try done. apply DB.make_wf. Qed.

Lemma make_peer_outgoing s tcp rx tx : outgoing (make_peer s tcp rx tx).2 = wire s.
Proof.
  unfold outgoing, make_peer. cbn [snd set_send_buffer_size set_socket socket tx_buffer].
  by rewrite wire_set_send_buffer, wire_non_blocking, app_nil_r.
Qed.
End Runs.

(** A scripted socket, for evaluation: each [send] accepts at most the next
    number of bytes of the script, each [receive] gives the next result. *)
Record script := mk_socket {
  sc_wire : list Z;
  sc_sends : list nat;
  sc_receives : list (list Z + error_code);
  sc_open : bool
}.

Definition mk_script (w : list Z) (sends : list nat) (receives : list (list Z + error_code)) : script :=
  mk_socket w sends receives true.

Definition bad_descriptor : error_code := other_error 9.

Definition script_send (s : script) (bs : list Z) : script * nat * error_code :=
  if negb (sc_open s) then (s, 0, bad_descriptor) else
  match sc_sends s with
  | [] => (s, 0, would_block)
  | n :: rest =>
      (mk_script (sc_wire s ++ take n bs) rest (sc_receives s), n `min` length bs, success)
  end.

Definition script_receive (s : script) (n : nat) : script * list Z * error_code :=
  if negb (sc_open s) then (s, [], bad_descriptor) else
  match sc_receives s with
  | [] => (s, [], would_block)
  | inr ec :: rest => (mk_script (sc_wire s) (sc_sends s) rest, [], ec)
  | inl bs :: rest =>
      (mk_script (sc_wire s) (sc_sends s) rest, (fun z => u8 z) <$> take n bs, success)
  end.

#[export] Instance script_socket : Socket script.
Proof.
  refine {| wire := sc_wire; sock_open := sc_open; sock_send := script_send; sock_receive := script_receive;
    sock_set_send_buffer s _ := s; sock_non_blocking s := s; sock_shutdown s := s;
    sock_close s := mk_socket (sc_wire s) (sc_sends s) (sc_receives s) false |}; try done.
  - intros s bs s' n ec. unfold script_send.
    destruct (sc_open s); cbn [negb];
      [|intros E; simplify_eq; split; [lia|]; split; [symmetry; apply app_nil_r|done]].
    destruct (sc_sends s) as [|k rest]; intros E; simplify_eq; cbn.
    + rewrite app_nil_r. split; [lia|done].
    + split; [lia|]. split; [|done]. f_equal. rewrite <- (firstn_all bs) at 1.
      by rewrite take_take.
  - intros s n s' data ec. unfold script_receive.
    destruct (sc_open s); cbn [negb]; [|intros E; simplify_eq; cbn; split_and!; (done || lia)].
    destruct (sc_receives s) as [|[bs|e] rest]; intros E; simplify_eq; cbn.
    + split_and!; try done; lia.
    + rewrite length_fmap, length_take. split; [lia|]. split; [|done].
      apply Forall_fmap, Forall_true. intros x. by apply wrap_range.
    + split_and!; try done; lia.
  - intros s bs s' n ec Ho. unfold script_send. rewrite Ho. cbn [negb]. intros E. by simplify_eq.
  - intros s n s' data ec Ho. unfold script_receive. rewrite Ho. cbn [negb]. intros E. by simplify_eq.
Defined.

#[local] Existing Instance jv_json.
#[local] Existing Instance DB.reference_buffer_copy.

Lemma sendable_data_intro `{JL : JsonLib} signo data :
  bool_decide (in_u 20 signo) = true -> (1 <=? size_of data)%Z && (size_of data <? 2 ^ 31)%Z = true ->
  forallb (fun x => bool_decide (is_byte x)) data = true -> sendable (data_message signo data).
Proof.
  intros Hs%bool_decide_eq_true Hn Hb. split; [done|]. split; [lia|].
  apply Forall_forall. intros x Hx. rewrite forallb_forall in Hb.
  apply (bool_decide_unpack (is_byte x)), Is_true_true, Hb. by apply list_elem_of_In.
Qed.

Lemma sendable_metadata_intro `{JL : JsonLib} signo method params :
  bool_decide (in_u 20 signo) = true ->
  (size_of (metadata_payload method params) <? 2 ^ 31)%Z = true ->
  sendable (metadata_message signo method params).
Proof.
  intros Hs%bool_decide_eq_true Hn. split; [done|].
  assert (4 <= length (metadata_payload method params)).
  { unfold metadata_payload. rewrite length_app, length_le_bytes. lia. }
  split; [len|]. apply Forall_app_2; [apply le_bytes_byte|apply msgpack_bytes].
Qed.

(** ** Properties *)

(** C25: bytes leave in the order they were written: whatever the socket
    accepts at each attempt, and however sends and write completions
    interleave, no operation gets stuck, and over a connection still open the
    bytes the operating system has accepted followed by the buffered ones are
    the earlier ones followed by the encodings of the messages sent; a write
    wait is pending exactly while bytes are buffered. *)
Theorem peer_sends_in_order `{JL : JsonLib} {S} `{!Socket S} `{DB.BufferCopy} l
    (p : base_peer * peer_state S) :
  Forall sendable (sends l) -> peer_ok (is_closed p.1) p.2 ->
  exists p', acts l p = Some p' /\
    (is_closed p'.1 = false ->
       outgoing p'.2 = outgoing p.2 ++ mjoin (message_bytes (use_tcp_protocol p.1) <$> sends l) /\
       waiting_tx p'.2 = negb (DB.empty (tx_buffer p'.2)) /\
       tx_waits p'.2 = if waiting_tx p'.2 then 1 else 0).
Proof.
  intros Hm Hp. destruct (peer_acts_spec l p Hm Hp) as (p' & -> & Hok & _ & Hs).
  exists p'. split; [done|]. intros Hc. rewrite Hc in Hok. destruct Hok. auto.
Qed.

Definition example_actions : list action :=
  [act_send (data_message 7 [1; 2; 3]%Z); act_send (data_message 8 [4]%Z); act_writable success].

Definition example_peer : base_peer * peer_state script :=
  make_peer (mk_script [] [5; 1; 100] []) true 16 4096.

Lemma peer_sends_in_order_witness :
  exists p', acts example_actions example_peer = Some p' /\
    (is_closed p'.1 = false -> outgoing p'.2
       = outgoing example_peer.2 ++ mjoin (message_bytes true <$> sends example_actions) /\
       waiting_tx p'.2 = negb (DB.empty (tx_buffer p'.2)) /\
       tx_waits p'.2 = if waiting_tx p'.2 then 1 else 0).
Proof.
  apply (peer_sends_in_order example_actions example_peer).
  - change (Forall sendable [data_message 7 [1; 2; 3]; data_message 8 [4]]%Z).
    repeat apply Forall_cons_2; [by apply sendable_data_intro..|apply Forall_nil_2].
  - apply peer_make_peer_ok.
Defined.

(** C5: end to end: if a peer sends messages over a WebSocket connection, or
    data over a TCP one, and its socket has accepted all of them, then a peer
    of any transport that receives those bytes, cut into reads in any way,
    delivers exactly these messages, in order, and has nothing left over. *)
Theorem messages_arrive `{JL : JsonLib} {S} `{!Socket S} `{DB.BufferCopy}
    {T} `{!Transport T} `{!ControlSender T} s tcp rx tx l chunks max (t : T)
    (p : base_peer * peer_state S) (q : base_peer * T) :
  wire s = [] -> Forall sendable (sends l) ->
  (tcp = true -> Forall (fun m => is_data m = true) (sends l)) ->
  acts l (make_peer s tcp rx tx) = Some p -> is_closed p.1 = false ->
  DB.empty (tx_buffer p.2) = true ->
  transport_wf false t -> mjoin chunks = wire (socket p.2) ->
  fed chunks (make tcp max, t) q -> is_closed q.1 = false ->
  deliveries q.1 = message_signal <$> sends l /\ pending q.1 = [].
Proof.
  intros Hs Hm Ht Ha Hc He Hok Hch Hf Hcq.
  destruct (peer_acts_spec l (make_peer s tcp rx tx) Hm (peer_make_peer_ok s tcp rx tx))
    as (p' & Ha' & Hok' & _ & Hout). rewrite Ha in Ha'. simplify_eq.
  specialize (Hout Hc). rewrite make_peer_outgoing, Hs in Hout. cbn [app] in Hout.
  unfold outgoing in Hout. replace (DB.content (tx_buffer p'.2)) with (@nil Z) in Hout.
  2: { pose proof (DB.length_content _ (ok_tx _ _ Hok')) as Hl. apply Nat.eqb_eq in He.
       symmetry. apply length_zero_iff_nil. lia. }
  rewrite app_nil_r in Hout. cbn [fst make_peer make use_tcp_protocol] in Hout.
  destruct (fed_delivery chunks (make tcp max, t) q Hf) as [H1 H2];
    [apply wf_make|done|done|by destruct tcp|by destruct tcp|].
  cbn [fst make use_tcp_protocol] in H1, H2.
  destruct (stream_messages tcp (sends l) Hm Ht) as (E1 & E2 & _).
  rewrite H1, H2. change (pending (make tcp max)) with (@nil Z). cbn [app].
  rewrite Hch, Hout, E1, E2. done.
Qed.

Definition hello_actions : list action :=
  [act_send (metadata_message 0 "x" (jint 1)); act_send (data_message 7 [1; 2]%Z);
   act_writable success].

Definition hello_peer : option (base_peer * peer_state script) :=
  acts hello_actions (make_peer (mk_script [] [5; 1000] []) false 16 4096).

Definition hello_wire : list Z :=
  match hello_peer with Some p => wire (socket p.2) | None => [] end.

Definition hello_chunks : list (list Z) := [take 11 hello_wire; drop 11 hello_wire].

#[local] Existing Instance idle_transport.

Lemma messages_arrive_witness :
  exists q : base_peer,
    deliveries q = [on_metadata_received 0 "x" (jint 1); on_data_received 7 [1; 2]%Z].
Proof.
  assert (Hp : exists p, hello_peer = Some p /\ is_closed p.1 = false /\
    DB.empty (tx_buffer p.2) = true /\ mjoin hello_chunks = wire (socket p.2)).
  { eexists. split; [vm_compute; reflexivity|]. by vm_compute. }
  destruct Hp as (p & Hp & Hpc & Hpe & Hw).
  assert (Hq : exists q, @feed jv_json idle _ (idle_sender jv_json) hello_chunks
    (make false 512, mk_idle 0 []) = Some q /\ is_closed q.1 = false).
  { eexists. split; [vm_compute; reflexivity|]. by vm_compute. }
  destruct Hq as (q & Hq & Hqc). exists q.1.
  destruct (@messages_arrive jv_json script _ _ idle _ (idle_sender jv_json)
    (mk_script [] [5; 1000] []) false 16 4096 hello_actions hello_chunks 512 (mk_idle 0 []) p q)
    as [Hd _]; [done| |done|exact Hp|done|done|done|exact Hw|exact (feed_fed _ _ _ Hq)|done|].
  - change (Forall sendable [metadata_message 0 "x" (jint 1); data_message 7 [1; 2]]%Z).
    apply Forall_cons_2; [by apply sendable_metadata_intro; vm_compute|].
    apply Forall_cons_2; [by apply sendable_data_intro|apply Forall_nil_2].
  - rewrite Hd. reflexivity.
Defined.

(** C37: metadata sent over the direct TCP protocol is not understood by the
    program's own receiver: the encoding word leaves in host (little-endian)
    order, is read in big-endian order, and the packet is ignored. *)
Theorem tcp_metadata_lost `{JL : JsonLib} signo method params rest :
  sendable (metadata_message signo method params) -> Forall is_byte rest ->
  stream_signals true (message_bytes true (metadata_message signo method params) ++ rest)
  = stream_signals true rest.
Proof.
  intros Hm Hr. pose proof (message_bytes_byte true _ Hm) as Hmb.
  unfold sendable, message_bytes in *. cbn [message_packet] in *. destruct Hm as (Hs & Hn & Hb).
  set (pl := metadata_payload method params) in *.
  destruct (SP.generate_header_ok signo SP.packet_type_METADATA (size_of pl)) as (h & Hh & Hhb); [lia|].
  rewrite Hh in *. unfold framed in *. rewrite <- app_assoc.
  assert (Hty : in_u 4 SP.packet_type_METADATA) by by vm_compute.
  assert (Hall : Forall is_byte (h ++ pl ++ rest)).
  { apply Forall_app_2; [done|]. by apply Forall_app_2. }
  unfold stream_signals, packets_signals.
  rewrite (deframe_some dec_packet _ _ _ Hall (dec_packet_generated _ _ _ rest _ Hs Hty Hn Hh)).
  cbn [fst]. rewrite fmap_cons, app_assoc, drop_app_length' by len.
  assert (packet_signals true (SP.packet_type_METADATA, signo, pl) = []) as ->; [|done].
  cbn [packet_signals]. change (SP.packet_type_METADATA =? SP.packet_type_DATA)%Z with false.
  change (SP.packet_type_METADATA =? SP.packet_type_METADATA)%Z with true. cbn iota.
  unfold metadata_signals. destruct (length pl <? 4); [done|].
  unfold pl, metadata_payload. rewrite metadata_encoding_be. unfold decode_metadata.
  change (2 * 2 ^ 24 =? SP.metadata_encoding_JSON)%Z with false.
  change (2 * 2 ^ 24 =? SP.metadata_encoding_MSGPACK)%Z with false. cbv iota zeta.
  unfold is_object. by rewrite view_jnull.
Qed.

Lemma tcp_metadata_lost_witness :
  stream_signals true (message_bytes true (metadata_message 0 "x" (jint 1)) ++ []) = [].
Proof.
  etrans; [apply (tcp_metadata_lost 0 "x" (jint 1) [])|reflexivity].
  - by apply sendable_metadata_intro; vm_compute.
  - apply Forall_nil_2.
Defined.

(** An error reported by the socket's receive operation is never passed
    on: such a call returns no bytes, so an open peer closes as if the remote
    end had shut down cleanly (even when the call would merely have blocked). *)
Theorem receive_error_reported_as_clean_close `{JL : JsonLib} {S} `{!Socket S} `{DB.BufferCopy}
    (p : base_peer * peer_state S) s data ec :
  is_closed p.1 = false -> ec <> success ->
  sock_receive (socket p.2) (length (rx_buffer p.1) - rx_buffer_bytes p.1) = (s, data, ec) ->
  exists p', finish_wait_rx success p = Some p' /\ is_closed p'.1 = true /\
    raised p'.1 = raised p.1 ++ [on_closed success].
Proof.
  intros Hc He Hr. unfold finish_wait_rx. rewrite bool_decide_false by auto.
  cbn [fst snd socket]. rewrite Hr. apply sock_receive_law in Hr as (_ & _ & _ & Hd).
  rewrite (Hd He). eexists. split; [done|]. unfold close. cbn [fst]. by rewrite Hc.
Qed.

Lemma receive_error_reported_as_clean_close_witness :
  exists p', finish_wait_rx success (make_peer (mk_script [] [] [inr (other_error 104)]) true 16 16)
    = Some p' /\ is_closed p'.1 = true /\ raised p'.1 = [] ++ [on_closed success].
Proof.
  eapply (receive_error_reported_as_clean_close
    (make_peer (mk_script [] [] [inr (other_error 104)]) true 16 16) _ [] (other_error 104));
    [done|done|by vm_compute].
Defined.
