(* ===== verification/PeerTls.v ===== *)
(** * The TLS transport

    [src/detail/peer_tls.cpp] and [include/ws-streaming/detail/peer_tls.hpp].
    The TLS stream is a parameter (the class [TlsStream]).  Starting an
    asynchronous write records the message in [outstanding] and [handed]: the
    writes started and not completed, and all writes started so far; its
    completion handler is [finish_write].  [front()] of an empty queue has no
    result ([None]), and is proved never to be taken.

    Contract: at most one write is outstanding, it is the front of the queue,
    the byte count is that of the queue and stays within the limit while the
    peer is open, and messages are handed over whole and in order. *)
From S2P Require Import Prelude Json BasePeer.
From S2P Require Peer.
#[local] Open Scope nat_scope.

(** The lowest layer of wss::detail::ssl_stream. *)
Class TlsStream (S : Type) := {
  tls_shutdown : S -> S;
  tls_close : S -> S
}.

Record tx_message := mk_message { data : list Z; shutdown_after : bool }.

Record peer_state (S : Type) := mk_peer {
  stream : S;
  tx_queue : list tx_message;
  tx_queued_bytes : nat;
  tx_buffer_limit : nat;
  write_in_flight : bool;
  reads : nat;
  outstanding : list (list Z);
  handed : list (list Z)
}.
Arguments mk_peer {S}.
Arguments stream {S}.
Arguments tx_queue {S}.
Arguments tx_queued_bytes {S}.
Arguments tx_buffer_limit {S}.
Arguments write_in_flight {S}.
Arguments reads {S}.
Arguments outstanding {S}.
Arguments handed {S}.

Section PeerTls.
Context `{JL : JsonLib} {S : Type} `{!TlsStream S}.
Abbreviation state := (peer_state S).
Abbreviation peer := (base_peer * state)%type.

Definition make_peer (s : S) (tcp : bool) (rx_buffer_size tx_buffer_size : nat) : peer :=
  (make tcp rx_buffer_size, mk_peer s [] 0 tx_buffer_size false 0 [] []).

(** ** Transport primitives *)

Definition tls_do_read (t : state) : state :=
  mk_peer (stream t) (tx_queue t) (tx_queued_bytes t) (tx_buffer_limit t) (write_in_flight t)
    (reads t + 1) (outstanding t) (handed t).

Definition set_stream (s : S) (t : state) : state :=
  mk_peer s (tx_queue t) (tx_queued_bytes t) (tx_buffer_limit t) (write_in_flight t)
    (reads t) (outstanding t) (handed t).

Definition tls_shutdown_and_close (t : state) : state :=
  set_stream (tls_close (tls_shutdown (stream t))) t.

#[export] Instance tls_transport : Transport state :=
  {| do_read := tls_do_read;
     shutdown_and_close := tls_shutdown_and_close;
     close_socket t := set_stream (tls_close (stream t)) t |}.

Definition do_write (t : state) : option state :=
  match tx_queue t with
  | [] => None
  | m :: _ =>
      Some (mk_peer (stream t) (tx_queue t) (tx_queued_bytes t) (tx_buffer_limit t) true
              (reads t) (outstanding t ++ [data m]) (handed t ++ [data m]))
  end.

(** ** Sending *)

Definition set_queue (q : list tx_message) (n : nat) (t : state) : state :=
  mk_peer (stream t) q n (tx_buffer_limit t) (write_in_flight t) (reads t) (outstanding t) (handed t).

(** [buffer_copy] fills the message, of [calculated_size] bytes. *)
Definition write (buffers : list Z) (size : option nat) (do_shutdown_after : bool) (p : peer)
    : option peer :=
  if is_closed p.1 then Some p else
  let calculated_size := value_or size (length buffers) in
  let message := resize calculated_size 0%Z (take calculated_size buffers) in
  let p := (p.1, set_queue (tx_queue p.2 ++ [mk_message message do_shutdown_after])
                   (tx_queued_bytes p.2 + calculated_size) p.2) in
  if tx_buffer_limit p.2 <? tx_queued_bytes p.2 then Some (close no_buffer_space p)
  else if write_in_flight p.2 then Some p
  else (fun t => (p.1, t)) <$> do_write p.2.

Definition send_websocket_frame (opcode : Z) (payload : list Z) (payload_size : option nat)
    (do_shutdown_after : bool) (p : peer) : option peer :=
  let calculated_payload_size := value_or payload_size (length payload) in
  let ws_header := WS.generate_header opcode WS.flags_FIN (Z.of_nat calculated_payload_size) in
  write (ws_header ++ payload) (Some (length ws_header + calculated_payload_size))
    do_shutdown_after p.

Definition send_packet (signo type : Z) (payload : list Z) (payload_size : option nat) (p : peer)
    : result SP.packet_error (option peer) :=
  let calculated_payload_size := value_or payload_size (length payload) in
  streaming_header <-? SP.generate_header signo type (Z.of_nat calculated_payload_size) ;
  Ok (let size := length streaming_header + calculated_payload_size in
      if use_tcp_protocol p.1
      then write (streaming_header ++ payload) (Some size) false p
      else send_websocket_frame WS.opcode_BINARY (streaming_header ++ payload) (Some size) false p).

Definition send_data (signo : Z) (bytes : list Z) (p : peer) : result SP.packet_error (option peer) :=
  send_packet signo SP.packet_type_DATA bytes None p.

Definition metadata_payload (method : string) (params : json) : list Z :=
  le_bytes 4 SP.metadata_encoding_MSGPACK
  ++ to_msgpack (jobj [("method", jstr method); ("params", params)]).

Definition send_metadata (signo : Z) (method : string) (params : json) (p : peer)
    : result SP.packet_error (option peer) :=
  send_packet signo SP.packet_type_METADATA (metadata_payload method params)
    (Some (length (metadata_payload method params))) p.

(** ** Completion handlers *)

Definition finish_write (ec : error_code) (p : peer) : option peer :=
  let t := p.2 in
  let p := (p.1, mk_peer (stream t) (tx_queue t) (tx_queued_bytes t) (tx_buffer_limit t) false
                   (reads t) (drop 1 (outstanding t)) (handed t)) in
  if bool_decide (ec <> success) then Some (close ec p) else
  match tx_queue t with
  | [] => None
  | entry :: rest =>
      let p := (p.1, set_queue rest (tx_queued_bytes t - length (data entry)) p.2) in
      if shutdown_after entry then Some (close success p)
      else match rest with
           | [] => Some p
           | _ :: _ => (fun t => (p.1, t)) <$> do_write p.2
           end
  end.

(** ** The invariant *)

Definition queued_total (q : list tx_message) : nat := sum_list (length ∘ data <$> q).

Record peer_ok (closed : bool) (t : state) : Prop := {
  ok_bytes : tx_queued_bytes t = queued_total (tx_queue t);
  ok_outstanding :
    outstanding t = if write_in_flight t then take 1 (data <$> tx_queue t) else [];
  ok_front : write_in_flight t = true -> tx_queue t <> [];
  ok_busy : closed = false -> tx_queue t <> [] -> write_in_flight t = true;
  ok_limit : closed = false -> tx_queued_bytes t <= tx_buffer_limit t
}.

(** Messages handed over or still to be. *)
Definition outgoing (t : state) : list (list Z) :=
  handed t ++ drop (if write_in_flight t then 1 else 0) (data <$> tx_queue t).

Record sent (ms : list (list Z)) (p p' : peer) : Prop := {
  sent_ok : peer_ok (is_closed p'.1) p'.2;
  sent_base : may_close p.1 p'.1;
  sent_limit : tx_buffer_limit p'.2 = tx_buffer_limit p.2;
  sent_messages : is_closed p'.1 = false -> outgoing p'.2 = outgoing p.2 ++ ms /\ p'.1 = p.1
}.

Lemma queued_total_app q r : queued_total (q ++ r) = queued_total q + queued_total r.
Proof. unfold queued_total. rewrite fmap_app. induction q; cbn; lia. Qed.

Lemma tls_sent_close ms ec (p q : peer) :
  q.1 = p.1 -> tx_buffer_limit q.2 = tx_buffer_limit p.2 -> peer_ok true q.2 ->
  sent ms p (close ec q).
Proof.
  intros Hq Hl Hok. constructor.
  - rewrite close_is_closed. unfold close. destruct (is_closed q.1); [done|].
    destruct Hok. by constructor.
  - rewrite <- Hq. apply close_may_close.
  - unfold close. by destruct (is_closed q.1).
  - by rewrite close_is_closed.
Qed.

Lemma tls_write_spec buffers sh (p : peer) :
  peer_ok (is_closed p.1) p.2 -> exists p',
  write buffers (Some (length buffers)) sh p = Some p' /\ sent [buffers] p p'.
Proof.
  intros Hok. unfold write. destruct (is_closed p.1) eqn:Hc.
  { exists p. split; [done|]. constructor; rewrite ?Hc; try done. apply may_close_refl. }
  destruct Hok as [Hb Ho Hf Hbusy Hl]. cbn [value_or].
  rewrite take_ge, resize_all by lia. cbn [fst snd set_queue tx_buffer_limit tx_queued_bytes write_in_flight].
  set (m := mk_message buffers sh).
  assert (Hb' : tx_queued_bytes p.2 + length buffers = queued_total (tx_queue p.2 ++ [m])).
  { rewrite queued_total_app, Hb. unfold queued_total. cbn. lia. }
  assert (Hne : tx_queue p.2 ++ [m] <> []) by (by destruct (tx_queue p.2)).
  destruct (Nat.ltb_spec (tx_buffer_limit p.2) (tx_queued_bytes p.2 + length buffers)).
  - eexists. split; [done|]. apply tls_sent_close; [done|done|]. constructor; cbn; try done.
    rewrite Ho. destruct (write_in_flight p.2); [|done]. destruct (tx_queue p.2); [by destruct Hf|done].
  - destruct (write_in_flight p.2) eqn:E.
    + eexists. split; [done|]. constructor; cbn; rewrite ?Hc; try done; [|apply may_close_refl|].
      * constructor; cbn; try done; rewrite ?E; try done.
        rewrite Ho. destruct (tx_queue p.2); [by destruct Hf|done].
      * intros _. split; [|done]. unfold outgoing; cbn. rewrite E, fmap_app.
        destruct (tx_queue p.2); [by destruct Hf|]. cbn. by rewrite <- app_assoc.
    + assert (tx_queue p.2 = []) as Eq.
      { destruct (tx_queue p.2) eqn:Eq; [done|]. by specialize (Hbusy eq_refl ltac:(discriminate)). }
      unfold do_write. cbn. rewrite Eq. cbn. eexists. split; [done|].
      rewrite Eq in Hb', Hb. cbn in Hb, Hb'.
      constructor; cbn; rewrite ?Hc; try done; [|apply may_close_refl|].
      * constructor; cbn; try done. by rewrite Ho.
      * intros _. split; [|done]. unfold outgoing; cbn. rewrite E, Eq. cbn.
        by rewrite !app_nil_r.
Qed.

Lemma finish_write_spec ec (p : peer) :
  peer_ok (is_closed p.1) p.2 -> write_in_flight p.2 = true ->
  exists p', finish_write ec p = Some p' /\ sent [] p p'.
Proof.
  intros [Hb Ho Hf Hbusy Hl] E. unfold finish_write.
  destruct (tx_queue p.2) as [|m rest] eqn:Eq; [by destruct Hf|]. rewrite E in Ho. cbn in Ho.
  rewrite Ho. cbn [drop].
  case_bool_decide; [eexists; split; [done|]; apply tls_sent_close; cbn; try done; by constructor|].
  assert (Hrest : tx_queued_bytes p.2 - length (data m) = queued_total rest).
  { rewrite Hb. unfold queued_total. cbn. lia. }
  destruct (shutdown_after m); [eexists; split; [done|]; apply tls_sent_close; cbn; try done; by constructor|].
  destruct rest as [|m' rest]; cbn.
  - eexists. split; [done|]. constructor; cbn; try done; [|apply may_close_refl|].
    + constructor; cbn; try done. intros Hc. specialize (Hl Hc). lia.
    + intros _. split; [|done]. unfold outgoing; cbn. by rewrite E, Eq, !app_nil_r.
  - eexists. split; [done|]. constructor; cbn; try done; [|apply may_close_refl|].
    + constructor; cbn; try done. intros Hc. specialize (Hl Hc). lia.
    + intros _. split; [|done]. unfold outgoing; cbn. rewrite E, Eq. cbn.
      by rewrite <- app_assoc, app_nil_r.
Qed.

Lemma tls_send_websocket_frame_spec opcode payload sh (p : peer) :
  peer_ok (is_closed p.1) p.2 -> exists p',
  send_websocket_frame opcode payload (Some (length payload)) sh p = Some p' /\
  sent [WS.generate_header opcode WS.flags_FIN (size_of payload) ++ payload] p p'.
Proof.
  intros Hp. unfold send_websocket_frame. cbn [value_or].
  fold (size_of payload). rewrite <- length_app. by apply tls_write_spec.
Qed.

(** [send_control_frame] *)
Definition tls_send_control_frame (opcode : Z) (payload : list Z) (size : nat)
    (shutdown_after : bool) (p : peer) : option peer :=
  send_websocket_frame opcode payload (Some size) shutdown_after p.

#[export] Instance tls_sender : ControlSender state.
Proof.
  refine {| send_control_frame := tls_send_control_frame; transport_wf := peer_ok |}.
  - intros c t []. by constructor.
  - intros t []. by constructor.
  - intros c t []. by constructor.
  - intros opcode payload size sh p Hp <-. unfold tls_send_control_frame.
    destruct (tls_send_websocket_frame_spec opcode payload sh p Hp) as (p' & Hs & [H1 H2 _ _]). eauto.
Defined.

(** [finish_read]: [bytes] are what the read placed behind the received
    bytes, [bytes_transferred] of them. *)
Definition finish_read (ec : error_code) (bytes : list Z) (p : peer) : option peer :=
  let t := p.2 in
  let p := (p.1, mk_peer (stream t) (tx_queue t) (tx_queued_bytes t) (tx_buffer_limit t)
                   (write_in_flight t) (reads t - 1) (outstanding t) (handed t)) in
  if bool_decide (ec <> success) then Some (close ec p)
  else if length bytes =? 0 then Some (close success p)
  else receive bytes p.
End PeerTls.

(** ** Runs of the transmit side *)

Section Runs.
Context `{JL : JsonLib} {S : Type} `{!TlsStream S}.
Abbreviation state := (peer_state S).
Abbreviation peer := (base_peer * state)%type.

Definition send_message (m : Peer.message) (p : peer) : result SP.packet_error (option peer) :=
  match m with
  | Peer.data_message signo bytes => send_data signo bytes p
  | Peer.metadata_message signo method params => send_metadata signo method params p
  end.

Inductive action : Type :=
| act_send (m : Peer.message)
| act_written (ec : error_code).

(** A write completes only while one is outstanding. *)
Definition act (a : action) (p : peer) : option peer :=
  match a with
  | act_send m => match send_message m p with Ok r => r | Throw _ => None end
  | act_written ec => if write_in_flight p.2 then finish_write ec p else Some p
  end.

Fixpoint acts (l : list action) (p : peer) : option peer :=
  match l with
  | [] => Some p
  | a :: l => match act a p with Some p => acts l p | None => None end
  end.

Definition sends (l : list action) : list Peer.message :=
  omap (fun a => if a is act_send m then Some m else None) l.

Lemma tls_send_packet_spec signo type payload (p : peer) h :
  peer_ok (is_closed p.1) p.2 ->
  SP.generate_header signo type (size_of payload) = Ok h ->
  forall size, size = None \/ size = Some (length payload) ->
  exists p', send_packet signo type payload size p = Ok (Some p') /\
    sent [Peer.framed (use_tcp_protocol p.1) (h ++ payload)] p p'.
Proof.
  intros Hp Hh size Hs. unfold send_packet.
  assert (Hsz : value_or size (length payload) = length payload) by (by destruct Hs as [-> | ->]).
  rewrite Hsz. fold (size_of payload). rewrite Hh. cbn [rbind].
  rewrite <- length_app. unfold Peer.framed. destruct (use_tcp_protocol p.1).
  - destruct (tls_write_spec (h ++ payload) false p Hp) as (p' & -> & ?). eauto.
  - destruct (tls_send_websocket_frame_spec WS.opcode_BINARY (h ++ payload) false p Hp)
      as (p' & -> & ?). eauto.
Qed.

Lemma tls_act_spec a (p : peer) :
  (forall m, a = act_send m -> Peer.sendable m) -> peer_ok (is_closed p.1) p.2 ->
  exists p', act a p = Some p' /\
    sent (Peer.message_bytes (use_tcp_protocol p.1) <$> sends [a]) p p'.
Proof.
  intros Hm Hp. destruct a as [m|ec]; cbn [act].
  - specialize (Hm m eq_refl). unfold Peer.sendable in Hm.
    assert (Hgen : exists h, SP.generate_header (Peer.message_packet m).1.2
      (Peer.message_packet m).1.1 (size_of (Peer.message_packet m).2) = Ok h).
    { destruct (Peer.message_packet m) as [[ty sg] pl]. cbn.
      destruct (SP.generate_header_ok sg ty (size_of pl)) as (h & ? & _); [lia|eauto]. }
    destruct Hgen as [h Hh]. cbn. unfold Peer.message_bytes.
    destruct m as [signo bytes|signo method params]; cbn [Peer.message_packet fst snd] in *;
      rewrite Hh; unfold send_message, send_data, send_metadata.
    + destruct (tls_send_packet_spec signo SP.packet_type_DATA bytes p h Hp Hh None) as (p' & -> & ?);
        [by left|eauto].
    + destruct (tls_send_packet_spec signo SP.packet_type_METADATA _ p h Hp Hh
        (Some (length (metadata_payload method params)))) as (p' & E & ?); [by right|].
      exists p'. change (Peer.metadata_payload method params) with (metadata_payload method params) in E.
      split; [by rewrite E|done].
  - destruct (write_in_flight p.2) eqn:E; [by apply finish_write_spec|].
    exists p. split; [done|]. constructor; [done|apply may_close_refl|done|].
    intros _. cbn. by rewrite app_nil_r.
Qed.

Lemma tls_acts_spec l : forall p : peer,
  Forall Peer.sendable (sends l) -> peer_ok (is_closed p.1) p.2 ->
  exists p', acts l p = Some p' /\ peer_ok (is_closed p'.1) p'.2 /\
    tx_buffer_limit p'.2 = tx_buffer_limit p.2 /\
    (is_closed p.1 = true -> is_closed p'.1 = true) /\
    (is_closed p'.1 = false ->
       outgoing p'.2 = outgoing p.2 ++ (Peer.message_bytes (use_tcp_protocol p.1) <$> sends l)).
Proof.
  induction l as [|a l IH]; intros p Hm Hp; cbn [acts].
  { exists p. split_and!; try done. intros _. cbn. by rewrite app_nil_r. }
  assert (Hsplit : sends (a :: l) = sends [a] ++ sends l).
  { unfold sends. change (a :: l) with ([a] ++ l). apply omap_app. }
  rewrite Hsplit in *. apply Forall_app in Hm as [Hm1 Hm2].
  destruct (tls_act_spec a p) as (p1 & -> & [Ho Hb Hlim Hs]); [|done|].
  { intros m ->. by apply Forall_cons in Hm1 as [? _]. }
  destruct (IH p1 Hm2 Ho) as (p' & -> & Ho' & Hlim' & Hc' & Hs'). exists p'.
  split; [done|]. split; [done|]. split; [congruence|].
  assert (Hmono : is_closed p.1 = true -> is_closed p1.1 = true).
  { destruct Hb as [_ _ _ _ _ [[-> _]|(_ & -> & _)]]; done. }
  split; [tauto|]. intros Hc. rewrite (Hs' Hc).
  assert (Hc1 : is_closed p1.1 = false) by (destruct (is_closed p1.1); [by rewrite Hc' in Hc|done]).
  destruct (Hs Hc1) as [-> Hp1]. by rewrite Hp1, fmap_app, <- app_assoc.
Qed.

Lemma tls_make_peer_ok (s : S) tcp rx tx : peer_ok false (make_peer s tcp rx tx).2.
Proof. constructor; cbn; try done. lia. Qed.
End Runs.

#[local] Existing Instance jv_json.

#[export] Instance unit_stream : TlsStream unit := {| tls_shutdown s := s; tls_close s := s |}.

(** ** Properties *)

(** C27: the TLS transmit queue: however sends and write completions
    interleave, no operation gets stuck; while the connection is open, the
    messages handed to the TLS engine followed by those queued are exactly the
    encodings of the messages sent, in order, at most one write is outstanding
    and it is the front of the queue, and the queue's byte count is exact and
    within the configured limit. *)
Theorem tls_queue_correct `{JL : JsonLib} {S} `{!TlsStream S} (s : S) tcp rx tx l :
  Forall Peer.sendable (sends l) ->
  exists p' : base_peer * peer_state S, acts l (make_peer s tcp rx tx) = Some p' /\
    outstanding p'.2
    = (if write_in_flight p'.2 then take 1 (data <$> tx_queue p'.2) else []) /\
    tx_queued_bytes p'.2 = queued_total (tx_queue p'.2) /\
    (is_closed p'.1 = false ->
       outgoing p'.2 = Peer.message_bytes tcp <$> sends l /\
       tx_queued_bytes p'.2 <= tx /\
       (tx_queue p'.2 <> [] -> write_in_flight p'.2 = true)).
Proof.
  intros Hm. destruct (tls_acts_spec l (make_peer s tcp rx tx) Hm (tls_make_peer_ok s tcp rx tx))
    as (p' & Ha & [Hb Ho Hf Hbusy Hl] & Hlim & _ & Hs).
  exists p'. split_and!; try done. intros Hc. rewrite Hlim in Hl. auto.
Qed.

Definition example_actions : list action :=
  [act_send (Peer.data_message 7 [1; 2; 3]%Z); act_send (Peer.data_message 8 [4]%Z);
   act_written success].

Lemma tls_queue_correct_witness :
  exists p', acts example_actions (make_peer tt false 16 64) = Some p' /\
    outstanding p'.2
    = (if write_in_flight p'.2 then take 1 (data <$> tx_queue p'.2) else []) /\
    tx_queued_bytes p'.2 = queued_total (tx_queue p'.2) /\
    (is_closed p'.1 = false ->
       outgoing p'.2 = Peer.message_bytes false <$> sends example_actions /\
       tx_queued_bytes p'.2 <= 64 /\
       (tx_queue p'.2 <> [] -> write_in_flight p'.2 = true)).
Proof.
  apply (tls_queue_correct tt false 16 64 example_actions).
  change (Forall Peer.sendable [Peer.data_message 7 [1; 2; 3]; Peer.data_message 8 [4]]%Z).
  repeat apply Forall_cons_2; [by apply Peer.sendable_data_intro..|apply Forall_nil_2].
Defined.

(** A close frame ends the TLS connection as soon as it has been written,
    however many messages were queued behind it: they are never handed over. *)
Theorem close_frame_drops_backlog `{JL : JsonLib} {S} `{!TlsStream S}
    (p : base_peer * peer_state S) m rest :
  tx_queue p.2 = m :: rest -> shutdown_after m = true -> is_closed p.1 = false ->
  exists p', finish_write success p = Some p' /\ is_closed p'.1 = true /\
    raised p'.1 = raised p.1 ++ [on_closed success] /\
    handed p'.2 = handed p.2 /\ tx_queue p'.2 = rest /\
    (forall signo bytes p'', send_data signo bytes p' = Ok (Some p'') -> p'' = p').
Proof.
  intros Hq Hs Hc. unfold finish_write. rewrite Hq, bool_decide_false, Hs by auto.
  eexists. split; [done|]. split; [apply close_is_closed|]. unfold close. cbn [fst]. rewrite Hc.
  split_and!; try done. intros signo bytes p''. unfold send_data, send_packet.
  destruct (SP.generate_header _ _ _); [|done]. cbn [rbind]. unfold send_websocket_frame, write.
  cbn [fst raise set_closed is_closed]. destruct (use_tcp_protocol _); intros E; by simplify_eq.
Qed.

Lemma close_frame_drops_backlog_witness :
  exists p p', tls_send_control_frame WS.opcode_CLOSE [] 0 true (make_peer tt false 16 64) = Some p /\
    finish_write success p = Some p' /\ is_closed p'.1 = true.
Proof.
  eexists. destruct (close_frame_drops_backlog
    (make false 16, mk_peer tt [mk_message [136; 0] true] 2 64 true 0 [[136; 0]] [[136; 0]])%Z
    (mk_message [136; 0]%Z true) []) as (p' & H & Hc & _); [done..|].
  exists p'. split; [by vm_compute|]. done.
Defined.
