(* ===== verification/PeerLimits.v ===== *)
(** * The limits of the receive buffer

    The receive buffer of a peer ([src/detail/base_peer.cpp]) grows on demand up
    to a configured maximum.  What the sources promise, and the tests of
    [tests/test_peer_limits.cpp] try on examples: a message that fits in the
    maximum is received, however it arrives, and a peer that gives up does so
    with [no_buffer_space], exactly when a message cannot be held. *)
From S2P Require Import Prelude Json BasePeer.
From S2P Require Peer.
#[local] Open Scope nat_scope.

(** Frames that neither end a connection nor are answered: final ones that are
    no CLOSE and no PING. *)
Definition plain (f : WS.decoded_header * list Z) : Prop :=
  Z.land (WS.flags f.1) WS.flags_FIN <> 0%Z /\ WS.opcode f.1 <> WS.opcode_CLOSE /\ WS.opcode f.1 <> WS.opcode_PING.

Definition plain_stream (tcp : bool) (d : list Z) : Prop :=
  tcp = true \/ Forall plain (deframe dec_frame d).1.

Section Quiet.
Context `{JL : JsonLib} {T : Type} `{!Transport T} `{!ControlSender T}.
Abbreviation peer := (base_peer * T)%type.

(** Neither closed nor reopened, and nothing said about it. *)
Definition steady (b b' : base_peer) : Prop := is_closed b' = is_closed b /\ closings b' = closings b.

#[local] Instance steady_preorder : PreOrder steady.
Proof. split; [done|]. intros x y z [] []. split; congruence. Qed.

Lemma steady_raise s b : Forall (fun s => is_delivery s = true) s -> steady b (raise s b).
Proof. intros Hs. split; [done|]. by rewrite closings_raise, filter_closings, app_nil_r. Qed.

Lemma steady_compact off b : steady b (compact off b).
Proof. unfold compact. by destruct (off =? 0). Qed.

(** The end of a round of processing closes the peer only for want of room. *)
Lemma finish_closings (p : peer) :
  wf p.1 ->
  if bool_decide (rx_buffer_bytes p.1 = rx_buffer_max p.1)
  then closings (finish_processing p).1
       = closings p.1 ++ (if is_closed p.1 then [] else [on_closed no_buffer_space])
  else closings (finish_processing p).1 = closings p.1.
Proof.
  intros Hwf. pose proof (wf_bytes _ Hwf). pose proof (wf_cap _ Hwf). unfold finish_processing.
  destruct (Nat.eqb_spec (rx_buffer_bytes p.1) (length (rx_buffer p.1))) as [E|E].
  - unfold grow_rx_buffer. destruct (Nat.leb_spec (rx_buffer_max p.1) (length (rx_buffer p.1))).
    + rewrite bool_decide_true by lia. unfold close. cbn [fst]. destruct (is_closed p.1); [by rewrite app_nil_r|].
      unfold closings. cbn. by rewrite List.filter_app.
    + by rewrite bool_decide_false by lia.
  - by rewrite bool_decide_false by lia.
Qed.

Lemma plain_frame_steady h off size (p : peer) :
  plain (h, slice off size (rx_buffer p.1)) -> wf p.1 -> Forall is_byte (WS.masking_key h) ->
  off + size <= rx_buffer_bytes p.1 ->
  exists p', process_websocket_frame h off size p = Some (p', success) /\ steady p.1 p'.1.
Proof.
  intros (Hf & Hc & Hp) Hwf Hk Hs. cbn in Hf, Hc, Hp. pose proof (wf_bytes _ Hwf) as Hn. unfold process_websocket_frame.
  rewrite (proj2 (Z.eqb_neq _ _) Hf). cbn zeta.
  set (b := if WS.is_masked h then _ else _).
  assert (Hb : steady p.1 b /\ Forall is_byte (slice off size (rx_buffer b))).
  { subst b. destruct (WS.is_masked h); (split; [done|]); apply slice_byte; [|apply Hwf].
    cbn. apply splice_byte, Hwf. apply unmask_byte; [done|]. apply slice_byte, Hwf. }
  destruct Hb as [Hb Hbytes]. rewrite (proj2 (Z.eqb_neq _ _) Hc), (proj2 (Z.eqb_neq _ _) Hp).
  destruct (WS.opcode h =? WS.opcode_BINARY)%Z; [|by eexists].
  assert (Hl : length (slice off size (rx_buffer b)) <= size) by (unfold slice; len).
  rewrite packet_loop_spec by (done || lia). cbn [fmap option_fmap option_map]. eexists. split; [done|].
  cbn [fst]. etrans; [exact Hb|]. apply steady_raise, packets_signals_delivery.
Qed.

Lemma frame_loop_plain fuel : forall offset (p p' : peer) off' early,
  wf p.1 -> sender_ok p -> use_tcp_protocol p.1 = false -> offset <= rx_buffer_bytes p.1 ->
  Forall plain (deframe dec_frame (slice offset (rx_buffer_bytes p.1 - offset) (rx_buffer p.1))).1 ->
  frame_loop fuel offset p = Some (p', off', early) -> early = false /\ steady p.1 p'.1.
Proof.
  induction fuel as [|fuel IH]; intros offset p p' off' early Hwf Ht Htcp Ho Hpl; [done|]. cbn [frame_loop].
  pose proof (wf_bytes _ Hwf) as Hn. set (D := slice offset _ _) in *.
  assert (HD : length D = rx_buffer_bytes p.1 - offset) by (apply length_slice; lia).
  assert (HDb : Forall is_byte D) by apply slice_byte, Hwf.
  destruct (Z.eqb_spec (WS.header_size (WS.decode_header D)) 0) as [E0|E0]; [by intros [= <- <- <-]|].
  assert (Hdec : exists f n, dec_frame D = Some (f, n)) by (unfold dec_frame; rewrite (proj2 (Z.eqb_neq _ _) E0); eauto).
  destruct Hdec as (f & n & Hdec). pose proof (dec_bound D f n HDb Hdec) as Hb.
  rewrite (deframe_some dec_frame D f n HDb Hdec) in Hpl. apply Forall_cons in Hpl as [Hf Hpl].
  unfold dec_frame in Hdec. rewrite (proj2 (Z.eqb_neq _ _) E0) in Hdec. injection Hdec as <- <-.
  set (h := WS.decode_header D) in *. set (hs := Z.to_nat (WS.header_size h)) in *.
  set (size := Z.to_nat (WS.payload_size h)) in *.
  assert (Hpay : slice (offset + hs) size (rx_buffer p.1) = slice hs size D) by (unfold D; by rewrite slice_slice by lia).
  destruct (process_websocket_frame_spec h (offset + hs) size p Hwf Ht Htcp) as (p1 & ec & E1 & Ht1 & Hres);
    [by apply WS.decode_header_masking_key|lia|].
  destruct (plain_frame_steady h (offset + hs) size p) as (p1' & E2 & Hst); try done.
  { by apply WS.decode_header_masking_key. } { lia. }
  rewrite E2 in E1 |- *. injection E1 as <- <-. rewrite bool_decide_true by done.
  destruct Hres as [(_ & He & Hn1 & Hl1 & Hsl)|[? _]]; [|done]. intros E.
  destruct (IH (offset + (hs + size)) p1' p' off' early) as [-> Hst']; try done.
  - apply He.
  - by rewrite (ev_tcp _ _ _ He).
  - lia.
  - rewrite Hsl, Hn1 by lia. unfold D in Hpl. rewrite drop_slice in Hpl by lia.
    replace (rx_buffer_bytes p.1 - (offset + (hs + size))) with (rx_buffer_bytes p.1 - offset - (hs + size)) by lia. done.
  - split; [done|]. by etrans.
Qed.

(** ** One round of processing *)

(** What is left over fills the maximum and the peer closes, or nothing
    happens to the connection and there is room for the next read. *)
Definition limited (b b' : base_peer) : Prop :=
  if bool_decide (length (pending b') = rx_buffer_max b) then
    is_closed b' = true /\ closings b' = closings b ++ (if is_closed b then [] else [on_closed no_buffer_space])
  else steady b b' /\ length (pending b') < length (rx_buffer b').

Lemma finish_limited (b : base_peer) (q : peer) :
  wf q.1 -> steady b q.1 -> rx_buffer_max q.1 = rx_buffer_max b -> limited b (finish_processing q).1.
Proof.
  intros Hwf [Hc Hcl] Hm. pose proof (finish_closings q Hwf) as H1.
  destruct (finish_processing_spec q Hwf) as (He & Hp & Hn & H2).
  assert (Hlen : length (pending (finish_processing q).1) = rx_buffer_bytes q.1).
  { rewrite Hp. unfold pending. pose proof (wf_bytes _ Hwf). len. }
  unfold limited. rewrite Hlen. rewrite Hm in *. destruct (bool_decide _).
  - split; [done|]. by rewrite H1, Hcl, Hc.
  - destruct H2 as [H2 H3]. split; [|done]. split; congruence.
Qed.

Lemma length_pending (b : base_peer) : wf b -> length (pending b) = rx_buffer_bytes b.
Proof. intros Hwf. pose proof (wf_bytes _ Hwf). unfold pending. len. Qed.

Lemma process_tcp_limits (p : peer) :
  wf p.1 -> sender_ok p -> use_tcp_protocol p.1 = true ->
  exists p', process_buffer_tcp p = Some p' /\ sender_ok p' /\
    evolves (stream_signals true (pending p.1)) p.1 p'.1 /\ pending p'.1 = stream_rest true (pending p.1) /\
    limited p.1 p'.1.
Proof.
  intros Hwf Ht Htcp. destruct (process_buffer_tcp_spec p Hwf Htcp) as (p' & Hp & He & Hr & _).
  exists p'. split; [done|]. assert (Hpb : Forall is_byte (pending p.1)) by apply Forall_take, Hwf.
  pose proof (length_pending _ Hwf) as Hpl. pose proof (wf_bytes _ Hwf).
  unfold process_buffer_tcp in Hp. rewrite packet_loop_spec in Hp by (done || lia). rewrite Htcp, drop_0 in Hp.
  injection Hp as <-. set (b1 := raise _ _) in *. set (off := _ - _) in *.
  pose proof (evolves_raise (packets_signals true (pending p.1)) p.1 Hwf (packets_signals_delivery _ _)) as H1.
  destruct (compact_spec off b1) as (H2 & _); [apply H1|unfold off; cbn; lia|].
  split; [by apply finish_processing_transport, (sender_ok_compact _ (b1, p.2))|].
  split; [done|]. split; [done|]. apply (finish_limited p.1 (compact off b1, p.2)); cbn [fst]; [apply H2| |].
  - etrans; [apply steady_raise, packets_signals_delivery|apply steady_compact].
  - rewrite (ev_max _ _ _ H2). apply H1.
Qed.

Lemma process_ws_limits (p : peer) :
  wf p.1 -> sender_ok p -> use_tcp_protocol p.1 = false -> Forall plain (deframe dec_frame (pending p.1)).1 ->
  exists p', process_buffer_ws p = Some p' /\ sender_ok p' /\
    evolves (stream_signals false (pending p.1)) p.1 p'.1 /\ pending p'.1 = stream_rest false (pending p.1) /\
    limited p.1 p'.1.
Proof.
  intros Hwf Ht Htcp Hpl. unfold process_buffer_ws.
  destruct (frame_loop_spec (S (rx_buffer_bytes p.1)) 0 p) as (p1 & off & early & E & Ht1 & Hr); [done..|lia|lia|].
  rewrite Nat.sub_0_r, slice_0 in Hr. fold (pending p.1) in Hr. rewrite E.
  destruct (frame_loop_plain (S (rx_buffer_bytes p.1)) 0 p p1 off early Hwf Ht Htcp ltac:(lia)) as [-> Hst]; [|done|].
  { rewrite Nat.sub_0_r, slice_0. done. }
  destruct Hr as (He & Hn & Ho & Hrest).
  destruct (compact_spec off p1.1) as (He2 & _ & Hp2 & Hn2); [apply He|lia|].
  destruct (finish_processing_spec (on_base (compact off) p1)) as (He3 & Hp3 & _); [apply He2|].
  cbn [on_base fst] in *. eexists. split; [done|].
  split; [by apply finish_processing_transport, sender_ok_compact|]. split.
  { pose proof (evolves_trans _ _ _ _ _ He (evolves_trans _ _ _ _ _ He2 He3)) as H. by rewrite app_nil_r in H. }
  split; [rewrite Hp3, Hp2; unfold pending at 1; rewrite <- slice_0, drop_slice; exact Hrest|].
  apply (finish_limited p.1 (on_base (compact off) p1)); cbn [on_base fst]; [apply He2| |].
  - etrans; [exact Hst|apply steady_compact].
  - rewrite (ev_max _ _ _ He2). apply He.
Qed.

Lemma receive_limits chunk (p : peer) :
  wf p.1 -> sender_ok p -> Forall is_byte chunk -> rx_buffer_bytes p.1 + length chunk <= length (rx_buffer p.1) ->
  plain_stream (use_tcp_protocol p.1) (pending p.1 ++ chunk) ->
  let tcp := use_tcp_protocol p.1 in
  exists p', receive chunk p = Some p' /\ sender_ok p' /\
    evolves (stream_signals tcp (pending p.1 ++ chunk)) p.1 p'.1 /\
    pending p'.1 = stream_rest tcp (pending p.1 ++ chunk) /\ limited p.1 p'.1.
Proof.
  intros Hwf Ht Hb Hl Hpl tcp. destruct (store_spec chunk p.1 Hwf Hb Hl) as (He & Hp & _ & _).
  set (q := on_base (store chunk) p).
  assert (Hq : exists p', process_buffer q = Some p' /\ sender_ok p' /\ evolves (stream_signals tcp (pending q.1)) q.1 p'.1 /\
    pending p'.1 = stream_rest tcp (pending q.1) /\ limited q.1 p'.1).
  { unfold process_buffer. change (use_tcp_protocol q.1) with tcp. unfold tcp in *.
    destruct (use_tcp_protocol p.1) eqn:E; [apply process_tcp_limits|apply process_ws_limits]; try done; try apply He.
    destruct Hpl as [|Hpl]; [done|]. cbn [q on_base fst]. by rewrite Hp. }
  destruct Hq as (p' & E & Ht' & He' & Hr & Hlim). cbn [q on_base fst] in He', Hr. rewrite Hp in He', Hr.
  exists p'. split; [exact E|]. split; [done|]. split; [|done]. apply (evolves_trans _ _ _ _ _ He He').
Qed.

(** ** Histories of reads *)

(** A buffer that holds no complete message. *)
Definition settled (b : base_peer) : Prop :=
  stream_signals (use_tcp_protocol b) (pending b) = [] /\
  stream_rest (use_tcp_protocol b) (pending b) = pending b.

(** Closed, for want of room, exactly while the buffer is full. *)
Definition within_limits (b : base_peer) : Prop :=
  closings b = (if is_closed b then [on_closed no_buffer_space] else []) /\
  (is_closed b = true <-> length (pending b) = rx_buffer_max b) /\
  (is_closed b = false -> length (pending b) < length (rx_buffer b)).

Lemma limited_within b b' s :
  within_limits b -> limited b b' -> evolves s b b' -> (is_closed b = true -> length (pending b') = rx_buffer_max b) ->
  within_limits b'.
Proof.
  intros (H1 & H2 & H3) Hl He Hc. unfold limited in Hl. unfold within_limits. rewrite (ev_max _ _ _ He).
  destruct (bool_decide_reflect (length (pending b') = rx_buffer_max b)) as [E|E].
  - destruct Hl as [Hc' Hcl]. rewrite Hc', Hcl, H1. split; [by destruct (is_closed b)|]. split; [done|by intros [=]].
  - destruct Hl as [[Hc' Hcl] Hroom]. rewrite Hc', Hcl. split; [done|]. split; [|done]. by split.
Qed.

Lemma rest_settled tcp d :
  Forall is_byte d ->
  stream_signals tcp (stream_rest tcp d) = [] /\ stream_rest tcp (stream_rest tcp d) = stream_rest tcp d.
Proof.
  intros Hb. destruct (stream_app tcp d [] Hb) as [Hs Hr]; [constructor|]. rewrite !app_nil_r in Hs, Hr.
  split; [|by rewrite <- Hr]. apply (f_equal length) in Hs. rewrite length_app in Hs.
  apply length_zero_iff_nil. lia.
Qed.

Lemma plain_stream_app tcp d e :
  Forall is_byte d -> Forall is_byte e -> plain_stream tcp (d ++ e) <->
  plain_stream tcp d /\ plain_stream tcp (stream_rest tcp d ++ e).
Proof.
  intros Hd He. unfold plain_stream. destruct tcp; [split; [intros _; split|intros _]; by left|].
  unfold stream_rest. rewrite (deframe_app dec_frame d e) by done. cbn [fst snd]. rewrite Forall_app. split.
  - intros [[=]|[? ?]]. split; by right.
  - intros [[[=]|?] [[=]|?]]. by right.
Qed.

Lemma fed_bytes chunks (p p' : peer) : fed chunks p p' -> Forall is_byte (mjoin chunks).
Proof. induction 1; [constructor|]. by apply Forall_app_2. Qed.

Lemma bytes_take k (chunks : list (list Z)) : Forall is_byte (mjoin chunks) -> Forall is_byte (mjoin (take k chunks)).
Proof.
  revert k. induction chunks as [|x chunks IH]; intros [|k] Hc; try constructor.
  apply Forall_app in Hc as [? ?]. cbn. apply Forall_app_2; [done|by apply IH].
Qed.

Lemma fed_limits chunks (p p' : peer) :
  fed chunks p p' -> wf p.1 -> sender_ok p -> settled p.1 -> within_limits p.1 ->
  let tcp := use_tcp_protocol p.1 in
  plain_stream tcp (pending p.1 ++ mjoin chunks) ->
  deliveries p'.1 = deliveries p.1 ++ stream_signals tcp (pending p.1 ++ mjoin chunks) /\
  within_limits p'.1 /\
  (is_closed p'.1 = true <->
   exists k, length (stream_rest tcp (pending p.1 ++ mjoin (take k chunks))) = rx_buffer_max p.1).
Proof.
  induction 1 as [p|chunk chunks p p1 p2 Hb Hl Hr Hfed IH]; intros Hwf Ht [Hs0 Hr0] Hlim tcp Hpl.
  { change (mjoin []) with (@nil Z). rewrite app_nil_r. unfold tcp. rewrite Hs0, app_nil_r. split; [done|]. split; [done|].
    destruct Hlim as (_ & Hc & _). rewrite Hc. split.
    - intros E. exists 0. cbn. by rewrite app_nil_r, Hr0.
    - intros [k E]. rewrite take_nil in E. cbn in E. by rewrite app_nil_r, Hr0 in E. }
  change (mjoin (chunk :: chunks)) with (chunk ++ mjoin chunks) in *. rewrite app_assoc in Hpl |- *.
  set (D := pending p.1 ++ chunk) in *.
  assert (HD : Forall is_byte D) by (apply Forall_app_2; [apply Forall_take, Hwf|done]).
  pose proof (fed_bytes _ _ _ Hfed) as Hcb.
  apply (plain_stream_app tcp D (mjoin chunks) HD Hcb) in Hpl as [Hpl1 Hpl2].
  destruct (receive_limits chunk p Hwf Ht Hb Hl Hpl1) as (p1' & Hr' & Ht' & He & Hp1 & Hlim1).
  rewrite Hr in Hr'. injection Hr' as <-. fold tcp D in He, Hp1. pose proof (ev_tcp _ _ _ He) as Htcp.
  assert (Hw1 : within_limits p1.1).
  { eapply limited_within; [done..|]. intros Hc. destruct Hlim as (_ & Hfull & _). pose proof (proj1 Hfull Hc) as Hlen.
    rewrite length_pending in Hlen by done. pose proof (wf_cap _ Hwf).
    assert (chunk = []) as -> by (apply length_zero_iff_nil; lia). unfold D, tcp in Hp1. rewrite app_nil_r, Hr0 in Hp1.
    by rewrite Hp1, length_pending. }
  destruct (rest_settled tcp D HD) as [Hset1 Hset2].
  destruct IH as (Hd & Hw2 & Hc2); try done; [apply He|split; by rewrite Htcp, Hp1|by rewrite Htcp, Hp1|].
  rewrite Htcp, Hp1 in Hd, Hc2. fold tcp in Hd, Hc2. rewrite (ev_max _ _ _ He) in Hc2.
  destruct (stream_app tcp D (mjoin chunks) HD Hcb) as [Hsa _].
  split; [by rewrite Hd, (ev_deliveries _ _ _ He), Hsa, app_assoc|]. split; [done|]. rewrite Hc2. split.
  - intros [k E]. exists (S k). cbn [take]. change (mjoin (chunk :: take k chunks)) with (chunk ++ mjoin (take k chunks)).
    rewrite app_assoc. fold D. by rewrite (proj2 (stream_app tcp D (mjoin (take k chunks)) HD (bytes_take k _ Hcb))).
  - intros [[|k] E].
    + unfold tcp in E. cbn in E. rewrite app_nil_r, Hr0 in E. apply Hc2. apply (fed_closed _ _ _ Hfed (ev_wf _ _ _ He) Ht').
      apply (ev_closed _ _ _ He). by apply Hlim.
    + exists k. cbn [take] in E. change (mjoin (chunk :: take k chunks)) with (chunk ++ mjoin (take k chunks)) in E.
      rewrite app_assoc in E. fold D in E. by rewrite <- (proj2 (stream_app tcp D (mjoin (take k chunks)) HD (bytes_take k _ Hcb))).
Qed.
End Quiet.

(** ** Streams of messages *)

(** A part of a message is not a message. *)
Lemma part_incomplete {A} (dec : list Z -> option (A * nat)) `{!Decoder A dec} x d e r a :
  Forall is_byte d -> d ++ e = x ++ r -> length d < length x -> dec (x ++ r) = Some (a, length x) -> dec d = None.
Proof.
  intros Hd Heq Hlt Hx. destruct (dec d) as [[a' n]|] eqn:E; [|done]. exfalso.
  pose proof (dec_bound d a' n Hd E) as Hb. apply (dec_extend d e) in E; [|done]. rewrite Heq, Hx in E.
  injection E as _ <-. lia.
Qed.

(** The rest of any prefix of a stream of whole messages is shorter than the
    longest of them. *)
Lemma rest_of_prefix {A} (dec : list Z -> option (A * nat)) `{!Decoder A dec} max xs : 0 < max ->
  Forall (fun x => Forall is_byte x /\ length x <= max /\
            forall r, Forall is_byte r -> exists a, dec (x ++ r) = Some (a, length x)) xs ->
  forall d e, d ++ e = mjoin xs -> Forall is_byte d -> Forall is_byte e -> length (deframe dec d).2 < max.
Proof.
  intros Hm. induction 1 as [|x xs (Hx & Hl & Hdec) _ IH]; intros d e Heq Hd He.
  { apply app_eq_nil in Heq as [-> _]. cbn. lia. }
  change (mjoin (x :: xs)) with (x ++ mjoin xs) in Heq.
  destruct (decide (length d < length x)) as [Hlt|Hge].
  - assert (Hj : Forall is_byte (mjoin xs)).
    { assert (H : Forall is_byte (x ++ mjoin xs)) by (rewrite <- Heq; by apply Forall_app_2). by apply Forall_app in H as [_ ?]. }
    destruct (Hdec (mjoin xs) Hj) as [a E].
    rewrite (deframe_none dec d (part_incomplete dec x d e _ a Hd Heq Hlt E)). cbn. lia.
  - apply app_eq_inv in Heq as [(k & -> & Hk)|(k & -> & Hk)].
    2: { rewrite length_app in Hge. assert (k = []) as -> by (apply length_zero_iff_nil; lia).
         rewrite app_nil_r in Hdec. destruct (Hdec []) as [a E]; [constructor|]. rewrite app_nil_r in E.
         rewrite (deframe_some dec d a (length d) Hd E).
         rewrite drop_all. cbn. lia. }
    apply Forall_app in Hd as [_ Hk']. destruct (Hdec k Hk') as [a E].
    rewrite (deframe_some dec (x ++ k) a (length x)), drop_app_length by (try apply Forall_app_2; done).
    cbn [snd]. by apply (IH k e).
Qed.

Section Messages.
Context `{JL : JsonLib}.
Import Peer.

Lemma tcp_message m r :
  sendable m -> exists a, dec_packet (message_bytes true m ++ r) = Some (a, length (message_bytes true m)).
Proof.
  unfold sendable, message_bytes. assert (Hty : in_u 4 (message_packet m).1.1) by (destruct m; by vm_compute).
  destruct (message_packet m) as [[ty sg] pl]. cbn in Hty. intros (Hs & Hn & Hb).
  destruct (SP.generate_header_ok sg ty (size_of pl)) as (h & Hh & _); [lia|]. rewrite Hh. unfold framed.
  rewrite <- app_assoc, (dec_packet_generated sg ty pl r h Hs Hty Hn Hh), length_app. by eexists.
Qed.

Lemma ws_message m r :
  sendable m -> exists f, dec_frame (message_bytes false m ++ r) = Some (f, length (message_bytes false m)) /\ plain f.
Proof.
  unfold sendable, message_bytes. destruct (message_packet m) as [[ty sg] pl]. intros (Hs & Hn & Hb).
  destruct (SP.generate_header_ok sg ty (size_of pl)) as (h & Hh & _); [lia|]. rewrite Hh. unfold framed.
  assert (Hhl : length h <= 8) by (unfold SP.generate_header in Hh; repeat case_match; simplify_eq; len).
  assert (Hwf : WS.wf_fields WS.opcode_BINARY WS.flags_FIN (size_of (h ++ pl))).
  { split; [by vm_compute|]. split; [exists 8%Z; by vm_compute|]. unfold in_u. len. }
  rewrite WS.generate_header_rfc, <- app_assoc by done. rewrite dec_frame_rfc, !length_app by done.
  eexists. split; [done|]. split_and!; by vm_compute.
Qed.

Lemma messages_prefix tcp max ms d e :
  0 < max -> Forall sendable ms -> Forall (fun m => length (message_bytes tcp m) <= max) ms ->
  d ++ e = mjoin (message_bytes tcp <$> ms) -> length (stream_rest tcp d) < max.
Proof.
  intros Hm Hs Hl Heq. assert (Hb : Forall is_byte (d ++ e)).
  { rewrite Heq. clear -Hs. induction Hs; [constructor|]. cbn. apply Forall_app_2; [by apply message_bytes_byte|done]. }
  apply Forall_app in Hb as [Hd He]. unfold stream_rest.
  assert (Hall : forall m, m ∈ ms -> sendable m /\ length (message_bytes tcp m) <= max)
    by (intros m Hin; rewrite Forall_forall in Hs, Hl; auto).
  destruct tcp.
  - apply (rest_of_prefix dec_packet max (message_bytes true <$> ms) Hm) with e; try done.
    apply Forall_fmap, Forall_forall. intros m [Hsm ?]%Hall. split; [by apply message_bytes_byte|]. split; [done|].
    intros r _. by apply tcp_message.
  - apply (rest_of_prefix dec_frame max (message_bytes false <$> ms) Hm) with e; try done.
    apply Forall_fmap, Forall_forall. intros m [Hsm ?]%Hall. split; [by apply message_bytes_byte|]. split; [done|].
    intros r _. destruct (ws_message m r Hsm) as (f & Hf & _). by exists f.
Qed.

(** One packet, or one frame. *)
Definition one_unit (tcp : bool) (x : list Z) : Prop :=
  if tcp then exists a, dec_packet x = Some (a, length x) else exists f, dec_frame x = Some (f, length x).

Lemma message_unit tcp m : sendable m -> one_unit tcp (message_bytes tcp m).
Proof.
  intros Hs. unfold one_unit. destruct tcp.
  - destruct (tcp_message m [] Hs) as [a Ha]. rewrite app_nil_r in Ha. eauto.
  - destruct (ws_message m [] Hs) as (f & Hf & _). rewrite app_nil_r in Hf. eauto.
Qed.

(** What has arrived of a message that is not complete says nothing yet. *)
Lemma part_of_unit tcp x d e :
  Forall is_byte x -> one_unit tcp x -> d ++ e = x -> length d < length x ->
  stream_signals tcp d = [] /\ stream_rest tcp d = d /\ plain_stream tcp d.
Proof.
  intros Hb Hx Heq Hlt. rewrite <- Heq in Hb.
  apply Forall_app in Hb as [Hd _]. unfold stream_signals, stream_rest, packets_signals, plain_stream.
  unfold one_unit in Hx. rewrite <- (app_nil_r x) in Heq. destruct tcp; destruct Hx as [a Ha].
  - rewrite <- (app_nil_r x) in Ha at 1.
    rewrite (deframe_none dec_packet d (part_incomplete dec_packet _ d e [] a Hd Heq Hlt Ha)).
    split_and!; [done|done|by left].
  - rewrite <- (app_nil_r x) in Ha at 1.
    rewrite (deframe_none dec_frame d (part_incomplete dec_frame _ d e [] a Hd Heq Hlt Ha)).
    split_and!; [done|done|by right].
Qed.

Lemma messages_plain tcp ms : Forall sendable ms -> plain_stream tcp (mjoin (message_bytes tcp <$> ms)).
Proof.
  intros Hs. destruct tcp; [by left|right].
  induction Hs as [|m ms Hm Hms IH]; [constructor|]. cbn [fmap list_fmap].
  change (mjoin (message_bytes false m :: ?l)) with (message_bytes false m ++ mjoin (message_bytes false <$> ms)).
  set (r := mjoin _) in *. assert (Hr : Forall is_byte r).
  { unfold r. clear -Hms. induction Hms; [constructor|]. cbn. apply Forall_app_2; [by apply message_bytes_byte|done]. }
  destruct (ws_message m r Hm) as (f & Hf & Hpl).
  rewrite (deframe_some dec_frame _ f _ ltac:(apply Forall_app_2; [by apply message_bytes_byte|done]) Hf), drop_app_length.
  by constructor.
Qed.
End Messages.

Section Start.
Context `{JL : JsonLib} {T : Type} `{!Transport T} `{!ControlSender T}.

Lemma fresh_limits tcp max (t : T) : 0 < max -> within_limits (make tcp max) /\ settled (make tcp max).
Proof.
  intros Hm. pose proof (wf_make tcp max) as Hwf. assert (Hp : pending (make tcp max) = []) by done.
  split; [|by destruct tcp]. unfold within_limits. rewrite Hp. split; [done|]. split.
  - split; [done|]. cbn. lia.
  - intros _. cbn [length]. by apply (wf_nonempty _ Hwf).
Qed.
End Start.

(** ** Properties *)

(** C14: the maximum of the receive buffer is honoured exactly.  Whatever a peer
    over either protocol receives in whatever reads (over WebSocket, frames that
    are final and neither CLOSE nor PING), it delivers the packets of the
    complete messages; it closes when, and only when, the incomplete message
    left over after some read fills the maximum, and the reason it gives is
    [no_buffer_space]; and as long as it is open there is room for the next
    read, which is never one of no bytes. *)
Theorem closes_exactly_when_full `{JL : JsonLib} {T} `{!Transport T} `{!ControlSender T}
    tcp max chunks (t : T) (p : base_peer * T) :
  transport_wf false t -> 0 < max -> fed chunks (make tcp max, t) p -> plain_stream tcp (mjoin chunks) ->
  deliveries p.1 = stream_signals tcp (mjoin chunks) /\
  closings p.1 = (if is_closed p.1 then [on_closed no_buffer_space] else []) /\
  (is_closed p.1 = true <-> exists k, length (stream_rest tcp (mjoin (take k chunks))) = max) /\
  (is_closed p.1 = false -> rx_buffer_bytes p.1 < length (rx_buffer p.1)).
Proof.
  intros Ht Hm Hf Hpl. destruct (fresh_limits tcp max t Hm) as [Hw Hs].
  destruct (fed_limits chunks (make tcp max, t) p Hf (wf_make tcp max) Ht Hs Hw Hpl) as (H1 & (H2 & _ & H3) & H4).
  split; [exact H1|]. split; [done|]. split; [exact H4|].
  intros Hc. rewrite <- length_pending; [by apply H3|]. by apply (fed_wf _ _ _ Hf (wf_make tcp max)).
Qed.

(** A stream of messages none of which is larger than the maximum is received
    whole, however it is cut into reads. *)
Theorem fitting_messages_received `{JL : JsonLib} {T} `{!Transport T} `{!ControlSender T}
    tcp max ms chunks (t : T) (p : base_peer * T) :
  transport_wf false t -> 0 < max -> Forall Peer.sendable ms ->
  (tcp = true -> Forall (fun m => Peer.is_data m = true) ms) ->
  Forall (fun m => length (Peer.message_bytes tcp m) <= max) ms ->
  fed chunks (make tcp max, t) p -> mjoin chunks = mjoin (Peer.message_bytes tcp <$> ms) ->
  is_closed p.1 = false /\ deliveries p.1 = Peer.message_signal <$> ms.
Proof.
  intros Ht Hm Hs Hd Hl Hf Heq. destruct (fresh_limits tcp max t Hm) as [Hw Hset].
  assert (Hpl : plain_stream tcp (mjoin chunks)) by (rewrite Heq; by apply messages_plain).
  destruct (fed_limits chunks (make tcp max, t) p Hf (wf_make tcp max) Ht Hset Hw Hpl) as (H1 & _ & H4).
  split.
  - destruct (is_closed p.1); [|done]. destruct (proj1 H4 eq_refl) as [k Hk].
    change (length (stream_rest tcp (mjoin (take k chunks))) = max) in Hk.
    pose proof (messages_prefix tcp max ms (mjoin (take k chunks)) (mjoin (drop k chunks)) Hm Hs Hl) as Hp.
    rewrite <- join_app, take_drop in Hp. specialize (Hp Heq). lia.
  - change (deliveries p.1 = stream_signals tcp (mjoin chunks)) in H1. rewrite H1, Heq. by destruct (Peer.stream_messages tcp ms Hs Hd) as (-> & _).
Qed.

(** The packets of all complete messages are delivered. *)
Lemma plain_deliveries `{JL : JsonLib} {T} `{!Transport T} `{!ControlSender T} tcp max chunks (t : T) (p : base_peer * T) :
  transport_wf false t -> 0 < max -> fed chunks (make tcp max, t) p -> plain_stream tcp (mjoin chunks) ->
  deliveries p.1 = stream_signals tcp (mjoin chunks).
Proof.
  intros Ht Hm Hf Hpl. destruct (fresh_limits tcp max t Hm) as [Hw Hs].
  by destruct (fed_limits chunks (make tcp max, t) p Hf (wf_make tcp max) Ht Hs Hw Hpl) as (H1 & _).
Qed.

(** A packet or frame larger than the maximum is refused as soon as the buffer
    is full of its first part. *)
Theorem oversized_unit_refused `{JL : JsonLib} {T} `{!Transport T} `{!ControlSender T}
    tcp max x chunks (t : T) (p : base_peer * T) :
  transport_wf false t -> 0 < max -> Forall is_byte x -> one_unit tcp x -> max < length x ->
  fed chunks (make tcp max, t) p -> mjoin chunks = take max x ->
  closings p.1 = [on_closed no_buffer_space] /\ deliveries p.1 = [].
Proof.
  intros Ht Hm Hb Hx Hl Hf Heq. destruct (fresh_limits tcp max t Hm) as [Hw Hset].
  destruct (part_of_unit tcp x (mjoin chunks) (drop max x) Hb Hx) as (P1 & P2 & P3).
  { by rewrite Heq, take_drop. } { rewrite Heq, length_take. lia. }
  destruct (fed_limits chunks (make tcp max, t) p Hf (wf_make tcp max) Ht Hset Hw P3) as (H1 & (H2 & _) & H4).
  change (deliveries p.1 = stream_signals tcp (mjoin chunks)) in H1. split; [|by rewrite H1].
  rewrite H2, (proj2 H4); [done|]. exists (length chunks). rewrite take_ge by done.
  change (length (stream_rest tcp (mjoin chunks)) = max). rewrite P2, Heq, length_take. lia.
Qed.

(** Data handed over by [run(data, size)]: what does not fit in the maximum is
    refused outright, and nothing of it is delivered. *)
Theorem handed_over_limit `{JL : JsonLib} {T} `{!Transport T} `{!ControlSender T} tcp max data (t : T) :
  transport_wf false t -> Forall is_byte data -> plain_stream tcp data ->
  exists p, (run_data data (make tcp max, t) ≫= run_posted) = Some p /\
    if max <? length data
    then closings p.1 = [on_closed no_buffer_space] /\ deliveries p.1 = []
    else deliveries p.1 = stream_signals tcp data /\ pending p.1 = stream_rest tcp data.
Proof.
  intros Ht Hb Hpl. pose proof (wf_make tcp max) as Hwf. unfold run_data. cbn [fst].
  destruct (grow_to_spec (length data) (length data) (make tcp max) Hwf) as (b & E & He & Hn); [lia|]. rewrite E.
  destruct (grow_to_same _ _ _ _ E) as [Hc Hp]. pose proof (ev_deliveries _ _ _ He) as Hd. cbn in Hc, Hp, Hd.
  pose proof (wf_cap _ (ev_wf _ _ _ He)) as Hcap. pose proof (ev_max _ _ _ He) as Hmax. cbn in Hmax.
  destruct (Nat.ltb_spec (length (rx_buffer b)) (length data)) as [Hlt|Hge].
  - destruct (Nat.ltb_spec max (length data)); [|specialize (Hn ltac:(cbn; lia)); lia].
    cbn [mbind option_bind]. unfold run_posted. cbn [fst post posted]. rewrite Hp. cbn [app]. unfold close, post. cbn [fst is_closed].
    rewrite Hc. eexists. split; [done|]. cbn [fst].
    pose proof (wf_closed _ (ev_wf _ _ _ He)) as Hcl. rewrite Hc in Hcl. apply length_zero_iff_nil in Hcl.
    unfold closings, deliveries in *. cbn [raised raise set_closed on_base fst]. rewrite !List.filter_app, Hcl, Hd. done.
  - destruct (Nat.ltb_spec max (length data)); [lia|].
    set (b1 := set_rx _ (length data) b).
    assert (H1 : evolves [] b b1).
    { apply evolves_set_rx; rewrite ?length_splice by (cbn; lia); try apply He; try lia. apply splice_byte; [done|apply He]. }
    assert (Hpend : pending b1 = data) by (unfold b1, pending; cbn; apply take_splice_0).
    cbn [mbind option_bind]. unfold run_posted, post. cbn [fst posted]. change (posted b1) with (posted b). rewrite Hp.
    set (q := (mk_base (use_tcp_protocol b1) (is_closed b1) (rx_buffer b1) (rx_buffer_bytes b1) (rx_buffer_max b1) [] (raised b1), t)).
    change (exists p, process_buffer q = Some p /\ deliveries p.1 = stream_signals tcp data /\ pending p.1 = stream_rest tcp data).
    assert (Hq : wf q.1) by (destruct (ev_wf _ _ _ H1); by constructor).
    assert (Hqt : use_tcp_protocol q.1 = tcp) by exact (ev_tcp _ _ _ He).
    assert (Hqp : pending q.1 = data) by exact Hpend.
    assert (Hok : sender_ok q) by (unfold sender_ok; cbn; by rewrite Hc).
    assert (Hres : exists p, process_buffer q = Some p /\ sender_ok p /\ evolves (stream_signals tcp data) q.1 p.1 /\
      pending p.1 = stream_rest tcp data /\ limited q.1 p.1).
    { unfold process_buffer. rewrite Hqt, <- Hqp. destruct tcp; [by apply process_tcp_limits|].
      apply process_ws_limits; try done. rewrite Hqp. by destruct Hpl. }
    destruct Hres as (p & Ep & _ & Hev & Hr & _). exists p. split; [exact Ep|]. split; [|done].
    rewrite (ev_deliveries _ _ _ Hev). change (deliveries q.1) with (deliveries b). by rewrite Hd.
Qed.

Section Witness.
#[local] Existing Instance jv_json.
#[local] Existing Instance idle_transport.
#[local] Existing Instance idle_sender.

(** A packet that claims 1024 bytes, in two reads, with a maximum of 16. *)
Definition oversized_chunks : list (list Z) := [[7; 0; 0; 16; 0; 4]; [0; 0; 1; 2; 3; 4; 5; 6; 7; 8]]%Z.

Lemma closes_exactly_when_full_witness :
  exists p, feed oversized_chunks idle_start = Some p /\ is_closed p.1 = true /\
    closings p.1 = [on_closed no_buffer_space] /\ deliveries p.1 = [].
Proof.
  destruct (feed oversized_chunks idle_start) as [p|] eqn:E; [|by vm_compute in E].
  exists p. split; [reflexivity|].
  assert (Hm : 0 < 16) by lia.
  assert (Hpl : plain_stream true (mjoin oversized_chunks)) by by left.
  pose proof (feed_fed _ _ _ E) as Hf.
  destruct (closes_exactly_when_full true 16 oversized_chunks (mk_idle 0 []) p ltac:(exact I) Hm Hf Hpl) as (H1 & H2 & H3 & _).
  assert (Hc : is_closed p.1 = true) by (apply H3; exists 2; vm_compute; reflexivity).
  split; [exact Hc|]. split; [rewrite H2, Hc; reflexivity|]. rewrite H1. vm_compute. reflexivity.
Defined.
End Witness.
