(* ===== verification/Semver.v ===== *)
(** * Version numbers

    [src/detail/semver.cpp] and [include/ws-streaming/detail/semver.hpp].
    [std::strtoul] is modelled as the C standard specifies it in the "C"
    locale, with 64-bit [unsigned long]: it skips white space, takes an optional
    sign and the longest run of digits, and returns the value (modulo 2^64 after
    a minus sign), the unparsed rest, and whether the digits overflowed. *)
From S2P Require Import Prelude.
From Stdlib Require Import Ascii.

(** ** std::string and std::strtoul *)

(** The characters before the first NUL ([c_str()] read as a C string). *)
Fixpoint c_str (s : list ascii) : list ascii :=
  match s with
  | [] => []
  | c :: s => if bool_decide (c = zero) then [] else c :: c_str s
  end.

(** [str.find(c)] as the part before [c] and the part behind it. *)
Fixpoint find_split (c : ascii) (s : list ascii) : option (list ascii * list ascii) :=
  match s with
  | [] => None
  | x :: s =>
      if bool_decide (x = c) then Some ([], s)
      else (fun '(a, b) => (x :: a, b)) <$> find_split c s
  end.

Definition is_space (c : ascii) : bool :=
  let n := nat_of_ascii c in (n =? 32)%nat || ((9 <=? n) && (n <=? 13))%nat.

Definition is_digit (c : ascii) : bool :=
  let n := nat_of_ascii c in ((48 <=? n) && (n <=? 57))%nat.

Definition digit_value (c : ascii) : Z := Z.of_nat (nat_of_ascii c) - 48.

Fixpoint skip_while (f : ascii -> bool) (s : list ascii) : list ascii :=
  match s with
  | [] => []
  | c :: s' => if f c then skip_while f s' else s
  end.

Fixpoint take_while (f : ascii -> bool) (s : list ascii) : list ascii :=
  match s with
  | [] => []
  | c :: s => if f c then c :: take_while f s else []
  end.

Definition decimal (digits : list ascii) : Z :=
  fold_left (fun v c => v * 10 + digit_value c) digits 0.

(** The optional sign: whether it is a minus, and what follows it. *)
Definition strtoul_sign (s : list ascii) : bool * list ascii :=
  match s with
  | "-"%char :: s2 => (true, s2)
  | "+"%char :: s2 => (false, s2)
  | _ => (false, s)
  end.

Definition strtoul (s : list ascii) : Z * list ascii * bool :=
  let '(neg, s2) := strtoul_sign (skip_while is_space s) in
  let digits := take_while is_digit s2 in
  match digits with
  | [] => (0, s, false)
  | _ =>
      let v := decimal digits in
      let rest := skip_while is_digit s2 in
      if 2 ^ 64 - 1 <? v then (2 ^ 64 - 1, rest, true)
      else (u64 (if neg then - v else v), rest, false)
  end.

(** ** class semver *)

Record semver := mk_semver { major : Z; minor : Z; revision : Z }.

#[export] Instance semver_eq_dec : EqDecision semver.
Proof. solve_decision. Defined.

Definition default_semver : semver := mk_semver 0 0 0.

(** One component: [strtoul] must consume the whole C string without error and
    fit in an [unsigned]. *)
Definition parse_component (s : list ascii) : option Z :=
  let '(v, end_, range_error) := strtoul (c_str s) in
  if range_error || negb (bool_decide (end_ = [])) || (2 ^ 32 - 1 <? v) then None else Some v.

Definition try_parse (str : list ascii) : option semver :=
  match find_split "."%char str with
  | None => None
  | Some (major_str, rest) =>
      match find_split "."%char rest with
      | None => None
      | Some (minor_str, revision_str) =>
          match parse_component major_str with
          | None => None
          | Some major =>
              match parse_component minor_str with
              | None => None
              | Some minor =>
                  match parse_component revision_str with
                  | None => None
                  | Some revision => Some (mk_semver major minor revision)
                  end
              end
          end
      end
  end.

(** [operator==], [<], [<=], [>], [>=]. *)
Definition eqb (a b : semver) : bool :=
  (major a =? major b) && (minor a =? minor b) && (revision a =? revision b).

Definition neqb (a b : semver) : bool := negb (eqb a b).

Definition ltb (a b : semver) : bool :=
  if major a <? major b then true
  else if major b <? major a then false
  else if minor a <? minor b then true
  else if minor b <? minor a then false
  else revision a <? revision b.

Definition leb (a b : semver) : bool := eqb a b || ltb a b.
Definition gtb (a b : semver) : bool := neqb a b && negb (ltb a b).
Definition geb (a b : semver) : bool := eqb a b || gtb a b.

(** ** Lemmas *)

Definition all_digits (s : list ascii) : Prop := Forall (fun c => is_digit c = true) s.

Lemma digit_not_space c : is_digit c = true -> is_space c = false.
Proof. unfold is_digit, is_space. lia. Qed.

Lemma digit_value_range c : is_digit c = true -> 0 <= digit_value c <= 9.
Proof. unfold is_digit, digit_value. lia. Qed.

Lemma digit_ne c d : is_digit c = true -> is_digit d = false -> c <> d.
Proof. congruence. Qed.

Lemma take_while_all f s : Forall (fun c => f c = true) s -> take_while f s = s.
Proof. induction 1 as [|c s Hc _ IH]; cbn; [done|]. by rewrite Hc, IH. Qed.

Lemma skip_while_all f s : Forall (fun c => f c = true) s -> skip_while f s = [].
Proof. induction 1 as [|c s Hc _ IH]; cbn; [done|]. by rewrite Hc. Qed.

Lemma c_str_digits s : all_digits s -> c_str s = s.
Proof.
  induction 1 as [|c s Hc _ IH]; cbn; [done|]. rewrite bool_decide_false, IH; [done|].
  by apply digit_ne.
Qed.

Lemma find_split_digits s rest : all_digits s -> find_split "."%char (s ++ "."%char :: rest) = Some (s, rest).
Proof.
  induction 1 as [|c s Hc _ IH]; cbn; [done|].
  rewrite bool_decide_false, IH; [done|]. by apply digit_ne.
Qed.

Lemma find_split_inv c s a b : find_split c s = Some (a, b) -> s = a ++ c :: b /\ c ∉ a.
Proof.
  revert a. induction s as [|x s IH]; intros a; cbn; [done|].
  case_bool_decide as E; [intros [= <- <-]; subst; split; [done|apply not_elem_of_nil]|].
  destruct (find_split c s) as [[a' b']|]; [|done]. cbn. intros [= <- <-].
  destruct (IH a' eq_refl) as [-> Hn]. split; [done|]. rewrite not_elem_of_cons. split; congruence.
Qed.

Lemma decimal_nonneg_from s : all_digits s -> forall v, 0 <= v ->
  0 <= fold_left (fun v c => v * 10 + digit_value c) s v.
Proof.
  induction 1 as [|c s Hc _ IH]; intros v Hv; cbn; [done|]. apply IH.
  pose proof (digit_value_range c Hc). lia.
Qed.

Lemma strtoul_sign_digits s : all_digits s -> strtoul_sign s = (false, s).
Proof.
  destruct 1 as [|c s Hc _]; [done|]. destruct c as [[] [] [] [] [] [] [] []]; cbn in Hc; done.
Qed.

Lemma strtoul_digits s :
  all_digits s -> s <> [] ->
  strtoul s = if decimal s <? 2 ^ 64 then (decimal s, [], false) else (2 ^ 64 - 1, [], true).
Proof.
  intros Hs Hne. unfold strtoul.
  assert (skip_while is_space s = s) as ->.
  { destruct Hs as [|c s Hc _]; [done|]. cbn. by rewrite (digit_not_space c Hc). }
  rewrite strtoul_sign_digits, take_while_all, skip_while_all by done.
  pose proof (decimal_nonneg_from _ Hs 0 ltac:(lia)) as H0. fold (decimal s) in H0.
  destruct s as [|c s]; [done|].
  destruct (Z.ltb_spec (2 ^ 64 - 1) (decimal (c :: s))),
    (Z.ltb_spec (decimal (c :: s)) (2 ^ 64)); try lia; [done|].
  rewrite wrap_small by (unfold in_u; lia). done.
Qed.

Lemma parse_component_digits s :
  all_digits s -> s <> [] ->
  parse_component s = if decimal s <? 2 ^ 32 then Some (decimal s) else None.
Proof.
  intros Hs Hne. unfold parse_component. rewrite c_str_digits, strtoul_digits by done.
  destruct (Z.ltb_spec (decimal s) (2 ^ 64)).
  - rewrite bool_decide_true by done. cbn [orb negb].
    destruct (Z.ltb_spec (2 ^ 32 - 1) (decimal s)), (Z.ltb_spec (decimal s) (2 ^ 32)); try done; lia.
  - destruct (Z.ltb_spec (decimal s) (2 ^ 32)); [lia|done].
Qed.

Lemma take_while_digits s : all_digits (take_while is_digit s).
Proof. induction s as [|c s IH]; cbn; [constructor|]. destruct (is_digit c) eqn:E; by constructor. Qed.

Lemma parse_component_range s v : parse_component s = Some v -> in_u 32 v.
Proof.
  unfold parse_component. destruct (strtoul (c_str s)) as [[w r] e] eqn:E.
  destruct (e || _ || _) eqn:Ec; [done|]. intros [= ->].
  assert (0 <= v); [|unfold in_u; lia]. revert E. unfold strtoul.
  destruct (strtoul_sign _) as [neg s2]. cbv zeta.
  destruct (take_while is_digit s2) eqn:Ed; [intros E; by simplify_eq|].
  destruct (2 ^ 64 - 1 <? _); intros E; simplify_eq; try lia. by apply wrap_range.
Qed.

(** ** Properties *)

(** A string of three runs of decimal digits separated by dots parses to
    the numbers they denote, whatever their leading zeros, exactly when all
    three fit in 32 bits; and every version ever returned has components of 32
    bits and comes from a string with two dots. *)
Theorem semver_try_parse str a b c :
  (all_digits a -> all_digits b -> all_digits c -> a <> [] -> b <> [] -> c <> [] ->
   try_parse (a ++ "."%char :: b ++ "."%char :: c)
   = if (decimal a <? 2 ^ 32) && (decimal b <? 2 ^ 32) && (decimal c <? 2 ^ 32)
     then Some (mk_semver (decimal a) (decimal b) (decimal c)) else None) /\
  (forall v, try_parse str = Some v ->
     in_u 32 (major v) /\ in_u 32 (minor v) /\ in_u 32 (revision v) /\
     exists x y z, str = x ++ "."%char :: y ++ "."%char :: z).
Proof.
  split.
  - intros Ha Hb Hc Na Nb Nc. unfold try_parse.
    rewrite (find_split_digits a), (find_split_digits b), !parse_component_digits by done.
    by destruct (decimal a <? 2 ^ 32), (decimal b <? 2 ^ 32), (decimal c <? 2 ^ 32).
  - intros v. unfold try_parse.
    destruct (find_split _ str) as [[x rest]|] eqn:E1; [|done].
    destruct (find_split _ rest) as [[y z]|] eqn:E2; [|done].
    destruct (parse_component x) eqn:P1, (parse_component y) eqn:P2, (parse_component z) eqn:P3;
      try done. intros [= <-]. cbn.
    apply parse_component_range in P1, P2, P3. apply find_split_inv in E1, E2.
    destruct E1 as [-> _], E2 as [-> _]. eauto 10.
Qed.

Lemma semver_try_parse_witness :
  try_parse ["1"; "."; "0"; "2"; "."; "3"; "0"]%char = Some (mk_semver 1 2 30) /\
  exists x y z, (["1"; "."; "0"; "2"; "."; "3"; "0"] = x ++ "." :: y ++ "." :: z)%char.
Proof.
  destruct (semver_try_parse ["1"; "."; "0"; "2"; "."; "3"; "0"]%char
    ["1"%char] ["0"; "2"]%char ["3"; "0"]%char) as [H1 H2].
  split; [apply H1; try done; by repeat constructor|].
  apply (H2 (mk_semver 1 2 30)). reflexivity.
Defined.

(** The lexicographic order on the three components. *)
Definition lex (a b : semver) : Prop :=
  major a < major b \/
  major a = major b /\ (minor a < minor b \/ minor a = minor b /\ revision a < revision b).

(** The six comparison operators are those of the lexicographic order on
    (major, minor, revision), and they are consistent with each other. *)
Theorem semver_order a b :
  (ltb a b = true <-> lex a b) /\ (eqb a b = true <-> a = b) /\
  (leb a b = true <-> lex a b \/ a = b) /\ (gtb a b = true <-> lex b a) /\
  (geb a b = true <-> lex b a \/ a = b) /\ neqb a b = negb (eqb a b).
Proof.
  assert (Heq : eqb a b = true <-> a = b).
  { unfold eqb. destruct a, b; cbn. split; [intros; f_equal; lia|intros [=]; lia]. }
  assert (Hlt : ltb a b = true <-> lex a b).
  { unfold ltb, lex. repeat split_if; lia. }
  assert (Hgt : gtb a b = true <-> lex b a).
  { unfold gtb, neqb, eqb, ltb, lex. repeat split_if; lia. }
  unfold leb, geb. rewrite !orb_true_iff. tauto.
Qed.
