(* ===== verification/Benchmark.v ===== *)
(** * The throughput benchmark

    [bench/peer_throughput.cpp]: its command line.  The transmit pump, the
    measurement window and the exit status are in [Pump]; a [double] is what
    [std::stod] makes of an argument. *)
From Stdlib Require Import Ascii.
From S2P Require Import Prelude Json BasePeer Peer.
From S2P Require Semver DynamicBuffer StreamingProtocol WebsocketProtocol.
Module DB := DynamicBuffer.

(** ** parse_size *)

Inductive exception : Type :=
| invalid_argument
| out_of_range
| runtime_error (what : string).

#[export] Instance exception_eq_dec : EqDecision exception.
Proof. solve_decision. Defined.

(** [std::stoull(text, &index)]: the value and the number of characters read. *)
Definition stoull (text : list ascii) : result exception (Z * nat) :=
  let s := Semver.c_str text in
  let '(v, rest, range_error) := Semver.strtoul s in
  if bool_decide (rest = s) then Throw invalid_argument
  else if range_error then Throw out_of_range
  else Ok (v, (length s - length rest)%nat).

(** [std::tolower] in the "C" locale. *)
Definition tolower (c : ascii) : ascii :=
  let n := Z.of_N (N_of_ascii c) in
  if (65 <=? n) && (n <=? 90) then ascii_of_N (Z.to_N (n + 32)) else c.

Definition multiplier (c : ascii) : Z :=
  let c := tolower c in
  if bool_decide (c = "k"%char) then 1024
  else if bool_decide (c = "m"%char) then 1024 * 1024
  else if bool_decide (c = "g"%char) then 1024 * 1024 * 1024
  else 1.

Definition parse_size (text : list ascii) : result exception Z :=
  match stoull text with
  | Throw e => Throw e
  | Ok (value, index) =>
      match drop index text with
      | [] => Ok value
      | c :: _ => Ok (u64 (value * multiplier c))
      end
  end.

(** ** options *)

(** [double] and what the program does with it while parsing. *)
Class Doubles := {
  real : Type;
  real_of : Z -> Z -> real;
  stod : list ascii -> result exception real
}.

Section Options.
Context `{Doubles}.

Record options := mk_options {
  use_tcp_protocol : bool;
  payload : Z;
  seconds : real;
  warmup : real;
  rx_buffer : Z;
  tx_buffer : Z;
  sndbuf : Z;
  rcvbuf : Z;
  inflight_cap : Z;
  throttle_mbps : real;
  label : string;
  csv : bool
}.

(** The member initialisers; a [real] is given as a quotient. *)
Definition default_options : options :=
  mk_options false (64 * 1024) (real_of 5 1) (real_of 1 2) 0 (32 * 1024 * 1024) 0 0 0 (real_of 0 1) "" false.

(** An option that takes a value. *)
Inductive member : Type :=
| m_transport | m_payload | m_seconds | m_warmup | m_rx_buffer | m_tx_buffer | m_sndbuf | m_rcvbuf
| m_inflight | m_throttle | m_label.

Definition members : list (string * member) :=
  [("--transport", m_transport); ("--payload", m_payload); ("--seconds", m_seconds); ("--warmup", m_warmup);
   ("--rx-buffer", m_rx_buffer); ("--tx-buffer", m_tx_buffer); ("--sndbuf", m_sndbuf); ("--rcvbuf", m_rcvbuf);
   ("--inflight", m_inflight); ("--throttle", m_throttle); ("--label", m_label)].

Definition find_member (arg : string) : option member :=
  snd <$> List.find (fun x => bool_decide (x.1 = arg)) members.

Definition chars (s : string) : list ascii := String.list_ascii_of_string s.

(** The assignment of an option's value. *)
Definition assign (m : member) (value : string) (o : options) : result exception options :=
  let '(mk_options tcp p s w rx tx snd rcv cap thr lbl c) := o in
  match m with
  | m_transport =>
      if bool_decide (value = "tcp") then Ok (mk_options true p s w rx tx snd rcv cap thr lbl c)
      else if bool_decide (value = "ws") then Ok (mk_options false p s w rx tx snd rcv cap thr lbl c)
      else Throw (runtime_error "--transport must be tcp or ws")
  | m_payload => v <-? parse_size (chars value) ; Ok (mk_options tcp v s w rx tx snd rcv cap thr lbl c)
  | m_seconds => v <-? stod (chars value) ; Ok (mk_options tcp p v w rx tx snd rcv cap thr lbl c)
  | m_warmup => v <-? stod (chars value) ; Ok (mk_options tcp p s v rx tx snd rcv cap thr lbl c)
  | m_rx_buffer => v <-? parse_size (chars value) ; Ok (mk_options tcp p s w v tx snd rcv cap thr lbl c)
  | m_tx_buffer => v <-? parse_size (chars value) ; Ok (mk_options tcp p s w rx v snd rcv cap thr lbl c)
  | m_sndbuf => v <-? parse_size (chars value) ; Ok (mk_options tcp p s w rx tx v rcv cap thr lbl c)
  | m_rcvbuf => v <-? parse_size (chars value) ; Ok (mk_options tcp p s w rx tx snd v cap thr lbl c)
  | m_inflight => v <-? parse_size (chars value) ; Ok (mk_options tcp p s w rx tx snd rcv v thr lbl c)
  | m_throttle => v <-? stod (chars value) ; Ok (mk_options tcp p s w rx tx snd rcv cap v lbl c)
  | m_label => Ok (mk_options tcp p s w rx tx snd rcv cap thr value c)
  end.

Definition set_csv (o : options) : options :=
  let '(mk_options tcp p s w rx tx snd rcv cap thr lbl _) := o in
  mk_options tcp p s w rx tx snd rcv cap thr lbl true.

(** What is derived from the payload size; the sizes are unsigned. *)
Definition derive (o : options) : options :=
  let '(mk_options tcp p s w rx tx snd rcv cap thr lbl c) := o in
  let rx := if rx =? 0 then Z.max (1024 * 1024) (u64 (u64 (2 * p) + 64 * 1024)) else rx in
  let cap := if cap =? 0 then Z.max (4 * 1024 * 1024) (u64 (16 * p)) else cap in
  mk_options tcp p s w rx tx snd rcv cap thr lbl c.

(** The loop over the arguments; [None] when the usage was asked for. *)
Fixpoint parse_arguments (args : list string) (o : options) : result exception (option options) :=
  match args with
  | [] => Ok (Some (derive o))
  | arg :: args =>
      match find_member arg with
      | Some m =>
          match args with
          | [] => Throw (runtime_error (String.append "missing value for " arg))
          | value :: args =>
              match assign m value o with
              | Ok o => parse_arguments args o
              | Throw e => Throw e
              end
          end
      | None =>
          if bool_decide (arg = "--csv") then parse_arguments args (set_csv o)
          else if bool_decide (arg = "--help") || bool_decide (arg = "-h") then Ok None
          else Throw (runtime_error (String.append "unrecognized option: " arg))
      end
  end.

Definition parse_options (args : list string) : result exception (option options) :=
  parse_arguments args default_options.
End Options.

(** ** Lemmas *)

(** The longest run of digits is what is read. *)
Lemma take_digits s rest :
  Semver.all_digits s -> (forall c r, rest = c :: r -> Semver.is_digit c = false) ->
  Semver.take_while Semver.is_digit (s ++ rest) = s /\ Semver.skip_while Semver.is_digit (s ++ rest) = rest.
Proof.
  intros Hs Hr. induction Hs as [|c s Hc _ [IH1 IH2]]; cbn; [|by rewrite Hc, IH1, IH2].
  destruct rest as [|c r]; [done|]. cbn. by rewrite (Hr c r eq_refl).
Qed.

Lemma sign_digit c s : Semver.is_digit c = true -> Semver.strtoul_sign (c :: s) = (false, c :: s).
Proof. destruct c as [[] [] [] [] [] [] [] []]; cbn; done. Qed.

Lemma c_str_app s rest : Semver.all_digits s -> Semver.c_str (s ++ rest) = s ++ Semver.c_str rest.
Proof.
  induction 1 as [|c s Hc _ IH]; [done|]. cbn. rewrite IH, bool_decide_false; [done|].
  intros ->. by cbn in Hc.
Qed.

Lemma c_str_first rest c r :
  Semver.c_str rest = c :: r -> exists r', rest = c :: r'.
Proof. destruct rest as [|x rest]; cbn; [done|]. case_bool_decide; [done|]. intros [= -> _]. by eexists. Qed.

Lemma stoull_digits s rest :
  Semver.all_digits s -> s <> [] -> (forall c r, rest = c :: r -> Semver.is_digit c = false) ->
  stoull (s ++ rest)
  = if Semver.decimal s <? 2 ^ 64 then Ok (Semver.decimal s, length s) else Throw out_of_range.
Proof.
  intros Hs Hne Hr. unfold stoull. rewrite c_str_app by done. set (rest' := Semver.c_str rest).
  assert (Hr' : forall c r, rest' = c :: r -> Semver.is_digit c = false).
  { intros c r E. destruct (c_str_first _ _ _ E) as [r' ->]. by eapply Hr. }
  clearbody rest'. clear Hr rest. destruct (take_digits s rest' Hs Hr') as [Ht Hsk].
  pose proof (Semver.decimal_nonneg_from s Hs 0 ltac:(lia)) as H0. fold (Semver.decimal s) in H0.
  destruct s as [|c s]; [done|]. pose proof (Forall_inv Hs) as Hc. cbn in Hc.
  unfold Semver.strtoul. change ((c :: s) ++ rest') with (c :: (s ++ rest')) in *.
  cbn [Semver.skip_while]. rewrite (Semver.digit_not_space c Hc), (sign_digit c _ Hc), Ht, Hsk.
  assert (Hlen : bool_decide (rest' = c :: s ++ rest') = false).
  { apply bool_decide_false. intros E. apply (f_equal length) in E. cbn in E. rewrite length_app in E. lia. }
  destruct (Z.ltb_spec (2 ^ 64 - 1) (Semver.decimal (c :: s))), (Z.ltb_spec (Semver.decimal (c :: s)) (2 ^ 64));
    try lia; rewrite Hlen; [done|].
  rewrite wrap_small by (unfold in_u; lia). do 2 f_equal. cbn. rewrite length_app. lia.
Qed.

(** ** Properties *)

(** Sizes: a number, and a suffix whose first character is the unit. *)
Theorem parse_size_value s rest :
  Semver.all_digits s -> s <> [] -> (forall c r, rest = c :: r -> Semver.is_digit c = false) ->
  parse_size (s ++ rest)
  = if Semver.decimal s <? 2 ^ 64
    then Ok (match rest with [] => Semver.decimal s | c :: _ => u64 (Semver.decimal s * multiplier c) end)
    else Throw out_of_range.
Proof.
  intros Hs Hne Hr. unfold parse_size. rewrite stoull_digits by done.
  destruct (_ <? _); [|done]. rewrite drop_app_length. by destruct rest.
Qed.

Section OptionsProperties.
Context `{Doubles}.

(** What may be written on the command line. *)
Inductive argument : Type :=
| value_of (m : member) (value : string)
| csv_flag.

Definition member_name (m : member) : string :=
  match m with
  | m_transport => "--transport" | m_payload => "--payload" | m_seconds => "--seconds" | m_warmup => "--warmup"
  | m_rx_buffer => "--rx-buffer" | m_tx_buffer => "--tx-buffer" | m_sndbuf => "--sndbuf" | m_rcvbuf => "--rcvbuf"
  | m_inflight => "--inflight" | m_throttle => "--throttle" | m_label => "--label"
  end.

Definition written (a : argument) : list string :=
  match a with value_of m v => [member_name m; v] | csv_flag => ["--csv"] end.

Definition configure (a : argument) (o : options) : result exception options :=
  match a with value_of m v => assign m v o | csv_flag => Ok (set_csv o) end.

Fixpoint configured (l : list argument) (o : options) : result exception options :=
  match l with
  | [] => Ok o
  | a :: l => match configure a o with Ok o => configured l o | Throw e => Throw e end
  end.

(** The arguments are applied in their order, so that the last one of a name
    counts; the first one that cannot be read ends the program.  An option at
    the end without its value, or an unknown word, is refused. *)
Theorem options_parsed l extra :
  parse_options (mjoin (written <$> l) ++ extra)
  = match configured l default_options with
    | Throw e => Throw e
    | Ok o => parse_arguments extra o
    end.
Proof.
  unfold parse_options. generalize default_options. induction l as [|a l IH]; intros o; [done|].
  change (mjoin (written <$> a :: l)) with (written a ++ mjoin (written <$> l)). rewrite <- (assoc_L (++)).
  destruct a as [m v|]; cbn [written app configured configure].
  - cbn [parse_arguments]. assert (find_member (member_name m) = Some m) as -> by by destruct m.
    destruct (assign m v o); [apply IH|done].
  - cbn [parse_arguments]. change (find_member "--csv") with (@None member).
    rewrite bool_decide_true by done. apply IH.
Qed.

Theorem options_refused m w o :
  find_member w = None -> w <> "--csv" -> w <> "--help" -> w <> "-h" ->
  parse_arguments [member_name m] o = Throw (runtime_error (String.append "missing value for " (member_name m))) /\
  parse_arguments [w] o = Throw (runtime_error (String.append "unrecognized option: " w)) /\
  parse_arguments [] o = Ok (Some (derive o)).
Proof.
  intros Hw H1 H2 H3. split; [by destruct m|]. split; [|done]. cbn [parse_arguments]. rewrite Hw.
  by rewrite !bool_decide_false.
Qed.

(** The derived limits: twice the payload and more is received, and the cap
    holds sixteen packets. *)
Theorem derived_limits o :
  0 <= payload o < 2 ^ 59 -> rx_buffer o = 0 -> inflight_cap o = 0 ->
  2 * payload (derive o) + 64 * 1024 <= rx_buffer (derive o) /\ 16 * payload (derive o) <= inflight_cap (derive o) /\
  1024 * 1024 <= rx_buffer (derive o) /\ 4 * 1024 * 1024 <= inflight_cap (derive o).
Proof.
  destruct o as [? p ? ? rx ? ? ? cap ? ? ?]. cbn. intros Hp -> ->. cbn.
  rewrite !wrap_small by (unfold in_u; rewrite ?wrap_small by (unfold in_u; lia); lia). lia.
Qed.
End OptionsProperties.
