(* ===== verification/Pump.v ===== *)
(** * The transmit pump of the benchmark

    The function [pump] of [bench/peer_throughput.cpp], running on the sending
    peer's execution context while the receiving peer's thread counts what it
    decodes.  The two threads share the atomic counters only; the pump's loads
    and stores are separate steps, so that the receiver can run between them.
    Then the measurement window, the throttled receiver and the exit status of
    [main], over the readings of the clock. *)
From S2P Require Import Prelude Json BasePeer Peer.
From S2P Require DynamicBuffer Benchmark.
Module DB := DynamicBuffer.

(** The signal number, and the packets submitted before yielding. *)
Definition SIGNO : Z := 1.

Definition PUMP_BATCH : nat := 32.

Section Pump.
Context `{JL : JsonLib} {S : Type} `{!Socket S} `{DB.BufferCopy}.
Context (tcp : bool) (data : list Z) (inflight_cap : Z).
#[local] Open Scope nat_scope.
Abbreviation peer := (base_peer * peer_state S)%type.

(** Where the pump is: between two calls, at the top of an iteration, past its
    two loads, or past [send_data]. *)
Inductive position : Type :=
| yielded
| at_top (i : nat)
| loaded (i : nat) (sent received : Z)
| submitted (i : nat) (sent : Z).

(** [given] and [decoded] count the packets handed to [send_data] and those the
    receiver has decoded; the program keeps [tx_bytes] and [rx_bytes]. *)
Record state := mk_state {
  tx_peer : peer;
  tx_bytes : Z;
  rx_bytes : Z;
  given : nat;
  decoded : nat;
  at_ : position
}.

Definition start (s : S) (rx_buffer tx_buffer : nat) : state :=
  mk_state (make_peer s tcp rx_buffer tx_buffer) 0 0 0 0 yielded.

(** The bytes of a packet on the wire. *)
Definition frame : list Z := message_bytes tcp (data_message SIGNO data).

Inductive step : state -> state -> Prop :=
| pump_called st :
    at_ st = yielded -> is_closed (tx_peer st).1 = false ->
    step st (mk_state (tx_peer st) (tx_bytes st) (rx_bytes st) (given st) (decoded st) (at_top 0))
| pump_loads st i :
    at_ st = at_top i -> i < PUMP_BATCH ->
    step st (mk_state (tx_peer st) (tx_bytes st) (rx_bytes st) (given st) (decoded st)
               (loaded i (tx_bytes st) (rx_bytes st)))
| pump_batch_ends st :
    at_ st = at_top PUMP_BATCH ->
    step st (mk_state (tx_peer st) (tx_bytes st) (rx_bytes st) (given st) (decoded st) yielded)
| pump_saturated st i sent received :
    at_ st = loaded i sent received -> (inflight_cap <=? u64 (sent - received))%Z = true ->
    step st (mk_state (tx_peer st) (tx_bytes st) (rx_bytes st) (given st) (decoded st) yielded)
| pump_submits st i sent received p :
    at_ st = loaded i sent received -> (inflight_cap <=? u64 (sent - received))%Z = false ->
    act (act_send (data_message SIGNO data)) (tx_peer st) = Some p ->
    step st (mk_state p (tx_bytes st) (rx_bytes st) (Datatypes.S (given st)) (decoded st) (submitted i sent))
| pump_stores st i sent (closed : bool) :
    at_ st = submitted i sent -> (is_closed (tx_peer st).1 = true -> closed = true) ->
    step st (mk_state (tx_peer st) (u64 (sent + size_of data)) (rx_bytes st) (given st) (decoded st)
               (if closed then yielded else at_top (Datatypes.S i)))
| socket_writable st p :
    waiting_tx (tx_peer st).2 = true -> at_ st = yielded ->
    act (act_writable success) (tx_peer st) = Some p ->
    step st (mk_state p (tx_bytes st) (rx_bytes st) (given st) (decoded st) yielded)
| packet_received st :
    length frame * Datatypes.S (decoded st) <= length (wire (socket (tx_peer st).2)) ->
    step st (mk_state (tx_peer st) (tx_bytes st) (u64 (rx_bytes st + size_of data)) (given st)
               (Datatypes.S (decoded st)) (at_ st)).

Inductive reachable (st0 : state) : state -> Prop :=
| reachable_start : reachable st0 st0
| reachable_step st st' : reachable st0 st -> step st st' -> reachable st0 st'.

(** ** Sends that fit *)

(** A socket that never fails: it may only refuse to take more for now. *)
Definition reliable : Prop :=
  forall s bs s' n ec, sock_send s bs = (s', n, ec) -> ec = success \/ ec = would_block.

Lemma no_failure ec : ec = success \/ ec = would_block -> ~ (ec <> success /\ ec <> would_block).
Proof. tauto. Qed.

Record same_limits (p p' : peer) : Prop := {
  sl_closed : is_closed p'.1 = is_closed p.1;
  sl_shutdown : shutdown_when_empty p'.2 = shutdown_when_empty p.2;
  sl_blocks : DB.block_size (tx_buffer p'.2) = DB.block_size (tx_buffer p.2);
  sl_max : DB.max_blocks (tx_buffer p'.2) = DB.max_blocks (tx_buffer p.2)
}.

Lemma enqueue_fits buffers (p p' : peer) :
  DB.wf (tx_buffer p.2) -> length buffers <= DB.room (tx_buffer p.2) ->
  enqueue buffers (length buffers) false p = Some p' -> same_limits p p'.
Proof.
  intros Hw Hr. unfold enqueue.
  destruct (DB.write_spec buffers (tx_buffer p.2) Hw) as (b & -> & _ & _ & Hb & Hm & _).
  rewrite Nat.min_l, Nat.ltb_irrefl by done. intros E. simplify_eq.
  cbn. by destruct (waiting_tx p.2).
Qed.

Lemma write_fits buffers (p p' : peer) :
  reliable -> DB.wf (tx_buffer p.2) -> length buffers <= DB.room (tx_buffer p.2) ->
  write buffers (Some (length buffers)) false p = Some p' -> same_limits p p'.
Proof.
  intros Hrel Hw Hr. unfold write. cbn [value_or].
  destruct (waiting_tx p.2) eqn:Ew; [by apply enqueue_fits|].
  destruct (sock_send (socket p.2) buffers) as [[s n] ec] eqn:Es.
  rewrite bool_decide_false by exact (no_failure _ (Hrel _ _ _ _ _ Es)).
  destruct (n =? length buffers); [intros E; by simplify_eq|].
  rewrite <- length_drop. intros E.
  destruct (enqueue_fits (drop n buffers) (p.1, set_socket s p.2) p' Hw) as [H1 H2 H3 H4]; [cbn; len|exact E|].
  by split.
Qed.

Lemma send_fits (p p' : peer) :
  reliable -> sendable (data_message SIGNO data) -> use_tcp_protocol p.1 = tcp ->
  DB.wf (tx_buffer p.2) -> length frame <= DB.room (tx_buffer p.2) ->
  act (act_send (data_message SIGNO data)) p = Some p' -> same_limits p p'.
Proof.
  intros Hrel (_ & Hn & _) Htcp Hw Hr. cbn [act send_message]. unfold send_data, send_packet. cbn [value_or].
  unfold frame, message_bytes, message_packet in Hr.
  destruct (SP.generate_header_ok SIGNO SP.packet_type_DATA (size_of data)) as (h & Hh & _); [lia|].
  rewrite Hh in Hr. fold (size_of data). rewrite Hh. cbn [rbind]. rewrite Htcp, <- length_app. unfold framed in Hr.
  destruct tcp; [by apply write_fits|]. unfold send_websocket_frame. cbn [value_or]. fold (size_of (h ++ data)).
  rewrite <- length_app. by apply write_fits.
Qed.

Lemma writable_fits (p p' : peer) :
  reliable -> DB.wf (tx_buffer p.2) -> shutdown_when_empty p.2 = false ->
  act (act_writable success) p = Some p' -> same_limits p p'.
Proof.
  intros Hrel Hw Hsh. cbn [act]. destruct (waiting_tx p.2); [|intros E; by simplify_eq].
  unfold finish_wait_tx. rewrite bool_decide_false by (by intros H1). cbn [fst snd socket tx_buffer].
  destruct (sock_send _ _) as [[s n] ec] eqn:Es.
  rewrite bool_decide_false by exact (no_failure _ (Hrel _ _ _ _ _ Es)).
  cbn [fst snd set_socket tx_buffer].
  destruct (DB.consume_spec n (tx_buffer p.2) Hw) as (b & -> & _ & _ & Hb & Hm).
  cbn. rewrite Hsh. cbn [andb]. intros E. simplify_eq. by destruct (DB.empty b).
Qed.

(** ** The invariant *)

(** Packets in flight: [k] is the cap, in packets, rounded up. *)
Definition packets (k : nat) : Prop :=
  (inflight_cap <= Z.of_nat k * size_of data)%Z /\ (Z.of_nat k * size_of data + size_of data <= 2 ^ 64)%Z.

Definition count (n : nat) : Z := u64 (Z.of_nat n * size_of data).

(** What the counters and the pump's copies of them are. *)
Definition counted (k : nat) (st : state) : Prop :=
  match at_ st with
  | yielded | at_top _ => tx_bytes st = count (given st)
  | loaded _ s r =>
      tx_bytes st = count (given st) /\ s = count (given st) /\
      exists n, r = count n /\ n <= decoded st /\ given st <= n + k
  | submitted _ s => exists n, given st = Datatypes.S n /\ s = count n
  end.

Record steady (k : nat) (st : state) : Prop := {
  st_peer : peer_ok false (tx_peer st).2;
  st_open : is_closed (tx_peer st).1 = false;
  st_tcp : use_tcp_protocol (tx_peer st).1 = tcp;
  st_shutdown : shutdown_when_empty (tx_peer st).2 = false;
  st_room : length frame * k + DB.block_size (tx_buffer (tx_peer st).2)
            <= DB.max_blocks (tx_buffer (tx_peer st).2) * DB.block_size (tx_buffer (tx_peer st).2);
  st_bytes : outgoing (tx_peer st).2 = mjoin (replicate (given st) frame);
  st_wire : length frame * decoded st <= length (wire (socket (tx_peer st).2));
  st_flight : decoded st <= given st <= decoded st + k;
  st_counted : counted k st;
  st_rx : rx_bytes st = count (decoded st)
}.

Lemma count_add n : u64 (count n + size_of data) = count (Datatypes.S n).
Proof. unfold count, wrap. rewrite Zplus_mod_idemp_l. f_equal. lia. Qed.

Lemma count_difference k n m :
  packets k -> m <= n <= m + k -> u64 (count n - count m) = (Z.of_nat (n - m) * size_of data)%Z.
Proof.
  intros [_ Hk] Hn. pose proof (size_of_nonneg data). unfold count, wrap. rewrite <- Zminus_mod.
  replace (Z.of_nat n * size_of data - Z.of_nat m * size_of data)%Z
    with (Z.of_nat (n - m) * size_of data)%Z by (rewrite Nat2Z.inj_sub by lia; lia).
  apply Z.mod_small. split; [apply Z.mul_nonneg_nonneg; lia|].
  assert (Z.of_nat (n - m) <= Z.of_nat k)%Z by lia. nia.
Qed.

Lemma frames_length n : length (mjoin (replicate n frame)) = length frame * n.
Proof.
  induction n as [|n IH]; [cbn; lia|]. cbn [replicate].
  change (length (frame ++ mjoin (replicate n frame)) = length frame * Datatypes.S n). rewrite length_app, IH. lia.
Qed.

Lemma frames_snoc n : mjoin (replicate n frame) ++ frame = mjoin (replicate (Datatypes.S n) frame).
Proof.
  rewrite replicate_S_end. unfold mjoin. rewrite join_app. f_equal. symmetry. apply app_nil_r.
Qed.

(** What is on the wire and what is buffered. *)
Lemma steady_bytes k st :
  steady k st ->
  length (wire (socket (tx_peer st).2)) + DB.size (tx_buffer (tx_peer st).2) = length frame * given st.
Proof.
  intros Hst. pose proof (DB.length_content _ (ok_tx _ _ (st_peer _ _ Hst))) as Hc.
  rewrite <- frames_length, <- (st_bytes _ _ Hst). unfold outgoing. rewrite length_app. lia.
Qed.

Lemma steady_room k st :
  steady k st -> given st < decoded st + k -> length frame <= DB.room (tx_buffer (tx_peer st).2).
Proof.
  intros Hst Hk. pose proof (steady_bytes _ _ Hst) as Hb. destruct Hst as [[Hw _ _ _] _ _ _ Hroom _ Hwire Hfl _ _].
  unfold DB.room. set (b := tx_buffer (tx_peer st).2) in *.
  assert (Hro : DB.read_offset b <= DB.block_size b).
  { destruct (decide (DB.used b = 0)) as [E|E]; [destruct (DB.wf_empty b Hw E) as (-> & _)|
      destruct (DB.wf_data b Hw E) as (_ & ? & _)]; lia. }
  assert (DB.size b <= length frame * (k - 1)) by nia. nia.
Qed.

Lemma steady_moves k st p n pos :
  steady k st -> same_limits (tx_peer st) p ->
  sent (mjoin (replicate n frame)) (tx_peer st) p ->
  decoded st <= n + given st <= decoded st + k ->
  counted k (mk_state p (tx_bytes st) (rx_bytes st) (n + given st) (decoded st) pos) ->
  steady k (mk_state p (tx_bytes st) (rx_bytes st) (n + given st) (decoded st) pos).
Proof.
  intros Hst [L1 L2 L3 L4] [S1 S2 S3 S4] Hn Hc. destruct Hst as [Hok Hopen Htcp Hsh Hroom Hb Hwire Hfl _ Hrx].
  assert (Hcl : is_closed p.1 = false) by congruence. destruct (S3 Hcl) as [Hout Hbase].
  split; cbn [tx_peer given decoded rx_bytes]; try congruence; try done.
  - rewrite Hout, Hb. unfold mjoin. rewrite <- join_app, <- replicate_add. f_equal. f_equal. lia.
  - destruct (wire_grow _ _ _ S4) as [x ->]. rewrite length_app. lia.
Qed.

(** Nothing of the peer changes. *)
Lemma steady_waits k st pos :
  steady k st -> counted k (mk_state (tx_peer st) (tx_bytes st) (rx_bytes st) (given st) (decoded st) pos) ->
  steady k (mk_state (tx_peer st) (tx_bytes st) (rx_bytes st) (given st) (decoded st) pos).
Proof. intros [] Hc. by split. Qed.

Lemma frame_nonempty : sendable (data_message SIGNO data) -> 0 < length frame.
Proof.
  intros (_ & Hn & _). unfold frame, message_bytes. cbn [message_packet].
  destruct (SP.generate_header_ok SIGNO SP.packet_type_DATA (size_of data)) as (h & -> & _); [lia|].
  unfold size_of in Hn. cbn in Hn. unfold framed. destruct tcp; rewrite !length_app; lia.
Qed.

Lemma step_steady k st st' :
  reliable -> sendable (data_message SIGNO data) -> packets k -> steady k st -> step st st' -> steady k st'.
Proof.
  intros Hrel Hsend Hk Hst Hstep. pose proof (st_counted _ _ Hst) as Hc. unfold counted in Hc.
  pose proof (frame_nonempty Hsend) as HF.
  destruct Hstep as [st Ha Hcl|st i Ha Hi|st Ha|st i s r Ha Hcap|st i s r p Ha Hcap Hact|st i s closed Ha Hcl
                    |st p Hw Ha Hact|st Hwire]; rewrite ?Ha in Hc.
  - by apply steady_waits.
  - apply steady_waits; [done|]. split; [done|]. split; [done|]. exists (decoded st).
    split; [exact (st_rx _ _ Hst)|]. pose proof (st_flight _ _ Hst). cbn. lia.
  - by apply steady_waits.
  - apply steady_waits; [done|]. apply Hc.
  - destruct Hc as (Htx & -> & n & -> & Hn & Hgn).
    pose proof (st_flight _ _ Hst) as Hfl.
    rewrite (count_difference k) in Hcap by (done || lia). apply Z.leb_gt in Hcap. destruct Hk as [Hk1 Hk2].
    assert (Hlt : given st < n + k) by nia.
    pose proof (send_fits (tx_peer st) p Hrel Hsend (st_tcp _ _ Hst) (ok_tx _ _ (st_peer _ _ Hst))) as Hlim.
    specialize (Hlim (steady_room k st Hst ltac:(lia)) Hact).
    destruct (peer_act_spec (act_send (data_message SIGNO data)) (tx_peer st)) as (p' & Ep & Hs).
    { by intros m [= <-]. } { rewrite (st_open _ _ Hst). apply Hst. }
    rewrite Hact in Ep. injection Ep as <-. rewrite (st_tcp _ _ Hst) in Hs.
    apply (steady_moves k st p 1 _ Hst Hlim Hs); [lia|]. by exists (given st).
  - destruct Hc as (n & Hgn & ->). rewrite count_add, <- Hgn. destruct Hst as [H1 H2 H3 H4 H5 H6 H7 H8 _ H10].
    split; try done. by destruct closed.
  - pose proof (writable_fits (tx_peer st) p Hrel (ok_tx _ _ (st_peer _ _ Hst)) (st_shutdown _ _ Hst) Hact) as Hlim.
    destruct (peer_act_spec (act_writable success) (tx_peer st)) as (p' & Ep & Hs); [done| |].
    { rewrite (st_open _ _ Hst). apply Hst. }
    rewrite Hact in Ep. injection Ep as <-.
    apply (steady_moves k st p 0 _ Hst Hlim Hs); [|done]. pose proof (st_flight _ _ Hst). lia.
  - pose proof (steady_bytes _ _ Hst) as Hb. destruct Hst as [H1 H2 H3 H4 H5 H6 H7 H8 H9 H10].
    split; try done; cbn [given decoded rx_bytes].
    + nia.
    + unfold counted in *. cbn [at_ given decoded]. destruct (at_ st); try done.
      destruct H9 as (T1 & T2 & n & T3 & T4 & T5). split_and!; try done. exists n. split_and!; [done|lia|done].
    + by rewrite H10, count_add.
Qed.

Lemma start_steady k s rx tx :
  wire s = [] -> length frame * k + 2 * DEFAULT_BLOCK_SIZE <= tx -> steady k (start s rx tx).
Proof.
  intros Hs Hk. split; try done.
  - apply peer_make_peer_ok.
  - cbn [tx_peer start make_peer snd set_send_buffer_size set_socket tx_buffer DB.make DB.block_size DB.max_blocks].
    assert (Hblk : 0 < DEFAULT_BLOCK_SIZE) by (unfold DEFAULT_BLOCK_SIZE; lia).
    generalize dependent DEFAULT_BLOCK_SIZE. intros blk Hk Hblk. set (bs := blk `min` tx).
    destruct (Nat.eqb_spec bs 0) as [E|E]; [lia|]. pose proof (Nat.div_mod_eq tx bs).
    pose proof (Nat.mod_upper_bound tx bs E). nia.
  - cbn [start tx_peer given]. by rewrite make_peer_outgoing.
  - cbn [start decoded]. lia.
  - cbn. lia.
Qed.

Lemma reachable_steady k s rx tx st :
  reliable -> sendable (data_message SIGNO data) -> packets k -> wire s = [] ->
  length frame * k + 2 * DEFAULT_BLOCK_SIZE <= tx -> reachable (start s rx tx) st -> steady k st.
Proof.
  intros Hrel Hsend Hk Hs Htx. induction 1 as [|st st' _ IH Hstep]; [by apply start_steady|].
  by eapply step_steady.
Qed.
End Pump.

(** ** The default limits *)

(** The headers of a data packet. *)
Lemma frame_overhead `{JL : JsonLib} tcp data :
  sendable (data_message SIGNO data) ->
  (size_of (frame tcp data) <= size_of data + (if size_of data <=? 121 then 6 else 18))%Z.
Proof.
  intros (_ & Hn & _). cbn in Hn. unfold frame, message_bytes. cbn [message_packet].
  unfold SP.generate_header.
  destruct (Z.leb_spec (size_of data) 121); destruct (Z.ltb_spec (size_of data) 256); try lia;
    try (destruct (Z.leb_spec (size_of data) (2 ^ 32 - 1)); [|lia]);
    unfold framed; (destruct tcp; [len|]); unfold WS.generate_header; repeat split_if; len.
Qed.

(** The options that a benchmark of payloads up to 1M runs with by default:
    the backlog that its cap allows fits the transmit buffer. *)
Lemma default_backlog_fits `{JL : JsonLib} tcp data :
  sendable (data_message SIGNO data) -> (size_of data <= 1024 * 1024)%Z ->
  let cap := Z.max (4 * 1024 * 1024) (u64 (16 * size_of data)) in
  exists k, packets data cap k /\
    (size_of (frame tcp data) * Z.of_nat k + 2 * Z.of_nat DEFAULT_BLOCK_SIZE <= 32 * 1024 * 1024)%Z.
Proof.
  intros Hs Hle cap. pose proof (frame_overhead tcp data Hs) as HF. destruct Hs as (_ & Hn & _). cbn in Hn.
  assert (Hcap : cap = Z.max (4 * 1024 * 1024) (16 * size_of data)).
  { unfold cap. by rewrite wrap_small by (unfold in_u; lia). }
  clearbody cap. set (L := size_of data) in *. set (F := size_of (frame tcp data)) in *.
  set (k := ((cap + L - 1) / L)%Z).
  pose proof (Z.div_mod (cap + L - 1) L ltac:(lia)) as Hd. pose proof (Z.mod_pos_bound (cap + L - 1) L ltac:(lia)) as Hm.
  fold k in Hd. assert (Hk : (0 <= k)%Z) by (apply Z.div_pos; lia).
  exists (Z.to_nat k). unfold packets. fold L. rewrite !Z2Nat.id by done.
  assert (Z.of_nat DEFAULT_BLOCK_SIZE = 65536%Z) as -> by (unfold DEFAULT_BLOCK_SIZE; lia).
  assert (HkL : (cap <= k * L <= cap + L - 1)%Z) by lia. clear Hd Hm. clearbody k.
  split; [lia|]. destruct (Z.leb_spec L 121).
  - assert (k <= 4 * 1024 * 1024)%Z by nia. nia.
  - assert (k <= 34400)%Z by nia. nia.
Qed.

(** ** The measurement

    The beginning of [pump]: the counters are noted when the warmup is over, and
    the difference is reported at the end of the window or when a peer has closed.
    Times are in ticks of the steady clock; the processor times are not modelled. *)
Record counters := mk_counters { rx_b : Z; rx_p : Z; tx_b : Z; tx_p : Z }.

Record meter := mk_meter { measuring : bool; measure_started : Z; base : counters }.

Record results := mk_results { elapsed : Z; transferred : counters; closed_early : bool }.

Definition meter_start : meter := mk_meter false 0 (mk_counters 0 0 0 0).

Definition difference (a b : counters) : counters :=
  mk_counters (u64 (rx_b a - rx_b b)) (u64 (rx_p a - rx_p b)) (u64 (tx_b a - tx_b b)) (u64 (tx_p a - tx_p b)).

Definition measure (measure_from measure_to now : Z) (closed : bool) (c : counters) (m : meter) : meter * option results :=
  let m := if negb (measuring m) && (measure_from <=? now) then mk_meter true now c else m in
  if closed || (measuring m && (measure_to <=? now))
  then (m, Some (mk_results (now - measure_started m) (difference c (base m)) closed))
  else (m, None).

(** The calls of the pump, up to the one that reports. *)
Fixpoint measured (measure_from measure_to : Z) (calls : list (Z * bool * counters)) (m : meter) : option results :=
  match calls with
  | [] => None
  | (now, closed, c) :: calls =>
      match measure measure_from measure_to now closed c m with
      | (_, Some r) => Some r
      | (m, None) => measured measure_from measure_to calls m
      end
  end.

Lemma measured_running from to_ calls m r :
  measuring m = true -> measured from to_ calls m = Some r ->
  exists now c, (now, closed_early r, c) ∈ calls /\ r = mk_results (now - measure_started m) (difference c (base m)) (closed_early r) /\
    (closed_early r = false -> to_ <= now).
Proof.
  revert m. induction calls as [|[[now b] c] calls IH]; intros m Hm; [done|]. cbn [measured]. unfold measure. rewrite Hm. cbn [negb andb].
  rewrite Hm. cbn [andb]. destruct (b || (to_ <=? now)) eqn:E.
  - intros [= <-]. exists now, c. cbn. split; [by left|]. split; [done|]. intros ->. cbn in E. lia.
  - intros Hr. destruct (IH m Hm Hr) as (now' & c' & H1 & H2 & H3). exists now', c'. split; [by right|]. done.
Qed.

(** What is reported without an early end: the bytes and packets between the
    first call after the warmup and a call after the end of the window, and the
    time between the two. *)
Lemma measured_window from to_ calls r :
  measured from to_ calls meter_start = Some r -> closed_early r = false ->
  exists t0 b0 c0 now c, (t0, b0, c0) ∈ calls /\ (now, false, c) ∈ calls /\ from <= t0 /\ to_ <= now /\
    elapsed r = now - t0 /\ transferred r = difference c c0.
Proof.
  assert (H0 : measuring meter_start = false) by done. revert H0. generalize meter_start.
  induction calls as [|[[now b] c] calls IH]; intros m Hm; [done|]. cbn [measured]. unfold measure at 1. rewrite Hm. cbn [negb andb].
  destruct (Z.leb_spec from now) as [Hf|Hf].
  - cbn [measuring andb]. destruct (b || (to_ <=? now)) eqn:E.
    + intros [= <-]. cbn. intros ->. cbn in E. exists now, false, c, now, c. split_and!; [by left|by left|lia|lia|done|done].
    + intros Hr Hc. destruct (measured_running from to_ calls (mk_meter true now c) r eq_refl Hr) as (t & c' & H1 & H2 & H3). rewrite Hc in H1, H2.
      exists now, b, c, t, c'. rewrite H2. split_and!; [by left|by right|lia|by apply H3|done|done].
  - rewrite Hm. cbn [andb]. destruct b; cbn [orb]; [intros [= <-]; by intros|]. intros Hr Hc.
    destruct (IH m Hm Hr Hc) as (t0 & b0 & c0 & t & c' & H1 & H2 & H3). exists t0, b0, c0, t, c'.
    split; [by right|]. split; [by right|]. done.
Qed.

(** A connection that closes during the warmup is reported with a time counted
    from the epoch of the clock, since the start of the window was never set. *)
Lemma closed_in_warmup from to_ now c :
  now < from -> measured from to_ [(now, true, c)] meter_start
    = Some (mk_results now (difference c (mk_counters 0 0 0 0)) true).
Proof.
  intros Hn. cbn [measured]. unfold measure. cbn [meter_start measuring negb andb].
  destruct (Z.leb_spec from now); [lia|]. cbn. by rewrite Z.sub_0_r.
Qed.

(** ** The throttled receiver

    Time is a list of readings of the clock, as long as somebody reads it. *)

(** [wait_until], with the reading that ends it. *)
Fixpoint wait_until (when : Z) (readings : list Z) : option (Z * list Z) :=
  match readings with
  | [] => None
  | now :: readings => if when <=? now then Some (now, readings) else wait_until when readings
  end.

(** The slot on [on_data_received], for a packet that costs [interval]: the new
    [throttle_clock], the time when the packet is counted and the readings left. *)
Definition throttle (interval throttle_clock : Z) (readings : list Z) : option (Z * Z * list Z) :=
  match readings with
  | [] => None
  | now :: readings =>
      let throttle_clock := (if throttle_clock <? now then now else throttle_clock) + interval in
      (fun '(t, readings) => (throttle_clock, t, readings)) <$> wait_until throttle_clock readings
  end.

Fixpoint throttled (intervals : list Z) (throttle_clock : Z) (readings : list Z) : option (Z * list Z) :=
  match intervals with
  | [] => Some (throttle_clock, readings)
  | d :: intervals =>
      match throttle d throttle_clock readings with
      | Some (throttle_clock, _, readings) => throttled intervals throttle_clock readings
      | None => None
      end
  end.

Lemma wait_until_late when readings t rest : wait_until when readings = Some (t, rest) -> when <= t.
Proof.
  induction readings as [|now readings IH]; cbn; [done|]. destruct (Z.leb_spec when now); [|done]. by intros [= <- _].
Qed.

Lemma throttle_late d clock readings clock' t rest :
  throttle d clock readings = Some (clock', t, rest) ->
  clock + d <= clock' <= t /\ forall now rs, readings = now :: rs -> now + d <= clock'.
Proof.
  destruct readings as [|now readings]; [done|]. unfold throttle. set (c := (if clock <? now then now else clock) + d).
  destruct (wait_until c readings) as [[t' r']|] eqn:Hw; [|done]. apply wait_until_late in Hw. intros H.
  assert (c = clock' /\ t' = t) as [<- <-] by (by injection H). subst c. destruct (Z.ltb_spec clock now).
  all: (split; [lia|]); intros n rs Hn; injection Hn as -> _; lia.
Qed.

(** The receiver is not faster than its rate: the packets are over no sooner
    than the sum of their costs after the first reading of the clock. *)
Lemma throttled_rate ds : forall clock readings clock' rest,
  throttled ds clock readings = Some (clock', rest) ->
  clock + foldr Z.add 0 ds <= clock' /\
  (ds <> [] -> forall now rs, readings = now :: rs -> now + foldr Z.add 0 ds <= clock').
Proof.
  induction ds as [|d ds IH]; intros clock readings clock' rest; cbn [throttled foldr].
  - intros [= <- _]. by split; [lia|].
  - destruct (throttle d clock readings) as [[[c1 t] r1]|] eqn:E; [|done]. intros H.
    destruct (throttle_late _ _ _ _ _ _ E) as [H1 H2]. destruct (IH _ _ _ _ H) as [H3 _]. split; [lia|].
    intros _ now rs Hr. specialize (H2 now rs Hr). lia.
Qed.

(** ** The exit status *)

(** What the program returns: [None] for the sockets when they could not be set
    up, otherwise the results of the run with the options. *)
Definition main_status `{Benchmark.Doubles} (args : list string) (run : Benchmark.options -> option results) : Z :=
  match Benchmark.parse_options args with
  | Throw _ => 2
  | Ok None => 0
  | Ok (Some o) =>
      match run o with
      | None => 1
      | Some r => if closed_early r then 1 else if rx_b (transferred r) =? 0 then 1 else 0
      end
  end.

(** A run counts as a success only when something was received through to the
    end of the window. *)
Lemma main_succeeds `{Benchmark.Doubles} args run o :
  Benchmark.parse_options args = Ok (Some o) ->
  main_status args run = 0 <-> exists r, run o = Some r /\ closed_early r = false /\ rx_b (transferred r) <> 0.
Proof.
  intros Hp. unfold main_status. rewrite Hp. split.
  - destruct (run o) as [r|]; [|done]. destruct (closed_early r) eqn:Ec; [done|].
    destruct (Z.eqb_spec (rx_b (transferred r)) 0); [done|]. intros _. by exists r.
  - intros (r & -> & -> & Hr). by destruct (Z.eqb_spec (rx_b (transferred r)) 0).
Qed.

(** ** Properties *)

(** C26: the benchmark measures what it means to measure.  In whatever way the
    pump, the write completions and the receiver interleave, over a socket that
    only ever refuses to take more, the sending peer stays open provided its
    transmit buffer has room for as many packets as the in-flight cap allows:
    its bytes are exactly the packets handed to it, at most [k] of which, the
    cap rounded up to whole packets, are not yet decoded.  And although the
    64-bit counters wrap and the receiver may count a packet before the pump
    does, the difference that is compared with the cap is the payload of the
    packets that were outstanding when the receiver's counter was loaded. *)
Theorem pump_keeps_connection `{JL : JsonLib} {S} `{!Socket S} `{DB.BufferCopy} tcp data cap k (s : S) rx tx st :
  reliable (S := S) -> sendable (data_message SIGNO data) -> packets data cap k -> wire s = [] ->
  (length (frame tcp data) * k + 2 * DEFAULT_BLOCK_SIZE <= tx)%nat ->
  reachable tcp data cap (start tcp s rx tx) st ->
  is_closed (tx_peer st).1 = false /\
  outgoing (tx_peer st).2 = mjoin (replicate (given st) (frame tcp data)) /\
  (decoded st <= given st <= decoded st + k)%nat /\
  forall i sent received, at_ st = loaded i sent received ->
    exists n, (n <= decoded st)%nat /\ u64 (sent - received) = Z.of_nat (given st - n) * size_of data.
Proof.
  intros Hrel Hsend Hk Hs Htx Hr. pose proof (reachable_steady tcp data cap k s rx tx st Hrel Hsend Hk Hs Htx Hr) as Hst.
  pose proof (st_flight _ _ _ _ Hst) as Hfl.
  split; [apply Hst|]. split; [apply Hst|]. split; [done|].
  intros i a b Ha. pose proof (st_counted _ _ _ _ Hst) as Hc. unfold counted in Hc. rewrite Ha in Hc.
  destruct Hc as (_ & -> & n & -> & Hn & Hg). exists n. split; [done|]. apply (count_difference data cap k); [done|lia].
Qed.

(** With the default buffer sizes and cap, for payloads up to 1M, nothing but
    the socket closes the sending peer. *)
Theorem default_benchmark_stays_open `{JL : JsonLib} {S} `{!Socket S} `{DB.BufferCopy} `{Benchmark.Doubles}
    data (o : Benchmark.options) (s : S) st :
  reliable (S := S) -> sendable (data_message SIGNO data) -> size_of data <= 1024 * 1024 -> wire s = [] ->
  Benchmark.payload o = size_of data -> Benchmark.inflight_cap o = 0 -> Benchmark.tx_buffer o = 32 * 1024 * 1024 ->
  let o := Benchmark.derive o in
  let tcp := Benchmark.use_tcp_protocol o in
  reachable tcp data (Benchmark.inflight_cap o)
    (start tcp s (Z.to_nat (Benchmark.rx_buffer o)) (Z.to_nat (Benchmark.tx_buffer o))) st ->
  is_closed (tx_peer st).1 = false.
Proof.
  intros Hrel Hsend Hle Hs Hp Hc Ht. destruct o as [tcp p ? ? rx tx ? ? cap ? ? ?]. cbn in Hp, Hc, Ht. subst.
  cbn zeta. intros Hr. cbn in Hr.
  destruct (default_backlog_fits tcp data Hsend Hle) as (k & Hk & Hfit). cbn zeta in Hk.
  eapply (st_open tcp data), (reachable_steady tcp data _ k s _ _ st Hrel Hsend Hk Hs); [|exact Hr].
  unfold size_of in Hfit at 1. lia.
Qed.

(** ** An instance *)

(** A socket that takes everything until it is closed. *)
Record tank := mk_tank { tk_wire : list Z; tk_open : bool }.

Definition tank_send (s : tank) (bs : list Z) : tank * nat * error_code :=
  if tk_open s then (mk_tank (tk_wire s ++ bs) true, length bs, success) else (s, 0%nat, would_block).

#[local] Instance tank_socket : Socket tank.
Proof.
  refine {| wire := tk_wire; sock_open := tk_open; sock_send := tank_send;
    sock_receive s _ := (s, [], would_block); sock_set_send_buffer s _ := s; sock_non_blocking s := s;
    sock_shutdown s := s; sock_close s := mk_tank (tk_wire s) false |}; try done.
  - intros s bs s' n ec. unfold tank_send. destruct (tk_open s); intros E; simplify_eq; cbn.
    + by rewrite firstn_all.
    + rewrite app_nil_r. split; [lia|done].
  - intros s n s' data ec E. simplify_eq. split; [cbn; lia|]. by split.
  - intros s bs s' n ec Ho. unfold tank_send. rewrite Ho. intros E. by simplify_eq.
  - intros s n s' data ec Ho E. by simplify_eq.
Defined.

Section Witness.
#[local] Existing Instance jv_json.
#[local] Existing Instance DB.reference_buffer_copy.

(** A packet submitted while the cap of five bytes allows it. *)
Lemma pump_keeps_connection_witness :
  let tx := (200 + 2 * DEFAULT_BLOCK_SIZE)%nat in
  exists st, reachable false [1; 2; 3] 5 (start false (mk_tank [] true) 16 tx) st /\
    at_ st = submitted 0 0 /\ is_closed (tx_peer st).1 = false /\
    outgoing (tx_peer st).2 = mjoin (replicate (given st) (frame false [1; 2; 3])).
Proof.
  intros tx. set (st0 := start false (mk_tank [] true) 16 tx).
  assert (Hrel : reliable (S := tank)).
  { intros s bs s' n ec. unfold sock_send. cbn. unfold tank_send. destruct (tk_open s); intros E; simplify_eq; auto. }
  assert (Hsend : sendable (data_message SIGNO [1; 2; 3])) by by apply sendable_data_intro.
  destruct (peer_act_spec (act_send (data_message SIGNO [1; 2; 3])) (tx_peer st0)) as (p & Ep & _).
  { by intros m [= <-]. }
  { apply peer_make_peer_ok. }
  set (st := mk_state p 0 0 1 0 (submitted 0 0)).
  set (st1 := mk_state (tx_peer st0) 0 0 0 0 (at_top 0)).
  set (st2 := mk_state (tx_peer st0) 0 0 0 0 (loaded 0 0 0)).
  assert (S1 : step false [1; 2; 3] 5 st0 st1) by exact (pump_called _ _ _ st0 eq_refl eq_refl).
  assert (S2 : step false [1; 2; 3] 5 st1 st2) by (refine (pump_loads _ _ _ st1 0 eq_refl _); unfold PUMP_BATCH; lia).
  assert (S3 : step false [1; 2; 3] 5 st2 st) by exact (pump_submits false [1; 2; 3] 5 st2 0 0 0 p eq_refl eq_refl Ep).
  pose proof (reachable_step _ _ _ _ _ _ (reachable_step _ _ _ _ _ _ (reachable_step _ _ _ _ _ _
    (reachable_start _ _ _ st0) S1) S2) S3) as Hr.
  assert (Hk : packets [1; 2; 3] 5 2) by (split; by vm_compute).
  destruct (pump_keeps_connection false [1; 2; 3] 5 2 (mk_tank [] true) 16 tx st Hrel Hsend Hk eq_refl) as (H1 & H2 & _).
  { unfold tx. apply Nat.add_le_mono_r. apply Nat.leb_le. by vm_compute. }
  { exact Hr. }
  exists st. split; [exact Hr|]. split; [reflexivity|]. split; [exact H1|exact H2].
Defined.
End Witness.
