(* ===== verification/Base64.v ===== *)
(** * Base64 and the WebSocket handshake key

    [include/ws-streaming/detail/base64.hpp] and [get_response_key] of
    [src/detail/websocket_protocol.cpp].  Boost's archive iterators and its
    SHA-1 are parameters: the iterators are documented to yield, for the bits of
    the input in groups of six (the last group padded with zero bits), the
    characters of the Base64 alphabet; the digest is documented to be the 20
    bytes of the SHA-1 hash, or, in older versions, its five big-endian words. *)
From S2P Require Import Prelude.
From S2P Require WebsocketProtocol.
From Stdlib Require Import Ascii.

(** ** The alphabet and the 6-bit groups *)

Definition alphabet : list ascii :=
  String.list_ascii_of_string "ABCDEFGHIJKLMNOPQRSTUVWXYZabcdefghijklmnopqrstuvwxyz0123456789+/".

Definition letter (v : Z) : ascii := nth (Z.to_nat v) alphabet zero.

Fixpoint sextets (bs : list Z) : list Z :=
  match bs with
  | a :: b :: c :: bs =>
      a / 4 :: a mod 4 * 16 + b / 16 :: b mod 16 * 4 + c / 64 :: c mod 64 :: sextets bs
  | [a; b] => [a / 4; a mod 4 * 16 + b / 16; b mod 16 * 4]
  | [a] => [a / 4; a mod 4 * 16]
  | [] => []
  end.

(** [base64_from_binary<transform_width<It, 6, 8>>] over a range. *)
Class ArchiveIterators := {
  binary_to_base64 : list Z -> list ascii;
  binary_to_base64_law : forall bs, Forall is_byte bs ->
    binary_to_base64 bs = letter <$> sextets bs
}.

Definition reference_iterators : ArchiveIterators.
Proof. by refine {| binary_to_base64 bs := letter <$> sextets bs |}. Defined.

(** boost::uuids::detail::sha1 *)
Inductive digest : Type :=
| digest_bytes (bs : list Z)
| digest_words (ws : list Z).

(** The four bytes of a word, most significant first. *)
Definition word_bytes (w : Z) : list Z := [u8 (w ≫ 24); u8 (w ≫ 16); u8 (w ≫ 8); u8 w].

Class Sha1 := {
  sha1 : list Z -> list Z;
  get_digest : list Z -> digest;
  sha1_length : forall bs, length (sha1 bs) = 20%nat;
  sha1_byte : forall bs, Forall is_byte (sha1 bs);
  get_digest_law : forall bs,
    match get_digest bs with
    | digest_bytes d => d = sha1 bs
    | digest_words ws => length ws = 5%nat /\ mjoin (word_bytes <$> ws) = sha1 bs
    end
}.

(** ** Operations *)

Section Base64.
Context `{!ArchiveIterators}.

Definition base64 (bs : list Z) : list ascii :=
  binary_to_base64 bs ++ replicate (Z.to_nat ((3 - size_of bs mod 3) mod 3)) "="%char.

Definition string_bytes (s : string) : list Z :=
  (fun c => Z.of_nat (nat_of_ascii c)) <$> String.list_ascii_of_string s.

(** [process_bytes] twice is hashing the concatenation. *)
Definition get_response_key `{!Sha1} (sec_websocket_key : string) : string :=
  let sha1_value :=
    get_digest (string_bytes sec_websocket_key ++ string_bytes WebsocketProtocol.MAGIC_KEY) in
  let sha1_bytes :=
    match sha1_value with
    | digest_bytes d => take 20 d
    | digest_words ws => mjoin (word_bytes <$> take 5 ws)
    end in
  String.string_of_list_ascii (base64 sha1_bytes).
End Base64.

(** ** Specification: decoding *)

Definition letter_value (c : ascii) : option Z :=
  (fun '(i, _) => Z.of_nat i) <$> list_find (fun x => x = c) alphabet.

(** A Base64 string read back: groups of four characters, the last one padded. *)
Fixpoint decode64 (fuel : nat) (s : list ascii) : option (list Z) :=
  match fuel with
  | O => None
  | S fuel =>
      match s with
      | [] => Some []
      | w :: x :: y :: z :: s =>
          v0 ← letter_value w; v1 ← letter_value x;
          if bool_decide (y = "="%char) then
            if bool_decide (z = "="%char /\ s = []) then Some [v0 * 4 + v1 / 16] else None
          else
            v2 ← letter_value y;
            if bool_decide (z = "="%char) then
              if bool_decide (s = []) then
                Some [v0 * 4 + v1 / 16; v1 mod 16 * 16 + v2 / 4] else None
            else
              v3 ← letter_value z;
              rest ← decode64 fuel s;
              Some (v0 * 4 + v1 / 16 :: v1 mod 16 * 16 + v2 / 4 :: v2 mod 4 * 64 + v3 :: rest)
      | _ => None
      end
  end.

(** ** Lemmas *)

Lemma letter_value_letter_all :
  forallb (fun n => bool_decide (letter_value (letter (Z.of_nat n)) = Some (Z.of_nat n)) &&
                    negb (bool_decide (letter (Z.of_nat n) = "="%char))) (seq 0 64) = true.
Proof. by vm_compute. Qed.

Lemma letter_value_letter v :
  0 <= v < 64 -> letter_value (letter v) = Some v /\ letter v <> "="%char.
Proof.
  intros Hv. pose proof letter_value_letter_all as H. rewrite forallb_forall in H.
  specialize (H (Z.to_nat v)). rewrite Z2Nat.id in H by lia.
  assert (Hin : In (Z.to_nat v) (seq 0 64)) by (apply in_seq; lia).
  specialize (H Hin). apply andb_true_iff in H as [H1 H2].
  apply bool_decide_eq_true in H1. apply negb_true_iff, bool_decide_eq_false in H2. done.
Qed.

Lemma length_sextets_3 a b c bs : length (sextets (a :: b :: c :: bs)) = (4 + length (sextets bs))%nat.
Proof. done. Qed.

(** Induction three bytes at a time. *)
Lemma triples_ind (P : list Z -> Prop) :
  P [] -> (forall a, P [a]) -> (forall a b, P [a; b]) ->
  (forall a b c bs, P bs -> P (a :: b :: c :: bs)) -> forall bs, P bs.
Proof.
  intros H0 H1 H2 H3. fix IH 1. intros [|a [|b [|c bs]]]; [done|apply H1|apply H2|].
  apply H3, IH.
Qed.

Definition padding (bs : list Z) : nat := Z.to_nat ((3 - size_of bs mod 3) mod 3).

Lemma padding_3 a b c bs : padding (a :: b :: c :: bs) = padding bs.
Proof.
  unfold padding, size_of. cbn [length].
  replace (Z.of_nat (S (S (S (length bs))))) with (Z.of_nat (length bs) + 1 * 3) by lia.
  by rewrite Z_mod_plus_full.
Qed.

Ltac zdiv := Z.div_mod_to_equations; lia.

Lemma decode64_encode bs : Forall is_byte bs -> forall fuel, (length bs < fuel)%nat ->
  decode64 fuel ((letter <$> sextets bs) ++ replicate (padding bs) "="%char) = Some bs.
Proof.
  intros Hb. induction bs as [|a|a b|a b c bs IH] using triples_ind; intros [|fuel] Hf;
    try (cbn in Hf; lia).
  - done.
  - apply Forall_cons in Hb as [Ha _]. unfold in_u in Ha.
    change (padding [a]) with 2%nat. cbn [sextets fmap list_fmap app replicate decode64].
    destruct (letter_value_letter (a / 4)) as [-> _]; [zdiv|].
    destruct (letter_value_letter (a mod 4 * 16)) as [-> _]; [zdiv|]. cbn.
    do 2 f_equal. zdiv.
  - apply Forall_cons in Hb as [Ha [Hb' _]%Forall_cons]. unfold in_u in *.
    change (padding [a; b]) with 1%nat. cbn [sextets fmap list_fmap app replicate decode64].
    destruct (letter_value_letter (a / 4)) as [-> _]; [zdiv|].
    destruct (letter_value_letter (a mod 4 * 16 + b / 16)) as [-> _]; [zdiv|].
    destruct (letter_value_letter (b mod 16 * 4)) as [-> Hn]; [zdiv|].
    cbn [mbind option_bind]. rewrite (bool_decide_false (letter _ = _)) by done.
    rewrite !bool_decide_true by done. do 2 f_equal; [zdiv|]. f_equal. zdiv.
  - apply Forall_cons in Hb as [Ha [Hb' [Hc Hb]%Forall_cons]%Forall_cons]. unfold in_u in *.
    rewrite padding_3. cbn [sextets fmap list_fmap app decode64].
    destruct (letter_value_letter (a / 4)) as [-> _]; [zdiv|].
    destruct (letter_value_letter (a mod 4 * 16 + b / 16)) as [-> _]; [zdiv|].
    destruct (letter_value_letter (b mod 16 * 4 + c / 64)) as [-> Hn]; [zdiv|].
    destruct (letter_value_letter (c mod 64)) as [-> Hn']; [zdiv|].
    cbn [mbind option_bind].
    rewrite (bool_decide_false (letter (b mod 16 * 4 + c / 64) = _)) by done.
    rewrite (bool_decide_false (letter (c mod 64) = _)) by done.
    change (list_fmap Z ascii letter (sextets bs)) with (letter <$> sextets bs).
    rewrite IH; [|done|cbn in Hf; lia]. cbn [mbind option_bind]. do 2 f_equal; [zdiv|].
    f_equal; [zdiv|]. f_equal. zdiv.
Qed.

Lemma length_encode bs :
  length ((letter <$> sextets bs) ++ replicate (padding bs) "="%char) = (4 * ((length bs + 2) / 3))%nat.
Proof.
  induction bs as [|a|a b|a b c bs IH] using triples_ind; try done.
  rewrite length_app, length_fmap, length_replicate, padding_3, length_sextets_3 in *.
  cbn [length]. replace (S (S (S (length bs))) + 2)%nat with (length bs + 2 + 1 * 3)%nat by lia.
  rewrite Nat.div_add by lia. lia.
Qed.

Lemma word_bytes_length ws : length (mjoin (word_bytes <$> ws)) = (4 * length ws)%nat.
Proof.
  induction ws as [|w ws IH]; [done|]. rewrite fmap_cons.
  change (mjoin (word_bytes w :: (word_bytes <$> ws)))
    with (word_bytes w ++ mjoin (word_bytes <$> ws)). rewrite length_app, IH. cbn. lia.
Qed.

(** ** Properties *)

(** Base64 encoding is that of RFC 4648 and loses nothing: the text has
    four characters for every three bytes begun, and decoding it gives the
    bytes back. *)
Theorem base64_roundtrip `{!ArchiveIterators} bs :
  Forall is_byte bs ->
  decode64 (S (length bs)) (base64 bs) = Some bs /\
  length (base64 bs) = (4 * ((length bs + 2) / 3))%nat.
Proof.
  intros Hb. unfold base64. rewrite binary_to_base64_law by done. fold (padding bs).
  split; [apply decode64_encode; [done|lia]|apply length_encode].
Qed.

Lemma base64_roundtrip_witness :
  decode64 6 (@base64 reference_iterators [104; 101; 108; 108; 111]) = Some [104; 101; 108; 108; 111] /\
  length (@base64 reference_iterators [104; 101; 108; 108; 111]) = 8%nat.
Proof.
  apply (@base64_roundtrip reference_iterators [104; 101; 108; 108; 111]).
  repeat constructor; by vm_compute.
Defined.

(** With either form of Boost's digest, the handshake response key is the
    Base64 text of the SHA-1 hash of the client's key followed by the protocol's
    magic string: 28 characters that decode to that hash. *)
Theorem response_key_correct `{!ArchiveIterators} `{!Sha1} key :
  let hash := sha1 (string_bytes key ++ string_bytes WebsocketProtocol.MAGIC_KEY) in
  get_response_key key = String.string_of_list_ascii (base64 hash) /\
  length (String.list_ascii_of_string (get_response_key key)) = 28%nat /\
  decode64 21 (String.list_ascii_of_string (get_response_key key)) = Some hash.
Proof.
  intros hash. assert (Hk : get_response_key key = String.string_of_list_ascii (base64 hash)).
  { unfold get_response_key.
    pose proof (get_digest_law (string_bytes key ++ string_bytes WebsocketProtocol.MAGIC_KEY)) as Hd.
    fold hash in Hd. destruct (get_digest _) as [d|ws].
    - subst d. rewrite take_ge; [done|]. unfold hash. by rewrite sha1_length.
    - destruct Hd as [Hl <-]. rewrite take_ge by lia. done. }
  rewrite Hk, String.list_ascii_of_string_of_list_ascii. split; [done|].
  unfold base64. rewrite binary_to_base64_law by apply sha1_byte. fold (padding hash).
  rewrite length_encode. unfold hash at 1. rewrite sha1_length. split; [done|].
  apply decode64_encode; [apply sha1_byte|]. unfold hash. rewrite sha1_length. lia.
Qed.

(** A stand-in for the hash, for evaluation. *)
Definition checksum (bs : list Z) : list Z := replicate 20 (u8 (foldr Z.add 0 bs)).

Definition checksum_sha1 : Sha1.
Proof.
  refine {| sha1 := checksum; get_digest bs := digest_bytes (checksum bs) |}; try done.
  intros bs. apply Forall_replicate. by apply wrap_range.
Defined.

Lemma response_key_correct_witness :
  length (String.list_ascii_of_string
    (@get_response_key reference_iterators checksum_sha1 "dGhlIHNhbXBsZSBub25jZQ==")) = 28%nat.
Proof.
  destruct (@response_key_correct reference_iterators checksum_sha1 "dGhlIHNhbXBsZSBub25jZQ==")
    as (_ & H & _). exact H.
Defined.
