(* ===== verification/Url.v ===== *)
(** * URLs

    [src/detail/url.cpp] and [include/ws-streaming/detail/url.hpp].  The regular
    expression is a fixed one and is matched here as ECMAScript prescribes for
    it: every group is a maximal run of a character class (what follows a run
    can never begin with a character of its class, so backtracking into it does
    not help), and the optional parts at the end match when they can.
    [std::regex_search] with the leading [^] tries only position 0.  Nothing
    anchors the end: what follows the last group is ignored.  The result of
    [std::atoi] outside the range of [int], which C leaves undefined, is a
    parameter. *)
From S2P Require Import Prelude Semver.
From Stdlib Require Import Ascii.

Record url := mk_url {
  host_address : list ascii;
  path : list ascii;
  port_number : option Z;
  scheme : list ascii
}.

Inductive url_error : Type := invalid_argument.

(** [[^:]] *)
Definition scheme_char (c : ascii) : bool := negb (bool_decide (c = ":"%char)).

(** [[^\[\]:/]] *)
Definition host_char (c : ascii) : bool :=
  negb (bool_decide (c = "["%char \/ c = "]"%char \/ c = ":"%char \/ c = "/"%char)).

(** [[^\[\]/]] *)
Definition ip_char (c : ascii) : bool :=
  negb (bool_decide (c = "["%char \/ c = "]"%char \/ c = "/"%char)).

(** [.]: anything but the line terminators of ECMAScript in the "C" locale. *)
Definition any_char (c : ascii) : bool :=
  let n := nat_of_ascii c in negb ((n =? 10)%nat || (n =? 13)%nat).

(** [([^:]+)://] *)
Definition match_scheme (s : list ascii) : option (list ascii * list ascii) :=
  let g := take_while scheme_char s in
  match g, skip_while scheme_char s with
  | _ :: _, ":"%char :: "/"%char :: "/"%char :: rest => Some (g, rest)
  | _, _ => None
  end.

(** [([^\[\]:/]+|\[[^\[\]/]+\])] *)
Definition match_host (s : list ascii) : option (list ascii * list ascii) :=
  match take_while host_char s with
  | _ :: _ => Some (take_while host_char s, skip_while host_char s)
  | [] =>
      match s with
      | "["%char :: s =>
          let g := take_while ip_char s in
          match g, skip_while ip_char s with
          | _ :: _, "]"%char :: rest => Some ("["%char :: g ++ ["]"%char], rest)
          | _, _ => None
          end
      | _ => None
      end
  end.

(** [(?::(\d+))?] *)
Definition match_port (s : list ascii) : list ascii * list ascii :=
  match s with
  | ":"%char :: s' =>
      match take_while is_digit s' with
      | [] => ([], s)
      | g => (g, skip_while is_digit s')
      end
  | _ => ([], s)
  end.

(** The optional last group: a slash and what follows it on the line. *)
Definition match_path (s : list ascii) : list ascii :=
  match s with
  | "/"%char :: s' => "/"%char :: take_while any_char s'
  | _ => []
  end.

(** The host without the brackets of an IPv6 literal. *)
Definition strip_brackets (h : list ascii) : list ascii :=
  if (2 <? length h)%nat && bool_decide (nth 0 h zero = "["%char) &&
     bool_decide (nth (length h - 1) h zero = "]"%char)
  then slice 1 (length h - 2) h else h.

Section Url.
Context (atoi_overflow : list ascii -> Z).

Definition atoi (digits : list ascii) : Z :=
  if decimal digits <? 2 ^ 31 then decimal digits else atoi_overflow digits.

(** The constructor. *)
Definition parse_url (str : list ascii) : result url_error url :=
  match match_scheme str with
  | None => Throw invalid_argument
  | Some (g1, rest) =>
      match match_host rest with
      | None => Throw invalid_argument
      | Some (g2, rest) =>
          let '(g3, rest) := match_port rest in
          let g4 := match_path rest in
          Ok (mk_url (strip_brackets g2) g4
                (match g3 with [] => None | _ => Some (u16 (atoi g3)) end) g1)
      end
  end.

(** ** Lemmas *)

Lemma take_while_app f a c b :
  Forall (fun x => f x = true) a -> f c = false ->
  take_while f (a ++ c :: b) = a /\ skip_while f (a ++ c :: b) = c :: b.
Proof.
  intros Ha Hc. induction Ha as [|x a Hx _ [IH1 IH2]]; cbn; [by rewrite Hc|].
  by rewrite Hx, IH1, IH2.
Qed.

Lemma take_while_end f a b :
  Forall (fun x => f x = true) a -> (if b is c :: _ then f c = false else True) ->
  take_while f (a ++ b) = a /\ skip_while f (a ++ b) = b.
Proof.
  intros Ha Hb. destruct b as [|c b]; [|by apply take_while_app].
  rewrite app_nil_r. split; [by apply take_while_all|by apply skip_while_all].
Qed.

(** The optional port and path as text. *)
Definition port_text (p : option (list ascii)) : list ascii :=
  match p with Some d => ":"%char :: d | None => [] end.

Definition good_port (p : option (list ascii)) : Prop :=
  match p with Some d => d <> [] /\ all_digits d /\ decimal d < 2 ^ 16 | None => True end.

Definition good_path (p : list ascii) : Prop :=
  p = [] \/ exists q, p = "/"%char :: q /\ Forall (fun c => any_char c = true) q.

Lemma match_tail p q :
  good_port p -> good_path q ->
  match_port (port_text p ++ q) = (value_or p [], q) /\ match_path q = q.
Proof.
  intros Hp Hq. split.
  - destruct p as [d|]; cbn.
    + destruct Hp as (Hne & Hd & _).
      destruct (take_while_end is_digit d q Hd) as [E1 E2].
      { destruct Hq as [->|(q' & -> & _)]; done. }
      rewrite E1, E2. by destruct d.
    + by destruct Hq as [->|(q' & -> & _)].
  - destruct Hq as [->|(q' & -> & Hq)]; [done|]. cbn. by rewrite take_while_all.
Qed.

Lemma tail_start p q : good_path q ->
  match port_text p ++ q with [] => True | c :: _ => c = ":"%char \/ c = "/"%char end.
Proof. intros Hq. destruct p; cbn; [by left|]. destruct Hq as [->|(q' & -> & _)]; [done|by right]. Qed.

Definition bracketed (ip : bool) (h : list ascii) : list ascii :=
  if ip then "["%char :: h ++ ["]"%char] else h.

Definition good_host (ip : bool) (h : list ascii) : Prop :=
  h <> [] /\ Forall (fun c => (if ip then ip_char c else host_char c) = true) h.

Lemma match_host_good ip h p q :
  good_host ip h -> good_path q ->
  match_host (bracketed ip h ++ port_text p ++ q) = Some (bracketed ip h, port_text p ++ q).
Proof.
  intros [Hne Hh] Hq. pose proof (tail_start p q Hq) as Ht. unfold match_host.
  destruct ip; cbn [bracketed].
  - cbn. destruct (take_while_app ip_char h "]"%char (port_text p ++ q) Hh eq_refl) as [E1 E2].
    rewrite <- app_assoc. cbn. rewrite E1, E2. by destruct h.
  - destruct (take_while_end host_char h (port_text p ++ q) Hh) as [E1 E2].
    { destruct (port_text p ++ q); [done|]. by destruct Ht as [->| ->]. }
    rewrite E1, E2. by destruct h.
Qed.

Lemma strip_bracketed ip h : good_host ip h -> strip_brackets (bracketed ip h) = h.
Proof.
  intros [Hne Hh]. unfold strip_brackets, bracketed. destruct ip.
  - cbn [length]. rewrite length_app. cbn [length nth].
    replace (S (length h + 1) - 1)%nat with (S (length h)) by lia. cbn [nth].
    rewrite app_nth2, Nat.sub_diag by lia. cbn [nth].
    destruct (Nat.ltb_spec 2 (S (length h + 1))); [|destruct h; cbn in *; [done|lia]].
    rewrite !bool_decide_true by done. cbn [andb]. replace (S (length h + 1) - 2)%nat with (length h) by lia.
    apply (take_app_length h).
  - destruct h as [|c h]; [done|]. apply Forall_cons in Hh as [Hc _]. cbn [nth].
    rewrite (bool_decide_false (c = _)); [by rewrite andb_false_r|]. intros ->. done.
Qed.
End Url.

(** ** Properties *)

(** C38: a URL made of a scheme, a host name or a bracketed address, an optional
    port below 65536 and an optional path is taken apart into exactly these
    components, the brackets removed; a string without a scheme separator is
    rejected. *)
Theorem url_roundtrip atoi_overflow s ip h p q str :
  s <> [] -> Forall (fun c => scheme_char c = true) s -> good_host ip h -> good_port p ->
  good_path q -> Forall (fun c => scheme_char c = true) str ->
  parse_url atoi_overflow
    (s ++ [":"; "/"; "/"]%char ++ bracketed ip h ++ port_text p ++ q)
  = Ok (mk_url h q (decimal <$> p) s) /\
  parse_url atoi_overflow str = Throw invalid_argument.
Proof.
  intros Hne Hs Hh Hp Hq Hstr. split.
  - unfold parse_url, match_scheme. cbn [app].
    destruct (take_while_app scheme_char s ":"%char
      ("/" :: "/" :: bracketed ip h ++ port_text p ++ q)%char Hs eq_refl) as [-> ->].
    destruct s as [|c s]; [done|]. rewrite match_host_good by done.
    destruct (match_tail p q Hp Hq) as [-> ->]. rewrite strip_bracketed by done.
    destruct p as [d|]; [|done]. destruct Hp as (Hd & Hdig & Hlt). cbn.
    destruct d as [|c' d]; [done|]. unfold atoi.
    destruct (Z.ltb_spec (decimal (c' :: d)) (2 ^ 31)); [|lia].
    pose proof (decimal_nonneg_from _ Hdig 0 ltac:(lia)).
    rewrite wrap_small; [done|]. split; [done|lia].
  - unfold parse_url, match_scheme. rewrite take_while_all, skip_while_all by done.
    by destruct str.
Qed.

Lemma url_roundtrip_witness :
  parse_url (fun _ => 0) (String.list_ascii_of_string "ws://[::1]:7414/x")
  = Ok (mk_url (String.list_ascii_of_string "::1") (String.list_ascii_of_string "/x")
          (Some 7414) (String.list_ascii_of_string "ws")) /\
  parse_url (fun _ => 0) (String.list_ascii_of_string "localhost") = Throw invalid_argument.
Proof.
  apply (url_roundtrip (fun _ => 0) (String.list_ascii_of_string "ws") true
    (String.list_ascii_of_string "::1") (Some (String.list_ascii_of_string "7414"))
    (String.list_ascii_of_string "/x") (String.list_ascii_of_string "localhost")).
  - done.
  - by repeat constructor.
  - split; [done|by repeat constructor].
  - split; [done|]. split; [by repeat constructor|by vm_compute].
  - right. eexists. split; [done|]. by repeat constructor.
  - by repeat constructor.
Defined.
