(* ===== verification/Metadata.v ===== *)
(** * Signal metadata

    [src/metadata.cpp], [src/unit.cpp], [src/struct_field.cpp],
    [src/struct_field_dimension.cpp], their headers, the constants of
    [include/ws-streaming] and [json_ptr] of
    [include/ws-streaming/detail/json.hpp].  A metadata object wraps one JSON
    value, so it is that value; so are a struct field and a dimension.  The
    arbitrary-precision rational arithmetic of [tcp_signal_rate_ticks] is exact
    integer arithmetic here; the conversion of an integer that does not fit in
    64 bits, which Boost leaves to its configuration, is a parameter. *)
From S2P Require Import Prelude Json.

(** ** Constants *)

Definition unknown_t : string := "unknown".
Definition struct_t : string := "struct".
Definition null_t : string := "null".
Definition binary_t : string := "binary".
Definition int8_t : string := "int8".
Definition int16_t : string := "int16".
Definition int32_t : string := "int32".
Definition int64_t : string := "int64".
Definition uint8_t : string := "uint8".
Definition uint16_t : string := "uint16".
Definition uint32_t : string := "uint32".
Definition uint64_t : string := "uint64".
Definition real32_t : string := "real32".
Definition real64_t : string := "real64".

Definition explicit_rule : string := "explicit".
Definition constant_rule : string := "constant".
Definition linear_rule : string := "linear".

Definition endian_unknown : string := "unknown".
Definition endian_big : string := "big".
Definition endian_little : string := "little".

Definition quantity_time : string := "time".
Definition quantity_voltage : string := "voltage".

(** ** wss::unit *)

Record unit := mk_unit { id : Z; unit_name : string; quantity : string; symbol : string }.

(** [u8] string literals as their UTF-8 bytes. *)
Definition micro_s : string :=
  String.String (Ascii.ascii_of_nat 194) (String.String (Ascii.ascii_of_nat 181) "s").

Definition seconds : unit := mk_unit (-1) "seconds" quantity_time "s".
Definition milliseconds : unit := mk_unit (-1) "milliseconds" quantity_time "ms".
Definition microseconds : unit := mk_unit (-1) "microseconds" quantity_time micro_s.
Definition nanoseconds : unit := mk_unit (-1) "nanoseconds" quantity_time "ns".
Definition volts : unit := mk_unit (-1) "volts" quantity_voltage "V".

(** [get_primitive_size] *)
Definition get_primitive_size (type : string) : Z :=
  if bool_decide (type = int8_t) then 1
  else if bool_decide (type = int16_t) then 2
  else if bool_decide (type = int32_t) then 4
  else if bool_decide (type = int64_t) then 8
  else if bool_decide (type = uint8_t) then 1
  else if bool_decide (type = uint16_t) then 2
  else if bool_decide (type = uint32_t) then 4
  else if bool_decide (type = uint64_t) then 8
  else if bool_decide (type = real32_t) then 4
  else if bool_decide (type = real64_t) then 8
  else 0.

(** The exceptions of [tcp_signal_rate_ticks]: those of the JSON library, and
    the division by zero of Boost's rationals. *)
Inductive ticks_error : Type :=
| ticks_json (e : json_exception)
| division_by_zero.

Section Metadata.
Context `{JL : JsonLib}.

(** ** json_ptr *)

(** Only a [type_error] gives the fallback. *)
Definition json_ptr {A} (get : json -> result json_exception A) (j : json) (path : list string)
    (fallback : A) : result json_exception A :=
  match (v <-? value_at j path ; get v) with
  | Throw type_error => Ok fallback
  | r => r
  end.

(** ** Construction and member access *)

Definition metadata (j : json) : json := if is_object j then j else jobj [].

Definition default_metadata : json := jobj [].

(** [j.contains(a) && j[a].is_object() && j[a].contains(k)], with [j[a][k]]. *)
Definition sub (j : json) (a k : string) : option json :=
  if contains j a && is_object (field j a) && contains (field j a) k
  then Some (field (field j a) k) else None.

(** The same, when it is a string. *)
Definition sub_string (j : json) (a k : string) : option string :=
  match sub j a k with
  | Some v => if is_string v then Some (string_of v) else None
  | None => None
  end.

(** The same, when it is an object. *)
Definition sub_object (j : json) (a k : string) : option json :=
  match sub j a k with
  | Some v => if is_object v then Some v else None
  | None => None
  end.

Definition endian (j : json) : string := value_or (sub_string j "definition" "endian") endian_unknown.

Definition data_type (j : json) : string := value_or (sub_string j "definition" "dataType") unknown_t.

Definition name (j : json) : string := value_or (sub_string j "definition" "name") "".

Definition rule (j : json) : string := value_or (sub_string j "definition" "rule") explicit_rule.

Definition origin (j : json) : string :=
  match sub_string j "definition" "origin" with
  | Some s => s
  | None => value_or (sub_string j "interpretation" "origin") ""
  end.

(** [j.value<json>(k, nullptr)] where [j] is an object. *)
Definition value_null (j : json) (k : string) : json := field j k.

(** The conversion of a JSON number, tested by [is_number], to an integer. *)
Definition number_int64 (j : json) : option Z :=
  if is_number j then (if get_int64 j is Ok z then Some z else None) else None.

Definition linear_start_delta (j : json) : option Z * option Z :=
  if bool_decide (rule j = linear_rule) then
    match sub_object j "interpretation" "rule" with
    | Some r =>
        if contains r "parameters" && is_object (field r "parameters") then
          (number_int64 (value_null (field r "parameters") "start"),
           number_int64 (value_null (field r "parameters") "delta"))
        else
          match sub_object j "definition" "linear" with
          | Some l => (number_int64 (value_null l "start"), number_int64 (value_null l "delta"))
          | None => (None, None)
          end
    | None =>
        match sub_object j "definition" "linear" with
        | Some l => (number_int64 (value_null l "start"), number_int64 (value_null l "delta"))
        | None => (None, None)
        end
    end
  else (None, None).

Definition range (j : json) : option (double * double) :=
  match sub_object j "definition" "range" with
  | Some r =>
      let part k := if contains r k && is_number (field r k)
                    then get_double (field r k) else double_of 0 in
      Some (part "low", part "high")
  | None => None
  end.

(** An integer member of an object, or a default. *)
Definition integer_member (get : json -> result json_exception Z) (j : json) (k : string)
    (fallback : Z) : Z :=
  if contains j k && is_number_integer (field j k)
  then match get (field j k) with Ok z => z | Throw _ => fallback end
  else fallback.

Definition string_member (j : json) (k : string) (fallback : string) : string :=
  if contains j k && is_string (field j k) then string_of (field j k) else fallback.

(** The contribution of one element of the "struct" array to the sample size. *)
Definition field_size (f : json) : Z :=
  if is_object f && contains f "dataType" && is_string (field f "dataType") then
    let base := get_primitive_size (string_of (field f "dataType")) in
    if contains f "dimensions" && is_array (field f "dimensions") then
      match elements (field f "dimensions") with
      | d :: _ =>
          if is_object d && contains d "linear" && is_object (field d "linear")
          then u64 (base * integer_member get_uint64 (field d "linear") "size" 1)
          else base
      | [] => base
      end
    else base
  else 0.

Definition sample_size (j : json) : Z :=
  let type := data_type j in
  let size := get_primitive_size type in
  if (size =? 0) && bool_decide (type = struct_t) then
    match sub j "definition" "struct" with
    | Some s => if is_array s then fold_left (fun n f => u64 (n + field_size f)) (elements s) size
                else size
    | None => size
    end
  else size.

Definition table_id (j : json) : string :=
  if is_string (value_null j "tableId") then string_of (value_null j "tableId") else "".

Definition value_index (j : json) : option Z :=
  if is_number_integer (value_null j "valueIndex")
  then (if get_int64 (value_null j "valueIndex") is Ok z then Some z else None) else None.

Definition tick_resolution (j : json) : option (Z * Z) :=
  match sub_object j "definition" "resolution" with
  | Some r => Some (integer_member get_uint64 r "num" 1, integer_member get_uint64 r "denom" 1)
  | None => None
  end.

Definition get_unit (j : json) : option unit :=
  match sub_object j "interpretation" "unit" with
  | Some u =>
      Some (mk_unit (integer_member get_int32 u "id" (-1)) (string_member u "name" "")
              (string_member u "quantity" "") (string_member u "symbol" ""))
  | None =>
      match sub_object j "definition" "unit" with
      | Some u =>
          Some (mk_unit (integer_member get_int32 u "unitId" (-1)) (string_member u "displayName" "")
                  (string_member u "quantity" "") (string_member u "displayName" ""))
      | None => None
      end
  end.

(** ** tcp_signal_rate_ticks *)

Section Ticks.
Context (to_uint64 : Z -> Z).

(** The 96-bit count of 2^-64 second intervals. *)
Definition ticks_2_64 (sec fraction sub_fraction : Z) : Z :=
  ((sec * 2 ^ 32) + fraction) * 2 ^ 32 + sub_fraction.

(** (ticks * denominator + half * samples) / (2^64 * samples * numerator),
    with half = 2^64 * numerator / (2 * denominator), truncated. *)
Definition ticks_quotient (ticks samples numerator denominator : Z) : Z :=
  (ticks * denominator * (2 * denominator) + 2 ^ 64 * numerator * samples)
  / (2 ^ 64 * samples * numerator * (2 * denominator)).

Definition tcp_signal_rate_ticks (numerator denominator : Z) (j : json) : result ticks_error Z :=
  if contains j "signalRate" then
    let signal_rate := field j "signalRate" in
    if is_object signal_rate then
      let get path fallback :=
        match json_ptr get_uint32 signal_rate path fallback with
        | Ok v => Ok v
        | Throw e => Throw (ticks_json e)
        end in
      sec <-? get ["delta"; "seconds"] 0 ;
      fraction <-? get ["delta"; "fraction"] 0 ;
      sub_fraction <-? get ["delta"; "subFraction"] 0 ;
      samples <-? get ["samples"] 1 ;
      if (denominator =? 0) || (samples * numerator =? 0) then Throw division_by_zero
      else Ok (to_uint64 (ticks_quotient (ticks_2_64 sec fraction sub_fraction)
                            samples numerator denominator))
    else Ok 0
  else Ok 0.
End Ticks.

(** ** struct_field and struct_field_dimension *)

(** The constructors print the value they are given, whatever they keep of it,
    and throw what [dump] throws. *)
Definition printed (j kept : json) : result json_exception json :=
  match dump j with
  | Ok _ => Ok kept
  | Throw e => Throw e
  end.

Definition object_or_empty (j : json) : json := if is_object j then j else jobj [].

Definition struct_field (j : json) : result json_exception json := printed j (object_or_empty j).
Definition struct_field_data_type (j : json) : string := string_member j "dataType" unknown_t.
Definition struct_field_name (j : json) : string := string_member j "name" "".
Definition struct_field_rule (j : json) : string := string_member j "rule" explicit_rule.

Definition struct_field_dimension (j : json) : result json_exception json := printed j (object_or_empty j).
Definition dimension_name (j : json) : string := string_member j "name" "".
Definition dimension_rule (j : json) : string := string_member j "rule" explicit_rule.

Definition dimension_linear_start_delta_size (j : json) : option Z * option Z * option Z :=
  if bool_decide (dimension_rule j <> linear_rule) then (None, None, None)
  else if contains j "linear" && is_object (field j "linear") then
    let l := field j "linear" in
    (number_int64 (value_null l "start"), number_int64 (value_null l "delta"),
     number_int64 (value_null l "size"))
  else (None, None, None).

(** ** The container-valued accessors *)

(** [emplace(key, value)] into a map of strings converts the value, and throws
    for the first one that is not a string. *)
Definition extra_metadata (j : json) : result json_exception (gmap string string) :=
  match sub_object j "interpretation" "metadata" with
  | Some m =>
      if bool_decide (map_Forall (fun _ v => is_string v = true) (members m))
      then Ok (string_of <$> members m) else Throw type_error
  | None => Ok ∅
  end.

(** [emplace_back] of each element, until a constructor throws. *)
Fixpoint emplace_all (construct : json -> result json_exception json) (l : list json)
    : result json_exception (list json) :=
  match l with
  | [] => Ok []
  | x :: l =>
      y <-? construct x ;
      rest <-? emplace_all construct l ;
      Ok (y :: rest)
  end.

Definition struct_fields (j : json) : result json_exception (list json) :=
  match sub j "definition" "struct" with
  | Some s => if is_array s then emplace_all struct_field (elements s) else Ok []
  | None => Ok []
  end.

Definition dimensions (j : json) : result json_exception (list json) :=
  if contains j "dimensions" && is_array (field j "dimensions")
  then emplace_all struct_field_dimension (elements (field j "dimensions")) else Ok [].

(** Everything is kept when all of it can be printed, and nothing otherwise. *)
Lemma emplace_all_printable l :
  (forall x, x ∈ l -> printable view x) ->
  emplace_all (fun x => printed x (object_or_empty x)) l = Ok (object_or_empty <$> l).
Proof.
  induction l as [|x l IH]; intros Hl; [done|]. cbn [emplace_all]. unfold printed at 1.
  destruct (printable_dump x) as [text ->]; [apply Hl; by left|].
  cbn [rbind]. rewrite IH by (intros y Hy; apply Hl; by right). done.
Qed.

Lemma emplace_all_unprintable l x :
  x ∈ l -> ~ printable view x ->
  emplace_all (fun x => printed x (object_or_empty x)) l = Throw type_error.
Proof.
  assert (He : forall y, printed y (object_or_empty y) = Ok (object_or_empty y) \/
    printed y (object_or_empty y) = Throw type_error).
  { intros y. unfold printed. destruct (dump y) as [text|e] eqn:E; [by left|].
    right. destruct (dump_law y) as [Hp Hn]. f_equal.
    assert (~ printable view y) as H by (intros H; destruct (Hp H) as [? ?]; congruence).
    specialize (Hn H). congruence. }
  intros Hx Hn. induction l as [|y l IH]; [by apply not_elem_of_nil in Hx|]. cbn [emplace_all].
  apply elem_of_cons in Hx as [<-|Hx].
  - unfold printed at 1. by rewrite unprintable_dump.
  - destruct (He y) as [->| ->]; [|done]. cbn [rbind]. by rewrite IH.
Qed.
End Metadata.

(** ** Properties *)

(** The tick count is the exact quotient rounded down, except when the
    exact value lies within 1/(2*denominator) of the next integer: the term
    added before the division is 1/(2*denominator) of a tick and not half a
    tick, so the count is not rounded to the nearest integer as the code's
    comment says. *)
Theorem ticks_rounding ticks samples numerator denominator :
  0 <= ticks -> 0 < samples -> 0 < numerator -> 0 < denominator ->
  let n := 2 ^ 64 * samples * numerator in
  let exact := ticks * denominator in
  ticks_quotient ticks samples numerator denominator
  = exact / n + (if 2 * denominator * (n - exact mod n) <=? n then 1 else 0).
Proof.
  intros Ht Hs Hn Hd n exact. unfold ticks_quotient. fold n.
  replace (2 ^ 64 * numerator * samples) with n by (unfold n; lia).
  replace (ticks * denominator * (2 * denominator)) with (exact * (2 * denominator)) by done.
  assert (Hn0 : 0 < n) by (unfold n; nia). clearbody n exact.
  pose proof (Z.div_mod exact n ltac:(lia)) as E. pose proof (Z.mod_pos_bound exact n Hn0) as Hm.
  set (q := exact / n) in *. set (r := exact mod n) in *.
  symmetry. apply Z.div_unique_pos with
    (r := r * (2 * denominator) + n
          - (if 2 * denominator * (n - r) <=? n then n * (2 * denominator) else 0)).
  - destruct (Z.leb_spec (2 * denominator * (n - r)) n); nia.
  - destruct (Z.leb_spec (2 * denominator * (n - r)) n); nia.
Qed.

Lemma ticks_rounding_witness :
  ticks_quotient (7 * 2 ^ 63) 2 1 1000000000 = 1750000000 /\
  ticks_quotient (ticks_2_64 0 7 0) 4 1 1000000000 = 0.
Proof.
  split; etrans; [apply (ticks_rounding (7 * 2 ^ 63) 2 1 1000000000)| |
    apply (ticks_rounding (ticks_2_64 0 7 0) 4 1 1000000000)|]; by vm_compute.
Defined.
