(* ===== verification/MetadataBuilder.v ===== *)
(** * Building metadata

    [src/metadata_builder.cpp], [src/struct_field_builder.cpp] and
    [src/dimension_builder.cpp].  A builder wraps one JSON value, so it is that
    value, and every operation returns the changed value.

    Contract: [settings] is the abstract state of a metadata builder; the
    operations refine the obvious updates of it, in the sense that every
    accessor of [Metadata] reads back the last value set; [struct_fields] throws
    when a field holds text that is not UTF-8. *)
From S2P Require Import Prelude Json Metadata.

Section Builder.
Context `{JL : JsonLib}.

(** The null that an empty brace initialiser denotes. *)
Definition brace_empty : json := jnull.

(** [j[a][k] = v] where [j[a]] is an object. *)
Definition set_sub (j : json) (a k : string) (v : json) : json :=
  set_field j a (set_field (field j a) k v).

(** ** dimension_builder *)

Definition dimension_builder (nm : string) : json :=
  jobj [("name", jstr nm); ("rule", jstr explicit_rule)].

Definition dimension_linear_rule (start delta size : Z) (d : json) : json :=
  set_field (set_field d "rule" (jstr linear_rule)) "linear"
    (jobj [("start", jint start); ("delta", jint delta); ("size", jint size)]).

(** ** struct_field_builder *)

Definition struct_field_builder (nm : string) : json :=
  jobj [("name", jstr nm); ("rule", jstr "explicit")].

Definition field_array (size : Z) (f : json) : json :=
  set_field f "dimensions"
    (jarr [jobj [("name", jstr "Dimension"); ("rule", jstr linear_rule);
                 (linear_rule, jobj [("delta", jint 0); ("size", jint size); ("start", jint 1)])]]).

Definition field_data_type (type : string) (f : json) : json := set_field f "dataType" (jstr type).

Definition field_dimension (dimension : json) (f : json) : json :=
  let f := if negb (contains f "dimensions") || is_array (field f "dimensions")
           then set_field f "dimensions" (jarr []) else f in
  set_field f "dimensions" (push_back (field f "dimensions") dimension).

(** ** metadata_builder *)

Definition metadata_builder (nm : string) : json :=
  jobj [("definition", jobj [("name", jstr nm); ("rule", jstr explicit_rule)]);
        ("interpretation",
          jobj [("sig_name", jstr nm); ("sig_desc", jstr ""); ("desc_name", jstr nm);
                ("rule", jobj [("type", jint 3); ("parameters", jnull)])]);
        ("valueIndex", jint 0)].

Definition metadata_builder_from_json (m : json) : json :=
  let m := if is_object m then m else jobj [] in
  let m := if negb (contains m "definition") || negb (is_object (field m "definition"))
           then set_field m "definition" (jobj []) else m in
  if negb (contains m "interpretation") || negb (is_object (field m "interpretation"))
  then set_field m "interpretation" (jobj []) else m.

Definition set_constant_rule (m : json) : json :=
  let m := set_sub m "definition" "rule" (jstr constant_rule) in
  let m := set_field m "definition" (erase (field m "definition") linear_rule) in
  set_sub m "interpretation" "rule" (jobj [("type", jint 2); ("parameters", brace_empty)]).

Definition set_data_type (type : string) (m : json) : json :=
  set_sub m "definition" "dataType" (jstr type).

Definition set_endian (e : string) (m : json) : json := set_sub m "definition" "endian" (jstr e).

Definition set_extra_metadata (key value : string) (m : json) : json :=
  let i := field m "interpretation" in
  let m := if negb (contains i "metadata") || negb (is_object (field i "metadata"))
           then set_sub m "interpretation" "metadata" (jobj []) else m in
  set_sub m "interpretation" "metadata"
    (set_field (field (field m "interpretation") "metadata") key (jstr value)).

Definition set_linear_rule (start delta : Z) (m : json) : json :=
  let m := set_sub m "definition" "rule" (jstr linear_rule) in
  let m := set_sub m "definition" linear_rule (jobj [("delta", jint delta)]) in
  let m := if start =? 0 then m
           else set_sub m "definition" linear_rule
                  (set_field (field (field m "definition") linear_rule) "start" (jint start)) in
  set_sub m "interpretation" "rule"
    (jobj [("type", jint 1); ("parameters", jobj [("delta", jint delta); ("start", jint start)])]).

Definition set_origin (o : string) (m : json) : json := set_sub m "interpretation" "origin" (jstr o).

Definition set_range (low high : double) (m : json) : json :=
  set_sub m "definition" "range" (jobj [("low", jfloat low); ("high", jfloat high)]).

Definition add_struct_field (f : json) (m : json) : json :=
  let d := field m "definition" in
  let m := if negb (contains d "struct") || negb (is_array (field d "struct"))
           then set_sub m "definition" "struct" (jarr []) else m in
  set_sub m "definition" "struct" (push_back (field (field m "definition") "struct") f).

Definition set_table (tid : string) (m : json) : json := set_field m "tableId" (jstr tid).

Definition set_tcp_signal_rate (rate : json) (m : json) : json := set_field m "signalRate" rate.

Definition set_tick_resolution (numerator denominator : Z) (m : json) : json :=
  set_sub m "definition" "resolution" (jobj [("num", jint numerator); ("denom", jint denominator)]).

Definition set_unit (uid : Z) (nm quantity symbol : string) (m : json) : json :=
  let m := set_sub m "definition" "unit"
    (jobj [("unitId", jint uid); ("quantity", jstr quantity); ("displayName", jstr symbol)]) in
  set_sub m "interpretation" "unit"
    (jobj [("id", jint uid); ("name", jstr nm); ("quantity", jstr quantity);
           ("symbol", jstr symbol)]).

Definition set_wss_unit (u : unit) (m : json) : json :=
  set_unit (id u) (unit_name u) (quantity u) (symbol u) m.

(** ** Operations and settings *)

Inductive operation : Type :=
| op_constant_rule
| op_data_type (type : string)
| op_endian (e : string)
| op_extra (key value : string)
| op_linear_rule (start delta : Z)
| op_origin (o : string)
| op_range (low high : double)
| op_struct_field (f : json)
| op_table (tid : string)
| op_signal_rate (rate : json)
| op_resolution (numerator denominator : Z)
| op_unit (u : unit).

Definition apply (o : operation) (m : json) : json :=
  match o with
  | op_constant_rule => set_constant_rule m
  | op_data_type type => set_data_type type m
  | op_endian e => set_endian e m
  | op_extra key value => set_extra_metadata key value m
  | op_linear_rule start delta => set_linear_rule start delta m
  | op_origin o => set_origin o m
  | op_range low high => set_range low high m
  | op_struct_field f => add_struct_field f m
  | op_table tid => set_table tid m
  | op_signal_rate rate => set_tcp_signal_rate rate m
  | op_resolution n d => set_tick_resolution n d m
  | op_unit u => set_wss_unit u m
  end.

(** Arguments within the types of the C++ parameters. *)
Definition in_type (o : operation) : Prop :=
  match o with
  | op_linear_rule start delta => in_s 64 start /\ in_s 64 delta
  | op_resolution n d => in_u 64 n /\ in_u 64 d
  | op_unit u => in_s 32 (id u)
  | _ => True
  end.

(** What has been set so far. *)
Record settings := mk_settings {
  s_name : string;
  s_rule : string;
  s_linear : option (Z * Z);
  s_type : option string;
  s_endian : option string;
  s_origin : option string;
  s_range : option (double * double);
  s_fields : option (list json);
  s_extra : option (gmap string string);
  s_table : option string;
  s_rate : option json;
  s_resolution : option (Z * Z);
  s_unit : option unit
}.

Definition initial (nm : string) : settings :=
  mk_settings nm explicit_rule None None None None None None None None None None None.

Definition update (o : operation) (s : settings) : settings :=
  let '(mk_settings nm r l t e og rg fs ex tb rt rs u) := s in
  match o with
  | op_constant_rule => mk_settings nm constant_rule None t e og rg fs ex tb rt rs u
  | op_data_type t => mk_settings nm r l (Some t) e og rg fs ex tb rt rs u
  | op_endian e => mk_settings nm r l t (Some e) og rg fs ex tb rt rs u
  | op_extra k v =>
      mk_settings nm r l t e og rg fs (Some (<[k := v]> (value_or ex ∅))) tb rt rs u
  | op_linear_rule start delta =>
      mk_settings nm linear_rule (Some (start, delta)) t e og rg fs ex tb rt rs u
  | op_origin og => mk_settings nm r l t e (Some og) rg fs ex tb rt rs u
  | op_range lo hi => mk_settings nm r l t e og (Some (lo, hi)) fs ex tb rt rs u
  | op_struct_field f => mk_settings nm r l t e og rg (Some (value_or fs [] ++ [f])) ex tb rt rs u
  | op_table tb => mk_settings nm r l t e og rg fs ex (Some tb) rt rs u
  | op_signal_rate rt => mk_settings nm r l t e og rg fs ex tb (Some rt) rs u
  | op_resolution n d => mk_settings nm r l t e og rg fs ex tb rt (Some (n, d)) u
  | op_unit u => mk_settings nm r l t e og rg fs ex tb rt rs (Some u)
  end.

Definition build (ops : list operation) (nm : string) : json :=
  fold_left (fun m o => apply o m) ops (metadata_builder nm).

Definition settle (ops : list operation) (nm : string) : settings :=
  fold_left (fun s o => update o s) ops (initial nm).
End Builder.

(** ** What a built value holds *)

Section Representation.
Context `{JL : JsonLib}.

Definition part (m : json) (a : string) : gmap string json := members (field m a).

Definition has_object (m : json) (a : string) : Prop :=
  contains m a = true /\ is_object (field m a) = true.

Lemma contains_lookup m k : contains m k = true <-> is_Some (members m !! k).
Proof. unfold contains. by rewrite bool_decide_eq_true. Qed.

Lemma sub_part m a k : has_object m a -> sub m a k = part m a !! k.
Proof.
  intros [Hc Ho]. unfold sub, part. rewrite Hc, Ho. cbn [andb].
  unfold contains. destruct (bool_decide_reflect (is_Some (members (field m a) !! k))) as [[v Hv]|Hn].
  - rewrite Hv. unfold field at 1. by rewrite Hv.
  - symmetry. by apply eq_None_not_Some.
Qed.

Lemma part_set_sub m a k v : part (set_sub m a k v) a = <[k := v]> (part m a).
Proof. unfold part, set_sub. by rewrite field_set_eq, members_set_field. Qed.

Lemma part_set_sub_ne m a b k v : a <> b -> part (set_sub m a k v) b = part m b.
Proof. intros. unfold part, set_sub. by rewrite field_set_ne. Qed.

Lemma part_set_field_ne m a b v : a <> b -> part (set_field m a v) b = part m b.
Proof. intros. unfold part. by rewrite field_set_ne. Qed.

Lemma part_set_field m a v : part (set_field m a v) a = members v.
Proof. unfold part. by rewrite field_set_eq. Qed.

Lemma has_object_set_field m a b v :
  (a = b -> is_object v = true) -> has_object m b -> has_object (set_field m a v) b.
Proof.
  intros Hv [Hc Ho]. unfold has_object. destruct (decide (a = b)) as [<-|Hne].
  - by rewrite contains_set_eq, field_set_eq, Hv.
  - by rewrite contains_set_ne, field_set_ne.
Qed.

Lemma has_object_set_sub m a b k v : has_object m b -> has_object (set_sub m a k v) b.
Proof. intros. apply has_object_set_field; [|done]. intros _. apply is_object_set_field. Qed.

Lemma members_set_sub_ne m a b k v : a <> b -> members (set_sub m a k v) !! b = members m !! b.
Proof. intros. unfold set_sub. by rewrite members_set_field, lookup_insert_ne. Qed.

Lemma part_erase m a k : part (set_field m a (erase (field m a) k)) a = delete k (part m a).
Proof. unfold part. by rewrite field_set_eq, members_erase. Qed.

(** [field m a] read through [part]. *)
Lemma field_part m a k : field (field m a) k = value_or (part m a !! k) jnull.
Proof. done. Qed.

(** What each setting leaves in the JSON value. *)
Record represents (s : settings) (m : json) : Prop := {
  r_definition : has_object m "definition";
  r_interpretation : has_object m "interpretation";
  r_name : part m "definition" !! "name" = Some (jstr (s_name s));
  r_rule : part m "definition" !! "rule" = Some (jstr (s_rule s));
  r_linear_rule : s_linear s = None -> s_rule s <> linear_rule;
  r_linear : forall start delta, s_linear s = Some (start, delta) ->
    exists v, part m "interpretation" !! "rule" = Some v /\ is_object v = true /\
      members v !! "parameters" = Some (jobj [("delta", jint delta); ("start", jint start)]) /\
      s_rule s = linear_rule;
  r_type : part m "definition" !! "dataType" = jstr <$> s_type s;
  r_endian : part m "definition" !! "endian" = jstr <$> s_endian s;
  r_no_origin : part m "definition" !! "origin" = None;
  r_origin : part m "interpretation" !! "origin" = jstr <$> s_origin s;
  r_range : part m "definition" !! "range"
    = (fun '(lo, hi) => jobj [("low", jfloat lo); ("high", jfloat hi)]) <$> s_range s;
  r_fields : match s_fields s with
    | Some fs => exists v, part m "definition" !! "struct" = Some v /\ is_array v = true /\
        elements v = fs
    | None => part m "definition" !! "struct" = None
    end;
  r_extra : match s_extra s with
    | Some ex => exists v, part m "interpretation" !! "metadata" = Some v /\ is_object v = true /\
        members v = jstr <$> ex
    | None => part m "interpretation" !! "metadata" = None
    end;
  r_table : members m !! "tableId" = jstr <$> s_table s;
  r_rate : members m !! "signalRate" = s_rate s;
  r_index : members m !! "valueIndex" = Some (jint 0);
  r_resolution : part m "definition" !! "resolution"
    = (fun '(n, d) => jobj [("num", jint n); ("denom", jint d)]) <$> s_resolution s;
  r_unit : part m "interpretation" !! "unit"
    = (fun u => jobj [("id", jint (id u)); ("name", jstr (unit_name u));
                      ("quantity", jstr (quantity u)); ("symbol", jstr (symbol u))]) <$> s_unit s;
  r_no_unit : s_unit s = None -> part m "definition" !! "unit" = None
}.

Lemma is_object_view j m : view j = JObject m -> is_object j = true.
Proof. unfold is_object. by intros ->. Qed.

Lemma represents_initial nm : represents (initial nm) (metadata_builder nm).
Proof.
  assert (Hd : field (metadata_builder nm) "definition"
    = jobj [("name", jstr nm); ("rule", jstr explicit_rule)]).
  { unfold field, metadata_builder. rewrite members_jobj. by simplify_map_eq. }
  assert (Hi : field (metadata_builder nm) "interpretation"
    = jobj [("sig_name", jstr nm); ("sig_desc", jstr ""); ("desc_name", jstr nm);
            ("rule", jobj [("type", jint 3); ("parameters", jnull)])]).
  { unfold field, metadata_builder. rewrite members_jobj. by simplify_map_eq. }
  assert (Hc : contains (metadata_builder nm) "definition" = true /\
    contains (metadata_builder nm) "interpretation" = true).
  { unfold metadata_builder. rewrite !contains_jobj. split; apply bool_decide_true;
      simplify_map_eq; eauto. }
  destruct Hc as [Hcd Hci].
  constructor; unfold has_object, part; rewrite ?Hd, ?Hi, ?Hcd, ?Hci, ?is_object_jobj, ?members_jobj;
    try done; try (by simplify_map_eq).
  all: unfold metadata_builder; rewrite members_jobj; by simplify_map_eq.
Qed.
End Representation.

(** ** Preservation *)

(** Reads through updates: which part, which key. *)
Ltac parts :=
  repeat first
    [ rewrite part_set_sub | rewrite part_set_sub_ne by done
    | rewrite part_set_field_ne by done | rewrite part_erase | rewrite part_set_field
    | rewrite members_set_sub_ne by done | rewrite members_set_field
    | rewrite members_erase | rewrite lookup_insert_eq | rewrite lookup_insert_ne by done
    | rewrite lookup_delete_eq | rewrite lookup_delete_ne by done ].

Ltac preserve :=
  cbn in *; parts; first [done | by eauto | by repeat apply has_object_set_sub].

Section Preservation.
Context `{JL : JsonLib}.

Lemma r_simple o s m :
  match o with
  | op_data_type _ | op_endian _ | op_origin _ | op_range _ _ | op_resolution _ _ => True
  | _ => False
  end -> represents s m -> represents (update o s) (apply o m).
Proof.
  intros Ho []. destruct s, o; try done; cbn [update apply];
    unfold set_data_type, set_endian, set_origin, set_range, set_tick_resolution;
    constructor; preserve.
Qed.

Lemma r_table_rate o s m :
  match o with op_table _ | op_signal_rate _ => True | _ => False end ->
  represents s m -> represents (update o s) (apply o m).
Proof.
  intros Ho []. destruct s, o; try done; cbn [update apply]; unfold set_table, set_tcp_signal_rate;
    constructor; try preserve; by apply has_object_set_field.
Qed.

Lemma r_set_unit u s m : represents s m -> represents (update (op_unit u) s) (apply (op_unit u) m).
Proof.
  intros []. destruct s; cbn [update apply]; unfold set_wss_unit, set_unit; constructor; preserve.
Qed.

Lemma r_constant s m :
  represents s m -> represents (update op_constant_rule s) (apply op_constant_rule m).
Proof.
  intros []. destruct s; cbn [update apply]; unfold set_constant_rule, linear_rule; constructor; try preserve.
  - apply has_object_set_sub, has_object_set_field; [|by apply has_object_set_sub].
    intros _. unfold is_object. by rewrite view_erase.
  - apply has_object_set_sub, has_object_set_field; [done|by apply has_object_set_sub].
Qed.

Lemma r_linear_start start delta s m :
  represents s m -> represents (update (op_linear_rule start delta) s) (apply (op_linear_rule start delta) m).
Proof.
  intros []. destruct s; cbn [update apply]; unfold set_linear_rule.
  destruct (start =? 0); constructor; try preserve.
  1,2: intros start' delta' Hl; injection Hl as <- <-; cbn [s_rule]; parts; eexists; split; [reflexivity|];
    rewrite is_object_jobj, members_jobj; split; [reflexivity|]; split; [|reflexivity];
    cbn [list_to_map foldr uncurry fst snd]; by rewrite lookup_insert_ne, lookup_insert_eq by done.
Qed.

Lemma r_add_field f s m :
  represents s m -> represents (update (op_struct_field f) s) (apply (op_struct_field f) m).
Proof.
  intros []. destruct s as [? ? ? ? ? ? ? fs ? ? ? ? ?]; cbn [update apply]; unfold add_struct_field.
  destruct (negb _ || _) eqn:E; constructor; try preserve; cbn.
  - parts. eexists. split; [reflexivity|]. cbn in r_fields0.
    assert (value_or fs [] = []) as ->.
    { destruct fs as [fs|]; [|done]. destruct r_fields0 as (v & Hv & Hva & <-). exfalso.
      rewrite field_part, Hv in E. cbn in E. rewrite Hva, orb_false_r in E.
      apply negb_true_iff, not_true_iff_false in E. apply E, contains_lookup. fold (part m "definition").
      rewrite Hv. eauto. }
    split; [unfold is_array; by rewrite view_push_back|].
    rewrite elements_push_back, field_part. parts. cbn. by rewrite elements_jarr.
  - apply orb_false_iff in E as [Hc Ha]. apply negb_false_iff, contains_lookup in Hc.
    fold (part m "definition") in Hc. destruct Hc as [v Hv]. cbn in r_fields0.
    destruct fs as [fs|]; [|congruence]. destruct r_fields0 as (v' & Hv' & Hva & <-).
    parts. eexists. split; [reflexivity|]. split; [unfold is_array; by rewrite view_push_back|].
    rewrite elements_push_back, field_part, Hv'. done.
Qed.

Lemma r_add_extra k x s m :
  represents s m -> represents (update (op_extra k x) s) (apply (op_extra k x) m).
Proof.
  intros []. destruct s as [? ? ? ? ? ? ? ? ex ? ? ? ?]; cbn [update apply]; unfold set_extra_metadata.
  destruct (negb _ || _) eqn:E; constructor; try preserve; cbn.
  - parts. eexists. split; [reflexivity|]. cbn in r_extra0.
    assert (value_or ex ∅ = ∅) as ->.
    { destruct ex as [ex|]; [|done]. destruct r_extra0 as (v & Hv & Hva & _). exfalso.
      rewrite field_part, Hv in E. cbn in E. rewrite Hva, orb_false_r in E.
      apply negb_true_iff, not_true_iff_false in E. apply E, contains_lookup.
      fold (part m "interpretation"). rewrite Hv. eauto. }
    split; [apply is_object_set_field|].
    rewrite members_set_field, field_part. parts. cbn. rewrite members_jobj, fmap_insert, fmap_empty.
    done.
  - apply orb_false_iff in E as [Hc Ha]. apply negb_false_iff, contains_lookup in Hc.
    fold (part m "interpretation") in Hc. destruct Hc as [v Hv]. cbn in r_extra0.
    destruct ex as [ex|]; [|congruence]. destruct r_extra0 as (v' & Hv' & Hva & Hm).
    parts. eexists. split; [reflexivity|]. split; [apply is_object_set_field|].
    rewrite members_set_field, field_part, Hv'. cbn [value_or]. by rewrite Hm, fmap_insert.
Qed.

Lemma represents_apply o s m : represents s m -> represents (update o s) (apply o m).
Proof.
  destruct o; first [by apply r_constant|by apply r_linear_start|by apply r_add_field
    |by apply r_add_extra|by apply r_set_unit|by apply r_table_rate|by apply r_simple].
Qed.

Lemma represents_build ops nm : represents (settle ops nm) (build ops nm).
Proof.
  unfold settle, build. generalize (represents_initial nm).
  generalize (initial nm) as s, (metadata_builder nm) as m.
  induction ops as [|o ops IH]; intros s m H; cbn; [done|]. by apply IH, represents_apply.
Qed.
End Preservation.

(** Settings within the types of the accessors. *)
Definition settings_in_type {JL : JsonLib} (s : settings) : Prop :=
  (forall a b, s_linear s = Some (a, b) -> in_s 64 a /\ in_s 64 b) /\
  (forall n d, s_resolution s = Some (n, d) -> in_u 64 n /\ in_u 64 d) /\
  (forall u, s_unit s = Some u -> in_s 32 (id u)).

Section Accessors.
Context `{JL : JsonLib}.

Lemma settle_in_type ops nm : Forall in_type ops -> settings_in_type (settle ops nm).
Proof.
  unfold settle. intros Hops.
  assert (H0 : settings_in_type (initial nm)) by (split_and!; intros; done).
  revert H0. generalize (initial nm) as s. induction Hops as [|o ops Ho _ IH]; intros s Hs; cbn; [done|].
  apply IH. destruct s, Hs as (H1 & H2 & H3), o; split_and!; cbn in *; intros; simplify_eq; eauto.
Qed.

Lemma number_int64_jint z : in_s 64 z -> number_int64 (jint z) = Some z.
Proof.
  intros. unfold number_int64, is_number, get_int64. rewrite view_jint.
  by rewrite swrap_small by (done || lia).
Qed.

Lemma sub_string_part m a k s :
  has_object m a -> part m a !! k = jstr <$> s -> sub_string m a k = s.
Proof.
  intros Ho Hp. unfold sub_string. rewrite sub_part, Hp by done.
  destruct s as [s|]; [|done]. cbn. by rewrite is_string_jstr, string_of_jstr.
Qed.

Lemma sub_object_part m a k l :
  has_object m a -> part m a !! k = jobj <$> l -> sub_object m a k = jobj <$> l.
Proof.
  intros Ho Hp. unfold sub_object. rewrite sub_part, Hp by done.
  destruct l as [l|]; [|done]. cbn. by rewrite is_object_jobj.
Qed.

Lemma field_jobj l k v : (list_to_map l : gmap string json) !! k = Some v ->
  field (jobj l) k = v /\ contains (jobj l) k = true.
Proof.
  intros Hk. unfold field. rewrite contains_jobj, members_jobj, Hk.
  split; [done|]. apply bool_decide_true. eauto.
Qed.

(** Members of a literal object, found by evaluation of the keys. *)
Ltac literal :=
  match goal with
  | |- context [field (jobj ?l) ?k] =>
      let H := fresh in let H' := fresh in
      edestruct (field_jobj l k) as [H H'];
        [cbn [list_to_map foldr uncurry fst snd];
         repeat first [rewrite lookup_insert_eq; reflexivity | rewrite lookup_insert_ne by done]
        |rewrite ?H, ?H'; clear H H']
  end.

Lemma read_linear s m : represents s m -> settings_in_type s ->
  rule m = s_rule s ->
  linear_start_delta m
  = match s_linear s with Some (a, b) => (Some a, Some b) | None => (None, None) end.
Proof.
  intros [] (Hl & _) Hr. unfold linear_start_delta. rewrite Hr.
  destruct (s_linear s) as [[a b]|] eqn:E.
  - destruct (r_linear0 a b eq_refl) as (v & Hv & Hvo & Hm & ->).
    destruct (Hl a b eq_refl) as [Ha Hb].
    rewrite bool_decide_true by done. unfold sub_object. rewrite sub_part, Hv, Hvo by done.
    assert (Hf : field v "parameters" = jobj [("delta", jint b); ("start", jint a)]).
    { unfold field. by rewrite Hm. }
    assert (Hc : contains v "parameters" = true) by (apply contains_lookup; eauto).
    rewrite Hc, Hf, is_object_jobj. cbn [andb]. unfold value_null.
    do 2 literal. by rewrite !number_int64_jint.
  - rewrite bool_decide_false by auto. done.
Qed.

Lemma integer_member_jobj get l k z fb :
  (list_to_map l : gmap string json) !! k = Some (jint z) -> get (jint z) = Ok z ->
  integer_member get (jobj l) k fb = z.
Proof.
  intros Hk Hg. destruct (field_jobj l k _ Hk) as [Hf Hc]. unfold integer_member.
  rewrite Hc, Hf. unfold is_number_integer. rewrite view_jint. cbn [andb]. by rewrite Hg.
Qed.

Lemma string_member_jobj l k s fb :
  (list_to_map l : gmap string json) !! k = Some (jstr s) -> string_member (jobj l) k fb = s.
Proof.
  intros Hk. destruct (field_jobj l k _ Hk) as [Hf Hc]. unfold string_member.
  by rewrite Hc, Hf, is_string_jstr, string_of_jstr.
Qed.

Ltac lookup_literal :=
  cbn [list_to_map foldr uncurry fst snd];
  repeat first [rewrite lookup_insert_eq; reflexivity | rewrite lookup_insert_ne by done].

Lemma read_unit s m : represents s m -> settings_in_type s -> get_unit m = s_unit s.
Proof.
  intros [] (_ & _ & Hu). unfold get_unit. destruct (s_unit s) as [u|] eqn:E.
  - rewrite (sub_object_part _ _ _ (Some _) r_interpretation0 r_unit0). cbn [fmap option_fmap option_map].
    specialize (Hu u eq_refl).
    rewrite (integer_member_jobj get_int32 _ "id" (id u)).
    + rewrite !(string_member_jobj _ _ (unit_name u)) by lookup_literal.
      rewrite !(string_member_jobj _ _ (quantity u)) by lookup_literal.
      rewrite !(string_member_jobj _ _ (symbol u)) by lookup_literal. by destruct u.
    + lookup_literal.
    + unfold get_int32. rewrite view_jint. by rewrite swrap_small by (done || lia).
  - rewrite (sub_object_part _ _ _ None r_interpretation0 r_unit0).
    by rewrite (sub_object_part _ _ _ None r_definition0 (r_no_unit0 eq_refl)).
Qed.

Lemma read_resolution s m : represents s m -> settings_in_type s -> tick_resolution m = s_resolution s.
Proof.
  intros [] (_ & Hn & _). unfold tick_resolution. destruct (s_resolution s) as [[n d]|] eqn:E.
  - rewrite (sub_object_part _ _ _ (Some _) r_definition0 r_resolution0).
    cbn [fmap option_fmap option_map]. destruct (Hn n d eq_refl) as [Hn' Hd].
    rewrite (integer_member_jobj get_uint64 _ "num" n); [|lookup_literal|].
    + rewrite (integer_member_jobj get_uint64 _ "denom" d); [done|lookup_literal|].
      unfold get_uint64. rewrite view_jint. by rewrite wrap_small.
    + unfold get_uint64. rewrite view_jint. by rewrite wrap_small.
  - by rewrite (sub_object_part _ _ _ None r_definition0 r_resolution0).
Qed.

Lemma read_range s m : represents s m -> range m = s_range s.
Proof.
  intros []. unfold range. destruct (s_range s) as [[lo hi]|] eqn:E.
  - rewrite (sub_object_part _ _ _ (Some _) r_definition0 r_range0). cbn [fmap option_fmap option_map].
    do 2 literal. unfold is_number, get_double. by rewrite !view_jfloat.
  - by rewrite (sub_object_part _ _ _ None r_definition0 r_range0).
Qed.
(** The size of a sample that the settings describe. *)
Definition settled_size (s : settings) : Z :=
  let type := value_or (s_type s) unknown_t in
  if bool_decide (type = struct_t)
  then fold_left (fun n f => u64 (n + field_size f)) (value_or (s_fields s) []) 0
  else get_primitive_size type.

Lemma read_sample_size s m : represents s m -> sample_size m = settled_size s.
Proof.
  intros []. unfold sample_size, settled_size, data_type. rewrite (sub_string_part _ _ _ _ r_definition0 r_type0).
  case_bool_decide as Ht.
  - rewrite Ht. change (get_primitive_size struct_t) with 0. cbn [Z.eqb andb].
    rewrite sub_part by done. destruct (s_fields s) as [fs|].
    + by destruct r_fields0 as (v & -> & -> & ->).
    + by rewrite r_fields0.
  - by rewrite andb_false_r.
Qed.

(** A signal rate as direct TCP devices send it. *)
Definition signal_rate (sec fraction sub_fraction samples : Z) : json :=
  jobj [("delta", jobj [("seconds", jint sec); ("fraction", jint fraction); ("subFraction", jint sub_fraction)]);
        ("samples", jint samples)].

Lemma json_ptr_uint32 j path z fallback :
  is_object j = true -> resolve j path = Ok (jint z) -> in_u 32 z -> json_ptr get_uint32 j path fallback = Ok z.
Proof.
  intros Ho Hr Hz. unfold json_ptr, value_at. rewrite Ho, Hr. cbn [rbind]. unfold get_uint32.
  rewrite view_jint. by rewrite wrap_small.
Qed.

Lemma read_signal_rate to_uint64 n d sec fraction sub_fraction samples m :
  Forall (in_u 32) [sec; fraction; sub_fraction; samples] -> 0 < samples -> 0 < n -> 0 < d ->
  members m !! "signalRate" = Some (signal_rate sec fraction sub_fraction samples) ->
  tcp_signal_rate_ticks to_uint64 n d m
  = Ok (to_uint64 (ticks_quotient (ticks_2_64 sec fraction sub_fraction) samples n d)).
Proof.
  rewrite !Forall_cons. intros (H1 & H2 & H3 & H4 & _) Hs Hn Hd Hm. unfold tcp_signal_rate_ticks.
  assert (Hc : contains m "signalRate" = true) by (apply contains_lookup; eauto).
  assert (Hf : field m "signalRate" = signal_rate sec fraction sub_fraction samples) by (unfold field; by rewrite Hm).
  assert (Ho : is_object (signal_rate sec fraction sub_fraction samples) = true) by apply is_object_jobj.
  rewrite Hc, Hf, Ho. cbn zeta.
  rewrite (json_ptr_uint32 _ _ sec), (json_ptr_uint32 _ _ fraction), (json_ptr_uint32 _ _ sub_fraction),
    (json_ptr_uint32 _ _ samples); try done.
  2-5: unfold signal_rate; cbn [resolve]; rewrite view_jobj;
    repeat first [rewrite lookup_insert_eq | rewrite lookup_insert_ne by done | progress cbn [list_to_map foldr uncurry fst snd resolve]
                 | rewrite view_jobj]; done.
  cbn [rbind]. rewrite (proj2 (Z.eqb_neq d 0)), (proj2 (Z.eqb_neq (samples * n) 0)) by nia. done.
Qed.
End Accessors.

(** ** Properties *)

(** What the accessors read of a built value. *)
Lemma built_reads `{JL : JsonLib} nm ops :
  Forall in_type ops ->
  let m := metadata (build ops nm) in let s := settle ops nm in
  name m = s_name s /\ rule m = s_rule s /\
  data_type m = value_or (s_type s) unknown_t /\
  endian m = value_or (s_endian s) endian_unknown /\
  origin m = value_or (s_origin s) "" /\
  linear_start_delta m
  = match s_linear s with Some (a, b) => (Some a, Some b) | None => (None, None) end /\
  range m = s_range s /\ tick_resolution m = s_resolution s /\ get_unit m = s_unit s /\
  table_id m = value_or (s_table s) "" /\ value_index m = Some 0 /\
  struct_fields m = emplace_all struct_field (value_or (s_fields s) []) /\
  extra_metadata m = Ok (value_or (s_extra s) ∅) /\
  sample_size m = settled_size s /\ members m !! "signalRate" = s_rate s.
Proof.
  intros Hops m s. pose proof (represents_build ops nm) as Hr. fold s in Hr.
  pose proof (settle_in_type ops nm Hops) as Hs. fold s in Hs.
  assert (Hm : m = build ops nm).
  { unfold m, metadata. destruct (r_definition _ _ Hr) as [Hc%contains_is_object _]. by rewrite Hc. }
  rewrite <- Hm in Hr. clearbody m s. clear Hm Hops ops nm.
  assert (Hrule : rule m = s_rule s).
  { unfold rule. by rewrite (sub_string_part _ _ _ (Some _) (r_definition _ _ Hr) (r_rule _ _ Hr)). }
  pose proof (read_linear s m Hr Hs Hrule). pose proof (read_unit s m Hr Hs).
  pose proof (read_resolution s m Hr Hs). pose proof (read_range s m Hr). pose proof (read_sample_size s m Hr).
  destruct Hr. split_and!; try done.
  - unfold name. by rewrite (sub_string_part _ _ _ (Some _) r_definition0 r_name0).
  - unfold data_type. by rewrite (sub_string_part _ _ _ _ r_definition0 r_type0).
  - unfold endian. by rewrite (sub_string_part _ _ _ _ r_definition0 r_endian0).
  - unfold origin. rewrite (sub_string_part _ _ _ None r_definition0 r_no_origin0).
    by rewrite (sub_string_part _ _ _ _ r_interpretation0 r_origin0).
  - unfold table_id, value_null, field. rewrite r_table0. destruct (s_table s); cbn.
    + by rewrite is_string_jstr, string_of_jstr.
    + unfold is_string. by rewrite view_jnull.
  - unfold value_index, value_null, field. rewrite r_index0. cbn.
    unfold is_number_integer, get_int64. by rewrite view_jint.
  - unfold struct_fields. rewrite sub_part by done. destruct (s_fields s) as [fs|].
    + destruct r_fields0 as (v & -> & -> & <-). done.
    + by rewrite r_fields0.
  - unfold extra_metadata, sub_object. rewrite sub_part by done. destruct (s_extra s) as [ex|].
    + destruct r_extra0 as (v & -> & -> & Hv). rewrite Hv, bool_decide_true.
      * f_equal. rewrite <- map_fmap_compose. apply map_eq. intros k. rewrite lookup_fmap.
        cbn [value_or]. destruct (ex !! k); [|done]. cbn. by rewrite string_of_jstr.
      * intros k j. rewrite lookup_fmap. destruct (ex !! k); [|done]. cbn. intros [= <-].
        apply is_string_jstr.
    + by rewrite r_extra0.
Qed.

(** C28: metadata built by any sequence of builder calls reads back, through
    every accessor of [metadata], the last value set for each property (all
    fields and extra entries, in order, for the collections), and its default
    where none was set.  The sample size is that of the data type set, or for a
    structure what its fields add up to.  A signal rate of the form
    direct TCP devices send reads back as the tick count of that rate, and
    without one the count is 0.  The elements of [struct_fields] print what they
    are made from: it gives the fields when all their text is UTF-8 and throws a
    [type_error] when a field holds other text. *)
Theorem builder_roundtrip `{JL : JsonLib} to_uint64 nm ops :
  Forall in_type ops ->
  let m := metadata (build ops nm) in let s := settle ops nm in let fields := value_or (s_fields s) [] in
  name m = s_name s /\ rule m = s_rule s /\
  data_type m = value_or (s_type s) unknown_t /\
  endian m = value_or (s_endian s) endian_unknown /\
  origin m = value_or (s_origin s) "" /\
  linear_start_delta m
  = match s_linear s with Some (a, b) => (Some a, Some b) | None => (None, None) end /\
  range m = s_range s /\ tick_resolution m = s_resolution s /\ get_unit m = s_unit s /\
  table_id m = value_or (s_table s) "" /\ value_index m = Some 0 /\
  extra_metadata m = Ok (value_or (s_extra s) ∅) /\
  sample_size m = settled_size s /\
  ((forall f, f ∈ fields -> printable view f) ->
     struct_fields m = Ok (object_or_empty <$> fields)) /\
  (forall f, f ∈ fields -> ~ printable view f -> struct_fields m = Throw type_error) /\
  (forall n d, s_rate s = None -> tcp_signal_rate_ticks to_uint64 n d m = Ok 0) /\
  (forall n d sec fraction sub_fraction samples,
     Forall (in_u 32) [sec; fraction; sub_fraction; samples] -> 0 < samples -> 0 < n -> 0 < d ->
     s_rate s = Some (signal_rate sec fraction sub_fraction samples) ->
     tcp_signal_rate_ticks to_uint64 n d m
     = Ok (to_uint64 (ticks_quotient (ticks_2_64 sec fraction sub_fraction) samples n d))).
Proof.
  intros Hops m s fields.
  destruct (built_reads nm ops Hops) as (? & ? & ? & ? & ? & ? & ? & ? & ? & ? & ? & Hf & ? & ? & Hr).
  fold m in Hf, Hr. fold s in Hf, Hr. fold fields in Hf. split_and!; try done.
  - intros Hp. rewrite Hf. by apply emplace_all_printable.
  - intros f Hin Hn. rewrite Hf. by apply (emplace_all_unprintable fields f).
  - intros n d Hn. unfold tcp_signal_rate_ticks, contains. by rewrite Hr, Hn.
  - intros n d sec fraction sub_fraction samples Hin Hs Hn Hd Hrate.
    rewrite <- Hr in Hrate. exact (read_signal_rate to_uint64 n d sec fraction sub_fraction samples m Hin Hs Hn Hd Hrate).
Qed.

Lemma builder_roundtrip_witness :
  let m := @metadata jv_json (@build jv_json
    [@op_linear_rule jv_json 5 10; @op_data_type jv_json int64_t; @op_unit jv_json seconds;
     @op_linear_rule jv_json 0 7; @op_table jv_json "t"; @op_signal_rate jv_json (@signal_rate jv_json 0 2147483648 0 5)] "time") in
  @rule jv_json m = linear_rule /\ @linear_start_delta jv_json m = (Some 0, Some 7) /\
  @get_unit jv_json m = Some seconds /\
  @tcp_signal_rate_ticks jv_json Datatypes.id 1 1000000000 m = Ok 100000000.
Proof.
  destruct (@builder_roundtrip jv_json Datatypes.id "time"
    [@op_linear_rule jv_json 5 10; @op_data_type jv_json int64_t; @op_unit jv_json seconds;
     @op_linear_rule jv_json 0 7; @op_table jv_json "t"; @op_signal_rate jv_json (@signal_rate jv_json 0 2147483648 0 5)])
    as (_ & Hr & _ & _ & _ & Hl & _ & _ & Hu & _ & _ & _ & _ & _ & _ & _ & Ht).
  - repeat apply Forall_cons_2; try apply Forall_nil_2; try done; cbn; unfold in_s; lia.
  - split; [exact Hr|]. split; [exact Hl|]. split; [exact Hu|].
    rewrite (Ht 1 1000000000 0 2147483648 0 5); [by vm_compute| |done..|by vm_compute].
    rewrite !Forall_cons. unfold in_u. split_and!; try lia. apply Forall_nil_2.
Defined.

(** Text that is not UTF-8 in one field is enough for [struct_fields] to throw,
    whoever sent it: metadata of a remote signal included. *)
Theorem struct_fields_throw `{JL : JsonLib} m s f :
  sub m "definition" "struct" = Some s -> is_array s = true -> f ∈ elements s ->
  ~ printable view f -> struct_fields m = Throw type_error.
Proof.
  intros Hs Ha Hf Hn. unfold struct_fields. rewrite Hs, Ha. by apply (emplace_all_unprintable _ f).
Qed.

(** [dimension] keeps only the dimension added last: an existing array of
    dimensions is replaced by an empty one before each addition, although the
    function is documented to add a dimension. *)
Theorem dimension_keeps_last `{JL : JsonLib} d1 d2 f :
  is_object f = true ->
  dimensions (field_dimension d2 (field_dimension d1 f)) = emplace_all struct_field_dimension [d2].
Proof.
  intros Hf. unfold field_dimension at 1.
  set (g := field_dimension d1 f).
  assert (Hg : is_array (field g "dimensions") = true).
  { unfold g, field_dimension. rewrite field_set_eq. unfold is_array. by rewrite view_push_back. }
  rewrite Hg, orb_true_r. unfold dimensions. rewrite contains_set_eq, !field_set_eq.
  unfold is_array. rewrite view_push_back. cbn [andb].
  rewrite elements_push_back, elements_jarr. done.
Qed.

Lemma dimension_keeps_last_witness :
  @dimensions jv_json (@field_dimension jv_json (@dimension_builder jv_json "b")
    (@field_dimension jv_json (@dimension_builder jv_json "a") (@struct_field_builder jv_json "f")))
  = Ok [@dimension_builder jv_json "b"].
Proof.
  etrans; [apply (@dimension_keeps_last jv_json)|]; by vm_compute.
Defined.

(** The size of one sample of a struct field made by the builders: a data type
    and, for arrays, a number of elements. *)
Definition built_field `{JL : JsonLib} (f : string * string * option Z) : json :=
  let '(nm, type, size) := f in
  let b := field_data_type type (struct_field_builder nm) in
  match size with Some n => field_array n b | None => b end.

Lemma built_field_object `{JL : JsonLib} f : object_or_empty (built_field f) = built_field f.
Proof.
  destruct f as [[nm type] size]. unfold object_or_empty. cbn [built_field].
  by destruct size; unfold field_array, field_data_type; rewrite is_object_set_field.
Qed.

Lemma printable_built `{JL : JsonLib} nm type size :
  utf8_text nm = true -> utf8_text type = true -> printable view (built_field (nm, type, size)).
Proof.
  intros Hn Ht. cbn [built_field].
  unfold field_array, field_data_type, struct_field_builder. destruct size as [n|]; print_literal.
Qed.

Definition built_size (f : string * string * option Z) : Z :=
  let '(_, type, size) := f in get_primitive_size type * value_or size 1.

Lemma primitive_size_range type : 0 <= get_primitive_size type <= 8.
Proof. unfold get_primitive_size. repeat case_bool_decide; lia. Qed.

Lemma field_size_built `{JL : JsonLib} f :
  in_u 64 (value_or f.2 1) -> in_u 64 (built_size f) -> field_size (built_field f) = built_size f.
Proof.
  destruct f as [[nm type] size]. cbn [snd]. intros Hn Hs. unfold field_size, built_size in *.
  set (b := field_data_type type (struct_field_builder nm)).
  assert (Hb : is_object b = true /\ contains b "dataType" = true /\ field b "dataType" = jstr type /\
    contains b "dimensions" = false).
  { unfold b, field_data_type. rewrite is_object_set_field, contains_set_eq, field_set_eq,
      contains_set_ne by done. split_and!; try done.
    unfold struct_field_builder. rewrite contains_jobj. apply bool_decide_false.
    cbn [list_to_map foldr uncurry fst snd]. rewrite !lookup_insert_ne, lookup_empty by done.
    by intros []. }
  destruct Hb as (H1 & H2 & H3 & H4). destruct size as [n|]; cbn [built_field value_or] in *; fold b.
  - unfold field_array. rewrite is_object_set_field, contains_set_ne, field_set_ne, H2, H3 by done.
    rewrite is_string_jstr, contains_set_eq, field_set_eq, string_of_jstr, elements_jarr. cbn [andb].
    unfold is_array. rewrite view_jarr.
    set (lin := jobj [("delta", jint 0); ("size", jint n); ("start", jint 1)]).
    destruct (field_jobj [("name", jstr "Dimension"); ("rule", jstr linear_rule); (linear_rule, lin)]
      "linear" lin) as [-> ->].
    { unfold linear_rule. cbn [list_to_map foldr uncurry fst snd].
      rewrite !lookup_insert_ne, lookup_insert_eq by done. done. }
    rewrite !is_object_jobj. cbn [andb]. unfold lin.
    rewrite (integer_member_jobj get_uint64 _ "size" n).
    + rewrite is_object_jobj. by rewrite wrap_small.
    + cbn [list_to_map foldr uncurry fst snd]. rewrite lookup_insert_ne by done. by rewrite lookup_insert_eq.
    + unfold get_uint64. rewrite view_jint. by rewrite wrap_small.
  - rewrite H1, H2, H3, H4, is_string_jstr, string_of_jstr. cbn [andb]. lia.
Qed.

(** The sizes of the fields of a structure add up. *)
Lemma built_sizes `{JL : JsonLib} fs : forall z,
  0 <= z -> Forall (fun f => in_u 64 (value_or f.2 1)) fs ->
  z + foldr (fun f n => built_size f + n) 0 fs < 2 ^ 64 ->
  fold_left (fun n f => u64 (n + field_size f)) (built_field <$> fs) z
  = z + foldr (fun f n => built_size f + n) 0 fs.
Proof.
  assert (Hsize : forall f, in_u 64 (value_or f.2 1) -> 0 <= built_size f).
  { intros [[a t] sz] Hf. cbn in *. pose proof (primitive_size_range t). unfold in_u in Hf. nia. }
  assert (Hnn : forall gs, Forall (fun f => in_u 64 (value_or f.2 1)) gs -> 0 <= foldr (fun f n => built_size f + n) 0 gs).
  { induction 1 as [|g gs Hg _ IHg]; cbn [foldr]; [lia|]. specialize (Hsize g Hg). lia. }
  induction fs as [|f fs IH]; intros z Hz Hfs Hlt; cbn [fmap list_fmap fold_left foldr] in *; [lia|].
  apply Forall_cons in Hfs as [Hf Hfs]. pose proof (Hnn fs Hfs). pose proof (Hsize f Hf).
  rewrite field_size_built by (done || (unfold in_u; lia)). rewrite wrap_small by (unfold in_u; lia).
  fold (fmap (M := list) built_field fs). rewrite IH by (done || lia). lia.
Qed.

Lemma settled_sample_size `{JL : JsonLib} nm ops fields :
  s_type (settle ops nm) = Some struct_t ->
  s_fields (settle ops nm) = match fields with [] => None | _ => Some (built_field <$> fields) end ->
  Forall (fun f => in_u 64 (value_or f.2 1)) fields ->
  in_u 64 (foldr (fun f n => built_size f + n) 0 fields) ->
  sample_size (build ops nm) = foldr (fun f n => built_size f + n) 0 fields.
Proof.
  intros Ht Hfs Hf Hsum. pose proof (represents_build ops nm) as []. set (m := build ops nm) in *.
  rewrite Ht in r_type0. rewrite Hfs in r_fields0. unfold sample_size, data_type.
  rewrite (sub_string_part _ _ _ (Some _) r_definition0 r_type0). cbn [value_or].
  change (get_primitive_size struct_t) with 0. rewrite bool_decide_true by done. cbn [Z.eqb andb].
  rewrite sub_part by done. destruct fields as [|f fields]; [by rewrite r_fields0|].
  destruct r_fields0 as (v & -> & -> & ->). apply (built_sizes (f :: fields) 0); [lia|done|].
  unfold in_u in Hsum. lia.
Qed.

(** The sample size of metadata built for a structure is the sum, over its
    fields in order, of the size of the field's primitive type times its number
    of elements, provided the total fits in a [std::size_t]. *)
Theorem struct_sample_size `{JL : JsonLib} nm fields :
  Forall (fun f => in_u 64 (value_or f.2 1)) fields ->
  in_u 64 (foldr (fun f n => built_size f + n) 0 fields) ->
  sample_size (build (op_data_type struct_t :: ((fun f => op_struct_field (built_field f)) <$> fields)) nm)
  = foldr (fun f n => built_size f + n) 0 fields.
Proof.
  intros Hf Hsum.
  assert (H : forall fs s, s_type (fold_left (fun s o => update o s)
      ((fun f => op_struct_field (built_field f)) <$> fs) s) = s_type s /\
    s_fields (fold_left (fun s o => update o s) ((fun f => op_struct_field (built_field f)) <$> fs) s)
    = match fs with [] => s_fields s | _ => Some (value_or (s_fields s) [] ++ (built_field <$> fs)) end).
  { induction fs as [|f fs IH]; intros s; [done|]. cbn [fmap list_fmap fold_left].
    destruct (IH (update (op_struct_field (built_field f)) s)) as [E1 E2].
    change (list_fmap _ _ (fun f => op_struct_field (built_field f)) fs)
      with ((fun f => op_struct_field (built_field f)) <$> fs). rewrite E1, E2.
    destruct s, fs; cbn; [done|]. by rewrite <- app_assoc. }
  destruct (H fields (update (op_data_type struct_t) (initial nm))) as [Ht Hfs].
  apply settled_sample_size; unfold settle; cbn [fold_left]; try done.
Qed.

Lemma struct_sample_size_witness :
  @sample_size jv_json (@build jv_json
    [@op_data_type jv_json struct_t; @op_struct_field jv_json (@built_field jv_json ("a", int32_t, None));
     @op_struct_field jv_json (@built_field jv_json ("b", real64_t, Some 3))] "s") = 28.
Proof.
  apply (@struct_sample_size jv_json "s" [("a", int32_t, None); ("b", real64_t, Some 3)]).
  - repeat apply Forall_cons_2; [by vm_compute..|apply Forall_nil_2].
  - by vm_compute.
Defined.
