(* ===== verification/BuilderTypes.v ===== *)
(** * The builders never meet a JSON value of the wrong type

    [MetadataBuilder] reads the builders' statements as total updates.  The JSON
    library is stricter: [operator[]] with a key accepts an object or a null,
    [push_back] an array or a null, and [erase] an object; everything else is a
    [type_error].  This file runs the same operations statement by statement
    with those checks ([operate] for [metadata_builder], [field_operate] for
    [struct_field_builder]) and shows that a well-typed value makes every
    operation return, that the value it returns is well typed, and that it is
    the value of the total reading.  [metadata_builder_from_json] makes any JSON
    value well typed. *)
From S2P Require Import Prelude Json Metadata MetadataBuilder.

(** ** The checked accesses of the JSON library *)

Section Checked.
Context `{JL : JsonLib}.

(** [j[k]] of a value that is not constant: a null becomes an object, a
    missing member a null. *)
Definition subscript (j : json) (k : string) : result json_exception json :=
  if is_object j || is_null j then Ok (field j k) else Throw type_error.

Definition checked_erase (k : string) (j : json) : result json_exception json :=
  if is_object j then Ok (erase j k) else Throw type_error.

Definition checked_push_back (v j : json) : result json_exception json :=
  if is_array j || is_null j then Ok (push_back j v) else Throw type_error.

(** [f(j[k1][k2]...)], where [f] changes the value it is given. *)
Fixpoint update_at (path : list string) (f : json -> result json_exception json) (j : json)
    : result json_exception json :=
  match path with
  | [] => f j
  | k :: path =>
      v <-? subscript j k ;
      v <-? update_at path f v ;
      Ok (set_field j k v)
  end.

(** [j[k1][k2]... = v] *)
Definition assign (path : list string) (v : json) (j : json) : result json_exception json :=
  update_at path (fun _ => Ok v) j.

(** [j[a].contains(k)] and [j[a][k]] in a condition. *)
Definition subscript2 (j : json) (a k : string) : result json_exception json :=
  v <-? subscript j a ; subscript v k.

(** ** The operations, statement by statement *)

Definition operate (o : operation) (m : json) : result json_exception json :=
  match o with
  | op_constant_rule =>
      m <-? assign ["definition"; "rule"] (jstr constant_rule) m ;
      m <-? update_at ["definition"] (checked_erase linear_rule) m ;
      assign ["interpretation"; "rule"] (jobj [("type", jint 2); ("parameters", brace_empty)]) m
  | op_data_type type => assign ["definition"; "dataType"] (jstr type) m
  | op_endian e => assign ["definition"; "endian"] (jstr e) m
  | op_extra key value =>
      i <-? subscript m "interpretation" ;
      replace <-? (if contains i "metadata"
                   then v <-? subscript2 m "interpretation" "metadata" ; Ok (negb (is_object v))
                   else Ok true) ;
      m <-? (if replace : bool then assign ["interpretation"; "metadata"] (jobj []) m else Ok m) ;
      assign ["interpretation"; "metadata"; key] (jstr value) m
  | op_linear_rule start delta =>
      m <-? assign ["definition"; "rule"] (jstr linear_rule) m ;
      m <-? assign ["definition"; linear_rule] (jobj [("delta", jint delta)]) m ;
      m <-? (if start =? 0 then Ok m
             else assign ["definition"; linear_rule; "start"] (jint start) m) ;
      assign ["interpretation"; "rule"]
        (jobj [("type", jint 1);
               ("parameters", jobj [("delta", jint delta); ("start", jint start)])]) m
  | op_origin o => assign ["interpretation"; "origin"] (jstr o) m
  | op_range low high =>
      assign ["definition"; "range"] (jobj [("low", jfloat low); ("high", jfloat high)]) m
  | op_struct_field f =>
      d <-? subscript m "definition" ;
      replace <-? (if contains d "struct"
                   then v <-? subscript2 m "definition" "struct" ; Ok (negb (is_array v))
                   else Ok true) ;
      m <-? (if replace : bool then assign ["definition"; "struct"] (jarr []) m else Ok m) ;
      update_at ["definition"; "struct"] (checked_push_back f) m
  | op_table tid => assign ["tableId"] (jstr tid) m
  | op_signal_rate rate => assign ["signalRate"] rate m
  | op_resolution numerator denominator =>
      assign ["definition"; "resolution"]
        (jobj [("num", jint numerator); ("denom", jint denominator)]) m
  | op_unit u =>
      m <-? assign ["definition"; "unit"]
        (jobj [("unitId", jint (id u)); ("quantity", jstr (quantity u));
               ("displayName", jstr (symbol u))]) m ;
      assign ["interpretation"; "unit"]
        (jobj [("id", jint (id u)); ("name", jstr (unit_name u)); ("quantity", jstr (quantity u));
               ("symbol", jstr (symbol u))]) m
  end.

Fixpoint operates (ops : list operation) (m : json) : result json_exception json :=
  match ops with
  | [] => Ok m
  | o :: ops => m <-? operate o m ; operates ops m
  end.

(** The operations of [struct_field_builder]. *)
Inductive field_operation : Type :=
| fop_array (size : Z)
| fop_data_type (type : string)
| fop_dimension (dimension : json).

Definition field_apply (o : field_operation) (f : json) : json :=
  match o with
  | fop_array size => field_array size f
  | fop_data_type type => field_data_type type f
  | fop_dimension d => field_dimension d f
  end.

Definition field_operate (o : field_operation) (f : json) : result json_exception json :=
  match o with
  | fop_array size =>
      assign ["dimensions"]
        (jarr [jobj [("name", jstr "Dimension"); ("rule", jstr linear_rule);
                     (linear_rule, jobj [("delta", jint 0); ("size", jint size);
                                         ("start", jint 1)])]]) f
  | fop_data_type type => assign ["dataType"] (jstr type) f
  | fop_dimension d =>
      reset <-? (if contains f "dimensions"
                 then v <-? subscript f "dimensions" ; Ok (is_array v) else Ok true) ;
      f <-? (if reset : bool then assign ["dimensions"] (jarr []) f else Ok f) ;
      update_at ["dimensions"] (checked_push_back d) f
  end.

Fixpoint field_operates (ops : list field_operation) (f : json) : result json_exception json :=
  match ops with
  | [] => Ok f
  | o :: ops => f <-? field_operate o f ; field_operates ops f
  end.

(** ** Types *)

Definition well_typed (m : json) : bool :=
  contains m "definition" && is_object (field m "definition") &&
  (contains m "interpretation" && is_object (field m "interpretation")).

Definition field_typed (f : json) : bool :=
  is_object f && (negb (contains f "dimensions") || is_array (field f "dimensions")).

Lemma well_typed_spec m :
  well_typed m = true <-> has_object m "definition" /\ has_object m "interpretation".
Proof. unfold well_typed, has_object. by rewrite !andb_true_iff. Qed.

Lemma well_typed_object m : well_typed m = true -> is_object m = true.
Proof. intros [[Hc _] _]%well_typed_spec. exact (contains_is_object m _ Hc). Qed.

Lemma subscript_object j k : is_object j = true -> subscript j k = Ok (field j k).
Proof. unfold subscript. by intros ->. Qed.

Lemma is_object_jarr l : is_object (jarr l) = false.
Proof. unfold is_object. by rewrite view_jarr. Qed.

Lemma is_array_jarr l : is_array (jarr l) = true.
Proof. unfold is_array. by rewrite view_jarr. Qed.

Lemma is_array_push_back j v : is_array (push_back j v) = true.
Proof. unfold is_array. by rewrite view_push_back. Qed.

Lemma is_object_erase j k : is_object (erase j k) = true.
Proof. unfold is_object. by rewrite view_erase. Qed.

End Checked.

(** Goes down the path of an access whose values are objects. *)
Ltac descend := cbn [update_at]; repeat (rewrite subscript_object by done; cbn [rbind]).

Section Assignments.
Context `{JL : JsonLib}.

(** One assignment below a part that is an object. *)
Lemma assign_sub m a k v :
  is_object m = true -> is_object (field m a) = true -> assign [a; k] v m = Ok (set_sub m a k v).
Proof. intros Hm Ha. unfold assign. by descend. Qed.

Lemma assign_top m k v : is_object m = true -> assign [k] v m = Ok (set_field m k v).
Proof. intros Hm. unfold assign. by descend. Qed.

Lemma update_sub m a k f v :
  is_object m = true -> is_object (field m a) = true -> f (field (field m a) k) = Ok v ->
  update_at [a; k] f m = Ok (set_sub m a k v).
Proof. intros Hm Ha Hf. descend. by rewrite Hf. Qed.

Lemma well_typed_set_sub m a k v : well_typed m = true -> well_typed (set_sub m a k v) = true.
Proof. rewrite !well_typed_spec. intros []. split; by apply has_object_set_sub. Qed.

Lemma well_typed_set_field m a v :
  (a = "definition" \/ a = "interpretation" -> is_object v = true) ->
  well_typed m = true -> well_typed (set_field m a v) = true.
Proof.
  rewrite !well_typed_spec. intros Hv []. split; apply has_object_set_field; try done; intros ->; eauto.
Qed.
End Assignments.

(** ** Soundness *)

Section Soundness.
Context `{JL : JsonLib}.

(** An operation returns the value of the total reading, and that is typed. *)
Definition sound (o : operation) : Prop :=
  forall m, well_typed m = true -> operate o m = Ok (apply o m) /\ well_typed (apply o m) = true.

Definition a_part (a : string) : Prop := a = "definition" \/ a = "interpretation".

Lemma typed_part m a : well_typed m = true -> a_part a -> is_object (field m a) = true.
Proof. intros [[_ Hd] [_ Hi]]%well_typed_spec [->| ->]; done. Qed.

Lemma sub_statement m a k v :
  well_typed m = true -> a_part a ->
  assign [a; k] v m = Ok (set_sub m a k v) /\ well_typed (set_sub m a k v) = true.
Proof.
  intros Hm Ha. split; [|by apply well_typed_set_sub].
  apply assign_sub; [by apply well_typed_object|by apply typed_part].
Qed.

Lemma top_statement m k v :
  well_typed m = true -> ~ a_part k ->
  assign [k] v m = Ok (set_field m k v) /\ well_typed (set_field m k v) = true.
Proof.
  intros Hm Hk. split; [by apply assign_top, well_typed_object|].
  apply well_typed_set_field; [|done]. intros Hp. by destruct (Hk Hp).
Qed.

(** [j[a][k][n] = v] where [j[a][k]] is an object. *)
Lemma deep_statement m a k n v :
  well_typed m = true -> a_part a -> is_object (field (field m a) k) = true ->
  assign [a; k; n] v m = Ok (set_sub m a k (set_field (field (field m a) k) n v)) /\
  well_typed (set_sub m a k (set_field (field (field m a) k) n v)) = true.
Proof.
  intros Hm Ha Hk. split; [|by apply well_typed_set_sub].
  pose proof (well_typed_object m Hm). pose proof (typed_part m a Hm Ha).
  unfold assign. by descend.
Qed.

Lemma field_set_sub m a k v : field (field (set_sub m a k v) a) k = v.
Proof. unfold set_sub. by rewrite !field_set_eq. Qed.
End Soundness.

(** Runs the next assignment of a well-typed value. *)
Ltac statement :=
  match goal with
  | Hm : well_typed ?m = true |- context [assign [?a; ?k; ?n] ?v ?m] =>
      let E := fresh "E" in let Ht := fresh "Ht" in
      destruct (deep_statement m a k n v Hm ltac:(unfold a_part; auto)) as [E Ht];
      [try by rewrite ?field_set_sub, ?is_object_jobj|rewrite E; clear E]
  | Hm : well_typed ?m = true |- context [assign [?a; ?k] ?v ?m] =>
      let E := fresh "E" in let Ht := fresh "Ht" in
      destruct (sub_statement m a k v Hm ltac:(unfold a_part; auto)) as [E Ht]; rewrite E; clear E
  | Hm : well_typed ?m = true |- context [assign [?a] ?v ?m] =>
      let E := fresh "E" in let Ht := fresh "Ht" in
      destruct (top_statement m a v Hm ltac:(unfold a_part; intros [?|?]; done)) as [E Ht];
      rewrite E; clear E
  end; cbn [rbind].

Section Operations.
Context `{JL : JsonLib}.

Lemma constant_rule_sound : sound op_constant_rule.
Proof.
  intros m Hm. cbn [operate apply]. unfold set_constant_rule. statement.
  set (m1 := set_sub m "definition" "rule" _) in *. cbn [update_at].
  rewrite subscript_object by (by apply well_typed_object). cbn [rbind]. unfold checked_erase.
  rewrite (typed_part m1 "definition") by (done || by left). cbn [rbind].
  assert (H2 : well_typed (set_field m1 "definition" (erase (field m1 "definition") linear_rule)) = true)
    by (apply well_typed_set_field; [intros _; apply is_object_erase|done]).
  by statement.
Qed.

Lemma linear_rule_sound start delta : sound (op_linear_rule start delta).
Proof.
  intros m Hm. cbn [operate apply]. unfold set_linear_rule.
  statement. statement. destruct (start =? 0); cbn [rbind]; repeat statement; done.
Qed.

(** The test that precedes a change below a part. *)
Lemma replaced m a k (test : json -> bool) :
  well_typed m = true -> a_part a ->
  (if contains (field m a) k then v <-? subscript2 m a k ; Ok (negb (test v)) else Ok true)
  = Ok (negb (contains (field m a) k) || negb (test (field (field m a) k))).
Proof.
  intros Hm Ha. unfold subscript2. pose proof (well_typed_object m Hm).
  pose proof (typed_part m a Hm Ha). descend. by destruct (contains _ _).
Qed.

Lemma extra_sound key value : sound (op_extra key value).
Proof.
  intros m Hm. cbn [operate apply]. unfold set_extra_metadata.
  rewrite subscript_object by (by apply well_typed_object). cbn [rbind].
  rewrite (replaced m "interpretation" "metadata" is_object) by (done || by right). cbn [rbind].
  destruct (negb _ || _) eqn:E; cbn [rbind]; repeat statement; try done.
  by apply orb_false_iff in E as [_ ?%negb_false_iff].
Qed.

Lemma struct_field_sound f : sound (op_struct_field f).
Proof.
  intros m Hm. cbn [operate apply]. unfold add_struct_field.
  rewrite subscript_object by (by apply well_typed_object). cbn [rbind].
  rewrite (replaced m "definition" "struct" is_array) by (done || by left). cbn [rbind].
  assert (Hpush : forall m, well_typed m = true ->
    is_array (field (field m "definition") "struct") = true ->
    update_at ["definition"; "struct"] (checked_push_back f) m
    = Ok (set_sub m "definition" "struct" (push_back (field (field m "definition") "struct") f))).
  { intros m' Hm' Ha. apply update_sub; [by apply well_typed_object|apply typed_part; [done|by left]|].
    unfold checked_push_back. by rewrite Ha. }
  destruct (negb _ || _) eqn:E; cbn [rbind].
  - statement. rewrite Hpush by (rewrite ?field_set_sub; done || apply is_array_jarr).
    split; [done|by apply well_typed_set_sub].
  - apply orb_false_iff in E as [_ ?%negb_false_iff]. rewrite Hpush by done.
    split; [done|by apply well_typed_set_sub].
Qed.

Lemma unit_sound u : sound (op_unit u).
Proof. intros m Hm. cbn [operate apply]. unfold set_wss_unit, set_unit. by repeat statement. Qed.

Lemma operation_sound o : sound o.
Proof.
  destruct o; first [apply constant_rule_sound|apply linear_rule_sound|apply extra_sound
    |apply struct_field_sound|apply unit_sound|by intros m Hm; cbn [operate apply]; statement].
Qed.

Lemma operates_sound ops m : well_typed m = true ->
  operates ops m = Ok (fold_left (fun m o => apply o m) ops m) /\
  well_typed (fold_left (fun m o => apply o m) ops m) = true.
Proof.
  revert m. induction ops as [|o ops IH]; intros m Hm; cbn [operates fold_left]; [done|].
  destruct (operation_sound o m Hm) as [-> Ho]. cbn [rbind]. by apply IH.
Qed.

Lemma field_operation_sound o f : field_typed f = true ->
  field_operate o f = Ok (field_apply o f) /\ field_typed (field_apply o f) = true.
Proof.
  unfold field_typed. rewrite andb_true_iff. intros [Ho Ht]. destruct o as [size|type|d]; cbn [field_operate field_apply].
  - unfold field_array. rewrite assign_top by done. rewrite is_object_set_field, field_set_eq, is_array_jarr.
    by rewrite orb_true_r.
  - unfold field_data_type. rewrite assign_top by done.
    by rewrite is_object_set_field, field_set_ne, contains_set_ne, Ht by done.
  - unfold field_dimension. rewrite subscript_object by done. cbn [rbind].
    assert (Hr : (if contains f "dimensions" then Ok (is_array (field f "dimensions")) else Ok true)
      = Ok (E := json_exception) true).
    { destruct (contains f "dimensions"); [|done]. cbn in Ht. by rewrite Ht. }
    rewrite Hr. cbn [rbind].
    assert (Hc : negb (contains f "dimensions") || is_array (field f "dimensions") = true) by done.
    rewrite Hc, assign_top by done. cbn [rbind update_at].
    rewrite subscript_object by apply is_object_set_field. cbn [rbind].
    unfold checked_push_back. rewrite field_set_eq, is_array_jarr. cbn [orb rbind].
    by rewrite is_object_set_field, field_set_eq, is_array_push_back, orb_true_r.
Qed.

Lemma field_operates_sound ops f : field_typed f = true ->
  field_operates ops f = Ok (fold_left (fun f o => field_apply o f) ops f) /\
  field_typed (fold_left (fun f o => field_apply o f) ops f) = true.
Proof.
  revert f. induction ops as [|o ops IH]; intros f Hf; cbn [field_operates fold_left]; [done|].
  destruct (field_operation_sound o f Hf) as [-> Ho]. cbn [rbind]. by apply IH.
Qed.

Lemma has_object_reset m a : is_object m = true ->
  has_object (if negb (contains m a) || negb (is_object (field m a)) then set_field m a (jobj []) else m) a.
Proof.
  intros Hm. destruct (negb _ || _) eqn:E; unfold has_object.
  - by rewrite contains_set_eq, field_set_eq, is_object_jobj.
  - by apply orb_false_iff in E as [->%negb_false_iff ->%negb_false_iff].
Qed.

Lemma is_object_reset m a : is_object m = true ->
  is_object (if negb (contains m a) || negb (is_object (field m a)) then set_field m a (jobj []) else m) = true.
Proof. intros. destruct (_ || _); [apply is_object_set_field|done]. Qed.

Lemma has_object_reset_other m a b : has_object m b ->
  has_object (if negb (contains m a) || negb (is_object (field m a)) then set_field m a (jobj []) else m) b.
Proof.
  intros. destruct (_ || _); [|done]. apply has_object_set_field; [|done]. intros _. apply is_object_jobj.
Qed.

Lemma from_json_typed j : well_typed (metadata_builder_from_json j) = true.
Proof.
  apply well_typed_spec. unfold metadata_builder_from_json.
  assert (Hm : is_object (if is_object j then j else jobj []) = true)
    by (destruct (is_object j) eqn:E; [done|apply is_object_jobj]).
  revert Hm. generalize (if is_object j then j else jobj []). intros m Hm. cbv zeta. split.
  - by apply has_object_reset_other, has_object_reset.
  - by apply has_object_reset, is_object_reset.
Qed.

Lemma from_json_unchanged j : well_typed j = true -> metadata_builder_from_json j = j.
Proof.
  intros Hj. pose proof (well_typed_object j Hj) as Ho.
  apply well_typed_spec in Hj as [[H1 H2] [H3 H4]]. unfold metadata_builder_from_json.
  by rewrite Ho, H1, H2; cbn [negb orb]; rewrite H3, H4.
Qed.

Lemma named_typed nm : well_typed (metadata_builder nm) = true.
Proof. destruct (represents_initial nm). by apply well_typed_spec. Qed.

Lemma field_named_typed nm : field_typed (struct_field_builder nm) = true.
Proof.
  unfold field_typed, struct_field_builder. rewrite is_object_jobj, contains_jobj. cbn [andb].
  by rewrite bool_decide_false by (simplify_map_eq; by intros []).
Qed.
End Operations.

(** ** Properties *)

(** C30: Type soundness of the builders.  Whatever JSON value a
    [metadata_builder] is made from, and whatever operations are then called on
    it, no access meets a value of the wrong type: every operation returns, the
    value that results is an object whose "definition" and "interpretation" are
    objects, and it is the one the total reading computes.  A value that is
    already of that type is taken as it is.  The same holds of a builder made
    from a name, and of the operations of [struct_field_builder], whose
    "dimensions", when there are any, stay an array. *)
Theorem builders_type_safe `{JL : JsonLib} (j : json) (nm : string) ops field_ops :
  let m := metadata_builder_from_json j in
  (m = j \/ well_typed j = false) /\
  (exists r, operates ops m = Ok r /\ well_typed r = true /\
     r = fold_left (fun m o => apply o m) ops m) /\
  (exists r, operates ops (metadata_builder nm) = Ok r /\ well_typed r = true /\ r = build ops nm) /\
  (exists r, field_operates field_ops (struct_field_builder nm) = Ok r /\ field_typed r = true /\
     r = fold_left (fun f o => field_apply o f) field_ops (struct_field_builder nm)).
Proof.
  intros m.
  pose proof (operates_sound ops m (from_json_typed j)) as [].
  pose proof (operates_sound ops _ (named_typed nm)) as [].
  pose proof (field_operates_sound field_ops _ (field_named_typed nm)) as [].
  split; [|split_and!; eexists; split_and!; first [eassumption|reflexivity]].
  destruct (well_typed j) eqn:E; [left; by apply from_json_unchanged|by right].
Qed.
