(* ===== verification/LinearTable.v ===== *)
(** * Linear-rule domain tables

    [src/detail/linear_table.cpp] and
    [include/ws-streaming/detail/linear_table.hpp].  The arithmetic is that of
    [std::int64_t]; where a signed result does not fit, which C++ leaves
    undefined, the value here wraps, and the theorems that compare with exact
    arithmetic assume that it fits.  [little_to_native] is the identity on the
    little-endian hosts the program supports. *)
From S2P Require Import Prelude Json Metadata.
From S2P Require StreamingProtocol.

Record linear_table := mk_table {
  table_name : string;
  index : Z;
  value : Z;
  delta : Z;
  driven_index : Z
}.

Definition zero_table : linear_table := mk_table "" 0 0 0 0.

Section LinearTable.
Context `{JL : JsonLib}.

(** [update(metadata)] *)
Definition update (m : json) (t : linear_table) : linear_table :=
  let id := if bool_decide (table_id m = "") then table_name t else table_id m in
  let '(start, dlt) := linear_start_delta m in
  let v := value_or start (value t) in
  let d := value_or dlt (delta t) in
  match value_index m with
  | Some i => mk_table id i v d i
  | None => mk_table id (index t) v d (driven_index t)
  end.

(** The constructor. *)
Definition make (m : json) : linear_table := update m zero_table.
End LinearTable.

(** [update(payload)] *)
Definition update_payload (p : StreamingProtocol.linear_payload) (t : linear_table) : linear_table :=
  mk_table (table_name t) (StreamingProtocol.sample_index p) (StreamingProtocol.value p) (delta t)
    (StreamingProtocol.sample_index p).

Definition value_at (i : Z) (t : linear_table) : Z :=
  s64 (value t + s64 (delta t * s64 (i - index t))).

Definition driven_value (t : linear_table) : Z :=
  s64 (value t + s64 (delta t * s64 (driven_index t - index t))).

Definition set (i v : Z) (t : linear_table) : linear_table :=
  mk_table (table_name t) i v (delta t) i.

Definition drive_to (i : Z) (t : linear_table) : linear_table :=
  mk_table (table_name t) (index t) (value t) (delta t) i.

(** ** Lemmas *)

(** The intermediate wraps do not matter: the result is the exact value modulo
    2^64. *)
Lemma value_at_exact i t : value_at i t = s64 (value t + delta t * (i - index t)).
Proof.
  unfold value_at. rewrite swrap_add_r, <- (swrap_add_r 64 _ (_ * s64 _)) by lia.
  by rewrite swrap_mul_r, swrap_add_r by lia.
Qed.

Lemma driven_value_at t : driven_value t = value_at (driven_index t) t.
Proof. done. Qed.

(** ** Properties *)

(** A table follows the linear rule it was given: as long as the exact
    value fits in 64 bits, the value at any index is the value last set plus
    [delta] per index step, driving the table changes only the driven index,
    and a table updated with the payload that describes another one agrees with
    it at every index. *)
Theorem linear_table_rule i v j t t' :
  in_s 64 (v + delta t * (j - i)) -> delta t' = delta t ->
  value_at j (set i v t) = v + delta t * (j - i) /\
  driven_value (drive_to j (set i v t)) = v + delta t * (j - i) /\
  driven_index (drive_to j (set i v t)) = j /\
  (forall k, value_at k (drive_to j (set i v t)) = value_at k (set i v t)) /\
  let p := {| StreamingProtocol.sample_index := i; StreamingProtocol.value := v |} in
  (forall k, value_at k (update_payload p t') = value_at k (set i v t)) /\
  driven_index (update_payload p t') = i.
Proof.
  intros Hin Hd.
  assert (Hv : value_at j (set i v t) = v + delta t * (j - i)).
  { rewrite value_at_exact. cbn. by rewrite swrap_small by (done || lia). }
  split; [done|]. split; [by rewrite driven_value_at|]. split; [done|]. split; [done|].
  split; [|done]. intros k. rewrite !value_at_exact. cbn. by rewrite Hd.
Qed.

Lemma linear_table_rule_witness :
  value_at 12 (set 10 1000 (mk_table "t" 0 0 5 0)) = 1010.
Proof.
  destruct (linear_table_rule 10 1000 12 (mk_table "t" 0 0 5 0) (mk_table "t" 0 0 5 0))
    as [H _]; [by vm_compute|done|]. exact H.
Defined.
