(* ===== verification/LocalSignal.v ===== *)
(** * Local signals and their subscription counts

    [src/local_signal.cpp] and [include/ws-streaming/local_signal.hpp].  The
    application owns the signals, so they are a store ([list]) addressed by
    position, and a [subscribe_holder]'s pointer is an optional position.
    Raising an event appends to the signal's log.

    Contract: the count of a signal is the number of holders that track it, and
    the two events alternate, starting with [on_subscribed]. *)
From S2P Require Import Prelude Json.

Inductive event : Type :=
| on_subscribed
| on_unsubscribed
| on_metadata_changed
| on_data_published (domain_value sample_count : Z) (data : list Z).

#[export] Instance event_eq_dec : EqDecision event.
Proof. solve_decision. Defined.

Section LocalSignal.
Context `{JL : JsonLib}.

Record local_signal := mk_signal {
  sig_id : string;
  sig_metadata : json;
  subscribe_count : Z;
  events : list event
}.

Definition raise (e : event) (s : local_signal) : local_signal :=
  mk_signal (sig_id s) (sig_metadata s) (subscribe_count s) (events s ++ [e]).

Definition set_count (n : Z) (s : local_signal) : local_signal :=
  mk_signal (sig_id s) (sig_metadata s) n (events s).

(** [set_metadata] *)
Definition set_metadata (m : json) (s : local_signal) : local_signal :=
  raise on_metadata_changed (mk_signal (sig_id s) m (subscribe_count s) (events s)).

(** The constructor: nothing is connected to the event it raises. *)
Definition make (sid : string) (m : json) : local_signal :=
  set_metadata m (mk_signal sid jnull 0 []).

Definition publish_data (data : list Z) (s : local_signal) : local_signal :=
  raise (on_data_published 0 0 data) s.

Definition publish_domain_data (domain_value sample_count : Z) (data : list Z) (s : local_signal)
    : local_signal :=
  raise (on_data_published domain_value sample_count data) s.

Definition is_subscribed (s : local_signal) : bool := 0 <? subscribe_count s.

(** [_subscribe_count++ == 0] in the constructor of a holder. *)
Definition acquire (s : local_signal) : local_signal :=
  let s' := set_count (u32 (subscribe_count s + 1)) s in
  if subscribe_count s =? 0 then raise on_subscribed s' else s'.

(** [--_subscribe_count == 0] in [close]. *)
Definition release (s : local_signal) : local_signal :=
  let s' := set_count (u32 (subscribe_count s - 1)) s in
  if subscribe_count s' =? 0 then raise on_unsubscribed s' else s'.

(** ** Holders *)

Record state := mk_state {
  signals : list local_signal;
  holders : list (option nat)
}.

(** [close()], and the destructor. *)
Definition close_holder (h : nat) (st : state) : state :=
  match holders st !! h with
  | Some (Some s) => mk_state (alter release s (signals st)) (<[h := None]> (holders st))
  | _ => st
  end.

Inductive operation : Type :=
| op_increment (s : nat)       (* increment_subscribe_count() *)
| op_default                   (* subscribe_holder() *)
| op_move_construct (h : nat)  (* subscribe_holder(std::move(h)) *)
| op_move_assign (dst src : nat)
| op_close (h : nat)
| op_publish (s : nat) (domain_value sample_count : Z) (data : list Z)
| op_set_metadata (s : nat) (m : json).

Definition exec (o : operation) (st : state) : state :=
  match o with
  | op_increment s =>
      mk_state (alter acquire s (signals st)) (holders st ++ [Some s])
  | op_default => mk_state (signals st) (holders st ++ [None])
  | op_move_construct h =>
      mk_state (signals st) (<[h := None]> (holders st) ++ [value_or (holders st !! h) None])
  | op_move_assign dst src =>
      let st := close_holder dst st in
      match holders st !! dst, holders st !! src with
      | Some a, Some b => mk_state (signals st) (<[src := a]> (<[dst := b]> (holders st)))
      | _, _ => st
      end
  | op_close h => close_holder h st
  | op_publish s dv n data =>
      mk_state (alter (publish_domain_data dv n data) s (signals st)) (holders st)
  | op_set_metadata s m => mk_state (alter (set_metadata m) s (signals st)) (holders st)
  end.

(** Operations refer to existing objects. *)
Definition valid (o : operation) (st : state) : Prop :=
  match o with
  | op_increment s | op_publish s _ _ _ | op_set_metadata s _ => (s < length (signals st))%nat
  | op_move_construct h | op_close h => (h < length (holders st))%nat
  | op_move_assign dst src => (dst < length (holders st))%nat /\ (src < length (holders st))%nat
  | op_default => True
  end.

(** ** The invariant *)

Definition tracks (s : nat) (h : option nat) : Z := if decide (h = Some s) then 1 else 0.

Definition tracking (s : nat) (hs : list (option nat)) : Z := foldr (fun h n => tracks s h + n) 0 hs.

(** The subscription events of a log. *)
Definition subscriptions (l : list event) : list event :=
  List.filter (fun e => match e with on_subscribed | on_unsubscribed => true | _ => false end) l.

(** Strictly alternating, from [on_subscribed]; [b] tells whether the last one
    was [on_subscribed]. *)
Inductive alternating : bool -> list event -> Prop :=
| alt_nil : alternating false []
| alt_on l : alternating false l -> alternating true (l ++ [on_subscribed])
| alt_off l : alternating true l -> alternating false (l ++ [on_unsubscribed]).

Definition good (st : state) : Prop :=
  (forall h s, holders st !! h = Some (Some s) -> (s < length (signals st))%nat) /\
  (forall s sg, signals st !! s = Some sg ->
     subscribe_count sg = tracking s (holders st) /\
     alternating (is_subscribed sg) (subscriptions (events sg))).

(** ** Lemmas *)

Lemma tracking_app s hs ks : tracking s (hs ++ ks) = tracking s hs + tracking s ks.
Proof. unfold tracking. induction hs as [|h hs IH]; cbn; [done|]. rewrite IH. lia. Qed.

Lemma tracking_insert s hs i old h :
  hs !! i = Some old -> tracking s (<[i := h]> hs) = tracking s hs - tracks s old + tracks s h.
Proof.
  revert i. induction hs as [|x hs IH]; intros [|i] Hi; cbn in Hi; simplify_eq.
  - change (tracks s h + tracking s hs = tracks s old + tracking s hs - tracks s old + tracks s h). lia.
  - change (tracks s x + tracking s (<[i := h]> hs)
            = tracks s x + tracking s hs - tracks s old + tracks s h). rewrite (IH i) by done. lia.
Qed.

Lemma tracking_range s hs : 0 <= tracking s hs <= Z.of_nat (length hs).
Proof.
  unfold tracking. induction hs as [|h hs IH]; cbn [foldr length]; [lia|].
  unfold tracks at 1 3. case_decide; lia.
Qed.

Lemma tracking_pos s hs i : hs !! i = Some (Some s) -> 0 < tracking s hs.
Proof.
  revert i. unfold tracking. induction hs as [|h hs IH]; intros [|i] Hi; cbn in *; simplify_eq.
  - unfold tracks at 1. rewrite decide_True by done. pose proof (tracking_range s hs).
    unfold tracking in *. lia.
  - specialize (IH i Hi). unfold tracks at 1. case_decide; lia.
Qed.

Lemma tracks_none s : tracks s None = 0.
Proof. done. Qed.

Lemma tracks_same s : tracks s (Some s) = 1.
Proof. unfold tracks. by rewrite decide_True. Qed.

Lemma tracks_other s s' : s <> s' -> tracks s (Some s') = 0.
Proof. intros. unfold tracks. rewrite decide_False; [done|congruence]. Qed.

Lemma subscriptions_app l k : subscriptions (l ++ k) = subscriptions l ++ subscriptions k.
Proof. apply List.filter_app. Qed.

Lemma acquire_good sg n :
  subscribe_count sg = n -> 0 <= n < 2 ^ 32 - 1 ->
  alternating (is_subscribed sg) (subscriptions (events sg)) ->
  subscribe_count (acquire sg) = n + 1 /\
  alternating (is_subscribed (acquire sg)) (subscriptions (events (acquire sg))).
Proof.
  intros Hc Hn Ha. unfold acquire, is_subscribed in *. rewrite Hc in *.
  rewrite wrap_small by (unfold in_u; lia). destruct (Z.eqb_spec n 0) as [->|]; cbn.
  - split; [done|]. rewrite subscriptions_app. cbn. constructor. exact Ha.
  - split; [done|]. destruct (Z.ltb_spec 0 n), (Z.ltb_spec 0 (n + 1)); try lia. exact Ha.
Qed.

Lemma release_good sg n :
  subscribe_count sg = n -> 0 < n < 2 ^ 32 ->
  alternating (is_subscribed sg) (subscriptions (events sg)) ->
  subscribe_count (release sg) = n - 1 /\
  alternating (is_subscribed (release sg)) (subscriptions (events (release sg))).
Proof.
  intros Hc Hn Ha. unfold release, is_subscribed in *. rewrite Hc in *. cbn.
  rewrite wrap_small by (unfold in_u; lia). destruct (Z.ltb_spec 0 n); [|lia].
  destruct (Z.eqb_spec (n - 1) 0) as [E|]; cbn.
  - rewrite E. split; [done|]. rewrite subscriptions_app. cbn. by constructor.
  - split; [done|]. destruct (Z.ltb_spec 0 (n - 1)); [exact Ha|lia].
Qed.

Lemma close_holder_good h st :
  good st -> Z.of_nat (length (holders st)) < 2 ^ 32 ->
  good (close_holder h st) /\ holders (close_holder h st) !! h = (fun _ => None) <$> holders st !! h /\
  length (holders (close_holder h st)) = length (holders st) /\
  length (signals (close_holder h st)) = length (signals st) /\
  (forall k, k <> h -> holders (close_holder h st) !! k = holders st !! k).
Proof.
  intros [H1 H2] Hlen. unfold close_holder. destruct (holders st !! h) as [[s|]|] eqn:E; cbn.
  2,3: rewrite E; done.
  assert (Hh : (h < length (holders st))%nat) by by eapply lookup_lt_Some.
  rewrite !length_insert, length_alter, list_lookup_insert_eq by done. split_and!; try done.
  2: { intros k Hk. by rewrite list_lookup_insert_ne. }
  split; cbn [signals holders].
  - intros k s' Hk. rewrite length_alter. destruct (decide (k = h)) as [->|Hne].
    + by rewrite list_lookup_insert_eq in Hk.
    + rewrite list_lookup_insert_ne in Hk by done. by eapply H1.
  - intros s' sg Hs. rewrite (tracking_insert s' _ _ _ _ E), tracks_none.
    destruct (decide (s = s')) as [<-|Hne].
    + rewrite list_lookup_alter_eq in Hs. apply fmap_Some in Hs as (sg0 & Hs0 & ->).
      destruct (H2 s sg0 Hs0) as [Hc Ha]. rewrite tracks_same.
      pose proof (tracking_pos s _ h E). pose proof (tracking_range s (holders st)).
      destruct (release_good sg0 _ Hc) as [-> ?]; [lia|done|]. split; [lia|done].
    + rewrite list_lookup_alter_ne in Hs by done. destruct (H2 s' sg Hs) as [-> ?].
      rewrite tracks_other by done. split; [lia|done].
Qed.

Lemma quiet_alter_good f s st :
  (forall sg, subscribe_count (f sg) = subscribe_count sg /\
     subscriptions (events (f sg)) = subscriptions (events sg)) ->
  good st -> good (mk_state (alter f s (signals st)) (holders st)).
Proof.
  intros Hf [H1 H2]. split; cbn [signals holders].
  - intros h s' Hh. rewrite length_alter. by eapply H1.
  - intros s' sg Hs. destruct (decide (s = s')) as [<-|Hne].
    + rewrite list_lookup_alter_eq in Hs. apply fmap_Some in Hs as (sg0 & Hs0 & ->).
      destruct (H2 s sg0 Hs0) as [Hc Ha]. destruct (Hf sg0) as [Hfc Hfe].
      unfold is_subscribed. rewrite Hfc, Hfe. done.
    + rewrite list_lookup_alter_ne in Hs by done. by apply H2.
Qed.

Lemma exec_good o st :
  good st -> valid o st -> Z.of_nat (length (holders st)) < 2 ^ 32 - 1 -> good (exec o st).
Proof.
  intros Hg Hv Hlen. pose proof Hg as [H1 H2]. destruct o as [s| |h|dst src|h|s dv n data|s m]; cbn in *.
  - split; cbn [signals holders].
    + intros h s' Hh. rewrite length_alter. apply lookup_app_Some in Hh as [Hh|[_ Hh]]; [by eapply H1|].
      apply list_lookup_singleton_Some in Hh as [_ [= <-]]. done.
    + intros s' sg Hs. rewrite tracking_app. destruct (decide (s = s')) as [<-|Hne].
      * rewrite list_lookup_alter_eq in Hs. apply fmap_Some in Hs as (sg0 & Hs0 & ->).
        destruct (H2 s sg0 Hs0) as [Hc Ha]. pose proof (tracking_range s (holders st)).
        destruct (acquire_good sg0 _ Hc) as [-> ?]; [lia|done|].
        cbn. rewrite tracks_same. split; [lia|done].
      * rewrite list_lookup_alter_ne in Hs by done. destruct (H2 s' sg Hs) as [-> ?].
        cbn. rewrite tracks_other by done. split; [lia|done].
  - split; cbn [signals holders].
    + intros h s' Hh. apply lookup_app_Some in Hh as [Hh|[_ Hh]]; [by eapply H1|].
      by apply list_lookup_singleton_Some in Hh as [_ [=]].
    + intros s' sg Hs. rewrite tracking_app. cbn. rewrite Z.add_0_r. by apply H2.
  - destruct (lookup_lt_is_Some_2 _ _ Hv) as [old Ho]. rewrite Ho. split; cbn [signals holders].
    + intros k s' Hk. apply lookup_app_Some in Hk as [Hk|[_ Hk]].
      * destruct (decide (k = h)) as [->|Hne]; [by rewrite list_lookup_insert_eq in Hk|].
        rewrite list_lookup_insert_ne in Hk by done. by eapply H1.
      * apply list_lookup_singleton_Some in Hk as [_ Hk]. cbn in Hk. subst old. by eapply H1.
    + intros s' sg Hs. rewrite tracking_app, (tracking_insert s' _ _ _ None Ho). cbn [value_or tracking foldr]. rewrite (tracks_none s').
      destruct (H2 s' sg Hs) as [-> ?]. split; [lia|done].
  - destruct Hv as [Hd Hs]. destruct (close_holder_good dst st Hg) as (Hg' & Hdst & Hl & _ & Hother); [lia|].
    set (st' := close_holder dst st) in *. destruct Hg' as [G1 G2].
    destruct (lookup_lt_is_Some_2 (holders st') src) as [b Hb]; [by rewrite Hl|].
    destruct (lookup_lt_is_Some_2 (holders st) dst) as [a Ha]; [done|].
    rewrite Ha in Hdst. cbn in Hdst. rewrite Hdst, Hb. split; cbn [signals holders].
    + intros k s' Hk. destruct (decide (k = src)) as [->|Hne].
      * rewrite list_lookup_insert_eq in Hk by (rewrite length_insert; by rewrite Hl). done.
      * rewrite list_lookup_insert_ne in Hk by done. destruct (decide (k = dst)) as [->|Hne'].
        -- rewrite list_lookup_insert_eq in Hk by by rewrite Hl. simplify_eq. by eapply G1.
        -- rewrite list_lookup_insert_ne in Hk by done. by eapply G1.
    + intros s' sg Hsg. destruct (G2 s' sg Hsg) as [-> ?]. split; [|done].
      destruct (decide (src = dst)) as [->|Hne].
      * rewrite list_insert_insert_eq, (tracking_insert _ _ _ _ _ Hdst), tracks_none. lia.
      * rewrite (tracking_insert _ _ src b), (tracking_insert _ _ _ _ _ Hdst), tracks_none; [lia|].
        by rewrite list_lookup_insert_ne.
  - by apply close_holder_good; [|lia].
  - apply quiet_alter_good; [|done]. intros sg. cbn. by rewrite subscriptions_app, app_nil_r.
  - apply quiet_alter_good; [|done]. intros sg. cbn. by rewrite subscriptions_app, app_nil_r.
Qed.
End LocalSignal.

(** States reachable from freshly constructed signals by valid operations, with
    fewer holders ever made than an [unsigned] can count. *)
Inductive reachable `{JL : JsonLib} : state -> Prop :=
| reachable_init sigs :
    Forall (fun s => exists i m, s = make i m) sigs -> reachable (mk_state sigs [])
| reachable_exec st o :
    reachable st -> valid o st -> Z.of_nat (length (holders st)) < 2 ^ 32 - 1 ->
    reachable (exec o st).

(** ** Properties *)

(** C31: whatever holders are made, moved, assigned and closed in whatever
    order, a signal's subscription count is exactly the number of holders that
    track it; it is subscribed exactly when some holder does; and the events
    raised alternate between on_subscribed and on_unsubscribed, starting with
    on_subscribed and ending with the one that matches its present state. *)
Theorem subscription_count `{JL : JsonLib} st s sg :
  reachable st -> signals st !! s = Some sg ->
  subscribe_count sg = tracking s (holders st) /\
  (is_subscribed sg = true <-> exists h, holders st !! h = Some (Some s)) /\
  alternating (is_subscribed sg) (subscriptions (events sg)).
Proof.
  intros Hr. revert s sg. assert (Hg : good st).
  { induction Hr as [sigs Hs|st o _ IH Hv Hn]; [|by apply exec_good].
    split; cbn [signals holders]; [by intros h s Hh|]. intros s sg Hsg.
    rewrite Forall_forall in Hs. destruct (Hs sg) as (i & m & ->); [by eapply list_elem_of_lookup_2|].
    split; [done|]. constructor. }
  destruct Hg as [H1 H2]. intros s sg Hsg. destruct (H2 s sg Hsg) as [Hc Ha].
  split; [done|]. split; [|done]. unfold is_subscribed. rewrite Hc. split.
  - intros Hpos%Z.ltb_lt. clear -Hpos. revert Hpos. unfold tracking.
    induction (holders st) as [|h hs IH]; cbn [foldr]; [lia|]. unfold tracks at 1.
    case_decide as E; intros Hpos; [by exists O; subst|]. destruct IH as [k Hk]; [lia|]. by exists (S k).
  - intros [h Hh]. apply Z.ltb_lt. by eapply tracking_pos.
Qed.

Lemma subscription_count_witness :
  exists sg : local_signal (JL := jv_json),
    signals (exec (JL := jv_json) (op_move_construct 0) (exec (JL := jv_json) (op_increment 0)
      (mk_state (JL := jv_json) [make (JL := jv_json) "s" VNull] []))) !! 0%nat = Some sg /\
    subscribe_count (JL := jv_json) sg = 1.
Proof.
  eexists. split; [reflexivity|].
  destruct (@subscription_count jv_json (exec (JL := jv_json) (op_move_construct 0)
    (exec (JL := jv_json) (op_increment 0) (mk_state (JL := jv_json) [make (JL := jv_json) "s" VNull] [])))
    0%nat (acquire (JL := jv_json) (make (JL := jv_json) "s" VNull))) as (H & _ & _).
  - apply reachable_exec; [apply reachable_exec; [apply reachable_init|..]|..]; try (cbn; lia).
    apply Forall_singleton. by exists "s", VNull.
  - reflexivity.
  - exact H.
Defined.
