(* ===== verification/OrderedMap.v ===== *)
(** * Iteration over std::map

    The program's containers are [std::map]s.  Lookup, insertion and erasure
    are those of a finite map; [items] lists the entries in the order in which
    a loop, a range adaptor or [std::find_if] visits them, that of the keys. *)
From S2P Require Import Prelude.
From stdpp Require Import sorting.

(** The order [std::map] uses for the program's two key types: [unsigned], and
    [std::string], whose characters compare as unsigned. *)
Class KeyOrder (K : Type) := {
  key_le : K -> K -> Prop;
  key_le_dec : forall a b, Decision (key_le a b);
  key_le_total : Total key_le;
  key_le_trans : Transitive key_le
}.
#[export] Existing Instances key_le_dec key_le_total key_le_trans.

#[export] Instance unsigned_order : KeyOrder Z.
Proof. refine {| key_le := Z.le |}. Defined.

#[export] Instance string_order : KeyOrder string.
Proof. refine {| key_le := String.le |}. Defined.

Section OrderedMap.
Context {K A : Type} `{Countable K} `{!KeyOrder K}.
Implicit Types m : gmap K A.

Definition entry_le (x y : K * A) : Prop := key_le x.1 y.1.

#[export] Instance entry_le_dec x y : Decision (entry_le x y).
Proof. unfold entry_le. apply _. Defined.

#[export] Instance entry_le_total : Total entry_le.
Proof. intros x y. apply (total key_le). Qed.

#[export] Instance entry_le_trans : Transitive entry_le.
Proof. intros x y z. unfold entry_le. apply transitivity. Qed.

(** The entries in iteration order. *)
Definition items m : list (K * A) := merge_sort entry_le (map_to_list m).

(** [std::find_if] over the entries. *)
Definition find_if (p : A -> bool) m : option (K * A) := List.find (fun x => p x.2) (items m).

Lemma items_Permutation m : items m ≡ₚ map_to_list m.
Proof. apply merge_sort_Permutation. Qed.

Lemma items_ordered m : StronglySorted entry_le (items m).
Proof. apply StronglySorted_merge_sort; apply _. Qed.

Lemma elem_of_items m k a : (k, a) ∈ items m <-> m !! k = Some a.
Proof. rewrite items_Permutation. apply elem_of_map_to_list. Qed.

Lemma items_empty : items (∅ : gmap K A) = [].
Proof. apply Permutation_nil_r. by rewrite items_Permutation, map_to_list_empty. Qed.

Lemma find_if_some p m k a : find_if p m = Some (k, a) -> m !! k = Some a /\ p a = true.
Proof.
  intros [Hin Hp]%List.find_some. split; [|done]. apply elem_of_items. by apply list_elem_of_In.
Qed.

Lemma find_if_none p m k a : find_if p m = None -> m !! k = Some a -> p a = false.
Proof.
  intros Hf Hk. apply (List.find_none _ _ Hf (k, a)). apply list_elem_of_In. by apply elem_of_items.
Qed.

(** The entry found is the one of the smallest key that qualifies. *)
Lemma find_if_least p m k a k' a' :
  find_if p m = Some (k, a) -> m !! k' = Some a' -> p a' = true -> key_le k k'.
Proof.
  unfold find_if. intros Hf Hk'%elem_of_items Hp. pose proof (items_ordered m) as Hs.
  induction (items m) as [|[k0 a0] l IH]; [by apply not_elem_of_nil in Hk'|].
  apply StronglySorted_inv in Hs as [Hs Hle]. cbn in Hf. destruct (p a0) eqn:E.
  - simplify_eq. apply elem_of_cons in Hk' as [[= -> ->]|Hin].
    + by destruct (total key_le k k).
    + rewrite Forall_forall in Hle. apply (Hle _ Hin).
  - apply IH; [done| |done]. apply elem_of_cons in Hk' as [[= -> ->]|Hin]; [congruence|done].
Qed.

(** When exactly one entry qualifies it is the one found. *)
Lemma find_if_unique p m k a :
  m !! k = Some a -> p a = true ->
  (forall k' a', m !! k' = Some a' -> p a' = true -> k' = k) -> find_if p m = Some (k, a).
Proof.
  intros Hk Hp Hu. destruct (find_if p m) as [[k' a']|] eqn:E.
  - apply find_if_some in E as [E1 E2]. assert (k' = k) as -> by by eapply Hu. congruence.
  - pose proof (find_if_none p m k a E Hk). congruence.
Qed.
End OrderedMap.
