(* ===== verification/RemoteSignal.v ===== *)
(** * Remote signals

    [src/detail/remote_signal_impl.cpp], [src/remote_signal.cpp] and their
    headers.  Remote signals and their linear tables live in a [heap]: a
    signal's [_table] owns the table it points to (nothing else holds a strong
    reference to it), so resetting [_table] removes the table from the heap,
    and locking a [_domain_table] succeeds exactly while the table is there.
    The events a signal raises are recorded, tagged with its address; the slot
    of [on_table_sought] is an argument of the handlers that raise it. *)
From S2P Require Import Prelude Json Metadata MetadataBuilder LinearTable.
From S2P Require StreamingProtocol.

(** Events, by the address of the signal that raises them. *)
Inductive event : Type :=
| on_subscribed (s : nat)
| on_unsubscribed (s : nat)
| on_metadata_changed (s : nat)
| on_data_received (s : nat) (domain_value sample_count : Z) (data : list Z)
| on_unavailable (s : nat)
| on_subscribe_requested (s : nat)
| on_unsubscribe_requested (s : nat).

#[export] Instance event_eq_dec : EqDecision event.
Proof. solve_decision. Defined.

(** A [linear_payload] in memory: two little-endian 64-bit signed integers. *)
Definition payload_bytes (p : StreamingProtocol.linear_payload) : list Z :=
  le_bytes 8 (StreamingProtocol.sample_index p) ++ le_bytes 8 (StreamingProtocol.value p).

Definition payload_of (data : list Z) : StreamingProtocol.linear_payload :=
  {| StreamingProtocol.sample_index := s64 (le_value (take 8 data));
     StreamingProtocol.value := s64 (le_value (slice 8 8 data)) |}.

Section RemoteSignal.
Context `{JL : JsonLib}.

(** boost::multiprecision's conversion of a rational to [std::uint64_t]. *)
Context (to_uint64 : Z -> Z).

Record remote_signal := mk_remote {
  id : string;
  is_subscribed : bool;
  signo : Z;
  sig_metadata : json;
  subscription_count : Z;
  table : option nat;
  domain_table : option nat;
  domain_signal : option nat;
  is_explicit : bool;
  sample_size : Z;
  value_index : Z;
  tcp_delta : Z;
  tcp_time : Z
}.

Definition make (sid : string) : remote_signal :=
  mk_remote sid false 0 default_metadata 0 None None None false 0 0 0 0.

Record heap := mk_heap {
  signals : gmap nat remote_signal;
  tables : gmap nat linear_table;
  next : nat
}.

(** ** Assignments to members *)

Definition set_subscribed (b : bool) (s : remote_signal) : remote_signal :=
  mk_remote (id s) b (signo s) (sig_metadata s) (subscription_count s) (table s) (domain_table s)
    (domain_signal s) (is_explicit s) (sample_size s) (value_index s) (tcp_delta s) (tcp_time s).

Definition set_signo (n : Z) (s : remote_signal) : remote_signal :=
  mk_remote (id s) (is_subscribed s) n (sig_metadata s) (subscription_count s) (table s)
    (domain_table s) (domain_signal s) (is_explicit s) (sample_size s) (value_index s)
    (tcp_delta s) (tcp_time s).

Definition set_metadata (m : json) (s : remote_signal) : remote_signal :=
  mk_remote (id s) (is_subscribed s) (signo s) m (subscription_count s) (table s) (domain_table s)
    (domain_signal s) (is_explicit s) (sample_size s) (value_index s) (tcp_delta s) (tcp_time s).

Definition set_count (n : Z) (s : remote_signal) : remote_signal :=
  mk_remote (id s) (is_subscribed s) (signo s) (sig_metadata s) n (table s) (domain_table s)
    (domain_signal s) (is_explicit s) (sample_size s) (value_index s) (tcp_delta s) (tcp_time s).

Definition set_table (t : option nat) (s : remote_signal) : remote_signal :=
  mk_remote (id s) (is_subscribed s) (signo s) (sig_metadata s) (subscription_count s) t
    (domain_table s) (domain_signal s) (is_explicit s) (sample_size s) (value_index s)
    (tcp_delta s) (tcp_time s).

Definition set_domain (d : option nat) (t : option nat) (s : remote_signal) : remote_signal :=
  mk_remote (id s) (is_subscribed s) (signo s) (sig_metadata s) (subscription_count s) (table s)
    t d (is_explicit s) (sample_size s) (value_index s) (tcp_delta s) (tcp_time s).

Definition set_sampling (expl : bool) (size idx : Z) (s : remote_signal) : remote_signal :=
  mk_remote (id s) (is_subscribed s) (signo s) (sig_metadata s) (subscription_count s) (table s)
    (domain_table s) (domain_signal s) expl size idx (tcp_delta s) (tcp_time s).

Definition set_tcp (dlt time : Z) (s : remote_signal) : remote_signal :=
  mk_remote (id s) (is_subscribed s) (signo s) (sig_metadata s) (subscription_count s) (table s)
    (domain_table s) (domain_signal s) (is_explicit s) (sample_size s) (value_index s) dlt time.

(** ** subscribe and unsubscribe

    They raise the request events, with the slots connected, for the first
    subscription and for the last one given back. *)

Definition subscribe (this : nat) (s : remote_signal) : remote_signal * list event :=
  (set_count (u32 (subscription_count s + 1)) s,
   if subscription_count s =? 0 then [on_subscribe_requested this] else []).

Definition unsubscribe (this : nat) (s : remote_signal) : remote_signal * list event :=
  let n := u32 (subscription_count s - 1) in
  (set_count n s, if n =? 0 then [on_unsubscribe_requested this] else []).

(** ** handle_data

    The four branches: direct TCP sampling, a linear-rule signal's own table,
    an explicit signal, and any other. *)

Definition lock (w : option nat) (tabs : gmap nat linear_table) : option (nat * linear_table) :=
  match w with
  | Some t => pair t <$> tabs !! t
  | None => None
  end.

Definition data_samples (s : remote_signal) (size : Z) : Z :=
  if negb (sample_size s =? 0) then s64 (size / sample_size s) else 0.

Definition handle_data_tcp (this : nat) (data : list Z) (s : remote_signal)
    : remote_signal * list event :=
  let sample_count := data_samples s (size_of data) in
  (set_tcp (tcp_delta s) (u64 (tcp_time s + tcp_delta s * u64 sample_count)) s,
   [on_data_received this (s64 (tcp_time s)) (u64 sample_count) data]).

Definition handle_data_table (this t : nat) (data : list Z) (tabs : gmap nat linear_table)
    : gmap nat linear_table * list event :=
  (if StreamingProtocol.linear_payload_size <=? size_of data
   then alter (update_payload (payload_of data)) t tabs else tabs,
   [on_data_received this 0 0 data]).

Definition handle_data_explicit (this : nat) (data : list Z) (s : remote_signal)
    (tabs : gmap nat linear_table) : remote_signal * gmap nat linear_table * list event :=
  let sample_count :=
    if negb (sample_size s =? 0) then data_samples s (size_of data)
    else if bool_decide (data_type (sig_metadata s) = binary_t) then 1 else 0 in
  let domain := lock (domain_table s) tabs in
  let domain_value := if domain is Some (_, t) then value_at (value_index s) t else 0 in
  let idx := s64 (value_index s + sample_count) in
  (set_sampling (is_explicit s) (sample_size s) idx s,
   (if domain is Some (a, _) then alter (drive_to idx) a tabs else tabs),
   [on_data_received this domain_value (u64 sample_count) data]).

Definition handle_data_implicit (this : nat) (data : list Z) (s : remote_signal)
    (tabs : gmap nat linear_table) : list event :=
  let domain_value := if lock (domain_table s) tabs is Some (_, t) then driven_value t else 0 in
  if sample_size s <=? size_of data
  then [on_data_received this domain_value 1 (take (Z.to_nat (sample_size s)) data)]
  else [on_data_received this domain_value 0 data].

Definition handle_data (this : nat) (data : list Z) (h : heap) : heap * list event :=
  match signals h !! this with
  | Some s =>
      if negb (is_subscribed s) then (h, [])
      else if negb (tcp_delta s =? 0) then
        let '(s, es) := handle_data_tcp this data s in
        (mk_heap (<[this := s]> (signals h)) (tables h) (next h), es)
      else if table s is Some t then
        let '(tabs, es) := handle_data_table this t data (tables h) in
        (mk_heap (signals h) tabs (next h), es)
      else if is_explicit s then
        let '(s, tabs, es) := handle_data_explicit this data s (tables h) in
        (mk_heap (<[this := s]> (signals h)) tabs (next h), es)
      else (h, handle_data_implicit this data s (tables h))
  | None => (h, [])
  end.

(** ** Metadata handlers *)

Definition handle_subscribe (this : nat) (s : remote_signal) : remote_signal * list event :=
  if is_subscribed s then (s, []) else (set_subscribed true s, [on_subscribed this]).

Definition handle_unsubscribe (this : nat) (s : remote_signal) : remote_signal * list event :=
  if is_subscribed s then (set_subscribed false s, [on_unsubscribed this]) else (s, []).

(** The signal's own table follows its rule. *)
Definition bind_table (this : nat) (h : heap) : heap :=
  match signals h !! this with
  | Some s =>
      let m := sig_metadata s in
      if bool_decide (rule m = linear_rule) then
        match table s with
        | Some t => mk_heap (signals h) (alter (update m) t (tables h)) (next h)
        | None =>
            mk_heap (<[this := set_table (Some (next h)) s]> (signals h))
              (<[next h := LinearTable.make m]> (tables h)) (S (next h))
        end
      else
        mk_heap (<[this := set_table None s]> (signals h))
          (match table s with Some t => delete t (tables h) | None => tables h end) (next h)
  | None => h
  end.

(** The signal's domain, as the slot of [on_table_sought] finds it. *)
Definition bind_domain (on_table_sought : heap -> string -> option nat) (this : nat) (h : heap)
    : heap :=
  match signals h !! this with
  | Some s =>
      let tid := table_id (sig_metadata s) in
      let domain :=
        if bool_decide (tid = "") || bool_decide (tid = id s) then None
        else match on_table_sought h tid with
             | Some d => if decide (d = this) then None else Some d
             | None => None
             end in
      let domain_table := domain ≫= fun d => signals h !! d ≫= table in
      mk_heap (<[this := set_domain domain domain_table s]> (signals h)) (tables h) (next h)
  | None => h
  end.

Definition handle_signal (on_table_sought : heap -> string -> option nat) (this : nat)
    (params : json) (h : heap) : heap * list event :=
  match signals h !! this with
  | Some s =>
      let m := metadata params in
      let s := set_metadata m s in
      let s := set_sampling (bool_decide (rule m = explicit_rule)) (Metadata.sample_size m)
                 (value_or (Metadata.value_index m) (value_index s)) s in
      let h := bind_table this (mk_heap (<[this := s]> (signals h)) (tables h) (next h)) in
      (bind_domain on_table_sought this h, [on_metadata_changed this])
  | None => (h, [])
  end.

(** nlohmann's and boost's exceptions pass through, after the assignments made
    before them. *)
Definition handle_signal_rate (this : nat) (params : json) (s : remote_signal)
    : remote_signal * result ticks_error (list event) :=
  let m := metadata (set_tcp_signal_rate params (metadata_builder_from_json (sig_metadata s))) in
  let s := set_metadata m s in
  match tcp_signal_rate_ticks to_uint64 1 1000000000 m with
  | Ok dlt => (set_tcp dlt (tcp_time s) s, Ok [on_metadata_changed this])
  | Throw e => (s, Throw e)
  end.

Definition handle_data_params (this : nat) (params : json) (s : remote_signal)
    : remote_signal * result ticks_error (list event) :=
  match json_ptr get_string params ["valueType"] unknown_t,
        json_ptr get_string params ["endian"] endian_unknown with
  | Ok type, Ok e =>
      let m := metadata (set_endian e (set_data_type type
                 (metadata_builder_from_json (sig_metadata s)))) in
      (set_sampling (is_explicit s) (Metadata.sample_size m) (value_index s) (set_metadata m s),
       Ok [on_metadata_changed this])
  | Throw e, _ | _, Throw e => (s, Throw (ticks_json e))
  end.

(** ((2^31 + fraction) / 2^32 + seconds + 946684800) * 10^9, truncated *)
Definition time_nanoseconds (sec fraction : Z) : Z :=
  (2 ^ 31 + fraction + (sec + 946684800) * 2 ^ 32) * 1000000000 / 2 ^ 32.

Definition handle_time (params : json) (s : remote_signal)
    : remote_signal * result ticks_error (list event) :=
  match json_ptr get_uint32 params ["stamp"; "seconds"] 0,
        json_ptr get_uint32 params ["stamp"; "fraction"] 0 with
  | Ok sec, Ok fraction => (set_tcp (tcp_delta s) (to_uint64 (time_nanoseconds sec fraction)) s, Ok [])
  | Throw e, _ | _, Throw e => (s, Throw (ticks_json e))
  end.

(** ** handle_metadata, detach *)

(** A handler that touches only the signal itself, run on the heap. *)
Definition on_signal {E} (f : remote_signal -> remote_signal * E) (dflt : E) (this : nat) (h : heap)
    : heap * E :=
  match signals h !! this with
  | Some s => let '(s, e) := f s in (mk_heap (<[this := s]> (signals h)) (tables h) (next h), e)
  | None => (h, dflt)
  end.

Definition no_throw {E A} (x : heap * A) : heap * result E A := (x.1, Ok x.2).

Definition handle_metadata (on_table_sought : heap -> string -> option nat) (this : nat)
    (method : string) (params : json) (h : heap) : heap * result ticks_error (list event) :=
  if bool_decide (method = "subscribe") then no_throw (on_signal (handle_subscribe this) [] this h)
  else if bool_decide (method = "unsubscribe") then
    no_throw (on_signal (handle_unsubscribe this) [] this h)
  else if bool_decide (method = "signal") then no_throw (handle_signal on_table_sought this params h)
  else if bool_decide (method = "signalRate") then
    on_signal (handle_signal_rate this params) (Ok []) this h
  else if bool_decide (method = "data") then on_signal (handle_data_params this params) (Ok []) this h
  else if bool_decide (method = "time") then on_signal (handle_time params) (Ok []) this h
  else (h, Ok []).

Definition detach (this : nat) (s : remote_signal) : remote_signal * list event :=
  let '(s, es) :=
    if is_subscribed s then (set_signo 0 (set_subscribed false s), [on_unsubscribed this])
    else (s, []) in
  (set_domain None (domain_table s) s, es ++ [on_unavailable this]).

(** ** What the handlers leave alone

    No handler but [detach] changes a signal's id or number, creates or
    destroys a signal, or touches addresses not yet allocated. *)

Definition same_signal (s s' : remote_signal) : Prop := id s' = id s /\ signo s' = signo s.

Record similar (h h' : heap) : Prop := {
  sim_signals : forall p, option_Forall2 same_signal (signals h !! p) (signals h' !! p);
  sim_next : (next h <= next h')%nat;
  sim_tables : forall t, is_Some (tables h' !! t) -> is_Some (tables h !! t) \/ (t < next h')%nat
}.

#[export] Instance same_signal_refl : Reflexive same_signal.
Proof. done. Qed.

#[export] Instance same_signal_trans : Transitive same_signal.
Proof. intros x y z [? ?] [? ?]. split; congruence. Qed.

#[export] Instance same_option_refl : Reflexive (option_Forall2 same_signal).
Proof. intros [s|]; by constructor. Qed.

#[export] Instance same_option_trans : Transitive (option_Forall2 same_signal).
Proof.
  intros x y z [s1 s2 Hs|]; inversion 1; constructor. by etrans.
Qed.

#[export] Instance similar_refl : Reflexive similar.
Proof. intros h. split; [done|lia|by left]. Qed.

#[export] Instance similar_trans : Transitive similar.
Proof.
  intros h1 h2 h3 [S1 N1 T1] [S2 N2 T2]. split; [|lia|].
  - intros p. etrans; [apply S1|apply S2].
  - intros t Ht. destruct (T2 t Ht) as [H2|]; [|by right]. destruct (T1 t H2); [by left|right; lia].
Qed.

Lemma similar_update h this s s' tabs :
  signals h !! this = Some s -> same_signal s s' ->
  (forall t, is_Some (tabs !! t) -> is_Some (tables h !! t)) ->
  similar h (mk_heap (<[this := s']> (signals h)) tabs (next h)).
Proof.
  intros Hs Hss Ht. split; cbn; [|lia|by left; apply Ht]. intros p.
  destruct (decide (this = p)) as [<-|Hne].
  - rewrite lookup_insert_eq, Hs. by constructor.
  - by rewrite lookup_insert_ne.
Qed.

Lemma similar_tables h tabs :
  (forall t, is_Some (tabs !! t) -> is_Some (tables h !! t)) ->
  similar h (mk_heap (signals h) tabs (next h)).
Proof. intros Ht. split; cbn; [done|lia|by left; apply Ht]. Qed.

Lemma similar_signal h this s s' :
  signals h !! this = Some s -> same_signal s s' ->
  similar h (mk_heap (<[this := s']> (signals h)) (tables h) (next h)).
Proof. intros ? ?. by eapply similar_update. Qed.

Lemma is_Some_alter {A} (f : A -> A) i j (m : gmap nat A) : is_Some (alter f i m !! j) -> is_Some (m !! j).
Proof.
  destruct (decide (i = j)) as [<-|Hne].
  - rewrite lookup_alter_eq. by destruct (m !! i); intros [? [=]].
  - by rewrite lookup_alter_ne.
Qed.

Lemma is_Some_delete {A} i j (m : gmap nat A) : is_Some (delete i m !! j) -> is_Some (m !! j).
Proof. intros [x [_ H]%lookup_delete_Some]. by exists x. Qed.

Lemma on_signal_similar {E} (f : remote_signal -> remote_signal * E) dflt this h :
  (forall s, same_signal s (f s).1) -> similar h (on_signal f dflt this h).1.
Proof.
  intros Hf. unfold on_signal. destruct (signals h !! this) as [s|] eqn:Es; [|done].
  specialize (Hf s). destruct (f s) as [s' e]. cbn in *. by eapply similar_signal.
Qed.

Lemma handle_data_similar this data h : similar h (handle_data this data h).1.
Proof.
  unfold handle_data. destruct (signals h !! this) as [s|] eqn:Es; [|done].
  split_if; [done|]. split_if; [by eapply similar_signal|].
  destruct (table s) as [t|].
  - apply similar_tables. intros k. unfold handle_data_table. cbn. split_if; [apply is_Some_alter|done].
  - destruct (is_explicit s); [|done]. eapply similar_update; [done..|]. intros k.
    destruct (lock _ _) as [[a ?]|]; [apply is_Some_alter|done].
Qed.

Lemma bind_table_similar this h : similar h (bind_table this h).
Proof.
  unfold bind_table. destruct (signals h !! this) as [s|] eqn:Es; [|done].
  case_bool_decide; [destruct (table s) as [t|]|].
  - apply similar_tables. intros k. apply is_Some_alter.
  - split; cbn; [|lia|].
    + apply (sim_signals _ _ (similar_signal h this s (set_table (Some (next h)) s) Es
        (conj eq_refl eq_refl))).
    + intros k [t Ht]. apply lookup_insert_Some in Ht as [[<- _]|[_ Ht]]; [right; lia|left; by exists t].
  - eapply similar_update; [done..|]. intros k. destruct (table s); [apply is_Some_delete|done].
Qed.

Lemma bind_domain_similar seek this h : similar h (bind_domain seek this h).
Proof.
  unfold bind_domain. destruct (signals h !! this) as [s|] eqn:Es; [|done].
  by eapply similar_signal.
Qed.

Lemma handle_metadata_similar seek this method params h :
  similar h (handle_metadata seek this method params h).1.
Proof.
  unfold handle_metadata, no_throw.
  case_bool_decide; [|case_bool_decide; [|case_bool_decide; [|case_bool_decide; [|case_bool_decide;
    [|case_bool_decide; [|done]]]]]]; cbn.
  3: { unfold handle_signal. destruct (signals h !! this) as [s|] eqn:Es; [|done]. cbn.
       etrans; [|apply bind_domain_similar]. etrans; [|apply bind_table_similar].
       by eapply similar_signal. }
  all: apply on_signal_similar; intros s.
  - unfold handle_subscribe. by destruct (is_subscribed s).
  - unfold handle_unsubscribe. by destruct (is_subscribed s).
  - unfold handle_signal_rate. by destruct (tcp_signal_rate_ticks _ _ _ _).
  - unfold handle_data_params. by repeat case_match.
  - unfold handle_time. by repeat case_match.
Qed.

(** ** Subscription state

    What a handler raises about the subscription matches what it does to it. *)

Definition subs (h : heap) (p : nat) : option bool := is_subscribed <$> signals h !! p.

Lemma subs_insert h this s s' tabs n p :
  signals h !! this = Some s -> is_subscribed s' = is_subscribed s ->
  subs (mk_heap (<[this := s']> (signals h)) tabs n) p = subs h p.
Proof.
  intros Hs Hss. unfold subs. cbn. destruct (decide (this = p)) as [<-|Hne].
  - rewrite lookup_insert_eq, Hs. cbn. by rewrite Hss.
  - by rewrite lookup_insert_ne.
Qed.

Lemma handle_data_effect this data h :
  (forall p, subs (handle_data this data h).1 p = subs h p) /\
  ((handle_data this data h).2 = [] \/
   subs h this = Some true /\
   exists v n d, (handle_data this data h).2 = [on_data_received this v n d]).
Proof.
  unfold handle_data. destruct (signals h !! this) as [s|] eqn:Es; [|by split; [|left]].
  destruct (is_subscribed s) eqn:Esub; cbn [negb]; [|by split; [|left]].
  assert (Hsub : subs h this = Some true) by (unfold subs; by rewrite Es; cbn; f_equal).
  split_if; [|destruct (table s); [|destruct (is_explicit s)]].
  - split; [intros p; by apply (subs_insert _ _ s)|right; eauto].
  - split; [done|right; eauto].
  - split; [intros p; by apply (subs_insert _ _ s)|right; eauto].
  - unfold handle_data_implicit. split; [done|]. right. split; [done|]. cbn. split_if; eauto.
Qed.

Inductive metadata_effect (this : nat) (h h' : heap) : result ticks_error (list event) -> Prop :=
| effect_none r :
    (forall p, subs h' p = subs h p) ->
    (r = Ok [] \/ r = Ok [on_metadata_changed this] \/ exists e, r = Throw e) ->
    metadata_effect this h h' r
| effect_subscribed :
    subs h this = Some false -> subs h' this = Some true ->
    (forall p, p <> this -> subs h' p = subs h p) ->
    metadata_effect this h h' (Ok [on_subscribed this])
| effect_unsubscribed :
    subs h this = Some true -> subs h' this = Some false ->
    (forall p, p <> this -> subs h' p = subs h p) ->
    metadata_effect this h h' (Ok [on_unsubscribed this]).

Lemma subs_toggle h this s b p :
  signals h !! this = Some s ->
  subs (mk_heap (<[this := set_subscribed b s]> (signals h)) (tables h) (next h)) p
  = if decide (p = this) then Some b else subs h p.
Proof.
  intros Hs. unfold subs. cbn. destruct (decide (p = this)) as [->|Hne].
  - by rewrite lookup_insert_eq.
  - by rewrite lookup_insert_ne.
Qed.

Lemma on_signal_effect (f : remote_signal -> remote_signal * result ticks_error (list event)) this h :
  (forall s, is_subscribed (f s).1 = is_subscribed s /\
     ((f s).2 = Ok [] \/ (f s).2 = Ok [on_metadata_changed this] \/ exists e, (f s).2 = Throw e)) ->
  metadata_effect this h (on_signal f (Ok []) this h).1 (on_signal f (Ok []) this h).2.
Proof.
  intros Hf. unfold on_signal. destruct (signals h !! this) as [s|] eqn:Es.
  - destruct (Hf s) as [H1 H2]. destruct (f s) as [s' r]. cbn in *.
    apply effect_none; [|done]. intros p. by apply (subs_insert _ _ s).
  - apply effect_none; [done|by left].
Qed.

Lemma bind_table_subs this h p : subs (bind_table this h) p = subs h p.
Proof.
  unfold bind_table. destruct (signals h !! this) as [s|] eqn:Es; [|done].
  case_bool_decide; [destruct (table s); [done|]|]; by apply (subs_insert _ _ s).
Qed.

Lemma bind_domain_subs seek this h p : subs (bind_domain seek this h) p = subs h p.
Proof.
  unfold bind_domain. destruct (signals h !! this) as [s|] eqn:Es; [|done]. by apply (subs_insert _ _ s).
Qed.

Lemma handle_metadata_effect seek this method params h :
  metadata_effect this h (handle_metadata seek this method params h).1
    (handle_metadata seek this method params h).2.
Proof.
  unfold handle_metadata, no_throw.
  case_bool_decide; [|case_bool_decide; [|case_bool_decide; [|case_bool_decide; [|case_bool_decide;
    [|case_bool_decide; [|by apply effect_none; [|left]]]]]]]; cbn.
  4-6: apply on_signal_effect; intros s.
  - unfold on_signal, handle_subscribe. destruct (signals h !! this) as [s|] eqn:Es;
      [destruct (is_subscribed s) eqn:E|]; cbn; [apply effect_none; [|by left]| |by apply effect_none; [|left]].
    + intros p. by apply (subs_insert _ _ s).
    + apply effect_subscribed; [unfold subs; rewrite Es; cbn; by f_equal|by rewrite (subs_toggle _ _ s), decide_True|].
      intros p Hp. by rewrite (subs_toggle _ _ s), decide_False.
  - unfold on_signal, handle_unsubscribe. destruct (signals h !! this) as [s|] eqn:Es;
      [destruct (is_subscribed s) eqn:E|]; cbn; [|apply effect_none; [|by left]|by apply effect_none; [|left]].
    + apply effect_unsubscribed; [unfold subs; rewrite Es; cbn; by f_equal|by rewrite (subs_toggle _ _ s), decide_True|].
      intros p Hp. by rewrite (subs_toggle _ _ s), decide_False.
    + intros p. by apply (subs_insert _ _ s).
  - unfold handle_signal. destruct (signals h !! this) as [s|] eqn:Es; cbn; apply effect_none; auto.
    intros p. rewrite bind_domain_subs, bind_table_subs. by apply (subs_insert _ _ s).
  - unfold handle_signal_rate. destruct (tcp_signal_rate_ticks _ _ _ _); cbn; eauto.
  - unfold handle_data_params. repeat case_match; cbn; eauto.
  - unfold handle_time. repeat case_match; cbn; eauto.
Qed.

(** ** Direct TCP sampling *)

(** The data handler on a sequence of blocks. *)
Fixpoint handle_blocks (this : nat) (blocks : list (list Z)) (h : heap) : heap * list event :=
  match blocks with
  | [] => (h, [])
  | data :: blocks =>
      let '(h, es) := handle_data this data h in
      let '(h, es') := handle_blocks this blocks h in
      (h, es ++ es')
  end.

(** Blocks of whole samples placed one after another on a time axis. *)
Fixpoint timeline (this : nat) (time dlt size : Z) (blocks : list (list Z)) : list event :=
  match blocks with
  | [] => []
  | data :: blocks =>
      let n := size_of data / size in
      on_data_received this time n data :: timeline this (time + dlt * n) dlt size blocks
  end.

Fixpoint samples (size : Z) (blocks : list (list Z)) : Z :=
  match blocks with
  | [] => 0
  | data :: blocks => size_of data / size + samples size blocks
  end.

Lemma samples_nonneg size blocks : 0 < size -> 0 <= samples size blocks.
Proof.
  intros. induction blocks as [|d ds IH]; cbn; [lia|].
  pose proof (Z.div_pos (size_of d) size (size_of_nonneg d) ltac:(done)). lia.
Qed.

Lemma handle_data_tcp_exact this data h s :
  signals h !! this = Some s -> is_subscribed s = true -> 0 < tcp_delta s -> 0 < sample_size s ->
  0 <= tcp_time s -> tcp_time s + tcp_delta s * (size_of data / sample_size s) < 2 ^ 63 ->
  handle_data this data h
  = (mk_heap (<[this := set_tcp (tcp_delta s)
                          (tcp_time s + tcp_delta s * (size_of data / sample_size s)) s]> (signals h))
       (tables h) (next h),
     [on_data_received this (tcp_time s) (size_of data / sample_size s) data]).
Proof.
  intros Hs Hsub Hd Hss Ht Hfit. unfold handle_data. rewrite Hs, Hsub. cbn [negb].
  destruct (Z.eqb_spec (tcp_delta s) 0); [lia|]. cbn [negb]. unfold handle_data_tcp, data_samples.
  destruct (Z.eqb_spec (sample_size s) 0); [lia|]. cbn [negb].
  pose proof (Z.div_pos (size_of data) (sample_size s) (size_of_nonneg data) ltac:(done)) as Hn.
  set (k := size_of data / sample_size s) in *.
  assert (k <= tcp_delta s * k) by nia.
  rewrite (swrap_small 64 k), (wrap_small 64 k), (wrap_small 64 (_ + _)), (swrap_small 64 (tcp_time s))
    by (unfold in_s, in_u; lia). done.
Qed.
End RemoteSignal.

(** ** Properties *)

(** Data received over the direct TCP protocol is placed without gaps or
    overlaps on the time axis: each block of data is delivered with its number
    of samples and, as its domain value, the time last announced plus one
    sample interval for every sample delivered since, as long as the time fits
    in 63 bits. *)
Theorem tcp_blocks_contiguous `{JL : JsonLib} this blocks : forall h s,
  signals h !! this = Some s -> is_subscribed s = true -> 0 < tcp_delta s -> 0 < sample_size s ->
  0 <= tcp_time s -> tcp_time s + tcp_delta s * samples (sample_size s) blocks < 2 ^ 63 ->
  let '(h', events) := handle_blocks this blocks h in
  events = timeline this (tcp_time s) (tcp_delta s) (sample_size s) blocks /\
  signals h' !! this
  = Some (set_tcp (tcp_delta s) (tcp_time s + tcp_delta s * samples (sample_size s) blocks) s).
Proof.
  induction blocks as [|data blocks IH]; intros h s Hs Hsub Hd Hss Ht Hfit; cbn in *.
  - rewrite Z.mul_0_r, Z.add_0_r, Hs. by destruct s.
  - pose proof (samples_nonneg (sample_size s) blocks Hss) as Hn.
    rewrite (handle_data_tcp_exact this data h s) by (done || nia).
    set (n := size_of data / sample_size s) in *.
    pose proof (Z.div_pos (size_of data) (sample_size s) (size_of_nonneg data) ltac:(done)) as Hn'.
    specialize (IH (mk_heap (<[this := set_tcp (tcp_delta s) (tcp_time s + tcp_delta s * n) s]>
      (signals h)) (tables h) (next h)) (set_tcp (tcp_delta s) (tcp_time s + tcp_delta s * n) s)).
    destruct (handle_blocks _ _ _) as [h' es]. cbn in *.
    destruct IH as [-> ->]; [by rewrite lookup_insert_eq|done..|nia|nia|]. split; [done|].
    by rewrite Z.mul_add_distr_l, Z.add_assoc.
Qed.

#[local] Existing Instance jv_json.

Lemma tcp_blocks_contiguous_witness :
  let s := mk_remote "s" true 1 default_metadata 0 None None None true 2 0 1000 5 in
  let h := mk_heap {[ 0%nat := s ]} ∅ 1 in
  (handle_blocks 0 [[1; 2; 3; 4]; [5; 6]; [7; 8]] h).2
  = [on_data_received 0 5 2 [1; 2; 3; 4]; on_data_received 0 2005 1 [5; 6];
     on_data_received 0 3005 1 [7; 8]].
Proof.
  intros s h.
  pose proof (tcp_blocks_contiguous 0 [[1; 2; 3; 4]; [5; 6]; [7; 8]] h s ltac:(done) ltac:(done)
    ltac:(done) ltac:(done) ltac:(done) ltac:(done)) as H.
  destruct (handle_blocks _ _ _) as [h' es]. by destruct H as [-> _].
Defined.

(** The time announced over the direct TCP protocol is kept in nanoseconds
    half a second late: the term added to round the fraction is half a second
    and not half a nanosecond. *)
Theorem tcp_time_half_second_late sec fraction :
  time_nanoseconds sec fraction
  = ((sec + 946684800) * 2 ^ 32 + fraction) * 1000000000 / 2 ^ 32 + 500000000.
Proof.
  unfold time_nanoseconds. rewrite <- Z.div_add by lia. f_equal. lia.
Qed.
