(* ===== verification/RemoteSignalContainer.v ===== *)
(** * The container of remote signals

    [src/detail/remote_signal_container.cpp] and
    [include/ws-streaming/detail/remote_signal_container.hpp].  An entry of
    [_signals_by_id] is a node of the map and owns the signal constructed with
    it, so one address identifies both.  [_signals_by_signo] holds raw pointers
    to entries: a pointer whose entry has been erased dangles, and using it is
    the failure [entry_at] reports as [None]. *)
From S2P Require Import Prelude Json OrderedMap LinearTable RemoteSignal.

Record remote_signal_entry := mk_entry { hidden : bool; signal : nat }.

#[export] Instance remote_signal_entry_eq_dec : EqDecision remote_signal_entry.
Proof. solve_decision. Defined.

Section RemoteSignalContainer.
Context `{JL : JsonLib}.

Record container := mk_container {
  store : heap;
  signals_by_id : gmap string remote_signal_entry;
  signals_by_signo : gmap Z nat
}.

Definition set_store (h : heap) (c : container) : container :=
  mk_container h (signals_by_id c) (signals_by_signo c).

Definition empty_container : container := mk_container (mk_heap ∅ ∅ 0) ∅ ∅.

(** The entry a pointer refers to, if it still exists. *)
Definition entry_at (p : nat) (c : container) : option (string * remote_signal_entry) :=
  find_if (fun e => bool_decide (signal e = p)) (signals_by_id c).

Definition add_remote_signal (sid : string) (hid : bool) (c : container)
    : bool * remote_signal_entry * container :=
  match signals_by_id c !! sid with
  | Some e => (false, e, c)
  | None =>
      let p := next (store c) in
      let e := mk_entry hid p in
      (true, e,
       mk_container (mk_heap (<[p := make sid]> (signals (store c))) (tables (store c)) (S p))
         (<[sid := e]> (signals_by_id c)) (signals_by_signo c))
  end.

Definition find_remote_signal (sid : string) (c : container) : option remote_signal_entry :=
  signals_by_id c !! sid.

(** The table a signal owns. *)
Definition table_of (h : heap) (p : nat) : option linear_table :=
  match signals h !! p with
  | Some s => if table s is Some t then tables h !! t else None
  | None => None
  end.

Definition has_table_id (h : heap) (tid : string) (e : remote_signal_entry) : bool :=
  match table_of h (signal e) with
  | Some t => bool_decide (table_name t <> "") && bool_decide (table_name t = tid)
  | None => false
  end.

Definition find_table (tid : string) (c : container) : option remote_signal_entry :=
  snd <$> find_if (has_table_id (store c) tid) (signals_by_id c).

(** The pointer [find_remote_signal(signo)] returns. *)
Definition find_signo (n : Z) (c : container) : option nat := signals_by_signo c !! n.

Definition forget_remote_signo (n : Z) (c : container) : container :=
  mk_container (store c) (signals_by_id c) (delete n (signals_by_signo c)).

Definition remove_remote_signal (sid : string) (c : container) : option nat * container :=
  match signals_by_id c !! sid with
  | None => (None, c)
  | Some e =>
      let n := if signals (store c) !! signal e is Some s then signo s else 0 in
      (Some (signal e),
       mk_container (store c) (delete sid (signals_by_id c)) (delete n (signals_by_signo c)))
  end.

Definition set_remote_signal_signo (p : nat) (n : Z) (c : container) : container :=
  let h := store c in
  mk_container (mk_heap (alter (set_signo n) p (signals h)) (tables h) (next h))
    (signals_by_id c) (<[n := p]> (signals_by_signo c)).

Definition detach_signal (p : nat) (c : container) : container * list event :=
  let '(h, es) := on_signal (detach p) [] p (store c) in (set_store h c, es).

(** Detaches the signals of a list in order. *)
Fixpoint detach_all (ps : list nat) (c : container) : container * list event :=
  match ps with
  | [] => (c, [])
  | p :: ps =>
      let '(c, es) := detach_signal p c in
      let '(c, es') := detach_all ps c in
      (c, es ++ es')
  end.

(** The signals [func] is called for are returned. *)
Definition clear_remote_signals (c : container) : container * list event * list nat :=
  let old := (items (signals_by_id c)).*2 in
  let '(c, es) := detach_all (signal <$> old) (mk_container (store c) ∅ ∅) in
  (c, es, signal <$> List.filter (fun e => negb (hidden e)) old).

(** ** Well-formedness

    Every entry owns a signal of its id at an address of its own, tables are
    owned by one signal, and every pointer kept by signal number refers to an
    entry whose signal carries that number. *)
Record well_formed (c : container) : Prop := {
  wf_fresh : forall p, is_Some (signals (store c) !! p) -> (p < next (store c))%nat;
  wf_tables_fresh : forall t, is_Some (tables (store c) !! t) -> (t < next (store c))%nat;
  wf_owned : forall sid e, signals_by_id c !! sid = Some e ->
    exists s, signals (store c) !! signal e = Some s /\ id s = sid;
  wf_distinct : forall sid sid' e e', signals_by_id c !! sid = Some e ->
    signals_by_id c !! sid' = Some e' -> signal e = signal e' -> sid = sid';
  wf_signo : forall n p, signals_by_signo c !! n = Some p ->
    exists sid e s, signals_by_id c !! sid = Some e /\ signal e = p /\
      signals (store c) !! p = Some s /\ signo s = n
}.

Lemma well_formed_empty : well_formed empty_container.
Proof. split; cbn; intros *; rewrite lookup_empty; (done || by intros [? [=]]). Qed.

(** The same without what is kept by signal number. *)
Definition unnumbered (c : container) : container := mk_container (store c) (signals_by_id c) ∅.

Definition owned (c : container) : Prop := well_formed (unnumbered c).

Lemma well_formed_owned c : well_formed c -> owned c.
Proof. intros []. by split. Qed.

Lemma entry_at_some p c sid e : entry_at p c = Some (sid, e) -> signals_by_id c !! sid = Some e /\ signal e = p.
Proof. intros [H1 H2%bool_decide_eq_true]%find_if_some. done. Qed.

Lemma entry_at_live p c sid e :
  well_formed c -> signals_by_id c !! sid = Some e -> signal e = p -> entry_at p c = Some (sid, e).
Proof.
  intros Hc He Hp. apply find_if_unique; [done|by apply bool_decide_true|].
  intros sid' e' He' Hp'%bool_decide_eq_true. eapply wf_distinct; [done..|congruence].
Qed.

(** A pointer found by signal number does not dangle. *)
Lemma signo_live n p c :
  well_formed c -> find_signo n c = Some p -> exists sid e, entry_at p c = Some (sid, e).
Proof.
  intros Hc Hn. destruct (wf_signo c Hc n p Hn) as (sid & e & s & He & Hp & _).
  exists sid, e. by eapply entry_at_live.
Qed.

Lemma similar_lookup h h' p s :
  similar h h' -> signals h !! p = Some s ->
  exists s', signals h' !! p = Some s' /\ id s' = id s /\ signo s' = signo s.
Proof.
  intros Hh Hs. pose proof (sim_signals _ _ Hh p) as Hp. rewrite Hs in Hp.
  inversion Hp as [? s' [? ?]|]; subst. by exists s'.
Qed.

Lemma similar_is_Some h h' p : similar h h' -> is_Some (signals h' !! p) -> is_Some (signals h !! p).
Proof.
  intros Hh [s' Hs']. pose proof (sim_signals _ _ Hh p) as Hp. rewrite Hs' in Hp.
  inversion Hp as [s ? ?|]; subst. by exists s.
Qed.

Lemma set_store_wf h c : well_formed c -> similar (store c) h -> well_formed (set_store h c).
Proof.
  intros [F T O D N] Hh. split; cbn.
  - intros p Hp%(similar_is_Some _ _ _ Hh). pose proof (F p Hp). pose proof (sim_next _ _ Hh). lia.
  - intros t Ht. pose proof (sim_next _ _ Hh). destruct (sim_tables _ _ Hh t Ht) as [Ht'|]; [|done].
    pose proof (T t Ht'). lia.
  - intros sid e He. destruct (O sid e He) as (s & Hs & <-).
    destruct (similar_lookup _ _ _ _ Hh Hs) as (s' & Hs' & ? & _). by exists s'.
  - apply D.
  - intros n p Hn. destruct (N n p Hn) as (sid & e & s & He & Hp & Hs & <-).
    destruct (similar_lookup _ _ _ _ Hh Hs) as (s' & Hs' & ? & ?). by exists sid, e, s'.
Qed.

Lemma add_remote_signal_wf sid hid c :
  well_formed c -> well_formed (add_remote_signal sid hid c).2.
Proof.
  intros Hc. unfold add_remote_signal. destruct (signals_by_id c !! sid) as [e|] eqn:E; [done|].
  destruct Hc as [F T O D N]. split; cbn.
  - intros p [s Hs]. apply lookup_insert_Some in Hs as [[<- _]|[_ Hs]]; [lia|].
    pose proof (F p (ex_intro _ s Hs)). lia.
  - intros t Ht. pose proof (T t Ht). lia.
  - intros sid' e' He'. apply lookup_insert_Some in He' as [[<- <-]|[Hne He']].
    + eexists. by rewrite lookup_insert_eq.
    + destruct (O sid' e' He') as (s & Hs & ?). exists s. split; [|done].
      rewrite lookup_insert_ne; [done|]. pose proof (F _ (ex_intro _ s Hs)). lia.
  - intros s1 s2 e1 e2 H1 H2 Heq.
    apply lookup_insert_Some in H1 as [[<- <-]|[_ H1]], H2 as [[<- <-]|[_ H2]]; try done.
    + destruct (O s2 e2 H2) as (s & Hs & _). pose proof (F _ (ex_intro _ s Hs)). cbn in Heq. lia.
    + destruct (O s1 e1 H1) as (s & Hs & _). pose proof (F _ (ex_intro _ s Hs)). cbn in Heq. lia.
    + by eapply D.
  - intros n p Hn. destruct (N n p Hn) as (sid' & e' & s & He' & Hp & Hs & Hsn).
    exists sid', e', s. rewrite !lookup_insert_ne; [done|..]; [pose proof (F _ (ex_intro _ s Hs)); lia|congruence].
Qed.

Lemma add_remote_signal_entry sid hid c :
  let '(_, e, c') := add_remote_signal sid hid c in signals_by_id c' !! sid = Some e.
Proof.
  unfold add_remote_signal. destruct (signals_by_id c !! sid) eqn:E; [done|]. cbn.
  by rewrite lookup_insert_eq.
Qed.

Lemma set_hidden_wf sid b c :
  well_formed c ->
  well_formed (mk_container (store c) (alter (fun e => mk_entry b (signal e)) sid (signals_by_id c))
    (signals_by_signo c)).
Proof.
  intros [F T O D N].
  assert (Hl : forall k e, alter (fun e => mk_entry b (signal e)) sid (signals_by_id c) !! k = Some e ->
    exists e', signals_by_id c !! k = Some e' /\ signal e' = signal e).
  { intros k e Hk. destruct (decide (sid = k)) as [<-|Hne].
    - rewrite lookup_alter_eq in Hk. apply fmap_Some in Hk as (e' & He' & ->). by exists e'.
    - rewrite lookup_alter_ne in Hk by done. by exists e. }
  split; cbn; [done..| | |].
  - intros k e Hk. destruct (Hl k e Hk) as (e' & He' & <-). by apply O.
  - intros k k' e1 e2 H1 H2 Heq. destruct (Hl _ _ H1) as (e1' & ? & ?), (Hl _ _ H2) as (e2' & ? & ?).
    eapply D; [done..|congruence].
  - intros n p Hn. destruct (N n p Hn) as (k & e & s & He & Hp & Hs).
    destruct (decide (sid = k)) as [->|Hne].
    + exists k, (mk_entry b (signal e)), s. by rewrite lookup_alter_eq, He.
    + exists k, e, s. by rewrite lookup_alter_ne.
Qed.

Lemma forget_remote_signo_wf n c : well_formed c -> well_formed (forget_remote_signo n c).
Proof.
  intros [F T O D N]. split; cbn; [done..|].
  intros n' p [_ Hn]%lookup_delete_Some. by apply N.
Qed.

(** Giving an entry a number keeps the container well formed when no other
    number refers to it. *)
Lemma set_remote_signal_signo_wf sid e n c :
  well_formed c -> signals_by_id c !! sid = Some e ->
  (forall n', signals_by_signo c !! n' = Some (signal e) -> n' = n) ->
  well_formed (set_remote_signal_signo (signal e) n c).
Proof.
  intros [F T O D N] He Hn. unfold set_remote_signal_signo.
  assert (Hl : forall p s, signals (store c) !! p = Some s -> exists s',
    alter (set_signo n) (signal e) (signals (store c)) !! p = Some s' /\ id s' = id s /\
    (p = signal e -> signo s' = n) /\ (p <> signal e -> s' = s)).
  { intros p s Hs. destruct (decide (signal e = p)) as [<-|Hne].
    - exists (set_signo n s). by rewrite lookup_alter_eq, Hs.
    - exists s. by rewrite lookup_alter_ne. }
  split; cbn.
  - intros p Hp%is_Some_alter. by apply F.
  - done.
  - intros k e' He'. destruct (O k e' He') as (s & Hs & <-).
    destruct (Hl _ _ Hs) as (s' & Hs' & ? & _). by exists s'.
  - apply D.
  - intros n' p Hn'. apply lookup_insert_Some in Hn' as [[<- <-]|[Hne Hn']].
    + destruct (O sid e He) as (s & Hs & _). destruct (Hl _ _ Hs) as (s' & Hs' & _ & ? & _).
      exists sid, e, s'. eauto.
    + destruct (N n' p Hn') as (k & e' & s & He' & Hp & Hs & Hsn).
      assert (p <> signal e) by (intros ->; by apply Hne; symmetry; apply Hn).
      destruct (Hl _ _ Hs) as (s' & Hs' & _ & _ & E). rewrite E in Hs' by done. by exists k, e', s.
Qed.

(** [p] is not the address of an entry. *)
Definition erased (p : nat) (c : container) : Prop :=
  forall sid e, signals_by_id c !! sid = Some e -> signal e <> p.

Lemma erased_entry_at p c : erased p c -> entry_at p c = None.
Proof.
  intros Hp. destruct (entry_at p c) as [[sid e]|] eqn:E; [|done].
  apply entry_at_some in E as [He <-]. by destruct (Hp sid e He).
Qed.

Lemma remove_remote_signal_wf sid e c :
  well_formed c -> signals_by_id c !! sid = Some e ->
  well_formed (remove_remote_signal sid c).2 /\ erased (signal e) (remove_remote_signal sid c).2.
Proof.
  intros [F T O D N] He. unfold remove_remote_signal. rewrite He. cbn.
  destruct (O sid e He) as (s & Hs & _). rewrite Hs. split.
  - split; cbn; [done..| | |].
    + intros k e' [_ Hk]%lookup_delete_Some. by apply O.
    + intros k k' e1 e2 [_ H1]%lookup_delete_Some [_ H2]%lookup_delete_Some. by apply D.
    + intros n p [Hne Hn]%lookup_delete_Some. destruct (N n p Hn) as (k & e' & s' & He' & Hp & Hs' & Hsn).
      exists k, e', s'. rewrite lookup_delete_ne; [done|]. intros <-. congruence.
  - intros k e'. cbn. intros [Hne Hk]%lookup_delete_Some Heq. apply Hne. by eapply D.
Qed.

Lemma detach_signal_lookup p q c :
  p <> q -> signals (store (detach_signal p c).1) !! q = signals (store c) !! q.
Proof.
  intros Hne. unfold detach_signal, on_signal. destruct (signals (store c) !! p) as [s|]; [|done].
  destruct (detach p s) as [s' es]. cbn. by rewrite lookup_insert_ne.
Qed.

Lemma detach_signal_same p c :
  signals_by_id (detach_signal p c).1 = signals_by_id c /\
  signals_by_signo (detach_signal p c).1 = signals_by_signo c /\
  tables (store (detach_signal p c).1) = tables (store c) /\
  next (store (detach_signal p c).1) = next (store c) /\
  (forall q, is_Some (signals (store (detach_signal p c).1) !! q) <-> is_Some (signals (store c) !! q)).
Proof.
  unfold detach_signal, on_signal. destruct (signals (store c) !! p) as [s|] eqn:E; [|done].
  destruct (detach p s) as [s' es]. cbn. split_and!; [done..|]. intros q.
  destruct (decide (p = q)) as [<-|Hne]; [by rewrite lookup_insert_eq, E|by rewrite lookup_insert_ne].
Qed.

Lemma detach_signal_wf p c : well_formed c -> erased p c -> well_formed (detach_signal p c).1.
Proof.
  intros [F T O D N] Hp.
  destruct (detach_signal_same p c) as (Ei & En & Et & Ex & Es).
  split; rewrite ?Ei, ?En, ?Et, ?Ex; [|done|..].
  - intros q Hq%Es. by apply F.
  - intros k e He. rewrite detach_signal_lookup; [by apply O|]. intros Heq. by apply (Hp k e He).
  - done.
  - intros n q Hn. destruct (N n q Hn) as (k & e & s & He & Hq & Hs & ?). exists k, e, s.
    rewrite detach_signal_lookup; [done|]. intros ->. by apply (Hp k e He).
Qed.

Lemma detach_signal_erased p q c : erased q c -> erased q (detach_signal p c).1.
Proof. intros Hq k e. destruct (detach_signal_same p c) as (-> & _). apply Hq. Qed.

Lemma detach_all_wf ps : forall c,
  well_formed c -> (forall p, p ∈ ps -> erased p c) -> well_formed (detach_all ps c).1.
Proof.
  induction ps as [|p ps IH]; intros c Hc Hps; [done|]. cbn.
  destruct (detach_signal p c) as [c1 es] eqn:E1.
  assert (c1 = (detach_signal p c).1) as -> by by rewrite E1.
  specialize (IH (detach_signal p c).1). destruct (detach_all ps _) as [c2 es']. cbn in *. apply IH.
  - apply detach_signal_wf; [done|]. apply Hps. by left.
  - intros q Hq. apply detach_signal_erased, Hps. by right.
Qed.

Lemma clear_remote_signals_wf c : well_formed c -> well_formed (clear_remote_signals c).1.1.
Proof.
  intros [F T O D N]. unfold clear_remote_signals.
  pose proof (detach_all_wf (signal <$> (items (signals_by_id c)).*2) (mk_container (store c) ∅ ∅)) as Hd.
  destruct (detach_all _ _) as [c' es]. cbn in *. apply Hd.
  - split; cbn; [done..| | |]; intros *; rewrite lookup_empty; done.
  - intros p _ k e. cbn. by rewrite lookup_empty.
Qed.
End RemoteSignalContainer.
