(* ===== verification/Receiver.v ===== *)
(** * The receiving side of a connection

    The handlers of [src/connection.cpp] for what a peer sends about its own
    signals: data, metadata, and the [available], [unavailable], [subscribe]
    and [unsubscribe] messages, together with the cleanup when the peer closes.
    A handler returns the notices it raises (the events of remote signals and
    the connection's own [on_available] and [on_unavailable]) and, when an
    exception leaves it or it uses an erased entry, the failure. *)
From S2P Require Import Prelude Json Metadata OrderedMap RemoteSignal RemoteSignalContainer.

Inductive notice : Type :=
| signal_event (e : event)
| on_available (s : nat)
| on_unavailable_signal (s : nat).

(** [use_after_free]: the entry a signal number refers to has been erased. *)
Inductive failure : Type :=
| use_after_free (signo : Z)
| metadata_exception (e : ticks_error).

#[export] Instance notice_eq_dec : EqDecision notice.
Proof. solve_decision. Defined.

Section Receiver.
Context `{JL : JsonLib}.
Context (to_uint64 : Z -> Z).

Definition outcome : Type := container * list notice * option failure.

Definition quiet (c : container) : outcome := (c, [], None).

(** ** Data and metadata of a signal *)

(** [_signals_by_signo] gives a pointer, which is then used. *)
Definition on_peer_data_received (n : Z) (data : list Z) (c : container) : outcome :=
  match find_signo n c with
  | None => quiet c
  | Some p =>
      match entry_at p c with
      | None => (c, [], Some (use_after_free n))
      | Some _ =>
          let '(h, es) := handle_data p data (store c) in (set_store h c, signal_event <$> es, None)
      end
  end.

(** The slot of [on_table_sought]. *)
Definition on_table_sought (c : container) (h : heap) (tid : string) : option nat :=
  signal <$> find_table tid (set_store h c).

Definition handle_metadata_at (p : nat) (method : string) (params : json) (c : container) : outcome :=
  let '(h, r) := handle_metadata to_uint64 (on_table_sought c) p method params (store c) in
  match r with
  | Ok es => (set_store h c, signal_event <$> es, None)
  | Throw e => (set_store h c, [], Some (metadata_exception e))
  end.

Definition dispatch_metadata (n : Z) (method : string) (params : json) (c : container) : outcome :=
  match find_signo n c with
  | None => quiet c
  | Some p =>
      match entry_at p c with
      | None => (c, [], Some (use_after_free n))
      | Some _ => handle_metadata_at p method params c
      end
  end.

(** ** Advertisement *)

(** The array of signal ids of an [available] or [unavailable] message. *)
Definition signal_ids (params : json) : option (list json) :=
  if is_object params && contains params "signalIds" && is_array (field params "signalIds")
  then Some (elements (field params "signalIds"))
  else if is_array params then Some (elements params)
  else None.

Definition set_hidden (sid : string) (b : bool) (c : container) : container :=
  mk_container (store c) (alter (fun e => mk_entry b (signal e)) sid (signals_by_id c))
    (signals_by_signo c).

(** One id of [handle_available]. *)
Definition make_available (j : json) (c : container) : container * list notice :=
  if is_string j then
    let sid := string_of j in
    let '(added, e, c) := add_remote_signal sid false c in
    if negb added && negb (hidden e) then (c, [])
    else (set_hidden sid false c, [on_available (signal e)])
  else (c, []).

(** One id of [handle_unavailable]. *)
Definition make_unavailable (j : json) (c : container) : container * list notice :=
  if is_string j then
    let sid := string_of j in
    let hid := if find_remote_signal sid c is Some e then hidden e else false in
    match remove_remote_signal sid c with
    | (Some p, c) =>
        let '(c, es) := detach_signal p c in
        (c, (signal_event <$> es) ++ (if hid then [] else [on_unavailable_signal p]))
    | (None, c) => (c, [])
    end
  else (c, []).

Fixpoint for_each (f : json -> container -> container * list notice) (ids : list json)
    (c : container) : container * list notice :=
  match ids with
  | [] => (c, [])
  | j :: ids =>
      let '(c, es) := f j c in
      let '(c, es') := for_each f ids c in
      (c, es ++ es')
  end.

Definition handle_available (params : json) (c : container) : outcome :=
  match signal_ids params with
  | Some ids => let '(c, es) := for_each make_available ids c in (c, es, None)
  | None => quiet c
  end.

Definition handle_unavailable (params : json) (c : container) : outcome :=
  match signal_ids params with
  | Some ids => let '(c, es) := for_each make_unavailable ids c in (c, es, None)
  | None => quiet c
  end.

(** ** Subscription *)

(** The signal id of a [subscribe] message. *)
Definition subscribed_id (params : json) : string :=
  if is_object params && contains params "signalId" && is_string (field params "signalId")
  then string_of (field params "signalId")
  else match elements params with
       | j :: _ => if is_string j then string_of j else ""
       | [] => ""
       end.

Definition handle_subscribe (n : Z) (params : json) (c : container) : outcome :=
  let sid := subscribed_id params in
  if bool_decide (sid = "") then quiet c
  else
    let '(_, e, c) := add_remote_signal sid true c in
    handle_metadata_at (signal e) "subscribe" params (set_remote_signal_signo (signal e) n c).

Definition handle_unsubscribe (n : Z) (params : json) (c : container) : outcome :=
  let '(c, es, err) := dispatch_metadata n "unsubscribe" params c in
  match err with
  | None => (forget_remote_signo n c, es, None)
  | Some _ => (c, es, err)
  end.

(** ** Metadata messages about signals

    The part of [on_peer_metadata_received] that concerns remote signals. *)
Definition on_peer_signal_metadata (n : Z) (method : string) (params : json) (c : container) : outcome :=
  if bool_decide (method = "subscribe") then handle_subscribe n params c
  else if bool_decide (method = "unsubscribe") then handle_unsubscribe n params c
  else if negb (n =? 0) then dispatch_metadata n method params c
  else if bool_decide (method = "available") then handle_available params c
  else if bool_decide (method = "unavailable") then handle_unavailable params c
  else quiet c.

(** The remote part of [on_peer_closed]. *)
Definition clear (c : container) : container * list notice :=
  let '(c, es, announced) := clear_remote_signals c in
  (c, (signal_event <$> es) ++ (on_unavailable_signal <$> announced)).

(** ** Traffic *)

Inductive traffic : Type :=
| data_in (signo : Z) (data : list Z)
| metadata_in (signo : Z) (method : string) (params : json).

Definition receive (t : traffic) (c : container) : outcome :=
  match t with
  | data_in n data => on_peer_data_received n data c
  | metadata_in n method params => on_peer_signal_metadata n method params c
  end.

(** A session goes on until the first failure. *)
Fixpoint session (ts : list traffic) (c : container) : outcome :=
  match ts with
  | [] => quiet c
  | t :: ts =>
      match receive t c with
      | (c, es, None) => let '(c, es', err) := session ts c in (c, es ++ es', err)
      | r => r
      end
  end.

(** The discipline a peer keeps: it does not give a signal a second number
    while the first one is in use. *)
Definition keeps_number (t : traffic) (c : container) : bool :=
  match t with
  | metadata_in n method params =>
      if bool_decide (method = "subscribe") then
        match signals_by_id c !! subscribed_id params with
        | Some e => bool_decide (map_Forall (fun n' p => p = signal e -> n' = n) (signals_by_signo c))
        | None => true
        end
      else true
  | data_in _ _ => true
  end.

Fixpoint disciplined (ts : list traffic) (c : container) : bool :=
  match ts with
  | [] => true
  | t :: ts =>
      keeps_number t c &&
      (if receive t c is (c, _, None) then disciplined ts c else true)
  end.

(** ** What the application sees of a signal

    [phase] is the state of a signal as its notices tell it: [Live] while its
    entry exists, whether it is subscribed and whether it was announced;
    [Detached] afterwards, and whether it still has to be withdrawn. *)
Inductive phase : Type :=
| Live (subscribed announced : bool)
| Detached (announced : bool).

(** [None]: the notice is out of place. *)
Definition step_phase (p : nat) (ph : option phase) (x : notice) : option phase :=
  match ph with
  | None => None
  | Some ph =>
      match x with
      | signal_event (on_subscribed q) =>
          if decide (q = p) then if ph is Live false a then Some (Live true a) else None else Some ph
      | signal_event (on_unsubscribed q) =>
          if decide (q = p) then if ph is Live true a then Some (Live false a) else None else Some ph
      | signal_event (on_metadata_changed q) =>
          if decide (q = p) then if ph is Live s a then Some (Live s a) else None else Some ph
      | signal_event (on_data_received q _ _ _) =>
          if decide (q = p) then if ph is Live true a then Some (Live true a) else None else Some ph
      | signal_event (RemoteSignal.on_unavailable q) =>
          if decide (q = p) then if ph is Live false a then Some (Detached a) else None else Some ph
      | on_available q =>
          if decide (q = p) then if ph is Live s false then Some (Live s true) else None else Some ph
      | on_unavailable_signal q =>
          if decide (q = p) then if ph is Detached true then Some (Detached false) else None
          else Some ph
      | signal_event (on_subscribe_requested _) | signal_event (on_unsubscribe_requested _) => Some ph
      end
  end.

Definition phase_of (p : nat) (es : list notice) : option phase :=
  fold_left (step_phase p) es (Some (Live false false)).

(** The phase the container's state stands for. *)
Definition expected (p : nat) (c : container) : phase :=
  match subs (store c) p with
  | None => Live false false
  | Some s =>
      match entry_at p c with
      | Some (_, e) => Live s (negb (hidden e))
      | None => Detached false
      end
  end.

(** The notices [es] lead from [c] to [c']. *)
Definition leads (c : container) (es : list notice) (c' : container) : Prop :=
  forall p, fold_left (step_phase p) es (Some (expected p c)) = Some (expected p c').

(** A step that keeps the container well formed and raises matching notices. *)
Definition sound (c : container) (o : outcome) : Prop :=
  let '(c', es, err) := o in
  well_formed c' /\ leads c es c' /\ forall n, err <> Some (use_after_free n).

Lemma leads_nil c c' : (forall p, expected p c = expected p c') -> leads c [] c'.
Proof. intros H p. cbn. by rewrite H. Qed.

Lemma leads_app c es c' es' c'' : leads c es c' -> leads c' es' c'' -> leads c (es ++ es') c''.
Proof. intros H1 H2 p. by rewrite fold_left_app, H1, H2. Qed.

Lemma expected_eq p c c' :
  subs (store c) p = subs (store c') p -> signals_by_id c = signals_by_id c' ->
  expected p c = expected p c'.
Proof. intros H1 H2. unfold expected, entry_at. by rewrite H1, H2. Qed.

(** Notices about [this] only, which is a live entry. *)
Lemma leads_one c es c' this :
  signals_by_id c' = signals_by_id c ->
  (forall p, p <> this -> subs (store c') p = subs (store c) p) ->
  (forall p ph, p <> this -> fold_left (step_phase p) es (Some ph) = Some ph) ->
  fold_left (step_phase this) es (Some (expected this c)) = Some (expected this c') ->
  leads c es c'.
Proof.
  intros Hid Hs He Ht p. destruct (decide (p = this)) as [->|Hne]; [done|].
  rewrite He by done. f_equal. by apply expected_eq; [rewrite Hs|].
Qed.

(** ** Data and metadata *)

(** Evaluates [step_phase] on the signal's own notices. *)
Ltac phases := cbn [fold_left step_phase fmap list_fmap]; repeat (rewrite decide_True by done; cbn [step_phase]).

Lemma expected_live p c sid e s :
  entry_at p c = Some (sid, e) -> subs (store c) p = Some s -> expected p c = Live s (negb (hidden e)).
Proof. intros He Hs. unfold expected. by rewrite Hs, He. Qed.

Lemma data_leads p sid e data c :
  entry_at p c = Some (sid, e) ->
  leads c (signal_event <$> (handle_data p data (store c)).2) (set_store (handle_data p data (store c)).1 c).
Proof.
  intros He. destruct (handle_data_effect p data (store c)) as [Hs He'].
  destruct (handle_data p data (store c)) as [h es]. cbn in *.
  destruct He' as [->|(Hsub & v & m & d & ->)].
  - apply leads_nil. intros q. apply expected_eq; [by rewrite Hs|done].
  - apply (leads_one _ _ _ p); [done|intros q _; apply Hs| |].
    + intros q ph Hq. cbn. by rewrite decide_False.
    + rewrite (expected_live p c sid e true) by done.
      rewrite (expected_live p (set_store h c) sid e true) by (done || by cbn; rewrite Hs). by phases.
Qed.

Lemma on_peer_data_sound n data c : well_formed c -> sound c (on_peer_data_received n data c).
Proof.
  intros Hc. unfold on_peer_data_received. destruct (find_signo n c) as [p|] eqn:En.
  2: { split_and!; [done|by apply leads_nil|done]. }
  destruct (signo_live n p c Hc En) as (sid & e & He). rewrite He.
  pose proof (set_store_wf _ c Hc (handle_data_similar p data (store c))) as Hw.
  pose proof (data_leads p sid e data c He) as Hl. by destruct (handle_data p data (store c)) as [h es].
Qed.

Lemma handle_metadata_at_sound p method params c sid e :
  well_formed c -> entry_at p c = Some (sid, e) -> sound c (handle_metadata_at p method params c).
Proof.
  intros Hc He. unfold handle_metadata_at.
  pose proof (set_store_wf _ c Hc (handle_metadata_similar to_uint64 (on_table_sought c) p method params (store c))) as Hw.
  pose proof (handle_metadata_effect to_uint64 (on_table_sought c) p method params (store c)) as Hf.
  destruct (handle_metadata _ _ _ _ _ _) as [h r]. cbn in *.
  assert (He' : entry_at p (set_store h c) = Some (sid, e)) by done.
  inversion Hf as [r' Hs Hr Hrr|Hb Ha Ho Hrr|Hb Ha Ho Hrr]; subst r.
  - destruct Hr as [->|[->|[x ->]]]; (split_and!; [done| |done]).
    1,3: apply leads_nil; intros q; apply expected_eq; [by cbn; rewrite Hs|done].
    apply (leads_one _ _ _ p); [done|intros q _; apply Hs|intros q ph Hq; cbn; by rewrite decide_False|].
    destruct (subs (store c) p) as [s|] eqn:Esub.
    + rewrite (expected_live p c sid e s), (expected_live p (set_store h c) sid e s)
        by (done || by cbn; rewrite Hs). by phases.
    + unfold expected. cbn [store set_store]. rewrite Hs, Esub. by phases.
  - split_and!; [done| |done].
    apply (leads_one _ _ _ p); [done|done|intros q ph Hq; cbn; by rewrite decide_False|].
    rewrite (expected_live p c sid e false), (expected_live p (set_store h c) sid e true) by done.
    by phases.
  - split_and!; [done| |done].
    apply (leads_one _ _ _ p); [done|done|intros q ph Hq; cbn; by rewrite decide_False|].
    rewrite (expected_live p c sid e true), (expected_live p (set_store h c) sid e false) by done.
    by phases.
Qed.

Lemma dispatch_metadata_sound n method params c :
  well_formed c -> sound c (dispatch_metadata n method params c).
Proof.
  intros Hc. unfold dispatch_metadata. destruct (find_signo n c) as [p|] eqn:En.
  - destruct (signo_live n p c Hc En) as (sid & e & He). rewrite He. by eapply handle_metadata_at_sound.
  - split_and!; [done|by apply leads_nil|done].
Qed.

Lemma handle_unsubscribe_sound n params c :
  well_formed c -> sound c (handle_unsubscribe n params c).
Proof.
  intros Hc. unfold handle_unsubscribe.
  pose proof (dispatch_metadata_sound n "unsubscribe" params c Hc) as H.
  destruct (dispatch_metadata n "unsubscribe" params c) as [[c' es] [err|]]; [done|].
  destruct H as (Hw & Hl & _). split_and!; [by apply forget_remote_signo_wf| |done].
  intros p. rewrite Hl. done.
Qed.

(** ** Entries coming and going *)

Lemma entry_at_iff p c sid e :
  well_formed c -> entry_at p c = Some (sid, e) <-> signals_by_id c !! sid = Some e /\ signal e = p.
Proof.
  intros Hc. split; [apply entry_at_some|]. intros [He Hp]. by apply entry_at_live.
Qed.

(** Two containers agree about [p] when they have the same entry for it, up to
    its id. *)
Lemma entry_at_same p c c' :
  well_formed c -> well_formed c' ->
  (forall sid e, signal e = p -> signals_by_id c !! sid = Some e <-> signals_by_id c' !! sid = Some e) ->
  entry_at p c = entry_at p c'.
Proof.
  intros Hc Hc' Hs. destruct (entry_at p c) as [[sid e]|] eqn:E.
  - apply entry_at_iff in E as [He Hp]; [|done]. symmetry. apply entry_at_iff; [done|]. by rewrite <- Hs.
  - destruct (entry_at p c') as [[sid e]|] eqn:E'; [|done].
    apply entry_at_iff in E' as [He Hp]; [|done]. apply Hs in He; [|done].
    assert (entry_at p c = Some (sid, e)) by by apply entry_at_iff. congruence.
Qed.

Lemma subs_fresh c p : well_formed c -> (next (store c) <= p)%nat -> subs (store c) p = None.
Proof.
  intros Hc Hp. unfold subs. destruct (signals (store c) !! p) as [s|] eqn:E; [|done].
  pose proof (wf_fresh c Hc p (ex_intro _ s E)). lia.
Qed.

(** A new entry is not announced yet when it is hidden. *)
Lemma add_hidden_leads sid c : well_formed c -> leads c [] (add_remote_signal sid true c).2.
Proof.
  intros Hc. pose proof (add_remote_signal_wf sid true c Hc) as Hc'. revert Hc'.
  unfold add_remote_signal. destruct (signals_by_id c !! sid) as [e|] eqn:E; cbn; intros Hc';
    apply leads_nil; [done|].
  intros p. destruct (decide (p = next (store c))) as [->|Hne].
  - unfold expected at 1. rewrite (subs_fresh c) by (done || lia).
    symmetry. apply (expected_live _ _ sid (mk_entry true (next (store c)))).
    + apply entry_at_iff; [done|]. cbn. by rewrite lookup_insert_eq.
    + unfold subs. cbn. by rewrite lookup_insert_eq.
  - unfold expected, subs. cbn. rewrite lookup_insert_ne by done.
    rewrite (entry_at_same p c _ Hc Hc'); [done|]. cbn. intros k e Hp.
    destruct (decide (sid = k)) as [<-|Hk].
    + rewrite lookup_insert_eq. split; [congruence|]. intros [= <-]. done.
    + by rewrite lookup_insert_ne.
Qed.

Lemma set_remote_signal_signo_leads p n c : leads c [] (set_remote_signal_signo p n c).
Proof.
  apply leads_nil. intros q. apply expected_eq; [|done]. unfold subs, set_remote_signal_signo. cbn.
  destruct (decide (p = q)) as [<-|Hne]; [|by rewrite lookup_alter_ne].
  rewrite lookup_alter_eq. by destruct (signals (store c) !! p).
Qed.

Lemma handle_subscribe_sound n params c :
  well_formed c -> keeps_number (metadata_in n "subscribe" params) c = true ->
  sound c (handle_subscribe n params c).
Proof.
  intros Hc Hk. unfold handle_subscribe. case_bool_decide; [by split_and!; [|apply leads_nil|]|].
  set (sid := subscribed_id params) in *. pose proof (add_remote_signal_wf sid true c Hc) as Hw.
  pose proof (add_remote_signal_entry sid true c) as He. pose proof (add_hidden_leads sid c Hc) as Hl.
  assert (Hn : forall n', signals_by_signo (add_remote_signal sid true c).2 !! n'
      = Some (signal (add_remote_signal sid true c).1.2) -> n' = n).
  { cbn in Hk. revert Hk. fold sid. unfold add_remote_signal. destruct (signals_by_id c !! sid) as [e|] eqn:E; cbn.
    - intros Hk%bool_decide_eq_true n' Hn'. by apply (Hk n' _ Hn').
    - intros _ n' Hn'. destruct (wf_signo c Hc n' _ Hn') as (k & e & s & _ & _ & Hs & _).
      pose proof (wf_fresh c Hc _ (ex_intro _ s Hs)). lia. }
  destruct (add_remote_signal sid true c) as [[added e] c1]. cbn in *.
  pose proof (set_remote_signal_signo_wf sid e n c1 Hw He Hn) as Hw2.
  assert (He2 : entry_at (signal e) (set_remote_signal_signo (signal e) n c1) = Some (sid, e))
    by by apply entry_at_iff.
  pose proof (handle_metadata_at_sound (signal e) "subscribe" params _ sid e Hw2 He2) as Hs.
  destruct (handle_metadata_at _ _ _ _) as [[c3 es] err]. destruct Hs as (Hw3 & Hl3 & Herr).
  split_and!; [done| |done]. apply (leads_app c [] c1 es c3 Hl).
  by apply (leads_app c1 [] _ es c3 (set_remote_signal_signo_leads (signal e) n c1)).
Qed.

Lemma set_hidden_leads sid e c :
  well_formed c -> signals_by_id c !! sid = Some e -> hidden e = true ->
  leads c [on_available (signal e)] (set_hidden sid false c).
Proof.
  intros Hc He Hh p. pose proof (set_hidden_wf sid false c Hc) as Hc'. fold (set_hidden sid false c) in Hc'.
  destruct (wf_owned c Hc sid e He) as (s & Hs & _). destruct (decide (p = signal e)) as [->|Hne].
  - rewrite (expected_live _ c sid e (is_subscribed s)), Hh;
      [|by apply entry_at_iff|by unfold subs; rewrite Hs].
    rewrite (expected_live _ (set_hidden sid false c) sid (mk_entry false (signal e)) (is_subscribed s));
      [by phases| |by unfold subs; cbn; rewrite Hs].
    apply entry_at_iff; [done|]. cbn. by rewrite lookup_alter_eq, He.
  - cbn. rewrite decide_False by done. f_equal. unfold expected. cbn.
    rewrite (entry_at_same p c (set_hidden sid false c)); [done..|]. cbn. intros k e' Hp.
    destruct (decide (sid = k)) as [<-|Hk]; [|by rewrite lookup_alter_ne].
    rewrite lookup_alter_eq, He. split; [congruence|]. intros [= <-]. done.
Qed.

(** Adding an announced entry is adding a hidden one and announcing it. *)
Lemma add_then_show sid hid c :
  signals_by_id c !! sid = None ->
  set_hidden sid false (add_remote_signal sid hid c).2
  = set_hidden sid false (add_remote_signal sid true c).2.
Proof.
  intros E. unfold add_remote_signal. rewrite E. unfold set_hidden. cbn. by rewrite !alter_insert_eq.
Qed.

Lemma make_available_sound j c :
  well_formed c -> let '(c', es) := make_available j c in well_formed c' /\ leads c es c'.
Proof.
  intros Hc. unfold make_available. destruct (is_string j); [|by split; [|apply leads_nil]].
  set (sid := string_of j). destruct (signals_by_id c !! sid) as [e|] eqn:E.
  - unfold add_remote_signal. rewrite E. cbn. destruct (hidden e) eqn:Eh; cbn; [|by split; [|apply leads_nil]].
    split; [by apply set_hidden_wf|by apply set_hidden_leads].
  - pose proof (add_then_show sid false c E) as Hshow. pose proof (add_remote_signal_wf sid true c Hc) as Hw.
    pose proof (add_hidden_leads sid c Hc) as Hl. unfold add_remote_signal in *. rewrite E in *. cbn in *.
    rewrite Hshow. split; [by apply set_hidden_wf|].
    apply (leads_app c [] _ [on_available (next (store c))] _ Hl).
    by apply (set_hidden_leads sid (mk_entry true (next (store c))));
      [|cbn; rewrite lookup_insert_eq|].
Qed.

(** ** Detaching *)

Lemma detach_notices p c s :
  subs (store c) p = Some s ->
  (detach_signal p c).2
  = (if s then [on_unsubscribed p] else []) ++ [RemoteSignal.on_unavailable p].
Proof.
  unfold subs, detach_signal, on_signal, detach. destruct (signals (store c) !! p) as [x|]; [|done].
  cbn. intros [= <-]. by destruct (is_subscribed x).
Qed.

Lemma detach_own_phase p (s a : bool) :
  fold_left (step_phase p)
    (signal_event <$> (((if s then [on_unsubscribed p] else []) ++ [RemoteSignal.on_unavailable p]) : list event))
    (Some (Live s a)) = Some (Detached a).
Proof. destruct s; cbn [app]; by phases. Qed.

Lemma detach_other_phase p q c ph :
  q <> p -> fold_left (step_phase q) (signal_event <$> (detach_signal p c).2) (Some ph) = Some ph.
Proof.
  intros Hne. unfold detach_signal, on_signal, detach. destruct (signals (store c) !! p) as [x|]; [|done].
  destruct (is_subscribed x); cbn [snd app fmap list_fmap fold_left step_phase];
    repeat (rewrite decide_False by congruence; cbn [step_phase]); done.
Qed.

Lemma detach_subs p q c : q <> p -> subs (store (detach_signal p c).1) q = subs (store c) q.
Proof. intros Hne. unfold subs. by rewrite detach_signal_lookup. Qed.

Lemma detach_subs_is_Some p q c :
  is_Some (subs (store c) q) -> is_Some (subs (store (detach_signal p c).1) q).
Proof.
  unfold subs. rewrite !fmap_is_Some. by destruct (detach_signal_same p c) as (_ & _ & _ & _ & ->).
Qed.

Lemma make_unavailable_sound j c :
  well_formed c -> let '(c', es) := make_unavailable j c in well_formed c' /\ leads c es c'.
Proof.
  intros Hc. unfold make_unavailable, find_remote_signal.
  destruct (is_string j); [|by split; [|apply leads_nil]]. set (sid := string_of j).
  destruct (signals_by_id c !! sid) as [e|] eqn:E;
    [|unfold remove_remote_signal; rewrite E; by split; [|apply leads_nil]].
  destruct (remove_remote_signal_wf sid e c Hc E) as [Hw He].
  destruct (wf_owned c Hc sid e E) as (s & Hs & _). unfold remove_remote_signal in *. rewrite E in *. cbn [snd] in *.
  set (c1 := mk_container _ _ _) in *.
  assert (Hs1 : subs (store c1) (signal e) = Some (is_subscribed s)) by (unfold subs; cbn; by rewrite Hs).
  pose proof (detach_notices (signal e) c1 _ Hs1) as Hes.
  pose proof (detach_signal_wf (signal e) c1 Hw He) as Hw2.
  pose proof (fun q ph => detach_other_phase (signal e) q c1 ph) as Hother.
  assert (Hq : forall q, q <> signal e -> expected q c = expected q (detach_signal (signal e) c1).1).
  { intros q Hq. unfold expected. rewrite detach_subs by done.
    rewrite (entry_at_same q c (detach_signal (signal e) c1).1); [done..|].
    destruct (detach_signal_same (signal e) c1) as (-> & _). cbn. intros k e' Hk.
    destruct (decide (sid = k)) as [<-|Hne]; [|by rewrite lookup_delete_ne].
    rewrite lookup_delete_eq, E. split; [congruence|done]. }
  assert (Hd : expected (signal e) (detach_signal (signal e) c1).1 = Detached false).
  { destruct (detach_subs_is_Some (signal e) (signal e) c1) as [b Hb]; [by rewrite Hs1|].
    unfold expected. rewrite Hb, erased_entry_at; [done|]. by apply detach_signal_erased. }
  destruct (detach_signal (signal e) c1) as [c2 es]. cbn [fst snd] in *. split; [done|].
  intros p. rewrite fold_left_app. destruct (decide (p = signal e)) as [->|Hne].
  - rewrite Hes, (expected_live _ c sid e (is_subscribed s)), detach_own_phase, Hd;
      [|by apply entry_at_iff|by unfold subs; rewrite Hs].
    destruct (hidden e); by phases.
  - rewrite Hother, Hq by done. destruct (hidden e); [done|]. cbn. by rewrite decide_False.
Qed.

Lemma for_each_sound (P : container -> Prop) f ids :
  (forall j c, P c -> let '(c', es) := f j c in P c' /\ leads c es c') ->
  forall c, P c -> let '(c', es) := for_each f ids c in P c' /\ leads c es c'.
Proof.
  intros Hf. induction ids as [|j ids IH]; intros c Hc; cbn; [by split; [|apply leads_nil]|].
  specialize (Hf j c Hc). destruct (f j c) as [c1 es]. destruct Hf as [H1 H2].
  specialize (IH c1 H1). destruct (for_each f ids c1) as [c2 es']. destruct IH as [H3 H4].
  split; [done|]. by eapply leads_app.
Qed.

Lemma handle_available_sound params c : well_formed c -> sound c (handle_available params c).
Proof.
  intros Hc. unfold handle_available. destruct (signal_ids params) as [ids|];
    [|by split_and!; [|apply leads_nil|]].
  pose proof (for_each_sound well_formed make_available ids make_available_sound c Hc) as H.
  destruct (for_each _ _ _) as [c' es]. by destruct H.
Qed.

Lemma handle_unavailable_sound params c : well_formed c -> sound c (handle_unavailable params c).
Proof.
  intros Hc. unfold handle_unavailable. destruct (signal_ids params) as [ids|];
    [|by split_and!; [|apply leads_nil|]].
  pose proof (for_each_sound well_formed make_unavailable ids make_unavailable_sound c Hc) as H.
  destruct (for_each _ _ _) as [c' es]. by destruct H.
Qed.

Lemma receive_sound t c : well_formed c -> keeps_number t c = true -> sound c (receive t c).
Proof.
  intros Hc Hk. destruct t as [n data|n method params]; cbn [receive]; [by apply on_peer_data_sound|].
  unfold on_peer_signal_metadata. case_bool_decide; [subst; by apply handle_subscribe_sound|].
  case_bool_decide; [by apply handle_unsubscribe_sound|].
  destruct (negb (n =? 0)); [by apply dispatch_metadata_sound|].
  case_bool_decide; [by apply handle_available_sound|].
  case_bool_decide; [by apply handle_unavailable_sound|]. by split_and!; [|apply leads_nil|].
Qed.

Lemma session_sound ts : forall c, well_formed c -> disciplined ts c = true -> sound c (session ts c).
Proof.
  induction ts as [|t ts IH]; intros c Hc Hd; cbn in *; [by split_and!; [|apply leads_nil|]|].
  apply andb_true_iff in Hd as [Hk Hd]. pose proof (receive_sound t c Hc Hk) as Hs.
  destruct (receive t c) as [[c1 es] [err|]]; [done|]. destruct Hs as (H1 & H2 & _).
  specialize (IH c1 H1 Hd). destruct (session ts c1) as [[c2 es'] err]. destruct IH as (H3 & H4 & H5).
  split_and!; [done|by eapply leads_app|done].
Qed.

(** ** Closing *)

Lemma detach_all_other ps p : forall c ph,
  p ∉ ps -> fold_left (step_phase p) (signal_event <$> (detach_all ps c).2) (Some ph) = Some ph.
Proof.
  induction ps as [|q ps IH]; intros c ph Hp; [done|]. cbn. apply not_elem_of_cons in Hp as [Hne Hp].
  pose proof (detach_other_phase q p c ph Hne) as H1. destruct (detach_signal q c) as [c1 es].
  specialize (IH c1 ph Hp). destruct (detach_all ps c1) as [c2 es']. cbn in *.
  by rewrite fmap_app, fold_left_app, H1.
Qed.

Lemma detach_all_own ps p a : forall c s,
  NoDup ps -> p ∈ ps -> subs (store c) p = Some s ->
  fold_left (step_phase p) (signal_event <$> (detach_all ps c).2) (Some (Live s a)) = Some (Detached a).
Proof.
  induction ps as [|q ps IH]; intros c s Hnd Hp Hs; [by apply not_elem_of_nil in Hp|].
  apply NoDup_cons in Hnd as [Hq Hnd]. cbn.
  pose proof (detach_notices q c) as Hn. pose proof (detach_other_phase q p c (Live s a)) as Ho.
  pose proof (detach_subs q p c) as Hsub. destruct (detach_signal q c) as [c1 es]. cbn [fst snd] in *.
  apply elem_of_cons in Hp as [->|Hp].
  - pose proof (detach_all_other ps q c1 (Detached a) Hq) as H2. destruct (detach_all ps c1) as [c2 es'].
    cbn in *. by rewrite fmap_app, fold_left_app, (Hn s Hs), detach_own_phase.
  - assert (p <> q) as Hne by (intros ->; done). specialize (IH c1 s Hnd Hp ltac:(by rewrite Hsub)).
    destruct (detach_all ps c1) as [c2 es']. cbn in *. by rewrite fmap_app, fold_left_app, Ho.
Qed.

Lemma withdraw_other ws p ph :
  p ∉ ws -> fold_left (step_phase p) (on_unavailable_signal <$> ws) (Some ph) = Some ph.
Proof.
  induction ws as [|q ws IH]; [done|]. intros [Hne Hp]%not_elem_of_cons. cbn.
  rewrite decide_False by done. by apply IH.
Qed.
Lemma withdraw_phase ws p a :
  NoDup ws -> (a = true <-> p ∈ ws) ->
  fold_left (step_phase p) (on_unavailable_signal <$> ws) (Some (Detached a)) = Some (Detached false).
Proof.
  revert a. induction ws as [|q ws IH]; intros a Hnd Ha; cbn.
  - destruct a; [|done]. by pose proof (proj1 Ha eq_refl) as ?%not_elem_of_nil.
  - apply NoDup_cons in Hnd as [Hq Hnd]. destruct (decide (q = p)) as [->|Hne].
    + assert (a = true) as -> by (apply Ha; by left). cbn. by apply withdraw_other.
    + cbn. rewrite ?decide_False by done. apply IH; [done|]. rewrite Ha, elem_of_cons. naive_solver.
Qed.

Lemma entries_elem c e :
  e ∈ (items (signals_by_id c)).*2 <-> exists sid, signals_by_id c !! sid = Some e.
Proof.
  rewrite list_elem_of_fmap. split.
  - intros ([sid e'] & -> & Hin%elem_of_items). by exists sid.
  - intros [sid Hin%elem_of_items]. by exists (sid, e).
Qed.

Lemma entries_inj c e e' :
  well_formed c -> e ∈ (items (signals_by_id c)).*2 -> e' ∈ (items (signals_by_id c)).*2 ->
  signal e = signal e' -> e = e'.
Proof.
  intros Hc [sid He]%entries_elem [sid' He']%entries_elem Heq.
  assert (sid = sid') as <- by by eapply wf_distinct. congruence.
Qed.

Lemma entries_NoDup c : well_formed c -> NoDup (items (signals_by_id c)).*2.
Proof.
  intros Hc. apply NoDup_fmap_2_strong.
  - intros [k e] [k' e'] H1%elem_of_items H2%elem_of_items Heq. cbn in Heq. subst e'.
    f_equal. by eapply wf_distinct.
  - rewrite items_Permutation. apply NoDup_map_to_list.
Qed.

Lemma clear_phases c p :
  well_formed c ->
  let ph := fold_left (step_phase p) (clear c).2 (Some (expected p c)) in
  ph = Some (Live false false) \/ ph = Some (Detached false).
Proof.
  intros Hc. unfold clear, clear_remote_signals. set (old := (items (signals_by_id c)).*2).
  pose proof (entries_NoDup c Hc) as Hnd. pose proof (fun e e' => entries_inj c e e' Hc) as Hinj.
  fold old in Hnd, Hinj. set (ws := signal <$> List.filter (fun e => negb (hidden e)) old).
  assert (Hps : NoDup (signal <$> old)) by by apply NoDup_fmap_2_strong.
  assert (Hws : NoDup ws).
  { apply NoDup_fmap_2_strong; [|apply NoDup_ListNoDup, List.NoDup_filter; by apply NoDup_ListNoDup].
    intros e e' H1 H2. apply Hinj; apply list_elem_of_In; by eapply List.filter_In, list_elem_of_In. }
  set (c0 := mk_container (store c) ∅ ∅).
  pose proof (fun ph => detach_all_other (signal <$> old) p c0 ph) as Ho.
  pose proof (fun a => detach_all_own (signal <$> old) p a c0) as Hown.
  destruct (detach_all _ c0) as [c1 es]. cbn [fst snd] in *. rewrite fold_left_app.
  destruct (decide (p ∈ signal <$> old)) as [Hp|Hp].
  - right. pose proof Hp as Hp'. apply list_elem_of_fmap in Hp' as (e & -> & He).
    pose proof He as [sid Hsid]%entries_elem. destruct (wf_owned c Hc sid e Hsid) as (s & Hs & _).
    rewrite (expected_live _ c sid e (is_subscribed s)) by (by apply entry_at_iff || by unfold subs; rewrite Hs).
    rewrite (Hown _ (is_subscribed s)) by (done || by unfold subs; cbn; rewrite Hs).
    apply withdraw_phase; [done|]. unfold ws. rewrite list_elem_of_fmap. split.
    + intros Hh. exists e. split; [done|]. apply list_elem_of_In, List.filter_In.
      split; [by apply list_elem_of_In|done].
    + intros (e' & Heq & Hin%list_elem_of_In). apply List.filter_In in Hin as [Hin Hh].
      assert (e = e') as -> by (apply Hinj; [done|by apply list_elem_of_In|done]). done.
  - rewrite Ho by done. rewrite withdraw_other.
    2: { intros (e & -> & Hin%list_elem_of_In)%list_elem_of_fmap. apply List.filter_In in Hin as [Hin _].
         apply Hp. apply list_elem_of_fmap_2. by apply list_elem_of_In. }
    unfold expected. destruct (subs (store c) p); [|by left].
    rewrite erased_entry_at; [by right|]. intros sid e He <-. apply Hp, list_elem_of_fmap_2.
    apply entries_elem. by exists sid.
Qed.

(** ** Any peer

    A peer that gives signals several numbers makes the connection remember
    numbers of erased entries, but what the application sees of a signal does not
    depend on the numbers: the handlers do the same to the rest of the container
    without them. *)

Definition tracked (c : container) (o : outcome) : Prop :=
  let '(c', es, _) := o in owned c' /\ leads c es c'.

Lemma quiet_tracked c : owned c -> tracked c (quiet c).
Proof. intros Hc. split; [done|by apply leads_nil]. Qed.

(** A handler that is sound without the numbers, and does the same. *)
Lemma sound_tracked c c' es err : sound (unnumbered c) (unnumbered c', es, err) -> tracked c (c', es, err).
Proof. intros (Hw & Hl & _). by split. Qed.

Lemma metadata_at_tracked p sid e method params c :
  owned c -> entry_at p c = Some (sid, e) -> tracked c (handle_metadata_at p method params c).
Proof.
  intros Hc He. pose proof (handle_metadata_at_sound p method params (unnumbered c) sid e Hc He) as Hs.
  unfold handle_metadata_at in *.
  change (on_table_sought (unnumbered c)) with (on_table_sought c) in Hs. change (store (unnumbered c)) with (store c) in Hs.
  destruct (handle_metadata _ _ _ _ _ _) as [h [es|x]]; by apply sound_tracked.
Qed.

Lemma dispatch_tracked n method params c : owned c -> tracked c (dispatch_metadata n method params c).
Proof.
  intros Hc. unfold dispatch_metadata. destruct (find_signo n c) as [p|]; [|by apply quiet_tracked].
  destruct (entry_at p c) as [[sid e]|] eqn:E; [by eapply metadata_at_tracked|by apply (quiet_tracked c)].
Qed.

Lemma data_tracked n data c : owned c -> tracked c (on_peer_data_received n data c).
Proof.
  intros Hc. unfold on_peer_data_received. destruct (find_signo n c) as [p|]; [|by apply quiet_tracked].
  destruct (entry_at p c) as [[sid e]|] eqn:E; [|by apply (quiet_tracked c)].
  pose proof (set_store_wf _ _ Hc (handle_data_similar p data (store c))) as Hw.
  pose proof (data_leads p sid e data c E) as Hl. by destruct (handle_data p data (store c)) as [h es].
Qed.

Lemma subscribe_tracked n params c : owned c -> tracked c (handle_subscribe n params c).
Proof.
  intros Hc. unfold handle_subscribe. case_bool_decide; [by apply quiet_tracked|]. set (sid := subscribed_id params).
  pose proof (add_remote_signal_wf sid true _ Hc) as Hw. pose proof (add_hidden_leads sid _ Hc) as Hl.
  pose proof (add_remote_signal_entry sid true c) as He.
  assert (Hu : (add_remote_signal sid true (unnumbered c)).2 = unnumbered (add_remote_signal sid true c).2).
  { unfold add_remote_signal. cbn [unnumbered signals_by_id]. by destruct (signals_by_id c !! sid). }
  rewrite Hu in Hw, Hl. destruct (add_remote_signal sid true c) as [[added e] c1]. cbn [snd] in *.
  pose proof (set_remote_signal_signo_wf sid e n (unnumbered c1) Hw He) as Hw2.
  assert (Hw3 : owned (set_remote_signal_signo (signal e) n c1))
    by exact (well_formed_owned _ (Hw2 (fun n' Hn' => False_ind _ (lookup_empty_Some n' _ Hn')))).
  assert (He2 : entry_at (signal e) (set_remote_signal_signo (signal e) n c1) = Some (sid, e))
    by exact (proj2 (entry_at_iff (signal e) (unnumbered (set_remote_signal_signo (signal e) n c1)) sid e Hw3) (conj He eq_refl)).
  pose proof (metadata_at_tracked (signal e) sid e "subscribe" params _ Hw3 He2) as Hs.
  destruct (handle_metadata_at _ _ _ _) as [[c3 es] err]. destruct Hs as [Hw4 Hl3]. split; [done|].
  apply (leads_app c [] c1 es c3 Hl).
  by apply (leads_app c1 [] _ es c3 (set_remote_signal_signo_leads (signal e) n c1)).
Qed.

Lemma unsubscribe_tracked n params c : owned c -> tracked c (handle_unsubscribe n params c).
Proof.
  intros Hc. unfold handle_unsubscribe. pose proof (dispatch_tracked n "unsubscribe" params c Hc) as H.
  by destruct (dispatch_metadata n "unsubscribe" params c) as [[c' es] [err|]].
Qed.

Lemma make_available_unnumbered j c :
  make_available j (unnumbered c) = let '(c', es) := make_available j c in (unnumbered c', es).
Proof.
  unfold make_available, add_remote_signal. destruct (is_string j); [|done]. cbn [unnumbered signals_by_id].
  destruct (signals_by_id c !! string_of j) as [e|]; [|done]. by destruct (hidden e).
Qed.

Lemma make_unavailable_unnumbered j c :
  make_unavailable j (unnumbered c) = let '(c', es) := make_unavailable j c in (unnumbered c', es).
Proof.
  unfold make_unavailable, find_remote_signal, remove_remote_signal. destruct (is_string j); [|done].
  cbn [unnumbered signals_by_id]. destruct (signals_by_id c !! string_of j) as [e|]; [|done].
  cbn [unnumbered signals_by_signo store]. rewrite delete_empty. unfold detach_signal. cbn [store].
  by destruct (on_signal _ _ _ _) as [h es].
Qed.

Lemma each_tracked f ids c :
  (forall j c, f j (unnumbered c) = let '(c', es) := f j c in (unnumbered c', es)) ->
  (forall j c, well_formed c -> let '(c', es) := f j c in well_formed c' /\ leads c es c') ->
  owned c -> let '(c', es) := for_each f ids c in tracked c (c', es, None).
Proof.
  intros Hu Hf. apply (for_each_sound owned). clear c. intros j c Hc.
  specialize (Hf j _ Hc). rewrite Hu in Hf. by destruct (f j c).
Qed.

Lemma receive_tracked t c : owned c -> tracked c (receive t c).
Proof.
  intros Hc. destruct t as [n data|n method params]; cbn [receive]; [by apply data_tracked|].
  unfold on_peer_signal_metadata. case_bool_decide; [by apply subscribe_tracked|].
  case_bool_decide; [by apply unsubscribe_tracked|]. destruct (negb (n =? 0)); [by apply dispatch_tracked|].
  case_bool_decide; [|case_bool_decide; [|by apply quiet_tracked]].
  - unfold handle_available. destruct (signal_ids params) as [ids|]; [|by apply quiet_tracked].
    pose proof (each_tracked make_available ids c make_available_unnumbered make_available_sound Hc) as Hf.
    by destruct (for_each _ _ _).
  - unfold handle_unavailable. destruct (signal_ids params) as [ids|]; [|by apply quiet_tracked].
    pose proof (each_tracked make_unavailable ids c make_unavailable_unnumbered make_unavailable_sound Hc) as Hf.
    by destruct (for_each _ _ _).
Qed.

Lemma session_tracked ts : forall c, owned c -> tracked c (session ts c).
Proof.
  induction ts as [|t ts IH]; intros c Hc; cbn [session]; [by apply quiet_tracked|].
  pose proof (receive_tracked t c Hc) as Ht. destruct (receive t c) as [[c1 es] [err|]]; [done|].
  destruct Ht as [Ho Hl]. specialize (IH c1 Ho). destruct (session ts c1) as [[c2 es'] err].
  destruct IH as [Ho2 Hl2]. split; [done|]. by eapply leads_app.
Qed.
End Receiver.

(** ** A session that gives a signal two numbers *)

Section Renumbering.
Context `{JL : JsonLib}.
Context (to_uint64 : Z -> Z).

Definition named (sid : string) : json := jarr [jstr sid].

Lemma subscribed_id_named sid : subscribed_id (named sid) = sid.
Proof.
  unfold subscribed_id, named, is_object. autorewrite with ws. cbn. by autorewrite with ws.
Qed.

Lemma signal_ids_named sid : signal_ids (named sid) = Some [jstr sid].
Proof.
  unfold signal_ids, named, is_object, is_array. by autorewrite with ws.
Qed.

(** A container with one subscribed signal. *)
Definition one_signal (sid : string) (n : Z) (by_signo : gmap Z nat) : container :=
  mk_container (mk_heap {[ 0%nat := set_subscribed true (set_signo n (make sid)) ]} ∅ 1)
    {[ sid := mk_entry true 0 ]} by_signo.

Lemma first_subscribe sid n :
  sid <> "" -> receive to_uint64 (metadata_in n "subscribe" (named sid)) empty_container
  = (one_signal sid n {[ n := 0%nat ]}, [signal_event (on_subscribed 0)], None).
Proof.
  intros Hs. cbn [receive]. unfold on_peer_signal_metadata. rewrite bool_decide_true by done.
  unfold handle_subscribe. rewrite subscribed_id_named, bool_decide_false by done.
  unfold add_remote_signal, empty_container. cbn [signals_by_id]. rewrite lookup_empty. cbn.
  unfold set_remote_signal_signo. cbn. rewrite alter_insert_eq.
  unfold handle_metadata_at, handle_metadata, on_signal, no_throw.
  rewrite bool_decide_true by done. cbn. rewrite lookup_insert_eq. cbn. by rewrite insert_insert_eq.
Qed.

Lemma second_subscribe sid n n' m :
  sid <> "" -> receive to_uint64 (metadata_in n' "subscribe" (named sid)) (one_signal sid n m)
  = (one_signal sid n' (<[n' := 0%nat]> m), [], None).
Proof.
  intros Hs. cbn [receive]. unfold on_peer_signal_metadata. rewrite bool_decide_true by done.
  unfold handle_subscribe. rewrite subscribed_id_named, bool_decide_false by done.
  unfold add_remote_signal, one_signal. cbn [signals_by_id]. rewrite lookup_singleton_eq. cbn.
  unfold set_remote_signal_signo. cbn. rewrite alter_singleton_eq.
  unfold handle_metadata_at, handle_metadata, on_signal, no_throw.
  rewrite bool_decide_true by done. cbn. rewrite lookup_singleton_eq. cbn.
  by rewrite insert_singleton_eq.
Qed.

Lemma withdraw_signal sid n m :
  exists h es, receive to_uint64 (metadata_in 0 "unavailable" (named sid)) (one_signal sid n m)
  = (mk_container h ∅ (delete n m), es, None).
Proof.
  cbn [receive]. unfold on_peer_signal_metadata. do 2 (rewrite bool_decide_false by done). cbn [negb Z.eqb].
  rewrite bool_decide_false, bool_decide_true by done. unfold handle_unavailable.
  rewrite signal_ids_named. cbn [for_each]. unfold make_unavailable. autorewrite with ws. cbn zeta.
  unfold remove_remote_signal, one_signal. cbn [signals_by_id]. rewrite lookup_singleton_eq. cbn.
  rewrite lookup_singleton_eq, delete_singleton_eq. unfold detach_signal, on_signal. cbn.
  rewrite lookup_singleton_eq. cbn. eauto.
Qed.
End Renumbering.

(** ** Properties *)

Section Properties.
Context `{JL : JsonLib}.
Context (to_uint64 : Z -> Z).

(** C6: as long as a peer does not give a signal a second number while the
    first one is in use, no message it sends, in any order and with any
    content, makes the connection use an erased entry, and every number the
    connection remembers refers to an entry that exists and whose signal has
    that number. *)
Theorem receiver_memory_safe ts :
  disciplined to_uint64 ts empty_container = true ->
  let '(c, _, err) := session to_uint64 ts empty_container in
  (forall n, err <> Some (use_after_free n)) /\
  (forall n p, find_signo n c = Some p ->
     exists sid e s, entry_at p c = Some (sid, e) /\ signals (store c) !! p = Some s /\
       id s = sid /\ signo s = n).
Proof.
  intros Hd. pose proof (session_sound to_uint64 ts _ well_formed_empty Hd) as Hs.
  destruct (session _ _ _) as [[c es] err]. destruct Hs as (Hc & _ & Herr). split; [done|].
  intros n p Hn. destruct (wf_signo c Hc n p Hn) as (sid & e & s & He & Hp & Hs & Hsn).
  exists sid, e, s. split_and!; [by apply entry_at_iff|done| |done].
  destruct (wf_owned c Hc sid e He) as (s' & Hs' & ?). congruence.
Qed.

(** C18: whatever a peer sends, in any order and with any content, the
    application sees every remote signal go through the same life from its
    creation on: subscribed and unsubscribed alternate, data and changes of
    metadata are reported only while the signal exists and data only while it is
    subscribed, the signal is announced at most once and becomes unavailable at
    most once, after the last unsubscription, and it is withdrawn exactly when it
    was announced.  This holds up to the first failure (an exception that leaves
    a handler, or the use of an erased entry, which a peer that numbers a signal
    twice can cause); and unless an erased entry was used, nothing announced is
    left once the connection has closed. *)
Theorem remote_signal_lifecycle ts p :
  let '(c, es, err) := session to_uint64 ts empty_container in
  phase_of p es = Some (expected p c) /\
  ((forall n, err <> Some (use_after_free n)) ->
   phase_of p (es ++ (clear c).2) = Some (Live false false) \/
   phase_of p (es ++ (clear c).2) = Some (Detached false)).
Proof.
  pose proof (session_tracked to_uint64 ts _ (well_formed_owned _ well_formed_empty)) as H.
  destruct (session to_uint64 ts empty_container) as [[c es] err]. destruct H as [Hc Hl].
  assert (Hp : phase_of p es = Some (expected p c)) by apply (Hl p).
  split; [done|]. intros _. unfold phase_of in *. rewrite fold_left_app, Hp. exact (clear_phases (unnumbered c) p Hc).
Qed.

(** C39: when a peer does give a subscribed signal a second number, withdrawing
    the signal leaves the first number pointing at the erased entry, and the
    next data packet with that number uses it. *)
Theorem renumbered_signal_dangles sid n n' data :
  sid <> "" -> n <> n' ->
  (session to_uint64
     [metadata_in n "subscribe" (named sid); metadata_in n' "subscribe" (named sid);
      metadata_in 0 "unavailable" (named sid); data_in n data] empty_container).2
  = Some (use_after_free n).
Proof.
  intros Hs Hn. cbn [session]. rewrite first_subscribe, second_subscribe by done.
  destruct (withdraw_signal to_uint64 sid n' (<[n' := 0%nat]> {[ n := 0%nat ]})) as (h & es & ->).
  cbn [receive]. unfold on_peer_data_received, find_signo. cbn [signals_by_signo].
  rewrite delete_insert_id, lookup_singleton_eq by by rewrite lookup_singleton_ne.
  rewrite erased_entry_at; [done|]. intros k e. cbn. by rewrite lookup_empty.
Qed.
End Properties.

Section Witnesses.
#[local] Existing Instance jv_json.

Definition sample_session : list traffic :=
  [metadata_in 0 "available" (jarr [jstr "a"; jstr "b"]);
   metadata_in 1 "subscribe" (jarr [jstr "a"]); metadata_in 2 "subscribe" (jarr [jstr "c"]);
   data_in 1 [7]; metadata_in 0 "unavailable" (jarr [jstr "a"])].

Lemma receiver_memory_safe_witness :
  disciplined Datatypes.id sample_session empty_container = true /\
  forall n, (session Datatypes.id sample_session empty_container).2 <> Some (use_after_free n).
Proof.
  assert (H : disciplined Datatypes.id sample_session empty_container = true) by by vm_compute.
  split; [done|]. pose proof (receiver_memory_safe Datatypes.id sample_session H) as Hs.
  destruct (session Datatypes.id sample_session empty_container) as [[c es] err]. by destruct Hs.
Defined.

(** A peer that numbers a subscribed signal twice, withdraws it and uses the
    first number again. *)
Definition renumbering_session : list traffic :=
  sample_session ++ [metadata_in 3 "subscribe" (jarr [jstr "c"]); metadata_in 0 "unavailable" (jarr [jstr "c"]);
                     data_in 2 [7]].

Lemma remote_signal_lifecycle_witness :
  (let '(c, es, err) := session Datatypes.id sample_session empty_container in
   err = None /\ phase_of 0 es = Some (Detached false) /\ phase_of 2 es = Some (Live true false) /\
   (phase_of 2 (es ++ (clear c).2) = Some (Live false false) \/ phase_of 2 (es ++ (clear c).2) = Some (Detached false))) /\
  (let '(c, es, err) := session Datatypes.id renumbering_session empty_container in
   err = Some (use_after_free 2) /\ phase_of 2 es = Some (Detached false)).
Proof.
  assert (He : (let '(c, _, err) := session Datatypes.id sample_session empty_container in
    (err, expected 0 c, expected 2 c)) = (None, Detached false, Live true false)) by (vm_compute; reflexivity).
  assert (Hr : (let '(c, _, err) := session Datatypes.id renumbering_session empty_container in
    (err, expected 2 c)) = (Some (use_after_free 2), Detached false)) by (vm_compute; reflexivity).
  pose proof (remote_signal_lifecycle Datatypes.id sample_session 0) as H0.
  pose proof (remote_signal_lifecycle Datatypes.id sample_session 2) as H2.
  pose proof (remote_signal_lifecycle Datatypes.id renumbering_session 2) as H3.
  destruct (session Datatypes.id sample_session _) as [[c es] err], (session Datatypes.id renumbering_session _) as [[c2 es2] err2].
  injection He as -> E0 E2. injection Hr as -> E3. destruct H0 as [-> _], H2 as [-> Hc], H3 as [-> _].
  rewrite E0, E2, E3. split_and!; try done. by apply Hc.
Defined.

Lemma renumbered_signal_dangles_witness :
  (session Datatypes.id
     [metadata_in 1 "subscribe" (named "a"); metadata_in 2 "subscribe" (named "a");
      metadata_in 0 "unavailable" (named "a"); data_in 1 [7]] empty_container).2
  = Some (use_after_free 1).
Proof. by apply (renumbered_signal_dangles Datatypes.id "a" 1 2 [7]). Defined.
End Witnesses.
