(* ===== verification/LocalSignalContainer.v ===== *)
(** * The container of registered local signals

    [src/detail/local_signal_container.cpp], its header and
    [include/ws-streaming/detail/registered_local_signal.hpp].  The
    application's local signals live at addresses; so do the linear tables of
    the registered ones, each owned by its entry's [table] pointer alone, so
    that resetting the pointer or erasing the entry removes the table and a
    [domain_table] that still names it no longer locks. *)
From S2P Require Import Prelude Json OrderedMap LinearTable LocalSignal.

(** The connections [on_metadata_changed] and [on_data_published] are recorded
    as connected or not, and [holder] as tracking [signal] or nothing.
    [domain_signo] is not initialised until a domain is found. *)
Record registered_local_signal := mk_registered {
  signal : nat;
  signo : Z;
  is_explicitly_subscribed : bool;
  implicit_subscribe_count : Z;
  metadata_connected : bool;
  data_connected : bool;
  holder : bool;
  table : option nat;
  value_index : Z;
  domain_signo : option Z;
  domain_table : option nat;
  is_explicit : bool
}.

(** ** Assignments to members *)

Definition set_subscription (expl : bool) (n : Z) (e : registered_local_signal) : registered_local_signal :=
  mk_registered (signal e) (signo e) expl n (metadata_connected e) (data_connected e) (holder e)
    (table e) (value_index e) (domain_signo e) (domain_table e) (is_explicit e).

Definition set_connected (b : bool) (e : registered_local_signal) : registered_local_signal :=
  mk_registered (signal e) (signo e) (is_explicitly_subscribed e) (implicit_subscribe_count e) b b
    (holder e) (table e) (value_index e) (domain_signo e) (domain_table e) (is_explicit e).

Definition set_holder (b : bool) (e : registered_local_signal) : registered_local_signal :=
  mk_registered (signal e) (signo e) (is_explicitly_subscribed e) (implicit_subscribe_count e)
    (metadata_connected e) (data_connected e) b (table e) (value_index e) (domain_signo e)
    (domain_table e) (is_explicit e).

Definition set_table (t : option nat) (e : registered_local_signal) : registered_local_signal :=
  mk_registered (signal e) (signo e) (is_explicitly_subscribed e) (implicit_subscribe_count e)
    (metadata_connected e) (data_connected e) (holder e) t (value_index e) (domain_signo e)
    (domain_table e) (is_explicit e).

Definition set_value_index (i : Z) (e : registered_local_signal) : registered_local_signal :=
  mk_registered (signal e) (signo e) (is_explicitly_subscribed e) (implicit_subscribe_count e)
    (metadata_connected e) (data_connected e) (holder e) (table e) i (domain_signo e)
    (domain_table e) (is_explicit e).

Definition set_domain (n : option Z) (t : option nat) (e : registered_local_signal) : registered_local_signal :=
  mk_registered (signal e) (signo e) (is_explicitly_subscribed e) (implicit_subscribe_count e)
    (metadata_connected e) (data_connected e) (holder e) (table e) (value_index e) n t (is_explicit e).

Definition set_explicit (b : bool) (e : registered_local_signal) : registered_local_signal :=
  mk_registered (signal e) (signo e) (is_explicitly_subscribed e) (implicit_subscribe_count e)
    (metadata_connected e) (data_connected e) (holder e) (table e) (value_index e) (domain_signo e)
    (domain_table e) b.

(** The constructor. *)
Definition make_registered (a : nat) (n : Z) : registered_local_signal :=
  mk_registered a n false 0 false false false None 0 None None false.

Section LocalSignalContainer.
Context `{JL : JsonLib}.

Record local_state := mk_locals {
  signals : gmap nat local_signal;
  tables : gmap nat linear_table;
  next_table : nat;
  registered : gmap Z registered_local_signal;
  next_signo : Z
}.

Definition set_signals (s : gmap nat local_signal) (l : local_state) : local_state :=
  mk_locals s (tables l) (next_table l) (registered l) (next_signo l).

Definition set_tables (t : gmap nat linear_table) (l : local_state) : local_state :=
  mk_locals (signals l) t (next_table l) (registered l) (next_signo l).

(** Changes the entry of a signal number. *)
Definition update_entry (f : registered_local_signal -> registered_local_signal) (n : Z)
    (l : local_state) : local_state :=
  mk_locals (signals l) (tables l) (next_table l) (alter f n (registered l)) (next_signo l).

(** No signals registered yet. *)
Definition fresh_locals (s : gmap nat local_signal) : local_state := mk_locals s ∅ 0 ∅ 1.

Definition find_address (a : nat) (l : local_state) : option Z :=
  fst <$> find_if (fun e => bool_decide (signal e = a)) (registered l).

(** The number of the entry, and whether it is new.  [emplace] leaves an
    existing entry of the number alone. *)
Definition add_local_signal (a : nat) (l : local_state) : Z * bool * local_state :=
  match find_address a l with
  | Some n => (n, false, l)
  | None =>
      let n := next_signo l in
      (n, true,
       mk_locals (signals l) (tables l) (next_table l)
         (if registered l !! n is Some _ then registered l
          else <[n := make_registered a n]> (registered l))
         (u32 (next_signo l + 1)))
  end.

(** [holder.close()] *)
Definition close_entry_holder (n : Z) (l : local_state) : local_state :=
  match registered l !! n with
  | Some e =>
      if holder e
      then update_entry (set_holder false) n (set_signals (alter release (signal e) (signals l)) l)
      else l
  | None => l
  end.

(** Erasing an entry destroys it: its connections are disconnected, its holder
    closed, its table destroyed. *)
Definition erase_entry (n : Z) (l : local_state) : local_state :=
  match registered l !! n with
  | Some e =>
      let l := close_entry_holder n l in
      mk_locals (signals l) (if table e is Some t then delete t (tables l) else tables l)
        (next_table l) (delete n (registered l)) (next_signo l)
  | None => l
  end.

Definition remove_local_signal (a : nat) (l : local_state) : Z * local_state :=
  match find_address a l with
  | None => (0, l)
  | Some n => (n, erase_entry n l)
  end.

(** Disconnects every entry, in order, and clears the map. *)
Definition clear_local_signals (l : local_state) : local_state :=
  fold_left (fun l n => erase_entry n l) (items (registered l)).*1
    (fold_left (fun l n => close_entry_holder n (update_entry (set_connected false) n l))
       (items (registered l)).*1 l).

Definition has_id (l : local_state) (sid : string) (e : registered_local_signal) : bool :=
  match signals l !! signal e with
  | Some s => bool_decide (sig_id s = sid)
  | None => false
  end.

(** The entry, with the number it is registered under. *)
Definition find_local_signal (sid : string) (l : local_state) : option (Z * registered_local_signal) :=
  find_if (has_id l sid) (registered l).

Definition find_local_signo (n : Z) (l : local_state) : option registered_local_signal :=
  registered l !! n.
End LocalSignalContainer.
