(* ===== verification/Publisher.v ===== *)
(** * The publishing side of a connection

    The functions of [src/connection.cpp] that concern the local signals: they
    advertise them, subscribe and unsubscribe them on behalf of the peer and
    transmit what the application publishes.  The messages handed to the peer
    object are recorded in [sent].  The slots the connection puts on a local
    signal are called by [set_metadata] and [publish_data] below while they are
    connected. *)
From S2P Require Import Prelude Json Metadata OrderedMap LinearTable LocalSignal LocalSignalContainer.
From S2P Require StreamingProtocol RemoteSignal.
From S2P Require Import Peer.

Section Publisher.
Context `{JL : JsonLib}.

Record publisher := mk_publisher {
  locals : local_state;
  hello_sent : bool;
  sent : list message
}.

Definition with_locals (l : local_state) (p : publisher) : publisher :=
  mk_publisher l (hello_sent p) (sent p).

Definition send (m : message) (p : publisher) : publisher :=
  mk_publisher (locals p) (hello_sent p) (sent p ++ [m]).

Definition update (f : registered_local_signal -> registered_local_signal) (n : Z) (p : publisher)
    : publisher :=
  with_locals (update_entry f n (locals p)) p.

(** The local signal an entry refers to. *)
Definition signal_of (e : registered_local_signal) (p : publisher) : option local_signal :=
  signals (locals p) !! signal e.

(** ** Registration *)

(** Where a new or refreshed entry finds its domain. *)
Definition domain_of (s : local_signal) (l : local_state) : option (Z * registered_local_signal) :=
  let tid := table_id (sig_metadata s) in
  if bool_decide (tid = "") || bool_decide (tid = sig_id s) then None else find_local_signal tid l.

(** [std::make_shared<linear_table>(metadata)] assigned to the entry. *)
Definition new_table (m : json) (n : Z) (l : local_state) : local_state :=
  update_entry (set_table (Some (next_table l))) n
    (mk_locals (signals l) (<[next_table l := LinearTable.make m]> (tables l)) (S (next_table l))
       (registered l) (next_signo l)).

Definition bind_domain (s : local_signal) (n : Z) (l : local_state) : local_state :=
  match domain_of s l with
  | Some (_, d) => update_entry (set_domain (Some (signo d)) (table d)) n l
  | None => l
  end.

Definition ids_message (method : string) (ids : list string) : message :=
  metadata_message 0 method (jobj [("signalIds", jarr (jstr <$> ids))]).

Definition add_local_signal (a : nat) (p : publisher) : publisher :=
  match LocalSignalContainer.add_local_signal a (locals p), signals (locals p) !! a with
  | (n, true, l), Some s =>
      let r := rule (sig_metadata s) in
      let l := update_entry (set_explicit (bool_decide (r = explicit_rule))) n l in
      let l := if bool_decide (r = linear_rule) then new_table (sig_metadata s) n l else l in
      let p := with_locals (bind_domain s n l) p in
      if hello_sent p then send (ids_message "available" [sig_id s]) p else p
  | _, _ => p
  end.

Definition remove_local_signal (a : nat) (p : publisher) : publisher :=
  let '(n, l) := LocalSignalContainer.remove_local_signal a (locals p) in
  let p := with_locals l p in
  if negb (n =? 0) then
    match signals (locals p) !! a with
    | Some s => send (ids_message "unavailable" [sig_id s]) p
    | None => p
    end
  else p.

(** The advertisement at the end of [do_hello]. *)
Definition advertise (p : publisher) : publisher :=
  let ids := omap (fun e => sig_id <$> signal_of e p) (items (registered (locals p))).*2 in
  let p := if bool_decide (ids = []) then p else send (ids_message "available" ids) p in
  mk_publisher (locals p) true (sent p).

(** ** refresh_local_signal_bindings *)

Definition refresh_table (m : json) (n : Z) (e : registered_local_signal) (l : local_state) : local_state :=
  if bool_decide (rule m = linear_rule) then
    match table e with
    | Some t => set_tables (alter (LinearTable.update m) t (tables l)) l
    | None => new_table m n l
    end
  else
    update_entry (set_table None) n
      (match table e with Some t => set_tables (delete t (tables l)) l | None => l end).

Definition refresh_local_signal_bindings (n : Z) (p : publisher) : publisher :=
  match registered (locals p) !! n with
  | Some e =>
      match signal_of e p with
      | Some s =>
          let m := sig_metadata s in
          let l := update_entry (set_explicit (bool_decide (rule m = explicit_rule))) n (locals p) in
          let l := refresh_table m n e l in
          let l := update_entry (set_domain (Some 0) None) n l in
          with_locals (bind_domain s n l) p
      | None => p
      end
  | None => p
  end.

(** ** The slots on a local signal *)

Definition on_local_signal_metadata_changed (n : Z) (p : publisher) : publisher :=
  let p := refresh_local_signal_bindings n p in
  let p := update (set_value_index 0) n p in
  match registered (locals p) !! n with
  | Some e =>
      match signal_of e p with
      | Some s => send (metadata_message (signo e) "signal" (sig_metadata s)) p
      | None => p
      end
  | None => p
  end.

Definition lock (w : option nat) (l : local_state) : option (nat * linear_table) :=
  match w with
  | Some t => pair t <$> tables l !! t
  | None => None
  end.

(** Moves the domain to [domain_value] at the entry's index, telling the peer,
    when it is not there already. *)
Definition publish_domain (e : registered_local_signal) (domain_value : Z) (t : nat)
    (tab : linear_table) (p : publisher) : publisher :=
  let idx := if is_explicit e then value_index e else driven_index tab in
  if domain_value =? value_at idx tab then p
  else
    let p := with_locals (set_tables (alter (LinearTable.set idx domain_value) t (tables (locals p)))
                            (locals p)) p in
    send (data_message (value_or (domain_signo e) 0)
            (RemoteSignal.payload_bytes
               {| StreamingProtocol.sample_index := idx; StreamingProtocol.value := domain_value |})) p.

Definition on_local_signal_data_published (n : Z) (domain_value sample_count : Z) (data : list Z)
    (p : publisher) : publisher :=
  match registered (locals p) !! n with
  | Some e =>
      let domain := lock (domain_table e) (locals p) in
      let p := if domain is Some (t, tab) then publish_domain e domain_value t tab p else p in
      let p := send (data_message (signo e) data) p in
      let idx := s64 (value_index e + sample_count) in
      let p := update (set_value_index idx) n p in
      match domain with
      | Some (t, _) =>
          if is_explicit e
          then with_locals (set_tables (alter (drive_to idx) t (tables (locals p))) (locals p)) p
          else p
      | None => p
      end
  | None => p
  end.

(** The application's calls on a local signal, with the connection's slots. *)
Definition publish_data (a : nat) (domain_value sample_count : Z) (data : list Z) (p : publisher)
    : publisher :=
  let p := with_locals (set_signals (alter (publish_domain_data domain_value sample_count data) a
                          (signals (locals p))) (locals p)) p in
  match find_address a (locals p) with
  | Some n =>
      if registered (locals p) !! n is Some e
      then if data_connected e then on_local_signal_data_published n domain_value sample_count data p else p
      else p
  | None => p
  end.

Definition set_metadata (a : nat) (m : json) (p : publisher) : publisher :=
  let p := with_locals (set_signals (alter (LocalSignal.set_metadata m) a (signals (locals p)))
                          (locals p)) p in
  match find_address a (locals p) with
  | Some n =>
      if registered (locals p) !! n is Some e
      then if metadata_connected e then on_local_signal_metadata_changed n p else p
      else p
  | None => p
  end.

(** ** subscribe *)

Definition subscribed (e : registered_local_signal) : bool :=
  is_explicitly_subscribed e || (0 <? implicit_subscribe_count e).

(** [signal->holder = signal->signal.increment_subscribe_count()]: the new
    holder is made before the old one is closed. *)
Definition acquire_holder (n : Z) (e : registered_local_signal) (l : local_state) : local_state :=
  let l := set_signals (alter acquire (signal e) (signals l)) l in
  update_entry (set_holder true) n (close_entry_holder n l).

Definition id_message (n : Z) (method sid : string) : message :=
  metadata_message n method (jobj [("signalId", jstr sid)]).

(** The end of [subscribe], once the entry counts as subscribed. *)
Definition announce (n : Z) (s : local_signal) (p : publisher) : publisher :=
  match registered (locals p) !! n with
  | Some e =>
      let p := send (id_message (signo e) "subscribe" (sig_id s)) p in
      let p := refresh_local_signal_bindings n p in
      let p := send (metadata_message (signo e) "signal"
                       (set_field (sig_metadata s) "valueIndex" (jint (value_index e)))) p in
      update (set_connected true) n p
  | None => p
  end.

(** [domain] is the recursive call for the domain signal. *)
Definition subscribe_with (domain : string -> publisher -> publisher) (sid : string) (expl : bool)
    (p : publisher) : bool * publisher :=
  match find_local_signal sid (locals p) with
  | None => (false, p)
  | Some (n, e) =>
      let was_subscribed := subscribed e in
      let e' := if expl then set_subscription true (implicit_subscribe_count e) e
                else set_subscription (is_explicitly_subscribed e) (u32 (implicit_subscribe_count e + 1)) e in
      let p := update (fun _ => e') n p in
      if was_subscribed then (false, p)
      else
        match signal_of e p with
        | None => (false, p)
        | Some s =>
            let p := with_locals (acquire_holder n e' (locals p)) p in
            let tid := table_id (sig_metadata s) in
            let p := if expl && negb (bool_decide (tid = "")) && negb (bool_decide (tid = sid))
                     then domain tid p else p in
            (true, announce n s p)
        end
  end.

(** Only an explicit subscription subscribes the domain, so the recursion is
    one level deep. *)
Definition subscribe (sid : string) (expl : bool) (p : publisher) : bool * publisher :=
  subscribe_with (fun tid p => (subscribe_with (fun _ p => p) tid false p).2) sid expl p.

(** ** unsubscribe *)

(** Drops the connections and the holder and tells the peer. *)
Definition withdraw (n : Z) (s : local_signal) (p : publisher) : publisher :=
  let p := update (set_connected false) n p in
  let p := with_locals (close_entry_holder n (locals p)) p in
  match registered (locals p) !! n with
  | Some e => send (id_message (signo e) "unsubscribe" (sig_id s)) p
  | None => p
  end.

(** The recursion follows the chain of domains; [None] when [fuel] runs out. *)
Fixpoint unsubscribe_fuel (fuel : nat) (sid : string) (expl : bool) (p : publisher)
    : option (bool * publisher) :=
  match fuel with
  | O => None
  | S fuel =>
      match find_local_signal sid (locals p) with
      | None => Some (false, p)
      | Some (n, e) =>
          let e' := if expl then set_subscription false (implicit_subscribe_count e) e
                    else set_subscription (is_explicitly_subscribed e) (u32 (implicit_subscribe_count e - 1)) e in
          let p := update (fun _ => e') n p in
          if subscribed e' then Some (false, p)
          else
            match signal_of e p with
            | None => Some (false, p)
            | Some s =>
                let p := withdraw n s p in
                let tid := table_id (sig_metadata s) in
                if negb (bool_decide (tid = "")) && negb (bool_decide (tid = sid)) then
                  match unsubscribe_fuel fuel tid false p with
                  | Some (_, p) => Some (true, p)
                  | None => None
                  end
                else Some (true, p)
            end
      end
  end.

Definition unsubscribe (sid : string) (expl : bool) (p : publisher) : bool * publisher :=
  value_or (unsubscribe_fuel (S (S (size (registered (locals p))))) sid expl p) (false, p).

(** ** Command interface requests *)

Inductive rpc_error : Type := server_error | invalid_params | method_not_found | invalid_request.

(** The loop over an array of signal ids. *)
Fixpoint each_signal (f : string -> publisher -> bool * publisher) (ids : list json) (p : publisher)
    : list json * publisher :=
  match ids with
  | [] => ([], p)
  | j :: ids =>
      let '(b, p) := if is_string j then f (string_of j) p else (false, p) in
      let '(bs, p) := each_signal f ids p in
      (jbool b :: bs, p)
  end.

Definition do_command (f : string -> publisher -> bool * publisher) (params : json) (p : publisher)
    : result rpc_error json * publisher :=
  if is_string params then
    let '(b, p) := f (string_of params) p in
    (if b then Ok (jbool true) else Throw server_error, p)
  else if is_array params then
    let '(results, p) := each_signal f (elements params) p in (Ok (jarr results), p)
  else (Throw invalid_params, p).

Definition do_command_interface_subscribe : json -> publisher -> result rpc_error json * publisher :=
  do_command (fun sid => subscribe sid true).

Definition do_command_interface_unsubscribe : json -> publisher -> result rpc_error json * publisher :=
  do_command (fun sid => unsubscribe sid true).

Definition do_command_interface (local_stream_id method : string) (params : json) (p : publisher)
    : result rpc_error json * publisher :=
  if bool_decide (method = String.append local_stream_id ".subscribe")
  then do_command_interface_subscribe params p
  else if bool_decide (method = String.append local_stream_id ".unsubscribe")
  then do_command_interface_unsubscribe params p
  else (Throw method_not_found, p).
End Publisher.
