(* ===== verification/Subscriptions.v ===== *)
(** * Reference counting of subscriptions

    What [subscribe] and [unsubscribe] of [Publisher] do to the subscriptions,
    apart from the messages and the linear tables: a specification as a set of
    explicitly subscribed signals, and the proof that the counts, holders and
    connections kept per entry implement it. *)
From S2P Require Import Prelude Json Metadata OrderedMap LocalSignal LocalSignalContainer Publisher.

Section Subscriptions.
Context `{JL : JsonLib}.

(** ** The subscription state of an entry *)

Record view := mk_view {
  v_signal : nat;
  v_signo : Z;
  v_explicit : bool;
  v_count : Z;
  v_holder : bool;
  v_metadata : bool;
  v_data : bool
}.

Definition view_of (e : registered_local_signal) : view :=
  mk_view (signal e) (signo e) (is_explicitly_subscribed e) (implicit_subscribe_count e) (holder e)
    (metadata_connected e) (data_connected e).

Definition views (l : local_state) : gmap Z view := view_of <$> registered l.

(** Ids and metadata of the local signals. *)
Definition described (l : local_state) : gmap nat (string * json) :=
  (fun s => (sig_id s, sig_metadata s)) <$> signals l.

Definition v_subscribed (v : view) : bool := v_explicit v || (0 <? v_count v).

Definition v_set (expl : bool) (n : Z) (v : view) : view :=
  mk_view (v_signal v) (v_signo v) expl n (v_holder v) (v_metadata v) (v_data v).

Definition v_hold (b : bool) (v : view) : view :=
  mk_view (v_signal v) (v_signo v) (v_explicit v) (v_count v) b (v_metadata v) (v_data v).

Definition v_connect (b : bool) (v : view) : view :=
  mk_view (v_signal v) (v_signo v) (v_explicit v) (v_count v) (v_holder v) b b.

(** ** What the pieces do to it *)

Lemma views_update f g n l :
  (forall e, view_of (f e) = g (view_of e)) ->
  views (update_entry f n l) = alter g n (views l).
Proof.
  intros Hf. apply map_eq. intros k. unfold views, update_entry. cbn. rewrite lookup_fmap.
  destruct (decide (n = k)) as [<-|Hne].
  - rewrite !lookup_alter_eq, lookup_fmap. destruct (registered l !! n); cbn; [|done]. by rewrite Hf.
  - by rewrite !lookup_alter_ne, lookup_fmap.
Qed.

Lemma views_update_same f n l :
  (forall e, view_of (f e) = view_of e) -> views (update_entry f n l) = views l.
Proof.
  intros Hf. rewrite (views_update f (fun v => v)) by done. apply map_eq. intros k.
  destruct (decide (n = k)) as [<-|Hne]; [|by rewrite lookup_alter_ne].
  rewrite lookup_alter_eq. by destruct (views l !! n).
Qed.

Lemma described_alter f a l :
  (forall s, sig_id (f s) = sig_id s /\ sig_metadata (f s) = sig_metadata s) ->
  described (set_signals (alter f a (signals l)) l) = described l.
Proof.
  intros Hf. apply map_eq. intros k. unfold described. cbn. rewrite !lookup_fmap.
  destruct (decide (a = k)) as [<-|Hne]; [|by rewrite lookup_alter_ne].
  rewrite lookup_alter_eq. destruct (signals l !! a) as [s|]; [|done]. cbn.
  destruct (Hf s) as [-> ->]. done.
Qed.

Lemma acquire_described s : sig_id (acquire s) = sig_id s /\ sig_metadata (acquire s) = sig_metadata s.
Proof. unfold acquire. by case_match. Qed.

Lemma release_described s : sig_id (release s) = sig_id s /\ sig_metadata (release s) = sig_metadata s.
Proof. unfold release. by case_match. Qed.

(** [l'] has the subscriptions [v] and the same local signals. *)
Definition becomes (l : local_state) (v : gmap Z view) (l' : local_state) : Prop :=
  views l' = v /\ described l' = described l.

Lemma becomes_refl l : becomes l (views l) l.
Proof. done. Qed.

Lemma becomes_trans l v l' v' l'' : becomes l v l' -> becomes l' v' l'' -> becomes l v' l''.
Proof. intros [_ H1] [H2 H3]. split; congruence. Qed.

Lemma views_is_Some l n : is_Some (views l !! n) <-> is_Some (registered l !! n).
Proof. unfold views. by rewrite lookup_fmap, fmap_is_Some. Qed.

Lemma update_becomes f g n l :
  (forall e, view_of (f e) = g (view_of e)) -> becomes l (alter g n (views l)) (update_entry f n l).
Proof. intros Hf. by split; [apply views_update|]. Qed.

Lemma close_entry_holder_becomes n l :
  becomes l (alter (v_hold false) n (views l)) (close_entry_holder n l).
Proof.
  unfold close_entry_holder. destruct (registered l !! n) as [e|] eqn:E; [destruct (holder e) eqn:Eh|].
  - split.
    + rewrite (views_update _ (v_hold false)) by done. done.
    + apply (described_alter release). apply release_described.
  - split; [|done]. apply map_eq. intros k. destruct (decide (n = k)) as [<-|Hne];
      [|by rewrite lookup_alter_ne].
    rewrite lookup_alter_eq. unfold views. rewrite lookup_fmap, E. cbn. unfold v_hold, view_of. cbn.
    by rewrite Eh.
  - split; [|done]. apply map_eq. intros k. destruct (decide (n = k)) as [<-|Hne];
      [|by rewrite lookup_alter_ne].
    rewrite lookup_alter_eq. unfold views. by rewrite lookup_fmap, E.
Qed.

Lemma acquire_holder_becomes n e l :
  becomes l (alter (v_hold true) n (views l)) (acquire_holder n e l).
Proof.
  unfold acquire_holder. set (l1 := set_signals _ l).
  assert (H1 : becomes l (views l) l1) by (split; [done|]; apply (described_alter acquire), acquire_described).
  pose proof (becomes_trans _ _ _ _ _ H1 (close_entry_holder_becomes n l1)) as H2.
  pose proof (becomes_trans _ _ _ _ _ H2 (update_becomes (set_holder true) (v_hold true) n _ (fun _ => eq_refl))) as H3.
  destruct H2 as [H2 _]. rewrite H2 in H3. replace (alter _ _ _) with (alter (v_hold true) n (views l)) in H3; [done|].
  by rewrite alter_alter_eq.
Qed.

Lemma same_view_becomes f n l :
  (forall e, view_of (f e) = view_of e) -> becomes l (views l) (update_entry f n l).
Proof. intros Hf. by split; [apply views_update_same|]. Qed.

Lemma bind_domain_becomes s n l : becomes l (views l) (bind_domain s n l).
Proof. unfold bind_domain. destruct (domain_of s l) as [[? ?]|]; [by apply same_view_becomes|done]. Qed.

Lemma refresh_table_becomes m n e l : becomes l (views l) (refresh_table m n e l).
Proof.
  unfold refresh_table. case_bool_decide; destruct (table e); try done.
  - unfold new_table. split; [|done]. by rewrite views_update_same.
  - split; [|done]. by rewrite views_update_same.
  - by apply same_view_becomes.
Qed.

Lemma refresh_becomes n p :
  becomes (locals p) (views (locals p)) (locals (refresh_local_signal_bindings n p)).
Proof.
  unfold refresh_local_signal_bindings. destruct (registered (locals p) !! n) as [e|]; [|done].
  destruct (signal_of e p) as [s|]; [|done]. cbn.
  set (l1 := update_entry _ n (locals p)).
  assert (H1 : becomes (locals p) (views (locals p)) l1) by by apply same_view_becomes.
  set (l2 := refresh_table _ n e l1).
  assert (H2 : becomes (locals p) (views l1) l2) by (eapply becomes_trans; [done|apply refresh_table_becomes]).
  set (l3 := update_entry _ n l2).
  assert (H3 : becomes (locals p) (views l2) l3) by (eapply becomes_trans; [done|by apply same_view_becomes]).
  pose proof (becomes_trans _ _ _ _ _ H3 (bind_domain_becomes s n l3)) as H4.
  destruct H1 as [E1 _], H2 as [E2 _], H3 as [E3 _]. by rewrite E3, E2, E1 in H4.
Qed.

Lemma announce_becomes n s p :
  is_Some (registered (locals p) !! n) ->
  becomes (locals p) (alter (v_connect true) n (views (locals p))) (locals (announce n s p)).
Proof.
  intros [e He]. unfold announce. rewrite He. cbn. set (p1 := send _ p).
  pose proof (refresh_becomes n p1) as Hr. change (locals p1) with (locals p) in Hr.
  pose proof (becomes_trans _ _ _ _ _ Hr (update_becomes (set_connected true) (v_connect true) n _ (fun _ => eq_refl))) as H.
  destruct Hr as [E _]. by rewrite E in H.
Qed.

Lemma withdraw_becomes n s p :
  is_Some (registered (locals p) !! n) ->
  becomes (locals p) (alter (fun v => v_hold false (v_connect false v)) n (views (locals p)))
    (locals (withdraw n s p)).
Proof.
  intros Hn. unfold withdraw. cbn. set (l1 := update_entry (set_connected false) n (locals p)).
  assert (H1 : becomes (locals p) (alter (v_connect false) n (views (locals p))) l1) by by apply update_becomes.
  pose proof (becomes_trans _ _ _ _ _ H1 (close_entry_holder_becomes n l1)) as H2.
  destruct H1 as [E _]. rewrite E, alter_alter_eq in H2.
  by destruct (registered (close_entry_holder n l1) !! n).
Qed.

Lemma replace_becomes e e' g n l :
  registered l !! n = Some e -> view_of e' = g (view_of e) ->
  becomes l (alter g n (views l)) (update_entry (fun _ => e') n l).
Proof.
  intros He Hg. split; [|done]. apply map_eq. intros k. unfold views, update_entry. cbn.
  rewrite lookup_fmap. destruct (decide (n = k)) as [<-|Hne].
  - rewrite !lookup_alter_eq, lookup_fmap, He. cbn. by rewrite Hg.
  - by rewrite !lookup_alter_ne, lookup_fmap.
Qed.

(** ** Names

    The registered signals with their ids and metadata, which subscriptions do
    not change. *)

Definition names (l : local_state) : gmap Z (string * json) :=
  omap (fun v => described l !! v_signal v) (views l).

Definition key (N : gmap Z (string * json)) (sid : string) : option Z :=
  fst <$> find_if (fun x => bool_decide (x.1 = sid)) N.

(** The signal a signal's metadata names as its domain. *)
Definition domain (N : gmap Z (string * json)) (n : Z) : option Z :=
  match N !! n with
  | Some (sid, m) =>
      if bool_decide (table_id m = "") || bool_decide (table_id m = sid) then None
      else key N (table_id m)
  | None => None
  end.

Definition distinct (N : gmap Z (string * json)) : Prop :=
  forall n n' x x', N !! n = Some x -> N !! n' = Some x' -> x.1 = x'.1 -> n = n'.

Lemma key_some N sid n : key N sid = Some n -> exists m, N !! n = Some (sid, m).
Proof.
  unfold key. intros ([k [sid' m]] & [Hk Hs%bool_decide_eq_true]%find_if_some & ->)%fmap_Some.
  cbn in *. subst. by exists m.
Qed.

Lemma key_intro N sid n m : distinct N -> N !! n = Some (sid, m) -> key N sid = Some n.
Proof.
  intros HN Hn. unfold key. erewrite find_if_unique; [done|exact Hn|by apply bool_decide_true|].
  intros k x Hk Hx%bool_decide_eq_true. by eapply HN.
Qed.

Lemma names_lookup l n :
  names l !! n = (registered l !! n ≫= fun e => (fun s => (sig_id s, sig_metadata s)) <$> signals l !! signal e).
Proof.
  unfold names, views, described. rewrite lookup_omap, lookup_fmap.
  destruct (registered l !! n) as [e|]; [|done]. cbn. by rewrite lookup_fmap.
Qed.

Lemma find_local_signal_key l sid n :
  distinct (names l) -> key (names l) sid = Some n ->
  exists e s, find_local_signal sid l = Some (n, e) /\ registered l !! n = Some e /\
    signals l !! signal e = Some s /\ names l !! n = Some (sig_id s, sig_metadata s) /\ sig_id s = sid.
Proof.
  intros HN Hk. apply key_some in Hk as [m Hm]. pose proof Hm as Hm'. rewrite names_lookup in Hm'.
  destruct (registered l !! n) as [e|] eqn:He; [|done]. cbn in Hm'.
  apply fmap_Some in Hm' as (s & Hs & [= -> ->]). exists e, s. split_and!; [|done..].
  unfold find_local_signal. apply find_if_unique; [done|unfold has_id; rewrite Hs; by apply bool_decide_true|].
  intros k e' He' Hid. unfold has_id in Hid. destruct (signals l !! signal e') as [s'|] eqn:Hs'; [|done].
  apply bool_decide_eq_true in Hid. apply (HN k n (sig_id s', sig_metadata s') (sig_id s, sig_metadata s)); [|done|done].
  rewrite names_lookup, He'. cbn. by rewrite Hs'.
Qed.

Lemma find_local_signal_inv l sid n e :
  find_local_signal sid l = Some (n, e) ->
  registered l !! n = Some e /\ exists s, signals l !! signal e = Some s /\
    names l !! n = Some (sig_id s, sig_metadata s) /\ sig_id s = sid.
Proof.
  intros [He Hid]%find_if_some. split; [done|]. unfold has_id in Hid.
  destruct (signals l !! signal e) as [s|] eqn:Hs; [|done]. apply bool_decide_eq_true in Hid.
  exists s. split_and!; [done| |done]. rewrite names_lookup, He. cbn. by rewrite Hs.
Qed.

Lemma find_local_signal_none l sid : key (names l) sid = None -> find_local_signal sid l = None.
Proof.
  intros Hk. destruct (find_local_signal sid l) as [[n e]|] eqn:E; [|done]. exfalso.
  destruct (find_local_signal_inv _ _ _ _ E) as (He & s & Hs & Hname & Hid).
  unfold key in Hk. apply fmap_None in Hk.
  pose proof (find_if_none _ _ n _ Hk Hname) as H. by apply bool_decide_eq_false in H.
Qed.

(** Subscriptions that keep the signals keep the names. *)
Lemma becomes_names l v l' :
  becomes l v l' -> (v_signal <$> v) = (v_signal <$> views l) -> names l' = names l.
Proof.
  intros [Hv Hd] Hs. apply map_eq. intros n. unfold names. rewrite Hv, Hd, !lookup_omap.
  assert (E : (v_signal <$> v !! n) = (v_signal <$> views l !! n))
    by (rewrite <- !lookup_fmap; by rewrite Hs).
  destruct (v !! n), (views l !! n); try done. cbn in *. by injection E as ->.
Qed.

Lemma alter_signals g n (v : gmap Z view) :
  (forall x, v_signal (g x) = v_signal x) -> (v_signal <$> alter g n v) = (v_signal <$> v).
Proof.
  intros Hg. apply map_eq. intros k. rewrite !lookup_fmap. destruct (decide (n = k)) as [<-|Hne].
  - rewrite lookup_alter_eq. destruct (v !! n); [|done]. cbn. by rewrite Hg.
  - by rewrite lookup_alter_ne.
Qed.

Lemma alter_becomes_names l g n l' :
  becomes l (alter g n (views l)) l' -> (forall x, v_signal (g x) = v_signal x) -> names l' = names l.
Proof. intros Hb Hg. eapply becomes_names; [done|by apply alter_signals]. Qed.

(** ** subscribe and unsubscribe *)

(** An implicit subscription added. *)
Definition v_up (v : view) : view :=
  let v' := v_set (v_explicit v) (u32 (v_count v + 1)) v in
  if v_subscribed v then v' else v_connect true (v_hold true v').

Lemma up_signal v : v_signal (v_up v) = v_signal v.
Proof. unfold v_up. by destruct (v_subscribed v). Qed.

Lemma alter_ext_at g g' n (V : gmap Z view) v :
  V !! n = Some v -> g v = g' v -> alter g n V = alter g' n V.
Proof. intros Hv Hg. apply alter_ext. intros x Hx. congruence. Qed.

Lemma subscribe_domain_becomes p tid m v :
  distinct (names (locals p)) -> key (names (locals p)) tid = Some m ->
  views (locals p) !! m = Some v ->
  becomes (locals p) (alter v_up m (views (locals p)))
    (locals (subscribe_with (fun _ p => p) tid false p).2).
Proof.
  intros HN Hk Hv.
  destruct (find_local_signal_key _ _ _ HN Hk) as (e & s & Hf & He & Hs & _ & Hid).
  assert (Hve : v = view_of e) by (unfold views in Hv; rewrite lookup_fmap, He in Hv; by injection Hv).
  unfold subscribe_with. rewrite Hf. cbn zeta.
  set (e' := set_subscription (is_explicitly_subscribed e) (u32 (implicit_subscribe_count e + 1)) e).
  set (w := v_set (v_explicit v) (u32 (v_count v + 1)) v).
  assert (He' : view_of e' = w) by by subst v.
  pose proof (replace_becomes e e' (fun _ => w) m (locals p) He He') as H1.
  change (subscribed e) with (v_subscribed (view_of e)). rewrite <- Hve. destruct (v_subscribed v) eqn:Esub.
  - erewrite (alter_ext_at v_up); [exact H1|done|]. unfold v_up. by rewrite Esub.
  - unfold signal_of. cbn [locals update with_locals]. change (signal e') with (signal e). 
    cbn [update_entry signals]. rewrite Hs. cbn [andb].
    set (p1 := update _ m p) in *. set (l2 := acquire_holder m e' (locals p1)).
    assert (E1 : views (locals p1) = _) by exact (proj1 H1).
    pose proof (becomes_trans _ _ _ _ _ H1 (acquire_holder_becomes m e' (locals p1))) as H2.
    assert (Hreg : is_Some (registered l2 !! m)).
    { apply views_is_Some. unfold l2. rewrite (proj1 H2), E1, !lookup_alter_eq, Hv. by eexists. }
    pose proof (becomes_trans _ _ _ _ _ H2 (announce_becomes m s (with_locals l2 p1) Hreg)) as H3.
    cbn [locals with_locals] in H3. destruct H2 as [E2 _]. fold l2 in E2. rewrite E2 in H3.
    rewrite E1, !alter_alter_eq in H3.
    erewrite (alter_ext_at v_up); [exact H3|done|]. unfold v_up. by rewrite Esub.
Qed.

(** Both change the entry's flag or count first. *)
Lemma view_lookup l n e v : registered l !! n = Some e -> views l !! n = Some v -> v = view_of e.
Proof. intros He Hv. unfold views in Hv. rewrite lookup_fmap, He in Hv. by injection Hv. Qed.

Definition opt_alter (g : view -> view) (o : option Z) (V : gmap Z view) : gmap Z view :=
  match o with Some m => alter g m V | None => V end.

(** A condition of the code on a signal's table id, and the domain it finds. *)
Definition seeks_domain (sid : string) (m : json) : bool :=
  negb (bool_decide (table_id m = "")) && negb (bool_decide (table_id m = sid)).

Lemma domain_seeks N n sid m :
  N !! n = Some (sid, m) ->
  domain N n = if seeks_domain sid m then key N (table_id m) else None.
Proof.
  intros Hn. unfold domain, seeks_domain. rewrite Hn.
  by destruct (bool_decide (table_id m = "")), (bool_decide (table_id m = sid)).
Qed.

Lemma domain_other N n m : domain N n = Some m -> n <> m.
Proof.
  intros Hd <-. unfold domain in Hd. destruct (N !! n) as [[sid md]|] eqn:E; [|done].
  destruct (bool_decide (table_id md = "")) eqn:E1, (bool_decide (table_id md = sid)) eqn:E2; try done.
  apply bool_decide_eq_false in E2. apply key_some in Hd as [md' Hd]. congruence.
Qed.

Lemma subscribe_none p sid : key (names (locals p)) sid = None -> subscribe sid true p = (false, p).
Proof. intros Hk. unfold subscribe. unfold subscribe_with at 1. by rewrite find_local_signal_none. Qed.

Lemma subscribe_subscribed p sid n v :
  distinct (names (locals p)) -> key (names (locals p)) sid = Some n ->
  views (locals p) !! n = Some v -> v_subscribed v = true ->
  (subscribe sid true p).1 = false /\
  becomes (locals p) (alter (fun v => v_set true (v_count v) v) n (views (locals p)))
    (locals (subscribe sid true p).2).
Proof.
  intros HN Hk Hv Hsub.
  destruct (find_local_signal_key _ _ _ HN Hk) as (e & s & Hf & He & Hs & _ & Hid).
  pose proof (view_lookup _ _ _ _ He Hv) as ->. unfold subscribe, subscribe_with at 1. unfold subscribe_with at 2.
  rewrite Hf. cbn zeta. change (subscribed e) with (v_subscribed (view_of e)). rewrite Hsub. split; [done|].
  by apply (replace_becomes e).
Qed.

Lemma subscribe_fresh p sid n v :
  distinct (names (locals p)) -> key (names (locals p)) sid = Some n ->
  views (locals p) !! n = Some v -> v_subscribed v = false ->
  (subscribe sid true p).1 = true /\
  becomes (locals p)
    (alter (v_connect true) n (opt_alter v_up (domain (names (locals p)) n)
       (alter (fun v => v_hold true (v_set true (v_count v) v)) n (views (locals p)))))
    (locals (subscribe sid true p).2).
Proof.
  intros HN Hk Hv Hsub.
  destruct (find_local_signal_key _ _ _ HN Hk) as (e & s & Hf & He & Hs & Hname & Hid).
  pose proof (view_lookup _ _ _ _ He Hv) as ->.
  unfold subscribe. set (rec := fun (tid : string) (p : publisher) => (subscribe_with (fun _ p => p) tid false p).2). unfold subscribe_with at 1 2.
  rewrite Hf. cbn zeta. change (subscribed e) with (v_subscribed (view_of e)). rewrite Hsub.
  set (e' := set_subscription true _ e). set (p1 := update (fun _ => e') n p).
  unfold signal_of. change (signals (locals p1) !! signal e') with (signals (locals p) !! signal e).
  change (signals (locals p1) !! signal e) with (signals (locals p) !! signal e). rewrite Hs. split; [done|].
  cbn [snd]. set (p2 := with_locals (acquire_holder n e' (locals p1)) p1).
  assert (H2 : becomes (locals p) (alter (fun v => v_hold true (v_set true (v_count v) v)) n (views (locals p))) (locals p2)).
  { pose proof (replace_becomes e e' (fun v => v_set true (v_count v) v) n (locals p) He eq_refl) as H1.
    change (update_entry _ n (locals p)) with (locals p1) in H1.
    pose proof (becomes_trans _ _ _ _ _ H1 (acquire_holder_becomes n e' (locals p1))) as H2.
    rewrite (proj1 H1), alter_alter_eq in H2. exact H2. }
  assert (HN2 : names (locals p2) = names (locals p)) by by eapply alter_becomes_names.
  rewrite (domain_seeks _ _ _ _ Hname), Hid. cbn [andb].
  set (p3 := if (_ : bool) then rec _ p2 else p2).
  assert (H3 : becomes (locals p)
    (opt_alter v_up (if seeks_domain sid (sig_metadata s) then key (names (locals p)) (table_id (sig_metadata s)) else None)
       (alter (fun v => v_hold true (v_set true (v_count v) v)) n (views (locals p)))) (locals p3)).
  { unfold p3. fold (seeks_domain sid (sig_metadata s)).
    destruct (seeks_domain sid (sig_metadata s)) eqn:Eseek; [|done].
    destruct (key (names (locals p)) (table_id (sig_metadata s))) as [m|] eqn:Em; cbn [opt_alter].
    - pose proof (domain_other (names (locals p)) n m) as Hne.
      rewrite (domain_seeks _ _ _ _ Hname), Hid, Eseek in Hne. specialize (Hne Em).
      pose proof (key_some _ _ _ Em) as [md Hmd]. rewrite names_lookup in Hmd.
      destruct (registered (locals p) !! m) as [em|] eqn:Eem; [|done].
      assert (Hvm : views (locals p) !! m = Some (view_of em)) by (unfold views; by rewrite lookup_fmap, Eem).
      pose proof (subscribe_domain_becomes p2 (table_id (sig_metadata s)) m (view_of em)) as Hd.
      rewrite HN2, (proj1 H2) in Hd. rewrite lookup_alter_ne in Hd by done.
      specialize (Hd HN Em Hvm). by eapply becomes_trans.
    - unfold rec, subscribe_with. rewrite find_local_signal_none; [done|]. by rewrite HN2. }
  assert (Hreg : is_Some (registered (locals p3) !! n)).
  { apply views_is_Some. rewrite (proj1 H3).
    destruct (if seeks_domain _ _ then key _ _ else None) as [m|]; cbn.
    - destruct (decide (m = n)) as [->|Hne]; [rewrite lookup_alter_eq|rewrite lookup_alter_ne by done];
        rewrite lookup_alter_eq, Hv; by eexists.
    - rewrite lookup_alter_eq, Hv. by eexists. }
  pose proof (becomes_trans _ _ _ _ _ H3 (announce_becomes n s p3 Hreg)) as H4.
  rewrite (proj1 H3) in H4. exact H4.
Qed.

(** What dropping a subscription leaves: the holder and the connections go with
    the last one. *)
Definition v_drop (expl : bool) (n : Z) (v : view) : view :=
  let v := v_set expl n v in
  if v_subscribed v then v else v_hold false (v_connect false v).

Lemma unsubscribe_step p fuel sid n e v (expl : bool) v' :
  find_local_signal sid (locals p) = Some (n, e) -> views (locals p) !! n = Some v ->
  v' = (if expl then v_set false (v_count v) v else v_set (v_explicit v) (u32 (v_count v - 1)) v) ->
  exists p' md, names (locals p) !! n = Some (sid, md) /\
    becomes (locals p) (alter (v_drop (v_explicit v') (v_count v')) n (views (locals p))) (locals p') /\
    unsubscribe_fuel (S fuel) sid expl p
    = (if v_subscribed v' then Some (false, p')
       else if seeks_domain sid md then
         match unsubscribe_fuel fuel (table_id md) false p' with
         | Some (_, p) => Some (true, p)
         | None => None
         end
       else Some (true, p')).
Proof.
  intros Hf Hv ->. destruct (find_local_signal_inv _ _ _ _ Hf) as (He & s & Hs & Hname & Hid).
  pose proof (view_lookup _ _ _ _ He Hv) as ->. cbn [unsubscribe_fuel]. rewrite Hf. cbn zeta.
  set (e' := if expl then set_subscription false _ e else set_subscription _ _ e).
  set (v' := if expl then v_set _ _ _ else v_set _ _ _).
  assert (Hve : view_of e' = v') by (unfold e', v'; by destruct expl).
  set (p1 := update (fun _ => e') n p).
  pose proof (replace_becomes e e' (fun _ => v') n (locals p) He Hve) as H1.
  change (update_entry _ n (locals p)) with (locals p1) in H1.
  change (subscribed e') with (v_subscribed (view_of e')). rewrite Hve.
  assert (Hset : v_set (v_explicit v') (v_count v') (view_of e) = v') by (unfold v'; by destruct expl).
  change (signal_of e p1) with (signals (locals p) !! signal e). rewrite Hs. destruct (v_subscribed v') eqn:Esub.
  - exists p1, (sig_metadata s). rewrite Hname, Hid. split_and!; [done| |done].
    erewrite (alter_ext_at _ (fun _ => v')); [exact H1|done|]. unfold v_drop. by rewrite Hset, Esub.
  - exists (withdraw n s p1), (sig_metadata s). rewrite Hname, Hid. split_and!; [done| |done].
    assert (Hreg : is_Some (registered (locals p1) !! n)).
    { apply views_is_Some. rewrite (proj1 H1), lookup_alter_eq, Hv. by eexists. }
    pose proof (becomes_trans _ _ _ _ _ H1 (withdraw_becomes n s p1 Hreg)) as H2.
    rewrite (proj1 H1), alter_alter_eq in H2.
    erewrite (alter_ext_at _ (_ ∘ _)); [exact H2|done|]. cbn. unfold v_drop. by rewrite Hset, Esub.
Qed.

Lemma drop_signal expl n v : v_signal (v_drop expl n v) = v_signal v.
Proof. unfold v_drop. by destruct (v_subscribed _). Qed.

(** The domain of a signal that has no domain of its own. *)
Lemma unsubscribe_domain p fuel tid m v :
  distinct (names (locals p)) -> key (names (locals p)) tid = Some m ->
  views (locals p) !! m = Some v -> domain (names (locals p)) m = None ->
  exists b p', unsubscribe_fuel (S (S fuel)) tid false p = Some (b, p') /\
    becomes (locals p) (alter (v_drop (v_explicit v) (u32 (v_count v - 1))) m (views (locals p))) (locals p').
Proof.
  intros HN Hk Hv Hd. destruct (find_local_signal_key _ _ _ HN Hk) as (e & s & Hf & _).
  destruct (unsubscribe_step p (S fuel) tid m e v false _ Hf Hv eq_refl) as (p' & md & Hname & Hb & ->).
  cbn [v_explicit v_count v_set] in Hb. rewrite (domain_seeks _ _ _ _ Hname) in Hd.
  destruct (v_subscribed _); [by eauto|]. destruct (seeks_domain tid md); [|by eauto].
  cbn [unsubscribe_fuel]. rewrite find_local_signal_none; [by eauto|].
  erewrite alter_becomes_names; [exact Hd|exact Hb|]. apply drop_signal.
Qed.

(** An explicit subscription given back: the domain is given back with it when
    no implicit one remains. *)
Lemma unsubscribe_explicit p sid n v :
  distinct (names (locals p)) -> key (names (locals p)) sid = Some n ->
  views (locals p) !! n = Some v -> 0 <= v_count v ->
  (forall m, domain (names (locals p)) n = Some m -> domain (names (locals p)) m = None) ->
  exists p', unsubscribe sid true p = (negb (0 <? v_count v), p') /\
    becomes (locals p)
      ((if 0 <? v_count v then fun V => V
        else match domain (names (locals p)) n with
             | Some m => alter (fun v => v_drop (v_explicit v) (u32 (v_count v - 1)) v) m
             | None => fun V => V
             end) (alter (v_drop false (v_count v)) n (views (locals p)))) (locals p').
Proof.
  intros HN Hk Hv Hc Hdom. unfold unsubscribe.
  assert (Hsz : exists f : nat, size (registered (locals p)) = S f).
  { assert (is_Some (registered (locals p) !! n)) as [e He] by (apply views_is_Some; by eexists).
    destruct (size (registered (locals p))) eqn:E; [|by eauto].
    apply map_size_empty_inv in E. by rewrite E, lookup_empty in He. }
  destruct Hsz as [f ->].
  destruct (find_local_signal_key _ _ _ HN Hk) as (e & s & Hf & _).
  destruct (unsubscribe_step p (S (S f)) sid n e v true _ Hf Hv eq_refl) as (p' & md & Hname & Hb & ->).
  cbn [v_explicit v_count v_set] in Hb. unfold v_subscribed. cbn [v_explicit v_count v_set orb].
  destruct (0 <? v_count v); [by eauto|]. rewrite (domain_seeks _ _ _ _ Hname) in *.
  assert (HN' : names (locals p') = names (locals p)) by (eapply alter_becomes_names; [exact Hb|]; apply drop_signal).
  destruct (seeks_domain sid md) eqn:Eseek; [|by eauto].
  destruct (key (names (locals p)) (table_id md)) as [m|] eqn:Em.
  - pose proof (Hdom m eq_refl) as Hdm. pose proof (key_some _ _ _ Em) as [md' Hmd].
    destruct (views (locals p) !! m) as [vm|] eqn:Hvm;
      [|unfold names in Hmd; by rewrite lookup_omap, Hvm in Hmd].
    assert (Hne : n <> m) by (apply (domain_other (names (locals p))); by rewrite (domain_seeks _ _ _ _ Hname), Eseek).
    assert (Hvm' : views (locals p') !! m = Some vm) by by rewrite (proj1 Hb), lookup_alter_ne.
    destruct (unsubscribe_domain p' f (table_id md) m vm) as (b & p'' & E & Hb2);
      [by rewrite HN'..|done|by rewrite HN'|].
    rewrite E. exists p''. split; [done|]. pose proof (becomes_trans _ _ _ _ _ Hb Hb2) as H.
    rewrite (proj1 Hb) in H. erewrite alter_ext_at; [exact H| |done]. by rewrite lookup_alter_ne.
  - cbn [unsubscribe_fuel]. rewrite find_local_signal_none by by rewrite HN'. eauto.
Qed.

(** ** One signal and its domain

    What a first subscription of a signal with a domain, and the end of its last
    one, do to the entries of the two. *)

(** [p'] has the names of [p] and its entries but for [n] and [m]. *)
Record changes (p p' : publisher) (n m : Z) (v w : view) : Prop := {
  ch_names : names (locals p') = names (locals p);
  ch_signal : views (locals p') !! n = Some v;
  ch_domain : views (locals p') !! m = Some w;
  ch_others : forall k, k <> n -> k <> m -> views (locals p') !! k = views (locals p) !! k
}.

Lemma alter_pair_changes p l' f g n m v w :
  n <> m -> (forall x, v_signal (f x) = v_signal x) -> (forall x, v_signal (g x) = v_signal x) ->
  views (locals p) !! n = Some v -> views (locals p) !! m = Some w ->
  becomes (locals p) (alter g m (alter f n (views (locals p)))) (locals l') -> changes p l' n m (f v) (g w).
Proof.
  intros Hne Hf Hg Hv Hw [Hb Hd]. split.
  - eapply becomes_names; [by split|]. by rewrite !alter_signals.
  - by rewrite Hb, lookup_alter_ne, lookup_alter_eq, Hv.
  - by rewrite Hb, lookup_alter_eq, lookup_alter_ne, Hw.
  - intros k H1 H2. by rewrite Hb, !lookup_alter_ne.
Qed.

Lemma subscribe_fresh_changes p sid n m v w :
  let N := names (locals p) in
  distinct N -> key N sid = Some n -> domain N n = Some m ->
  views (locals p) !! n = Some v -> views (locals p) !! m = Some w -> v_subscribed v = false ->
  changes p (subscribe sid true p).2 n m (v_connect true (v_hold true (v_set true (v_count v) v))) (v_up w).
Proof.
  intros N HN Hk Hd Hv Hw Hs. pose proof (domain_other N n m Hd) as Hne.
  destruct (subscribe_fresh p sid n v HN Hk Hv Hs) as [_ Hb]. fold N in Hb. rewrite Hd in Hb. cbn [opt_alter] in Hb.
  apply (alter_pair_changes p _ (fun v => v_connect true (v_hold true (v_set true (v_count v) v)))); try done.
  { apply up_signal. }
  replace (alter v_up m _) with
    (alter (v_connect true) n (alter v_up m (alter (fun v => v_hold true (v_set true (v_count v) v)) n (views (locals p)))));
    [done|].
  rewrite alter_alter_ne by done. f_equal. by rewrite alter_alter_eq.
Qed.

Lemma unsubscribe_changes p sid n m v w :
  let N := names (locals p) in
  distinct N -> key N sid = Some n -> domain N n = Some m -> domain N m = None ->
  views (locals p) !! n = Some v -> views (locals p) !! m = Some w -> v_count v = 0 ->
  changes p (unsubscribe sid true p).2 n m (v_drop false 0 v) (v_drop (v_explicit w) (u32 (v_count w - 1)) w).
Proof.
  intros N HN Hk Hd Hdm Hv Hw Hc.
  destruct (unsubscribe_explicit p sid n v HN Hk Hv) as (p' & E & Hb); [lia|by intros ? [= <-]%(eq_trans (eq_sym Hd))|].
  fold N in Hb. rewrite Hc, Hd in Hb. cbn in Hb. rewrite E. cbn [snd].
  apply (alter_pair_changes p p' (v_drop false 0) (fun v => v_drop (v_explicit v) (u32 (v_count v - 1)) v)); try done;
    [by apply (domain_other N)|..]; intros ?; apply drop_signal.
Qed.

(** Neither requested nor the domain of a requested signal. *)
Definition unused (v : view) : Prop := v_explicit v = false /\ v_count v = 0 /\ v_data v = false.

Lemma unused_subscribed v : unused v -> v_subscribed v = false.
Proof. intros (He & Hc & _). unfold v_subscribed. by rewrite He, Hc. Qed.

Lemma domain_named N n m : domain N n = Some m -> exists y, N !! m = Some y.
Proof.
  unfold domain. destruct (N !! n) as [[sid md]|]; [|done]. destruct (_ || _); [done|].
  intros [md' Hm]%key_some. by eexists.
Qed.

(** An unused signal subscribed as a domain, given back, and given back once too
    often; and a count at 2^32-1 that is incremented. *)
Lemma unused_up v : unused v -> v_explicit (v_up v) = false /\ v_count (v_up v) = 1.
Proof. intros Uv. unfold v_up. rewrite unused_subscribed by done. destruct Uv as (He & Hc & _). cbn. by rewrite He, Hc. Qed.

Lemma unused_drop v :
  unused v -> v_drop (v_explicit v) (u32 (v_count v - 1)) v = v_set false (2 ^ 32 - 1) v.
Proof. intros (He & Hc & _). unfold v_drop. by rewrite He, Hc. Qed.

Lemma dropped_unsubscribed v : v_subscribed (v_drop false 0 v) = false.
Proof. done. Qed.

Lemma wrapped_up v : v_up (v_set false (2 ^ 32 - 1) v) = v_set false 0 v.
Proof. done. Qed.

(** The last explicit subscription at the end of a chain of three signals. *)
Lemma unsubscribe_chain p sid n m k v w x :
  let N := names (locals p) in
  distinct N -> key N sid = Some n -> domain N n = Some m -> domain N m = Some k -> domain N k = None ->
  views (locals p) !! n = Some v -> views (locals p) !! m = Some w -> views (locals p) !! k = Some x ->
  v_count v = 0 -> v_explicit w = false /\ v_count w = 1 -> unused x ->
  let p' := (unsubscribe sid true p).2 in
  names (locals p') = N /\ views (locals p') !! m = Some (v_drop false 0 w) /\
  views (locals p') !! k = Some (v_set false (2 ^ 32 - 1) x).
Proof.
  intros N HN Hn Hd1 Hd2 Hd3 Hv Hw Hx Hc [Hwe Hwc] Ux p'.
  assert (Hnm : n <> m) by by apply (domain_other N). assert (Hmk : m <> k) by by apply (domain_other N).
  assert (Hnk : n <> k) by congruence.
  assert (exists f : nat, size (registered (locals p)) = S (S f)) as [f Hf].
  { assert (size ({[ n; m ]} : gset Z) <= size (registered (locals p)))%nat as Hs.
    { rewrite <- size_dom. apply subseteq_size. intros z Hz. apply elem_of_dom, views_is_Some.
      apply elem_of_union in Hz as [->%elem_of_singleton| ->%elem_of_singleton]; by eexists. }
    rewrite size_union, !size_singleton in Hs by set_solver.
    destruct (size _) as [|[|f]]; [lia..|by exists f]. }
  unfold p', unsubscribe. rewrite Hf. clear p'.
  destruct (find_local_signal_key _ _ _ HN Hn) as (e & s & Hfind & _).
  destruct (unsubscribe_step p (S (S (S f))) sid n e v true _ Hfind Hv eq_refl) as (p1 & md1 & Hname1 & Hb1 & ->).
  cbn [v_explicit v_count v_set] in Hb1. unfold v_subscribed at 1. cbn [v_explicit v_count v_set orb]. rewrite Hc.
  pose proof Hd1 as Hd1'. unfold N in Hd1'. rewrite (domain_seeks _ _ _ _ Hname1) in Hd1'.
  destruct (seeks_domain sid md1); [|done]. cbn [Z.ltb Z.compare].
  assert (HN1 : names (locals p1) = N) by (eapply alter_becomes_names; [exact Hb1|]; apply drop_signal).
  assert (Hw1 : views (locals p1) !! m = Some w) by by rewrite (proj1 Hb1), lookup_alter_ne.
  assert (Hx1 : views (locals p1) !! k = Some x) by by rewrite (proj1 Hb1), lookup_alter_ne.
  destruct (find_local_signal_key (locals p1) (table_id md1) m) as (e2 & s2 & Hfind2 & _); [by rewrite HN1..|].
  destruct (unsubscribe_step p1 (S (S f)) _ m e2 w false _ Hfind2 Hw1 eq_refl) as (p2 & md2 & Hname2 & Hb2 & ->).
  cbn [v_explicit v_count v_set] in Hb2. unfold v_subscribed. cbn [v_explicit v_count v_set]. rewrite Hwe, Hwc in *.
  change (u32 (1 - 1)) with 0 in *. cbn [orb Z.ltb Z.compare].
  rewrite HN1 in Hname2. pose proof Hd2 as Hd2'. rewrite (domain_seeks _ _ _ _ Hname2) in Hd2'.
  destruct (seeks_domain (table_id md1) md2); [|done].
  assert (HN2 : names (locals p2) = N) by (rewrite <- HN1; eapply alter_becomes_names; [exact Hb2|]; apply drop_signal).
  assert (Hx2 : views (locals p2) !! k = Some x) by by rewrite (proj1 Hb2), lookup_alter_ne.
  destruct (unsubscribe_domain p2 f (table_id md2) k x) as (b & p3 & -> & Hb3); [by rewrite HN2..|done|by rewrite HN2|].
  cbn [value_or snd]. split; [|split].
  - rewrite <- HN2. eapply alter_becomes_names; [exact Hb3|]. apply drop_signal.
  - by rewrite (proj1 Hb3), lookup_alter_ne, (proj1 Hb2), lookup_alter_eq, Hw1.
  - rewrite (proj1 Hb3), lookup_alter_eq, Hx2. cbn. by rewrite unused_drop.
Qed.

(** ** The specification

    A set of explicitly subscribed signals; a signal is subscribed while it is
    in the set or is the domain of one that is. *)

Inductive request : Type :=
| Subscribe (sid : string)
| Unsubscribe (sid : string).

Definition perform (r : request) (p : publisher) : bool * publisher :=
  match r with
  | Subscribe sid => subscribe sid true p
  | Unsubscribe sid => unsubscribe sid true p
  end.

Section Specification.
Context (N : gmap Z (string * json)).

(** The explicitly subscribed signals whose domain is [n]. *)
Definition users (E : gset Z) (n : Z) : gset Z := filter (fun k => domain N k = Some n) E.

Definition spec_subscribed (E : gset Z) (n : Z) : bool :=
  bool_decide (n ∈ E) || bool_decide (users E n <> ∅).

Definition spec_perform (r : request) (E : gset Z) : gset Z :=
  match r with
  | Subscribe sid => if key N sid is Some n then {[ n ]} ∪ E else E
  | Unsubscribe sid => if key N sid is Some n then E ∖ {[ n ]} else E
  end.

(** The answer: whether the subscription changed. *)
Definition spec_result (r : request) (E : gset Z) : bool :=
  match r with
  | Subscribe sid => if key N sid is Some n then negb (spec_subscribed E n) else false
  | Unsubscribe sid => if key N sid is Some n then bool_decide (users E n = ∅) else false
  end.

(** Only what was explicitly subscribed is unsubscribed. *)
Definition allowed (r : request) (E : gset Z) : bool :=
  match r with
  | Subscribe _ => true
  | Unsubscribe sid => if key N sid is Some n then bool_decide (n ∈ E) else true
  end.

(** Ids are distinct, domains have no domain of their own, and the counts
    cannot overflow. *)
Definition well_named : Prop :=
  distinct N /\ (forall n m, domain N n = Some m -> domain N m = None) /\
  Z.of_nat (size N) < 2 ^ 32 - 1.

Definition matches (E : gset Z) (n : Z) (v : view) : Prop :=
  v_explicit v = bool_decide (n ∈ E) /\ v_count v = Z.of_nat (size (users E n)) /\
  v_holder v = v_subscribed v /\ v_metadata v = v_subscribed v /\ v_data v = v_subscribed v.

Definition implements (E : gset Z) (p : publisher) : Prop :=
  names (locals p) = N /\ E ⊆ dom N /\
  forall n v, views (locals p) !! n = Some v -> matches E n v.

Context (HN : well_named).

Lemma users_size E n : E ⊆ dom N -> Z.of_nat (size (users E n)) < 2 ^ 32 - 1.
Proof.
  intros HE. destruct HN as (_ & _ & Hsz).
  assert (size (users E n) <= size (dom N))%nat as H by (apply subseteq_size; unfold users; set_solver).
  rewrite size_dom in H. lia.
Qed.

Lemma matches_subscribed E n v : matches E n v -> v_subscribed v = spec_subscribed E n.
Proof.
  intros (He & Hc & _). unfold v_subscribed, spec_subscribed. rewrite He, Hc. f_equal.
  destruct (decide (users E n = ∅)) as [Hu|Hu].
  - rewrite Hu, size_empty, bool_decide_false by (by intros []). done.
  - rewrite bool_decide_true by done. apply Z.ltb_lt.
    assert (size (users E n) <> 0)%nat; [|lia]. by intros H0%size_empty_inv%leibniz_equiv.
Qed.

Lemma users_add E n k :
  n ∉ E -> users ({[ n ]} ∪ E) k = (if decide (domain N n = Some k) then {[ n ]} ∪ users E k else users E k).
Proof.
  intros Hn. unfold users. case_decide as Hd; apply set_eq; intros x;
    rewrite ?elem_of_union, !elem_of_filter, elem_of_union, elem_of_singleton; naive_solver.
Qed.

Lemma users_remove E n k :
  users (E ∖ {[ n ]}) k = (if decide (domain N n = Some k) then users E k ∖ {[ n ]} else users E k).
Proof.
  unfold users. case_decide as Hd; apply set_eq; intros x; rewrite ?elem_of_difference, !elem_of_filter,
    elem_of_difference, elem_of_singleton; naive_solver.
Qed.

Lemma users_add_size E n k :
  n ∉ E -> Z.of_nat (size (users ({[ n ]} ∪ E) k))
  = Z.of_nat (size (users E k)) + (if decide (domain N n = Some k) then 1 else 0).
Proof.
  intros Hn. rewrite users_add by done. case_decide; [|lia].
  rewrite size_union, size_singleton; [lia|]. unfold users. set_solver.
Qed.

Lemma users_remove_size E n k :
  n ∈ E -> Z.of_nat (size (users (E ∖ {[ n ]}) k))
  = Z.of_nat (size (users E k)) - (if decide (domain N n = Some k) then 1 else 0).
Proof.
  intros Hn. rewrite users_remove. case_decide as Hd; [|lia].
  assert (Hin : n ∈ users E k) by (unfold users; apply elem_of_filter; done).
  rewrite size_difference, size_singleton by set_solver.
  assert (size (users E k) <> 0)%nat; [|lia]. intros H0%size_empty_inv. set_solver.
Qed.

(** A signal that is somebody's domain has none itself. *)
Lemma used_no_domain E n : users E n <> ∅ -> domain N n = None.
Proof.
  intros [k Hk]%set_choose_L. unfold users in Hk. apply elem_of_filter in Hk as [Hk _].
  destruct HN as (_ & Hflat & _). by eapply Hflat.
Qed.

Lemma implements_view E p n x :
  implements E p -> N !! n = Some x -> exists v, views (locals p) !! n = Some v /\ matches E n v.
Proof.
  intros (Hnm & _ & Hv) Hn. rewrite <- Hnm in Hn. unfold names in Hn. rewrite lookup_omap in Hn.
  destruct (views (locals p) !! n) as [v|] eqn:E1; [|done]. eauto.
Qed.
Lemma matches_ext E E' k v :
  matches E k v -> (k ∈ E <-> k ∈ E') ->
  Z.of_nat (size (users E' k)) = Z.of_nat (size (users E k)) -> matches E' k v.
Proof.
  intros (H1 & H2 & H3) Hk Hu. split_and!; [|by rewrite Hu|apply H3..].
  rewrite H1. by apply bool_decide_ext.
Qed.

(** The changes to the entry itself and to its domain, as the specification
    sees them. *)
Lemma matches_subscribe_own E n v c :
  matches E n v -> (c = v \/ c = v_connect true (v_hold true v)) ->
  (v_subscribed v = true \/ c = v_connect true (v_hold true v)) ->
  Z.of_nat (size (users ({[ n ]} ∪ E) n)) = Z.of_nat (size (users E n)) ->
  matches ({[ n ]} ∪ E) n (v_set true (v_count v) c).
Proof.
  intros (H1 & H2 & H3 & H4 & H5) Hc Hs Hu. unfold matches, v_set, v_subscribed. cbn.
  rewrite bool_decide_true, Hu by set_solver. destruct Hc as [->| ->]; cbn; [|done].
  destruct Hs as [Hs|Hs]; [by rewrite H3, H4, H5, Hs|].
  split_and!; [done..| | |]; rewrite Hs; done.
Qed.

Lemma matches_up E n m v :
  E ⊆ dom N -> matches E m v -> n <> m -> n ∉ E -> domain N n = Some m -> matches ({[ n ]} ∪ E) m (v_up v).
Proof.
  intros HE (H1 & H2 & H3 & H4 & H5) Hne Hn Hd. pose proof (users_size E m HE) as Hsz.
  assert (Hw : u32 (v_count v + 1) = v_count v + 1) by (apply wrap_small; unfold in_u; lia).
  assert (E0 : (0 <? v_count v + 1) = true) by lia.
  unfold matches, v_up. rewrite Hw, users_add_size, decide_True by done.
  destruct (v_subscribed v) eqn:Esub; unfold v_subscribed, v_connect, v_hold, v_set; cbn;
    rewrite E0, orb_true_r, ?H3, ?H4, ?H5; (split_and!; [|lia|done..]);
    rewrite H1; apply bool_decide_ext; set_solver.
Qed.

Lemma matches_drop E E' n v n' :
  matches E n v -> v_subscribed v = true ->
  Z.of_nat (size (users E' n)) = n' -> matches E' n (v_drop (bool_decide (n ∈ E')) n' v).
Proof.
  intros (H1 & H2 & H3 & H4 & H5) Hs Hu. unfold v_drop.
  destruct (v_subscribed (v_set _ _ v)) eqn:Hsub; unfold matches; split_and!; try done.
  - rewrite Hsub. cbn. by rewrite H3.
  - rewrite Hsub. cbn. by rewrite H4.
  - rewrite Hsub. cbn. by rewrite H5.
Qed.

Lemma implements_intro E E' p p' :
  implements E p -> E' ⊆ dom N -> names (locals p') = names (locals p) ->
  (forall k v, views (locals p') !! k = Some v -> matches E' k v) -> implements E' p'.
Proof. intros (Hnm & _ & _) HE Hn Hv. split_and!; [by rewrite Hn|done|done]. Qed.

Lemma subscribe_dom E n md : N !! n = Some md -> E ⊆ dom N -> {[ n ]} ∪ E ⊆ dom N.
Proof.
  intros Hmd HE. apply union_subseteq; split; [|done]. apply singleton_subseteq_l, elem_of_dom. by eexists.
Qed.

(** An explicit subscription of a signal that is already subscribed. *)
Lemma subscribe_again_implements E p sid n v :
  implements E p -> distinct (names (locals p)) -> key (names (locals p)) sid = Some n ->
  {[ n ]} ∪ E ⊆ dom N -> views (locals p) !! n = Some v -> matches E n v -> v_subscribed v = true ->
  (subscribe sid true p).1 = false /\ implements ({[ n ]} ∪ E) (subscribe sid true p).2.
Proof.
  intros (Hnm & HE & Hall) Hdist Hk HE' Hv Hm Hsub.
  destruct (subscribe_subscribed p sid n v Hdist Hk Hv Hsub) as [-> Hb]. split; [done|].
  assert (Hu : forall k, Z.of_nat (size (users ({[ n ]} ∪ E) k)) = Z.of_nat (size (users E k))).
  { intros k. destruct (decide (n ∈ E)) as [Hin|Hin].
    - by replace ({[ n ]} ∪ E) with E by set_solver.
    - rewrite users_add_size, (used_no_domain E n), decide_False by (done || intros Hu;
        rewrite (matches_subscribed _ _ _ Hm) in Hsub; unfold spec_subscribed in Hsub;
        rewrite Hu, bool_decide_false in Hsub by done; done). lia. }
  apply (implements_intro E _ p); [done..|by eapply alter_becomes_names|].
  rewrite (proj1 Hb). intros k x Hx. destruct (decide (n = k)) as [<-|Hne].
  + rewrite lookup_alter_eq, Hv in Hx. injection Hx as <-.
    apply matches_subscribe_own; [done|by left|by left|apply Hu].
  + rewrite lookup_alter_ne in Hx by done. eapply matches_ext; [by apply Hall|set_solver|apply Hu].
Qed.

(** The first subscription of a signal. *)
Lemma subscribe_new_implements E p sid n v :
  implements E p -> distinct (names (locals p)) ->
  (forall n m, domain N n = Some m -> domain N m = None) -> key (names (locals p)) sid = Some n ->
  {[ n ]} ∪ E ⊆ dom N -> views (locals p) !! n = Some v -> matches E n v -> v_subscribed v = false ->
  (subscribe sid true p).1 = true /\ implements ({[ n ]} ∪ E) (subscribe sid true p).2.
Proof.
  intros (Hnm & HE & Hall) Hdist Hflat Hk HE' Hv Hm Hsub.
  assert (Hin : n ∉ E).
  { intros Hin. rewrite (matches_subscribed _ _ _ Hm) in Hsub. unfold spec_subscribed in Hsub.
    by rewrite bool_decide_true in Hsub. }
  destruct (subscribe_fresh p sid n v Hdist Hk Hv Hsub) as [-> Hb].
  split; [done|]. pose proof (domain_other (names (locals p)) n) as Hother. rewrite Hnm in Hb, Hother.
  apply (implements_intro E _ p); [done..| |].
  + eapply becomes_names; [exact Hb|]. rewrite alter_signals by done.
    destruct (domain N n); cbn [opt_alter]; rewrite ?(alter_signals v_up) by apply up_signal;
      by rewrite alter_signals.
  + rewrite (proj1 Hb). intros k x Hx. destruct (decide (n = k)) as [<-|Hne].
    * assert (Hx' : x = v_set true (v_count v) (v_connect true (v_hold true v))).
      { rewrite lookup_alter_eq in Hx. destruct (domain N n) as [m|] eqn:Ed; cbn in Hx.
        - rewrite lookup_alter_ne, lookup_alter_eq, Hv in Hx by (by apply not_eq_sym, Hother). by injection Hx as <-.
        - rewrite lookup_alter_eq, Hv in Hx. by injection Hx as <-. }
      subst x. apply matches_subscribe_own; [done|by right|by right|].
      rewrite users_add_size, decide_False by (done || intros Hd; by apply (Hother n Hd)). lia.
    * rewrite lookup_alter_ne in Hx by done. destruct (domain N n) as [m|] eqn:Ed; cbn in Hx.
      -- destruct (decide (m = k)) as [<-|Hmk].
         ++ rewrite lookup_alter_eq, lookup_alter_ne in Hx by done.
            apply fmap_Some in Hx as (y & Hy & ->). apply matches_up; [done|by apply Hall|done..].
         ++ rewrite !lookup_alter_ne in Hx by done. eapply matches_ext; [by apply Hall|set_solver|].
            rewrite users_add_size, decide_False by (done || congruence). lia.
      -- rewrite lookup_alter_ne in Hx by done. eapply matches_ext; [by apply Hall|set_solver|].
         rewrite users_add_size, decide_False by (done || congruence). lia.
Qed.

Lemma subscribe_implements E p sid :
  implements E p ->
  (perform (Subscribe sid) p).1 = spec_result (Subscribe sid) E /\
  implements (spec_perform (Subscribe sid) E) (perform (Subscribe sid) p).2.
Proof.
  intros Hi. pose proof Hi as (Hnm & HE & Hall). pose proof HN as (Hdist & Hflat & _). cbn [perform].
  destruct (key N sid) as [n|] eqn:Hk; cbn; rewrite Hk.
  2: { by rewrite subscribe_none by by rewrite Hnm. }
  destruct (key_some _ _ _ Hk) as [md Hmd]. destruct (implements_view E p n _ Hi Hmd) as (v & Hv & Hm).
  pose proof (subscribe_dom E n _ Hmd HE) as HE'.
  rewrite <- (matches_subscribed _ _ _ Hm). rewrite <- Hnm in Hdist, Hk. destruct (v_subscribed v) eqn:Hsub.
  - exact (subscribe_again_implements E p sid n v Hi Hdist Hk HE' Hv Hm Hsub).
  - exact (subscribe_new_implements E p sid n v Hi Hdist Hflat Hk HE' Hv Hm Hsub).
Qed.

Lemma unsubscribe_none p sid : key (names (locals p)) sid = None -> unsubscribe sid true p = (false, p).
Proof. intros Hk. unfold unsubscribe. cbn [unsubscribe_fuel]. by rewrite find_local_signal_none. Qed.

Lemma drop_becomes_names p p' o n b c :
  becomes (locals p) (match o with Some m => alter (fun v => v_drop (v_explicit v) (u32 (v_count v - 1)) v) m
                      | None => fun V => V end (alter (v_drop b c) n (views (locals p)))) (locals p') ->
  names (locals p') = names (locals p).
Proof.
  intros Hb. eapply becomes_names; [exact Hb|].
  destruct o; rewrite ?alter_signals; try done; intros ?; apply drop_signal.
Qed.

(** The views after an explicit subscription was given back. *)
Lemma drop_matches E (V : gmap Z view) n v o k x :
  E ⊆ dom N -> (forall k x, V !! k = Some x -> matches E k x) -> n ∈ E -> V !! n = Some v ->
  (forall m x, matches E m x -> n = m \/ domain N n = Some m -> v_subscribed x = true) ->
  (forall k, o = Some k <-> domain N n = Some k) ->
  (match o with Some m => alter (fun v => v_drop (v_explicit v) (u32 (v_count v - 1)) v) m
   | None => fun V => V end (alter (v_drop false (v_count v)) n V)) !! k = Some x ->
  matches (E ∖ {[ n ]}) k x.
Proof.
  intros HE Hall Hn Hv Hsub Ho Hx.
  assert (Hon : forall m, o = Some m -> n <> m) by (intros m Hm; by apply (domain_other N), Ho).
  destruct (decide (n = k)) as [<-|Hne].
  - assert (x = v_drop false (v_count v) v) as ->.
    { destruct o as [m|]; [rewrite lookup_alter_ne in Hx by by apply not_eq_sym, Hon|];
        rewrite lookup_alter_eq, Hv in Hx; by injection Hx as <-. }
    pose proof (matches_drop E (E ∖ {[ n ]}) n v (v_count v) (Hall n v Hv)) as Hd.
    rewrite bool_decide_false in Hd by set_solver. apply Hd; [by eapply Hsub; [apply Hall|left]|].
    pose proof (Hall n v Hv) as (_ & -> & _).
    rewrite users_remove_size, decide_False; [lia| |done]. intros Hdn. by apply (domain_other N n n).
  - destruct (decide (o = Some k)) as [->|Hok].
    + rewrite lookup_alter_eq, lookup_alter_ne in Hx by done.
      apply fmap_Some in Hx as (y & Hy & ->). pose proof (Hall k y Hy) as Hm.
      pose proof (matches_drop E (E ∖ {[ n ]}) k y (u32 (v_count y - 1)) Hm) as Hd.
      rewrite (bool_decide_ext (k ∈ E ∖ {[ n ]}) (k ∈ E)) in Hd by set_solver.
      pose proof Hm as (He & Hc & _). rewrite <- He in Hd. apply Hd; [eapply Hsub; [done|right; by apply Ho]|].
      pose proof (users_size E k HE). assert (size (users E k) <> 0)%nat.
      { intros H0%size_empty_inv. assert (n ∈ users E k) by (apply elem_of_filter; split; [by apply Ho|done]).
        set_solver. }
      rewrite users_remove_size, decide_True by (done || by apply Ho).
      rewrite Hc, wrap_small by (unfold in_u; lia). done.
    + assert (Hy : V !! k = Some x).
      { destruct o as [m|]; rewrite ?lookup_alter_ne in Hx; try done. congruence. }
      eapply matches_ext; [by apply Hall|set_solver|].
      rewrite users_remove_size, decide_False; [lia| |done]. rewrite <- Ho. congruence.
Qed.

Lemma unsubscribe_implements E p sid :
  implements E p -> allowed (Unsubscribe sid) E = true ->
  (perform (Unsubscribe sid) p).1 = spec_result (Unsubscribe sid) E /\
  implements (spec_perform (Unsubscribe sid) E) (perform (Unsubscribe sid) p).2.
Proof.
  intros Hi Ha. pose proof Hi as (Hnm & HE & Hall). pose proof HN as (Hdist & Hflat & _). cbn [perform].
  destruct (key N sid) as [n|] eqn:Hk; cbn in *; rewrite Hk in *; [|by rewrite unsubscribe_none by by rewrite Hnm].
  apply bool_decide_eq_true in Ha. destruct (key_some _ _ _ Hk) as [md Hmd].
  destruct (implements_view E p n _ Hi Hmd) as (v & Hv & Hm). pose proof Hm as (Hx1 & Hx2 & _).
  assert (Hsub : forall m x, matches E m x -> n = m \/ domain N n = Some m -> v_subscribed x = true).
  { intros m x Hx [<-|Hd]; rewrite (matches_subscribed _ _ _ Hx); unfold spec_subscribed.
    - by rewrite bool_decide_true.
    - rewrite (bool_decide_true (users E m <> ∅)), orb_true_r; [done|].
      assert (n ∈ users E m) as Hu by (apply elem_of_filter; done). set_solver. }
  rewrite <- Hnm in Hdist, Hk.
  destruct (unsubscribe_explicit p sid n v Hdist Hk Hv) as (p' & -> & Hb); [lia|rewrite Hnm; apply Hflat|].
  rewrite Hnm in Hb. cbn [fst snd]. split.
  { rewrite Hx2. destruct (decide (users E n = ∅)) as [Hu|Hu].
    - by rewrite Hu, size_empty, bool_decide_true.
    - rewrite bool_decide_false by done. assert (size (users E n) <> 0)%nat; [|lia].
      by intros H0%size_empty_inv%leibniz_equiv. }
  set (o := if 0 <? v_count v then None else domain N n).
  assert (Hb' : becomes (locals p)
    (match o with Some m => alter (fun v => v_drop (v_explicit v) (u32 (v_count v - 1)) v) m
     | None => fun V => V end (alter (v_drop false (v_count v)) n (views (locals p)))) (locals p')).
  { unfold o. by destruct (0 <? v_count v). }
  clear Hb. apply (implements_intro E _ p); [done|set_solver|by eapply drop_becomes_names|].
  assert (Ho : forall k, o = Some k <-> domain N n = Some k).
  { intros k. unfold o. destruct (Z.ltb_spec 0 (v_count v)) as [Hc|]; [|done].
    rewrite (used_no_domain E n); [done|]. intros Hu. rewrite Hx2, Hu, size_empty in Hc. done. }
  rewrite (proj1 Hb'). intros k x Hx. eapply drop_matches; [exact HE|exact Hall|done..|exact Hx].
Qed.

(** ** Sequences of requests *)

Fixpoint run_requests (rs : list request) (p : publisher) : list bool * publisher :=
  match rs with
  | [] => ([], p)
  | r :: rs =>
      let '(b, p) := perform r p in
      let '(bs, p) := run_requests rs p in (b :: bs, p)
  end.

Fixpoint spec_requests (rs : list request) (E : gset Z) : list bool * gset Z :=
  match rs with
  | [] => ([], E)
  | r :: rs =>
      let '(bs, E') := spec_requests rs (spec_perform r E) in (spec_result r E :: bs, E')
  end.

Fixpoint all_allowed (rs : list request) (E : gset Z) : bool :=
  match rs with
  | [] => true
  | r :: rs => allowed r E && all_allowed rs (spec_perform r E)
  end.

Lemma perform_implements E p r :
  implements E p -> allowed r E = true ->
  (perform r p).1 = spec_result r E /\ implements (spec_perform r E) (perform r p).2.
Proof.
  intros Hi Ha. destruct r; [by apply subscribe_implements|by apply unsubscribe_implements].
Qed.
End Specification.

(** ** Termination of unsubscribe *)

(** The entries with exactly one implicit subscription. *)
Definition ones (l : local_state) : nat :=
  size (filter (fun x : Z * view => u32 (v_count x.2) = 1) (views l)).

Lemma filter_alter_size (P : Z * view -> Prop) `{!forall x, Decision (P x)} g n v (V : gmap Z view) :
  V !! n = Some v -> P (n, v) -> ~ P (n, g v) ->
  (size (filter P (alter g n V)) < size (filter P V))%nat.
Proof.
  intros Hv HP HnP. assert (E : filter P (alter g n V) = delete n (filter P V)).
  { apply map_eq. intros k. destruct (decide (n = k)) as [<-|Hne].
    - rewrite lookup_delete_eq, map_lookup_filter_None. right. intros x Hx.
      rewrite lookup_alter_eq, Hv in Hx. injection Hx as <-. done.
    - rewrite lookup_delete_ne by done. rewrite !map_lookup_filter, lookup_alter_ne by done. done. }
  assert (Hl : filter P V !! n = Some v) by by apply map_lookup_filter_Some.
  rewrite E, map_size_delete_Some by by eexists.
  assert (size (filter P V) <> 0)%nat; [|lia]. intros H0%map_size_empty_inv. by rewrite H0, lookup_empty in Hl.
Qed.

Lemma implicit_unsubscribe_total fuel : forall p sid,
  (ones (locals p) < fuel)%nat -> is_Some (unsubscribe_fuel fuel sid false p).
Proof.
  induction fuel as [|fuel IH]; intros p sid Hf; [lia|].
  destruct (find_local_signal sid (locals p)) as [[n e]|] eqn:E; [|cbn [unsubscribe_fuel]; by rewrite E].
  destruct (find_local_signal_inv _ _ _ _ E) as (He & _).
  assert (Hv : views (locals p) !! n = Some (view_of e)) by (unfold views; by rewrite lookup_fmap, He).
  destruct (unsubscribe_step p fuel sid n e _ false _ E Hv eq_refl) as (p' & md & _ & [Hb _] & ->).
  cbn [v_explicit v_count v_set] in *. set (c := v_count (view_of e)) in *.
  destruct (v_subscribed _) eqn:Hsub; [by eexists|]. destruct (seeks_domain sid md); [|by eexists].
  unfold v_subscribed in Hsub. cbn [v_explicit v_count v_set] in Hsub. apply orb_false_iff in Hsub as [_ Hc].
  destruct (IH p' (table_id md)) as [[b p''] ->]; [|by eexists].
  assert (Hr : in_u 32 (u32 (c - 1))) by by apply wrap_range.
  assert (H0 : u32 (c - 1) = 0) by (unfold in_u in Hr; lia).
  assert (H1 : u32 c = 1).
  { unfold wrap in *. rewrite <- (Z.sub_add 1 c), Z.add_mod, H0 by lia. done. }
  unfold ones in *. rewrite Hb. eapply Nat.lt_le_trans; [|apply Nat.lt_succ_r, Hf].
  apply (filter_alter_size (fun x : Z * view => u32 (v_count x.2) = 1) _ n (view_of e)); [done|done|].
  unfold v_drop. rewrite H0. by destruct (v_subscribed _).
Qed.
End Subscriptions.

(** ** Properties *)

Section Properties.
Context `{JL : JsonLib}.

(** C7: the subscriptions a peer requests and gives back, in any order, under two
    conditions: no signal that is somebody's domain has a domain of its own
    ([well_named], which also says that ids are distinct and that the counts
    cannot overflow), and the peer gives back only what it requested
    ([all_allowed]).  Then every answer is the specification's, and a local
    signal's data reaches the peer exactly while the signal is explicitly
    subscribed or is the domain of one that is; the implicit count of a signal is
    the number of explicitly subscribed signals whose domain it is.  What happens
    without the conditions is [domain_chain_wraps] and
    [unrequested_unsubscribe_wraps]. *)
Theorem subscriptions_refine_spec rs p E :
  let N := names (locals p) in
  well_named N -> implements N E p -> all_allowed N rs E = true ->
  (run_requests rs p).1 = (spec_requests N rs E).1 /\
  let E' := (spec_requests N rs E).2 in
  implements N E' (run_requests rs p).2 /\
  forall n v, views (locals (run_requests rs p).2) !! n = Some v ->
    v_data v = spec_subscribed N E' n /\ v_holder v = spec_subscribed N E' n /\
    v_count v = Z.of_nat (size (users N E' n)).
Proof.
  intros N HN Hi Ha. cut ((run_requests rs p).1 = (spec_requests N rs E).1 /\
    implements N (spec_requests N rs E).2 (run_requests rs p).2).
  { intros [H1 H2]. split; [done|]. intros E'. split; [done|]. intros n v Hv. pose proof H2 as (_ & _ & Hm).
    specialize (Hm n v Hv). rewrite <- (matches_subscribed N E' n v Hm). by destruct Hm as (_ & ? & ? & _ & ?). }
  clearbody N. revert p E Hi Ha.
  induction rs as [|r rs IH]; intros p E Hi Ha; [done|].
  cbn in *. apply andb_true_iff in Ha as [Hr Ha].
  destruct (perform_implements N HN E p r Hi Hr) as [H1 H2]. destruct (perform r p) as [b p1].
  specialize (IH p1 _ H2 Ha). destruct (run_requests rs p1), (spec_requests N rs (spec_perform N r E)).
  cbn in *. by destruct IH as [-> ?]; rewrite H1.
Qed.

(** C32: giving back a subscription always terminates, however the domains of
    the signals refer to one another and whatever their counts: following the
    chain of domains stops after at most as many steps as there are registered
    signals. *)
Theorem unsubscribe_terminates p sid expl :
  is_Some (unsubscribe_fuel (S (S (size (registered (locals p))))) sid expl p).
Proof.
  assert (Hones : (ones (locals p) <= size (registered (locals p)))%nat).
  { unfold ones, views. rewrite <- (map_size_fmap view_of (registered (locals p))).
    apply map_size_filter. }
  destruct expl; [|apply implicit_unsubscribe_total; lia].
  set (k := S (size (registered (locals p)))).
  destruct (find_local_signal sid (locals p)) as [[n e]|] eqn:E; [|cbn [unsubscribe_fuel]; by rewrite E].
  destruct (find_local_signal_inv _ _ _ _ E) as (He & _).
  assert (Hv : views (locals p) !! n = Some (view_of e)) by (unfold views; by rewrite lookup_fmap, He).
  destruct (unsubscribe_step p k sid n e _ true _ E Hv eq_refl) as (p' & md & _ & [Hb _] & ->).
  destruct (v_subscribed _); [by eexists|]. destruct (seeks_domain sid md); [|by eexists].
  destruct (implicit_unsubscribe_total k p' (table_id md)) as [[b p''] ->]; [|by eexists].
  assert (Hs : size (views (locals p')) = size (registered (locals p))).
  { rewrite Hb, <- size_dom, dom_alter_L, size_dom. apply map_size_fmap. }
  unfold ones. pose proof (map_size_filter (fun x : Z * view => u32 (v_count x.2) = 1) (views (locals p'))).
  unfold k. lia.
Qed.

(** A domain that has a domain of its own is not handled: [subscribe] subscribes
    the domain of the requested signal only, but [unsubscribe] follows the whole
    chain.  Subscribing and unsubscribing the first signal of a chain of three
    leaves the count of the third at 2^32-1; when the second is subscribed
    afterwards its data is connected but that of its domain is not. *)
Theorem domain_chain_wraps p sid sid' n m k v w x :
  let N := names (locals p) in
  distinct N -> key N sid = Some n -> key N sid' = Some m ->
  domain N n = Some m -> domain N m = Some k -> domain N k = None ->
  views (locals p) !! n = Some v -> views (locals p) !! m = Some w -> views (locals p) !! k = Some x ->
  unused v -> unused w -> unused x ->
  let p1 := (unsubscribe sid true (subscribe sid true p).2).2 in
  let p2 := (subscribe sid' true p1).2 in
  v_count <$> views (locals p1) !! k = Some (2 ^ 32 - 1) /\
  v_data <$> views (locals p2) !! m = Some true /\ v_data <$> views (locals p2) !! k = Some false.
Proof.
  intros N HN Hn Hm Hd1 Hd2 Hd3 Hv Hw Hx Uv Uw Ux p1 p2.
  assert (Hmk : m <> k) by by apply (domain_other N). assert (Hnk : n <> k) by congruence.
  pose proof (subscribe_fresh_changes p sid n m v w HN Hn Hd1 Hv Hw (unused_subscribed v Uv)) as H0.
  set (p0 := (subscribe sid true p).2) in *.
  assert (Hx0 : views (locals p0) !! k = Some x) by by rewrite (ch_others _ _ _ _ _ _ H0).
  pose proof (ch_names _ _ _ _ _ _ H0) as HN0.
  destruct (unsubscribe_chain p0 sid n m k (v_connect true (v_hold true (v_set true (v_count v) v))) (v_up w) x)
    as (HN1 & Hm1 & Hk1); [by rewrite HN0..|apply H0|apply H0|done|apply Uv|by apply unused_up|done|].
  fold p1 in HN1, Hm1, Hk1. rewrite HN0 in HN1. fold N in HN1.
  pose proof (subscribe_fresh_changes p1 sid' m k _ _ ltac:(by rewrite HN1) ltac:(by rewrite HN1) ltac:(by rewrite HN1) Hm1 Hk1) as H2.
  specialize (H2 (dropped_unsubscribed (v_up w))). fold p2 in H2.
  rewrite Hk1, (ch_signal _ _ _ _ _ _ H2), (ch_domain _ _ _ _ _ _ H2). cbn [fmap option_fmap option_map].
  split; [done|]. split; [done|]. rewrite wrapped_up. f_equal. apply Ux.
Qed.

(** C40: giving back a subscription that was not requested corrupts the count of
    the signal's domain (a signal without a domain of its own that nobody else
    uses).  The count wraps to 2^32-1, so that when the signal [n] is subscribed
    afterwards its data is connected but that of its domain is not, and the peer
    gets samples without domain values.  That subscription brings the count to 0,
    and it stays one too low: subscribing another signal with the same domain
    connects the domain's data, and unsubscribing that other signal disconnects
    it although the first one is still subscribed. *)
Theorem unrequested_unsubscribe_wraps p sid n m E :
  let N := names (locals p) in
  well_named N -> implements N E p -> key N sid = Some n -> domain N n = Some m ->
  n ∉ E -> spec_subscribed N E m = false ->
  let p1 := (unsubscribe sid true p).2 in
  let p2 := (subscribe sid true p1).2 in
  v_count <$> views (locals p1) !! m = Some (2 ^ 32 - 1) /\
  v_data <$> views (locals p2) !! n = Some true /\ v_data <$> views (locals p2) !! m = Some false /\
  forall sid' k, key N sid' = Some k -> domain N k = Some m -> k <> n ->
    let p3 := (subscribe sid' true p2).2 in
    let p4 := (unsubscribe sid' true p3).2 in
    v_data <$> views (locals p3) !! m = Some true /\ v_count <$> views (locals p3) !! m = Some 1 /\
    v_data <$> views (locals p4) !! m = Some false /\ v_data <$> views (locals p4) !! n = Some true.
Proof.
  intros N HN Hi Hk Hd Hn Hm p1 p2. pose proof HN as (Hdist & Hflat & _).
  assert (Hu : forall k, (exists y, N !! k = Some y) -> spec_subscribed N E k = false ->
    exists x, views (locals p) !! k = Some x /\ unused x).
  { intros k [y Hy] Hs. destruct (implements_view N E p k y Hi Hy) as (x & Hx & Hmx). exists x. split; [done|].
    pose proof (matches_subscribed N E k x Hmx) as Hsub. rewrite Hs in Hsub.
    destruct Hmx as (_ & Hc & _ & _ & Hdx). unfold unused. rewrite Hdx, Hsub. unfold v_subscribed in Hsub.
    apply orb_false_iff in Hsub as [-> Hsub]. split_and!; [done|lia|done]. }
  assert (Hkey : forall sid k, key N sid = Some k -> exists y, N !! k = Some y)
    by (intros sid1 k1 [md Hmd]%key_some; by eexists).
  assert (Hnot : forall sid k, key N sid = Some k -> domain N k = Some m -> exists x, views (locals p) !! k = Some x /\ unused x).
  { intros sid1 k Hkk Hdk. apply Hu; [by eapply Hkey|]. unfold spec_subscribed. apply orb_false_iff in Hm as [_ Hm].
    apply bool_decide_eq_false in Hm. rewrite !bool_decide_false; [done| |].
    - intros Hun%(used_no_domain N HN). congruence.
    - intros Hin. apply Hm. assert (k ∈ users N E m) by (by apply elem_of_filter). set_solver. }
  destruct (Hnot sid n Hk Hd) as (v & Hv & Uv).
  destruct (Hu m) as (w & Hw & Uw); [by apply (domain_named N n)|done|].
  pose proof (unsubscribe_changes p sid n m v w Hdist Hk Hd (Hflat n m Hd) Hv Hw (proj1 (proj2 Uv))) as H1. fold p1 in H1.
  rewrite unused_drop in H1 by done.
  pose proof (ch_names _ _ _ _ _ _ H1) as HN1. fold N in HN1.
  pose proof (subscribe_fresh_changes p1 sid n m _ _ ltac:(by rewrite HN1) ltac:(by rewrite HN1) ltac:(by rewrite HN1)
    (ch_signal _ _ _ _ _ _ H1) (ch_domain _ _ _ _ _ _ H1) (dropped_unsubscribed v)) as H2. fold p2 in H2.
  rewrite wrapped_up in H2. pose proof (ch_names _ _ _ _ _ _ H2) as HN2. rewrite HN1 in HN2.
  rewrite (ch_domain _ _ _ _ _ _ H1), (ch_signal _ _ _ _ _ _ H2), (ch_domain _ _ _ _ _ _ H2).
  split; [done|]. split; [done|]. split; [by cbn; f_equal; apply Uw|].
  intros sid' k Hk' Hdk Hkn p3 p4. assert (Hkm : k <> m) by by apply (domain_other N).
  destruct (Hnot sid' k Hk' Hdk) as (z & Hz & Uz).
  assert (Hz2 : views (locals p2) !! k = Some z) by by rewrite (ch_others _ _ _ _ _ _ H2), (ch_others _ _ _ _ _ _ H1).
  pose proof (subscribe_fresh_changes p2 sid' k m _ _ ltac:(by rewrite HN2) ltac:(by rewrite HN2) ltac:(by rewrite HN2)
    Hz2 (ch_domain _ _ _ _ _ _ H2) (unused_subscribed z Uz)) as H3. fold p3 in H3.
  pose proof (ch_names _ _ _ _ _ _ H3) as HN3. rewrite HN2 in HN3.
  pose proof (unsubscribe_changes p3 sid' k m _ _ ltac:(by rewrite HN3) ltac:(by rewrite HN3) ltac:(by rewrite HN3)
    ltac:(rewrite HN3; by apply (Hflat k)) (ch_signal _ _ _ _ _ _ H3) (ch_domain _ _ _ _ _ _ H3) (proj1 (proj2 Uz))) as H4.
  fold p4 in H4. rewrite (ch_domain _ _ _ _ _ _ H3), (ch_domain _ _ _ _ _ _ H4), (ch_others _ _ _ _ _ _ H4),
    (ch_others _ _ _ _ _ _ H3), (ch_signal _ _ _ _ _ _ H2) by (done || by apply (domain_other N)). done.
Qed.
End Properties.

(** ** Witnesses *)

Section Witnesses.
#[local] Existing Instance jv_json.

(** Two explicit signals sharing a linear domain signal. *)
Definition value_metadata : json :=
  jobj [("tableId", jstr "D"); ("definition", jobj [("dataType", jstr "int16"); ("rule", jstr "explicit")])].

Definition domain_metadata : json :=
  jobj [("tableId", jstr "D"); ("valueIndex", jint 0);
        ("definition", jobj [("dataType", jstr "int64"); ("rule", jstr "linear");
                             ("linear", jobj [("start", jint 100); ("delta", jint 10)])])].

Definition sample_publisher : publisher :=
  Publisher.add_local_signal 2 (Publisher.add_local_signal 1 (Publisher.add_local_signal 0
    (mk_publisher (fresh_locals {[ 0%nat := LocalSignal.make "D" domain_metadata;
                                   1%nat := LocalSignal.make "A" value_metadata;
                                   2%nat := LocalSignal.make "B" value_metadata ]}) true []))).

(** Decision procedures for the hypotheses. *)
Definition flat_b (N : gmap Z (string * json)) : bool :=
  forallb (fun n => if domain N n is Some m then bool_decide (domain N m = None) else true)
    (map_to_list N).*1.

Definition distinct_b (N : gmap Z (string * json)) : bool :=
  forallb (fun x => forallb (fun y => negb (bool_decide (x.2.1 = y.2.1)) || bool_decide (x.1 = y.1))
                      (map_to_list N)) (map_to_list N).

Definition idle_b (V : gmap Z view) : bool :=
  forallb (fun x : Z * view => let v := x.2 in negb (v_explicit v) && (v_count v =? 0) && negb (v_holder v)
                   && negb (v_metadata v) && negb (v_data v)) (map_to_list V).

Lemma flat_b_true N : flat_b N = true -> forall n m, domain N n = Some m -> domain N m = None.
Proof.
  intros H n m Hd. unfold flat_b in H. rewrite forallb_forall in H.
  assert (Hn : In n (map_to_list N).*1).
  { unfold domain in Hd. destruct (N !! n) as [x|] eqn:E; [|done]. apply list_elem_of_In.
    apply list_elem_of_fmap. exists (n, x). split; [done|]. by apply elem_of_map_to_list. }
  specialize (H n Hn). rewrite Hd in H. by apply bool_decide_eq_true in H.
Qed.

Lemma distinct_b_true N : distinct_b N = true -> distinct N.
Proof.
  intros H n n' x x' Hn Hn' Heq. unfold distinct_b in H. rewrite forallb_forall in H.
  assert (Hin : forall k y, N !! k = Some y -> In (k, y) (map_to_list N))
    by (intros k y Hk; by apply list_elem_of_In, elem_of_map_to_list).
  specialize (H _ (Hin n x Hn)). rewrite forallb_forall in H. specialize (H _ (Hin n' x' Hn')). cbn in H.
  rewrite bool_decide_true in H by done. cbn in H. by apply bool_decide_eq_true in H.
Qed.

Lemma idle_b_true p : idle_b (views (locals p)) = true -> implements (names (locals p)) ∅ p.
Proof.
  intros H. split_and!; [done|set_solver|]. intros n v Hv. unfold idle_b in H. rewrite forallb_forall in H.
  assert (Hin : In (n, v) (map_to_list (views (locals p)))) by by apply list_elem_of_In, elem_of_map_to_list.
  specialize (H _ Hin). cbn in H. unfold matches, v_subscribed.
  rewrite !andb_true_iff, !negb_true_iff, Z.eqb_eq in H. destruct H as ((((-> & ->) & ->) & ->) & ->).
  assert (users (names (locals p)) ∅ n = ∅) as -> by (unfold users; set_solver).
  by rewrite bool_decide_false by set_solver.
Qed.

Lemma sample_well_named : well_named (names (locals sample_publisher)).
Proof. split_and!; [apply distinct_b_true|apply flat_b_true|]; by vm_compute. Qed.

Lemma sample_implements : implements (names (locals sample_publisher)) ∅ sample_publisher.
Proof. apply idle_b_true. by vm_compute. Qed.

Definition sample_requests : list request :=
  [Subscribe "A"; Subscribe "B"; Subscribe "nothing"; Unsubscribe "A"; Subscribe "D"; Unsubscribe "B"].

Lemma subscriptions_refine_spec_witness :
  (run_requests sample_requests sample_publisher).1 = [true; true; false; true; false; true].
Proof.
  destruct (subscriptions_refine_spec sample_requests sample_publisher ∅) as [-> _].
  - apply sample_well_named.
  - apply sample_implements.
  - by vm_compute.
  - by vm_compute.
Defined.

Lemma unrequested_unsubscribe_wraps_witness :
  let p1 := (unsubscribe "A" true sample_publisher).2 in
  let p2 := (subscribe "A" true p1).2 in
  let p3 := (subscribe "B" true p2).2 in
  let p4 := (unsubscribe "B" true p3).2 in
  v_count <$> views (locals p1) !! 1 = Some 4294967295 /\ v_data <$> views (locals p2) !! 1 = Some false /\
  v_data <$> views (locals p3) !! 1 = Some true /\
  v_data <$> views (locals p4) !! 1 = Some false /\ v_data <$> views (locals p4) !! 2 = Some true.
Proof.
  destruct (unrequested_unsubscribe_wraps sample_publisher "A" 2 1 ∅) as (H1 & _ & H3 & H4).
  - apply sample_well_named.
  - apply sample_implements.
  - by vm_compute.
  - by vm_compute.
  - set_solver.
  - by vm_compute.
  - destruct (H4 "B" 3) as (H5 & _ & H6 & H7); [by vm_compute|by vm_compute|done|].
    split; [exact H1|]. split; [exact H3|]. split; [exact H5|]. split; [exact H6|exact H7].
Defined.

(** A chain of three: the domain of "A" is "D", and the domain of "D" is "E". *)
Definition chain_publisher : publisher :=
  let described (tid : string) := jobj [("tableId", jstr tid)] in
  Publisher.add_local_signal 2 (Publisher.add_local_signal 1 (Publisher.add_local_signal 0
    (mk_publisher (fresh_locals {[ 0%nat := LocalSignal.make "E" (described "E");
                                   1%nat := LocalSignal.make "D" (described "E");
                                   2%nat := LocalSignal.make "A" (described "D") ]}) true []))).

Lemma domain_chain_wraps_witness :
  let p1 := (unsubscribe "A" true (subscribe "A" true chain_publisher).2).2 in
  let p2 := (subscribe "D" true p1).2 in
  v_count <$> views (locals p1) !! 1 = Some 4294967295 /\
  v_data <$> views (locals p2) !! 2 = Some true /\ v_data <$> views (locals p2) !! 1 = Some false.
Proof.
  assert (H : exists v w x, views (locals chain_publisher) !! 3 = Some v /\ views (locals chain_publisher) !! 2 = Some w /\
    views (locals chain_publisher) !! 1 = Some x /\ unused v /\ unused w /\ unused x).
  { exists (mk_view 2 3 false 0 false false false), (mk_view 1 2 false 0 false false false),
      (mk_view 0 1 false 0 false false false). split_and!; first [done|by vm_compute]. }
  destruct H as (v & w & x & Hv & Hw & Hx & Uv & Uw & Ux).
  apply (domain_chain_wraps chain_publisher "A" "D" 3 2 1 v w x);
    [apply distinct_b_true; by vm_compute|by vm_compute..|exact Hv|exact Hw|exact Hx|exact Uv|exact Uw|exact Ux].
Defined.
End Witnesses.
