(* ===== verification/EndToEnd.v ===== *)
(** * Publishing end composed with receiving end

    What a publisher sends is received by another connection: the domain values
    an application publishes with its samples come out unchanged at the other
    side, although only changes of a linear domain are transmitted.  The two
    sides keep copies of the domain's linear table and of the signal's sample
    index; [in_sync] relates them and every publication preserves it. *)
From S2P Require Import Prelude Json Metadata OrderedMap LinearTable.
From S2P Require LocalSignal LocalSignalContainer.
Module LC := LocalSignalContainer.
From S2P Require Import RemoteSignal RemoteSignalContainer Receiver.
From S2P Require Peer Publisher Subscriptions StreamingProtocol.

Section EndToEnd.
Context `{JL : JsonLib}.
Context (to_uint64 : Z -> Z).

(** A message handed to one peer object arrives at the other one. *)
Definition arrival (m : Peer.message) : traffic :=
  match m with
  | Peer.data_message n data => data_in n data
  | Peer.metadata_message n method params => metadata_in n method params
  end.

Definition arrivals (ms : list Peer.message) (c : container) : outcome :=
  session to_uint64 (arrival <$> ms) c.

(** Two tables with the same rule. *)
Definition same_rule (t t' : linear_table) : Prop :=
  index t = index t' /\ value t = value t' /\ delta t = delta t'.

Lemma same_rule_value_at t t' i : same_rule t t' -> value_at i t = value_at i t'.
Proof. intros (H1 & H2 & H3). unfold value_at. by rewrite H1, H2, H3. Qed.

Lemma payload_roundtrip p :
  in_s 64 (StreamingProtocol.sample_index p) -> in_s 64 (StreamingProtocol.value p) ->
  payload_of (payload_bytes p) = p.
Proof.
  intros H1 H2. unfold payload_of, payload_bytes, slice.
  rewrite take_app_length', drop_app_length', take_ge by by rewrite length_le_bytes.
  rewrite !le_value_le_bytes. change (8 * Z.of_nat 8) with 64.
  rewrite !swrap_wrap, !swrap_small by done. by destruct p.
Qed.

(** The addresses and numbers that a signal and its domain have on both sides. *)
Record route := mk_route {
  local : nat;
  number : Z;
  domain_number : Z;
  local_table : nat;
  remote : nat;
  remote_domain : nat;
  remote_table : nat;
  size : Z
}.

(** The entry of the publishing side, the only one of its signal. *)
Definition registered_as (w : route) (e : LC.registered_local_signal) (l : LC.local_state) : Prop :=
  LC.registered l !! number w = Some e /\ LC.signal e = local w /\ LC.signo e = number w /\
  LC.data_connected e = true /\ LC.is_explicit e = true /\
  LC.domain_table e = Some (local_table w) /\ LC.domain_signo e = Some (domain_number w) /\
  forall n e', LC.registered l !! n = Some e' -> LC.signal e' = local w -> n = number w.

Record in_sync (w : route) (p : Publisher.publisher) (c : container) : Prop := {
  sync_entry : exists e t,
    registered_as w e (Publisher.locals p) /\
    LC.tables (Publisher.locals p) !! local_table w = Some t /\
    in_s 64 (LC.value_index e) /\
    exists s t', find_signo (number w) c = Some (remote w) /\
      signals (store c) !! remote w = Some s /\
      is_subscribed s = true /\ tcp_delta s = 0 /\ table s = None /\ is_explicit s = true /\
      sample_size s = size w /\ value_index s = LC.value_index e /\
      domain_table s = Some (remote_table w) /\
      tables (store c) !! remote_table w = Some t' /\ same_rule t t';
  sync_domain : exists s, find_signo (domain_number w) c = Some (remote_domain w) /\
    signals (store c) !! remote_domain w = Some s /\
    is_subscribed s = true /\ tcp_delta s = 0 /\ table s = Some (remote_table w);
  sync_live : is_Some (entry_at (remote w) c) /\ is_Some (entry_at (remote_domain w) c);
  sync_other : remote w <> remote_domain w;
  sync_size : 0 < size w
}.

(** ** One packet at the receiver *)

Lemma receive_data n q data c h es :
  find_signo n c = Some q -> is_Some (entry_at q c) -> handle_data q data (store c) = (h, es) ->
  receive to_uint64 (data_in n data) c = (set_store h c, signal_event <$> es, None).
Proof.
  intros Hn [x Hx] Hh. cbn. unfold on_peer_data_received. by rewrite Hn, Hx, Hh.
Qed.

Lemma receive_domain q p h s t :
  signals h !! q = Some s -> is_subscribed s = true -> tcp_delta s = 0 -> table s = Some t ->
  in_s 64 (StreamingProtocol.sample_index p) -> in_s 64 (StreamingProtocol.value p) ->
  handle_data q (payload_bytes p) h
  = (mk_heap (signals h) (alter (update_payload p) t (tables h)) (next h),
     [on_data_received q 0 0 (payload_bytes p)]).
Proof.
  intros Hs Hsub Htcp Ht H1 H2. unfold handle_data. rewrite Hs, Hsub, Htcp, Ht. cbn [negb Z.eqb].
  unfold handle_data_table. rewrite payload_roundtrip by done.
  assert (size_of (payload_bytes p) = 16) as -> by (unfold payload_bytes; len). done.
Qed.

Lemma receive_samples q data h s t tab n :
  signals h !! q = Some s -> is_subscribed s = true -> tcp_delta s = 0 -> table s = None ->
  is_explicit s = true -> domain_table s = Some t -> tables h !! t = Some tab ->
  0 < sample_size s -> 0 <= n < 2 ^ 63 -> size_of data = n * sample_size s ->
  handle_data q data h
  = (mk_heap (<[q := set_sampling true (sample_size s) (s64 (value_index s + n)) s]> (signals h))
       (alter (drive_to (s64 (value_index s + n))) t (tables h)) (next h),
     [on_data_received q (value_at (value_index s) tab) n data]).
Proof.
  intros Hs Hsub Htcp Ht He Hd Htab Hsz Hn Hdata. unfold handle_data. rewrite Hs, Hsub, Htcp, Ht, He. cbn [negb Z.eqb].
  unfold handle_data_explicit, lock, data_samples. rewrite Hd, Htab, He. cbn.
  destruct (Z.eqb_spec (sample_size s) 0); [lia|]. cbn [negb].
  rewrite Hdata, Z.div_mul, (swrap_small 64 n), (wrap_small 64 n) by (unfold in_s, in_u; lia). done.
Qed.

(** ** One publication *)

Definition published : Type := Z * Z * list Z.

(** The data events of one remote signal. *)
Definition delivered (q : nat) (es : list notice) : list published :=
  omap (fun x => match x with
                 | signal_event (on_data_received q' v n data) =>
                     if decide (q' = q) then Some (v, n, data) else None
                 | _ => None
                 end) es.

(** Whole samples, and a domain value that fits. *)
Definition publishable (sz : Z) (x : published) : Prop :=
  let '(v, n, data) := x in in_s 64 v /\ 0 <= n < 2 ^ 63 /\ size_of data = n * sz.

Definition publish (w : route) (x : published) (p : Publisher.publisher) : Publisher.publisher :=
  let '(v, n, data) := x in Publisher.publish_data (local w) v n data p.

Lemma find_registered w e l : registered_as w e l -> LC.find_address (local w) l = Some (number w).
Proof.
  intros (He & Hs & _ & _ & _ & _ & _ & Hu). unfold LC.find_address.
  erewrite find_if_unique; [done|exact He|by apply bool_decide_true|].
  intros n e' He' Hs'%bool_decide_eq_true. by eapply Hu.
Qed.

Lemma registered_as_index w e l i l' :
  registered_as w e l -> LC.registered l' = alter (LC.set_value_index i) (number w) (LC.registered l) ->
  registered_as w (LC.set_value_index i e) l'.
Proof.
  intros (He & Hs & Hn & Hc & Hx & Ht & Hd & Hu) Hl. unfold registered_as. rewrite Hl.
  split_and!; [by rewrite lookup_alter_eq, He|done..|]. intros n e'.
  destruct (decide (number w = n)) as [<-|Hne]; [done|]. rewrite lookup_alter_ne by done. apply Hu.
Qed.

(** What a publication does at the sending side: the messages sent, and the
    table and index it leaves. *)
Lemma publish_sends w p e t v n data :
  registered_as w e (Publisher.locals p) ->
  LC.tables (Publisher.locals p) !! local_table w = Some t ->
  let idx := LC.value_index e in
  let moved := negb (v =? value_at idx t) in
  let p' := Publisher.publish_data (local w) v n data p in
  Publisher.sent p' = Publisher.sent p ++
    (if moved then [Peer.data_message (domain_number w)
       (payload_bytes {| StreamingProtocol.sample_index := idx; StreamingProtocol.value := v |})] else [])
    ++ [Peer.data_message (number w) data] /\
  registered_as w (LC.set_value_index (s64 (idx + n)) e) (Publisher.locals p') /\
  LC.tables (Publisher.locals p') !! local_table w
  = Some (drive_to (s64 (idx + n)) (if moved then set idx v t else t)).
Proof.
  intros Hr Ht idx moved. pose proof Hr as (He & Hs & Hn & Hc & Hx & Hdt & Hds & Hu).
  unfold Publisher.publish_data. set (p0 := Publisher.with_locals _ p).
  assert (LC.find_address (local w) (Publisher.locals p0) = Some (number w)) as -> by exact (find_registered w e _ Hr).
  assert (LC.registered (Publisher.locals p0) !! number w = Some e) as He0 by exact He.
  assert (Ht0 : LC.tables (Publisher.locals p0) !! local_table w = Some t) by exact Ht.
  assert (Hsent : Publisher.sent p0 = Publisher.sent p) by done.
  assert (Hreg : LC.registered (Publisher.locals p0) = LC.registered (Publisher.locals p)) by done.
  clearbody p0. rewrite He0, Hc. unfold Publisher.on_local_signal_data_published. rewrite He0.
  unfold Publisher.lock. rewrite Hdt, Ht0. cbn [fmap option_fmap option_map]. rewrite Hx.
  unfold Publisher.publish_domain. rewrite Hx, Hds, Hn. fold idx. unfold moved.
  destruct (v =? value_at idx t); cbn; rewrite Hsent, ?Hreg; split_and!.
  - done.
  - eapply registered_as_index; [exact Hr|]. cbn. by rewrite Hreg.
  - by rewrite lookup_alter_eq, Ht0.
  - by rewrite <- app_assoc.
  - eapply registered_as_index; [exact Hr|]. cbn. by rewrite Hreg.
  - by rewrite !lookup_alter_eq, Ht0.
Qed.

(** ** The packets at the receiving side *)

(** What the receiver knows of the signal and its domain. *)
Definition tracking (w : route) (i : Z) (t : linear_table) (c : container) : Prop :=
  exists s t', find_signo (number w) c = Some (remote w) /\
    signals (store c) !! remote w = Some s /\
    is_subscribed s = true /\ tcp_delta s = 0 /\ table s = None /\ is_explicit s = true /\
    sample_size s = size w /\ value_index s = i /\ domain_table s = Some (remote_table w) /\
    tables (store c) !! remote_table w = Some t' /\ same_rule t t'.

Definition tracking_domain (w : route) (c : container) : Prop :=
  exists s, find_signo (domain_number w) c = Some (remote_domain w) /\
    signals (store c) !! remote_domain w = Some s /\
    is_subscribed s = true /\ tcp_delta s = 0 /\ table s = Some (remote_table w).

Definition live (w : route) (c : container) : Prop :=
  is_Some (entry_at (remote w) c) /\ is_Some (entry_at (remote_domain w) c).

(** The packet that moves the domain. *)
Lemma arrival_moves w i t v c :
  tracking w i t c -> tracking_domain w c -> live w c -> in_s 64 i -> in_s 64 v ->
  remote w <> remote_domain w ->
  let data := payload_bytes {| StreamingProtocol.sample_index := i; StreamingProtocol.value := v |} in
  exists c' es, receive to_uint64 (data_in (domain_number w) data) c = (c', es, None) /\
    delivered (remote w) es = [] /\ tracking w i (set i v t) c' /\ tracking_domain w c' /\ live w c'.
Proof.
  intros (s & t' & Hn & Hs & H1 & H2 & H3 & H4 & H5 & H6 & H7 & Ht & Hr) (sd & Hnd & Hsd & D1 & D2 & D3) [L1 L2] Hi Hv Hne data.
  set (pl := {| StreamingProtocol.sample_index := i; StreamingProtocol.value := v |}) in *.
  pose proof (receive_domain (remote_domain w) pl (store c) sd (remote_table w) Hsd D1 D2 D3 Hi Hv) as Hh.
  rewrite (receive_data _ _ data c _ _ Hnd L2 Hh). eexists _, _. split; [done|]. split_and!.
  - cbn. by rewrite decide_False by done.
  - exists s, (update_payload pl t'). cbn. rewrite lookup_alter_eq, Ht. split_and!; try done.
    destruct Hr as (_ & _ & Hdelta). by split_and!.
  - exists sd. by split_and!.
  - by split.
Qed.

(** The packet with the samples. *)
Lemma arrival_samples w i t v n data c :
  tracking w i t c -> tracking_domain w c -> live w c -> 0 < size w -> remote w <> remote_domain w ->
  0 <= n < 2 ^ 63 -> size_of data = n * size w -> value_at i t = v ->
  exists c' es, receive to_uint64 (data_in (number w) data) c = (c', es, None) /\
    delivered (remote w) es = [(v, n, data)] /\
    tracking w (s64 (i + n)) (drive_to (s64 (i + n)) t) c' /\ tracking_domain w c' /\ live w c'.
Proof.
  intros (s & t' & Hn & Hs & H1 & H2 & H3 & H4 & H5 & H6 & H7 & Ht & Hr) (sd & Hnd & Hsd & D1 & D2 & D3) [L1 L2] Hsz Hne Hc Hd Hv.
  rewrite <- H5 in Hd, Hsz.
  pose proof (receive_samples (remote w) data (store c) s (remote_table w) t' n Hs H1 H2 H3 H4 H7 Ht Hsz Hc Hd) as Hh.
  rewrite (receive_data _ _ _ c _ _ Hn L1 Hh). eexists _, _. split; [done|]. rewrite H6. split_and!.
  - cbn. rewrite decide_True by done. by rewrite <- (same_rule_value_at t t' i Hr), Hv.
  - eexists _, (drive_to (s64 (i + n)) t'). cbn. rewrite lookup_insert_eq, lookup_alter_eq, Ht.
    by split_and!.
  - exists sd. cbn. by rewrite lookup_insert_ne.
  - by split.
Qed.

(** ** Publications *)

Lemma in_sync_tracking w p c :
  in_sync w p c <-> tracking_domain w c /\ live w c /\ remote w <> remote_domain w /\ 0 < size w /\
    exists e t, registered_as w e (Publisher.locals p) /\
      LC.tables (Publisher.locals p) !! local_table w = Some t /\ in_s 64 (LC.value_index e) /\
      tracking w (LC.value_index e) t c.
Proof. split; [by intros []|]. intros (? & ? & ? & ? & ?). by split. Qed.

Lemma publish_delivers w p c x :
  in_sync w p c -> publishable (size w) x ->
  exists ms c' es, Publisher.sent (publish w x p) = Publisher.sent p ++ ms /\
    arrivals ms c = (c', es, None) /\ delivered (remote w) es = [x] /\ in_sync w (publish w x p) c'.
Proof.
  destruct x as [[v n] data].
  intros (Hd & Hl & Hne & Hsz & e & t & He & Ht & Hi & Htr)%in_sync_tracking (Hv & Hn & Hdata).
  cbn [publish]. destruct (publish_sends w p e t v n data He Ht) as (Hsent & He' & Ht'). rewrite Hsent.
  set (i := LC.value_index e) in *. set (p' := Publisher.publish_data _ _ _ _ p) in *.
  assert (Hsync : forall T c', tracking w (s64 (i + n)) (drive_to (s64 (i + n)) T) c' -> tracking_domain w c' ->
    live w c' -> LC.tables (Publisher.locals p') !! local_table w = Some (drive_to (s64 (i + n)) T) ->
    in_sync w p' c').
  { intros T c' Htr' Hd' Hl' HT. apply in_sync_tracking. split_and!; [done..|].
    exists (LC.set_value_index (s64 (i + n)) e), (drive_to (s64 (i + n)) T). split_and!; [done..| |done].
    by apply swrap_range. }
  unfold arrivals. destruct (Z.eqb_spec v (value_at i t)) as [Hvt|Hvt]; cbn [negb app fmap list_fmap session] in *.
  - destruct (arrival_samples w i t v n data c) as (c' & es & E & Hdel & Htr' & Hd' & Hl'); [done..|].
    eexists _, c', es. split; [done|]. cbn [fmap list_fmap session]. change (arrival _) with (data_in (number w) data).
    rewrite E. cbn. rewrite app_nil_r. split_and!; [done..|by eapply Hsync].
  - destruct (arrival_moves w i t v c Htr Hd Hl Hi Hv Hne) as (c1 & es1 & E1 & Hdel1 & Htr1 & Hd1 & Hl1).
    destruct (arrival_samples w i (set i v t) v n data c1) as (c' & es & E & Hdel & Htr' & Hd' & Hl'); [done..| |].
    { rewrite value_at_exact. cbn. rewrite Z.sub_diag, Z.mul_0_r, Z.add_0_r. by apply swrap_small. }
    eexists _, c', (es1 ++ es). split; [done|]. cbn [fmap list_fmap session arrival].
    rewrite E1. cbn [arrival]. rewrite E. cbn. rewrite app_nil_r. split_and!; [done| |by eapply Hsync].
    unfold delivered in *. by rewrite omap_app, Hdel1, Hdel.
Qed.

(** What one publication hands to the peer object: data messages, which fit in
    packets when the signal numbers and the samples do. *)
Definition transmittable (w : route) (x : published) : Prop :=
  publishable (size w) x /\ 1 <= size_of x.2 < 2 ^ 31 /\ Forall is_byte x.2.

Lemma publish_messages w p c x :
  in_sync w p c -> transmittable w x -> in_u 20 (number w) -> in_u 20 (domain_number w) ->
  exists ms, Publisher.sent (publish w x p) = Publisher.sent p ++ ms /\
    Forall (fun m => Peer.is_data m = true) ms /\ Forall Peer.sendable ms.
Proof.
  destruct x as [[v n] data]. intros (_ & _ & _ & _ & e & t & He & Ht & _)%in_sync_tracking (_ & Hsz & Hb) H1 H2.
  cbn [publish]. destruct (publish_sends w p e t v n data He Ht) as (-> & _ & _). eexists. split; [done|].
  assert (Hs : Peer.sendable (Peer.data_message (number w) data)) by done.
  destruct (negb _); cbn [app]; (split; [by repeat constructor|]); repeat apply Forall_cons_2; try done.
  split; [done|]. set (pl := {| StreamingProtocol.sample_index := _ |}). split.
  - assert (size_of (payload_bytes pl) = 16) as -> by (unfold payload_bytes; len). lia.
  - apply Forall_app_2; apply le_bytes_byte.
Qed.

Lemma session_app ts ts' : forall c c1 es1,
  session to_uint64 ts c = (c1, es1, None) ->
  session to_uint64 (ts ++ ts') c
  = (let '(c2, es2, err) := session to_uint64 ts' c1 in (c2, es1 ++ es2, err)).
Proof.
  induction ts as [|t ts IH]; intros c c1 es1 H; cbn in *.
  - injection H as <- <-. by destruct (session _ _ _) as [[? ?] ?].
  - destruct (receive to_uint64 t c) as [[c0 es0] [err|]]; [done|].
    destruct (session to_uint64 ts c0) as [[c2 es2] err] eqn:E. injection H as -> <- ->.
    rewrite (IH c0 c1 es2 E). destruct (session to_uint64 ts' c1) as [[? ?] ?]. by rewrite app_assoc.
Qed.

(** A session without failure is one of its first part, then of the rest. *)
Lemma session_split ts ts' : forall c c2 es,
  session to_uint64 (ts ++ ts') c = (c2, es, None) ->
  exists c1 es1 es2, session to_uint64 ts c = (c1, es1, None) /\
    session to_uint64 ts' c1 = (c2, es2, None) /\ es = es1 ++ es2.
Proof.
  induction ts as [|t ts IH]; intros c c2 es H; cbn [app session] in *; [by exists c, [], es|].
  destruct (receive to_uint64 t c) as [[c0 es0] [err|]]; [done|].
  destruct (session to_uint64 (ts ++ ts') c0) as [[c3 es3] err] eqn:E. injection H as -> <- ->.
  destruct (IH c0 c2 es3 E) as (c1 & es1 & es2 & -> & H2 & ->).
  exists c1, (es0 ++ es1), es2. by rewrite app_assoc.
Qed.

Lemma delivered_app q es es' : delivered q (es ++ es') = delivered q es ++ delivered q es'.
Proof. apply omap_app. Qed.
End EndToEnd.

(** A run of publications, by induction; only data messages are sent. *)
Lemma publications_deliver `{JL : JsonLib} to_uint64 w xs : forall p c,
  in_sync w p c -> Forall (publishable (size w)) xs ->
  exists ms c' es,
    Publisher.sent (foldl (fun p x => publish w x p) p xs) = Publisher.sent p ++ ms /\
    Forall (fun x => Peer.is_data x = true) ms /\
    arrivals to_uint64 ms c = (c', es, None) /\ delivered (remote w) es = xs /\
    in_sync w (foldl (fun p x => publish w x p) p xs) c'.
Proof.
  induction xs as [|x xs IH]; intros p c Hs Hx; cbn [foldl].
  - exists [], c, []. by rewrite app_nil_r.
  - apply Forall_cons in Hx as [Hx Hxs].
    destruct (publish_delivers to_uint64 w p c x Hs Hx) as (ms1 & c1 & es1 & E1 & A1 & D1 & S1).
    assert (M1 : Forall (fun x => Peer.is_data x = true) ms1).
    { destruct x as [[v j] data]. destruct Hs as [(e & t & He & Ht & _) _ _ _ _].
      destruct (publish_sends w p e t v j data He Ht) as (Hsent & _). cbn [publish] in E1. rewrite Hsent in E1.
      apply app_inv_head in E1 as <-. by destruct (negb _); repeat constructor. }
    destruct (IH _ _ S1 Hxs) as (ms2 & c2 & es2 & E2 & M2 & A2 & D2 & S2).
    exists (ms1 ++ ms2), c2, (es1 ++ es2). rewrite E2, E1, <- app_assoc. split; [done|].
    split; [by apply Forall_app|]. unfold arrivals in *. rewrite fmap_app, (session_app _ _ _ _ _ _ A1), A2.
    split_and!; [done| |done]. by rewrite delivered_app, D1, D2.
Qed.

(** ** Properties *)

(** As long as the two sides are in sync (the receiver has processed the
    subscription of the signal and of its linear domain), whatever an
    application publishes for an explicitly sampled signal is delivered at the
    other side, in order, with the same domain values, sample counts and bytes,
    and the two sides stay in sync: the domain is transmitted only when it
    departs from the linear rule. *)
Theorem domain_values_preserved `{JL : JsonLib} to_uint64 w xs : forall p c,
  in_sync w p c -> Forall (publishable (size w)) xs ->
  exists ms c' es,
    Publisher.sent (foldl (fun p x => publish w x p) p xs) = Publisher.sent p ++ ms /\
    arrivals to_uint64 ms c = (c', es, None) /\ delivered (remote w) es = xs /\
    in_sync w (foldl (fun p x => publish w x p) p xs) c'.
Proof.
  intros p c Hs Hx. destruct (publications_deliver to_uint64 w xs p c Hs Hx) as (ms & c' & es & E & _ & H).
  by exists ms, c', es.
Qed.

(** ** A decision procedure for [in_sync] and witnesses *)

Section Decision.
Context `{JL : JsonLib}.

Definition same_rule_b (t t' : linear_table) : bool :=
  (index t =? index t') && (value t =? value t') && (delta t =? delta t').

Definition registered_b (w : route) (e : LC.registered_local_signal) (l : LC.local_state) : bool :=
  bool_decide (LC.signal e = local w) && (LC.signo e =? number w) && LC.data_connected e &&
  LC.is_explicit e && bool_decide (LC.domain_table e = Some (local_table w)) &&
  bool_decide (LC.domain_signo e = Some (domain_number w)) &&
  forallb (fun x : Z * LC.registered_local_signal =>
             negb (bool_decide (LC.signal x.2 = local w)) || (x.1 =? number w))
    (map_to_list (LC.registered l)).

Definition sync_b (w : route) (p : Publisher.publisher) (c : container) : bool :=
  match LC.registered (Publisher.locals p) !! number w,
        LC.tables (Publisher.locals p) !! local_table w,
        signals (store c) !! remote w, signals (store c) !! remote_domain w,
        tables (store c) !! remote_table w, entry_at (remote w) c, entry_at (remote_domain w) c with
  | Some e, Some t, Some s, Some sd, Some t', Some _, Some _ =>
      registered_b w e (Publisher.locals p) && bool_decide (in_s 64 (LC.value_index e)) &&
      bool_decide (find_signo (number w) c = Some (remote w)) &&
      is_subscribed s && (tcp_delta s =? 0) && bool_decide (table s = None) && is_explicit s &&
      (sample_size s =? size w) && (value_index s =? LC.value_index e) &&
      bool_decide (domain_table s = Some (remote_table w)) && same_rule_b t t' &&
      bool_decide (find_signo (domain_number w) c = Some (remote_domain w)) &&
      is_subscribed sd && (tcp_delta sd =? 0) && bool_decide (table sd = Some (remote_table w)) &&
      negb (bool_decide (remote w = remote_domain w)) && (0 <? size w)
  | _, _, _, _, _, _, _ => false
  end.

Ltac decided :=
  repeat match goal with
  | H : (_ && _) = true |- _ => apply andb_true_iff in H as [? ?]
  | H : bool_decide _ = true |- _ => apply bool_decide_eq_true in H
  | H : (_ =? _) = true |- _ => apply Z.eqb_eq in H
  | H : negb (bool_decide _) = true |- _ => apply negb_true_iff, bool_decide_eq_false in H
  end.

Lemma registered_b_true w e l :
  LC.registered l !! number w = Some e -> registered_b w e l = true -> registered_as w e l.
Proof.
  intros He H. unfold registered_b in H. decided. unfold registered_as. split_and!; try done.
  intros n e' Hn Hs. match goal with H : forallb _ _ = true |- _ => rewrite forallb_forall in H;
    specialize (H (n, e') ltac:(by apply list_elem_of_In, elem_of_map_to_list)) end.
  cbn in *. rewrite bool_decide_true in * by done. cbn in *. lia.
Qed.

Lemma sync_b_true w p c : sync_b w p c = true -> in_sync w p c.
Proof.
  unfold sync_b. intros H. repeat (case_match; [|done]). decided. unfold same_rule_b in *. decided.
  apply in_sync_tracking. split_and!.
  - eexists. by split_and!.
  - split; eexists; done.
  - done.
  - lia.
  - eexists _, _. split_and!; [by apply registered_b_true|done..|].
    eexists _, _. by split_and!.
Qed.
End Decision.

Section Witnesses.
#[local] Existing Instance jv_json.

(** The publisher of [Subscriptions], subscribed by a receiver that has
    processed everything sent so far. *)
Definition subscribed_publisher : Publisher.publisher :=
  (Publisher.subscribe "A" true Subscriptions.sample_publisher).2.

Definition subscribed_receiver : container :=
  (arrivals Datatypes.id (Publisher.sent subscribed_publisher) empty_container).1.1.

Definition sample_route : route := mk_route 1 2 1 0 1 0 3 2.

Lemma sample_in_sync : in_sync sample_route subscribed_publisher subscribed_receiver.
Proof. apply (sync_b_true sample_route subscribed_publisher subscribed_receiver). by vm_compute. Qed.

Lemma domain_values_preserved_witness :
  let xs := [(100, 2, [1; 0; 2; 0]); (120, 1, [3; 0]); (500, 1, [4; 0]); (510, 1, [5; 0])] in
  exists ms c' es,
    Publisher.sent (foldl (fun p x => publish sample_route x p) subscribed_publisher xs)
    = Publisher.sent subscribed_publisher ++ ms /\
    arrivals Datatypes.id ms subscribed_receiver = (c', es, None) /\ delivered 1 es = xs.
Proof.
  intros xs.
  assert (Hs : in_sync sample_route subscribed_publisher subscribed_receiver) by exact sample_in_sync.
  assert (Hx : Forall (publishable (size sample_route)) xs) by by repeat constructor.
  destruct (domain_values_preserved Datatypes.id sample_route xs _ _ Hs Hx)
    as (ms & c' & es & H1 & H2 & H3 & _).
  exists ms, c', es. split; [exact H1|split; [exact H2|exact H3]].
Defined.
End Witnesses.
