(* ===== verification/Synchrony.v ===== *)
(** * A subscription brings both sides into step

    [EndToEnd] says what happens while the publishing and the receiving side are
    in sync.  Here is how they get there: the subscription of an explicit signal
    subscribes its linear domain too, and the four messages it sends are exactly
    what the receiving side needs to follow.  From two sides that have never
    exchanged more than the advertisement (or that have ended an earlier
    subscription) the subscription and everything published after it arrive. *)
From S2P Require Import Prelude Json Metadata OrderedMap LinearTable.
From S2P Require LocalSignal LocalSignalContainer.
Module LC := LocalSignalContainer.
From S2P Require Import RemoteSignal RemoteSignalContainer Receiver.
From S2P Require Peer Publisher Subscriptions StreamingProtocol.
From S2P Require Import EndToEnd.

(** ** The metadata of a "signal" message

    The sender puts its value index into a copy of the signal's metadata. *)

Section Stamped.
Context `{JL : JsonLib}.

Definition stamped (m : json) (i : Z) : json := set_field m "valueIndex" (jint i).

Lemma sub_stamped m i a k : a <> "valueIndex" -> sub (stamped m i) a k = sub m a k.
Proof. intros Ha. unfold sub, stamped. by rewrite contains_set_ne, field_set_ne by done. Qed.

Lemma metadata_stamped m i : metadata (stamped m i) = stamped m i.
Proof. unfold metadata, stamped. by rewrite is_object_set_field. Qed.

Lemma rule_stamped m i : rule (stamped m i) = rule m.
Proof. unfold rule, sub_string. by rewrite sub_stamped. Qed.

Lemma table_id_stamped m i : table_id (stamped m i) = table_id m.
Proof. unfold table_id, value_null, stamped. by rewrite field_set_ne. Qed.

Lemma linear_start_delta_stamped m i : linear_start_delta (stamped m i) = linear_start_delta m.
Proof. unfold linear_start_delta, sub_object. rewrite rule_stamped. by rewrite !sub_stamped. Qed.

Lemma sample_size_stamped m i : Metadata.sample_size (stamped m i) = Metadata.sample_size m.
Proof. unfold Metadata.sample_size, data_type, sub_string. by rewrite !sub_stamped. Qed.

Lemma value_index_stamped m i : in_s 64 i -> Metadata.value_index (stamped m i) = Some i.
Proof.
  intros Hi. unfold Metadata.value_index, value_null, stamped. rewrite field_set_eq.
  unfold is_number_integer, get_int64. rewrite view_jint. by rewrite swrap_small.
Qed.

(** A table made from, or brought up to date with, metadata that says
    everything. *)
Lemma update_complete m t i a b :
  table_id m <> "" -> linear_start_delta m = (Some a, Some b) -> Metadata.value_index m = Some i ->
  update m t = mk_table (table_id m) i a b i.
Proof. intros Ht Hl Hi. unfold update. by rewrite bool_decide_false, Hl, Hi. Qed.

Lemma update_stamped m t i a b :
  in_s 64 i -> table_id m <> "" -> linear_start_delta m = (Some a, Some b) ->
  update (stamped m i) t = mk_table (table_id m) i a b i.
Proof.
  intros Hi Ht Hl. rewrite <- (table_id_stamped m i). apply update_complete.
  - by rewrite table_id_stamped.
  - by rewrite linear_start_delta_stamped.
  - by apply value_index_stamped.
Qed.
End Stamped.

(** ** The publishing side *)

Section Publishing.
Context `{JL : JsonLib}.
Import Publisher.

(** The part of an entry that subscribing does not change. *)
Definition core (e : LC.registered_local_signal) : nat * Z * option nat * Z :=
  (LC.signal e, LC.signo e, LC.table e, LC.value_index e).

Definition cores (l : LC.local_state) : gmap Z (nat * Z * option nat * Z) := core <$> LC.registered l.

Record same_core (l l' : LC.local_state) : Prop := {
  sc_cores : cores l' = cores l;
  sc_described : Subscriptions.described l' = Subscriptions.described l
}.

#[export] Instance same_core_preorder : PreOrder same_core.
Proof. split; [by split|]. intros x y z [] []. split; congruence. Qed.

Lemma update_core f n l :
  (forall e, LC.registered l !! n = Some e -> core (f e) = core e) -> same_core l (LC.update_entry f n l).
Proof.
  intros Hf. split; [|done]. apply map_eq. intros k. unfold cores, LC.update_entry. cbn. rewrite !lookup_fmap.
  destruct (decide (n = k)) as [<-|Hne]; [|by rewrite lookup_alter_ne].
  rewrite lookup_alter_eq. destruct (LC.registered l !! n) as [e|]; [|done]. cbn. by rewrite Hf.
Qed.

Lemma signals_core f a l :
  (forall s, LocalSignal.sig_id (f s) = LocalSignal.sig_id s /\
             LocalSignal.sig_metadata (f s) = LocalSignal.sig_metadata s) ->
  same_core l (LC.set_signals (alter f a (LC.signals l)) l).
Proof. intros Hf. split; [done|]. by apply Subscriptions.described_alter. Qed.

Lemma close_core n l : same_core l (LC.close_entry_holder n l).
Proof.
  unfold LC.close_entry_holder. destruct (LC.registered l !! n) as [e|]; [|done].
  destruct (LC.holder e); [|done]. etrans; [|by apply update_core].
  apply signals_core, Subscriptions.release_described.
Qed.

Lemma acquire_core n e l : same_core l (acquire_holder n e l).
Proof.
  unfold acquire_holder. etrans; [|by apply update_core]. etrans; [|apply close_core].
  apply signals_core, Subscriptions.acquire_described.
Qed.

Lemma close_tables n l : LC.tables (LC.close_entry_holder n l) = LC.tables l.
Proof. unfold LC.close_entry_holder. by repeat case_match. Qed.

Lemma close_other n k l :
  k <> n -> LC.registered (LC.close_entry_holder n l) !! k = LC.registered l !! k.
Proof.
  intros Hk. unfold LC.close_entry_holder. repeat case_match; try done. cbn. by rewrite lookup_alter_ne.
Qed.

Lemma same_core_entry l l' n e :
  same_core l l' -> LC.registered l !! n = Some e ->
  exists e', LC.registered l' !! n = Some e' /\ core e' = core e.
Proof.
  intros [Hc _] He. assert (H : cores l' !! n = Some (core e)) by (rewrite Hc; unfold cores; by rewrite lookup_fmap, He).
  unfold cores in H. rewrite lookup_fmap in H. apply fmap_Some in H as (e' & ? & ?). by exists e'.
Qed.

Lemma same_core_signal l l' a s :
  same_core l l' -> LC.signals l !! a = Some s ->
  exists s', LC.signals l' !! a = Some s' /\ LocalSignal.sig_id s' = LocalSignal.sig_id s /\
    LocalSignal.sig_metadata s' = LocalSignal.sig_metadata s.
Proof.
  intros [_ Hd] Hs. assert (H : Subscriptions.described l' !! a = Some (LocalSignal.sig_id s, LocalSignal.sig_metadata s)).
  { rewrite Hd. unfold Subscriptions.described. by rewrite lookup_fmap, Hs. }
  unfold Subscriptions.described in H. rewrite lookup_fmap in H. apply fmap_Some in H as (s' & ? & [= ? ?]).
  by exists s'.
Qed.

Lemma same_core_names l l' : same_core l l' -> Subscriptions.names l' = Subscriptions.names l.
Proof.
  intros [Hc Hd]. apply map_eq. intros k. unfold Subscriptions.names. rewrite !lookup_omap, Hd.
  unfold Subscriptions.views. rewrite !lookup_fmap.
  assert (H : core <$> LC.registered l' !! k = core <$> LC.registered l !! k)
    by (rewrite <- !lookup_fmap; unfold cores in Hc; by rewrite Hc).
  destruct (LC.registered l' !! k) as [e'|], (LC.registered l !! k) as [e|]; try done. cbn in *.
  unfold core in H. injection H as -> _. done.
Qed.

(** An entry found by its id is found again, with the same core. *)
Lemma same_core_find l l' sid n e :
  same_core l l' -> Subscriptions.distinct (Subscriptions.names l) ->
  LC.find_local_signal sid l = Some (n, e) ->
  exists e', LC.find_local_signal sid l' = Some (n, e') /\ core e' = core e.
Proof.
  intros Hsc HN Hf. destruct (Subscriptions.find_local_signal_inv _ _ _ _ Hf) as (He & s & _ & Hname & Hid).
  subst sid. pose proof (Subscriptions.key_intro _ _ _ _ HN Hname) as Hk.
  rewrite <- (same_core_names l l' Hsc) in Hk, HN.
  destruct (Subscriptions.find_local_signal_key _ _ _ HN Hk) as (e' & _ & Hf' & He' & _).
  exists e'. split; [done|]. destruct (same_core_entry l l' n e Hsc He) as (e2 & He2 & Hcore). congruence.
Qed.

(** ** refresh_local_signal_bindings *)

Lemma refresh_linear n p e s t :
  LC.registered (locals p) !! n = Some e -> signal_of e p = Some s ->
  rule (LocalSignal.sig_metadata s) = linear_rule ->
  table_id (LocalSignal.sig_metadata s) = LocalSignal.sig_id s -> LC.table e = Some t ->
  let p' := refresh_local_signal_bindings n p in
  sent p' = sent p /\ same_core (locals p) (locals p') /\
  LC.tables (locals p') = alter (LinearTable.update (LocalSignal.sig_metadata s)) t (LC.tables (locals p)).
Proof.
  intros He Hs Hr Hid Ht. unfold refresh_local_signal_bindings. rewrite He, Hs.
  unfold refresh_table. rewrite (bool_decide_true (rule _ = linear_rule)), Ht by done.
  unfold bind_domain, domain_of. rewrite (bool_decide_true (table_id _ = LocalSignal.sig_id _)), orb_true_r by done.
  cbn [locals with_locals sent LC.tables LC.set_tables LC.update_entry]. split_and!; [done| |done].
  etrans; [|by apply update_core]. split; [|done].
  exact (sc_cores _ _ (update_core (LC.set_explicit _) n (locals p) (fun _ _ => eq_refl))).
Qed.

Lemma refresh_explicit n p e s m d :
  Subscriptions.distinct (Subscriptions.names (locals p)) ->
  LC.registered (locals p) !! n = Some e -> signal_of e p = Some s ->
  rule (LocalSignal.sig_metadata s) = explicit_rule ->
  table_id (LocalSignal.sig_metadata s) <> "" ->
  table_id (LocalSignal.sig_metadata s) <> LocalSignal.sig_id s ->
  LC.find_local_signal (table_id (LocalSignal.sig_metadata s)) (locals p) = Some (m, d) ->
  LC.table e = None ->
  let p' := refresh_local_signal_bindings n p in
  sent p' = sent p /\ same_core (locals p) (locals p') /\ LC.tables (locals p') = LC.tables (locals p) /\
  exists e', LC.registered (locals p') !! n = Some e' /\ LC.is_explicit e' = true /\
    LC.domain_signo e' = Some (LC.signo d) /\ LC.domain_table e' = LC.table d.
Proof.
  intros HN He Hs Hr Hne Hid Hf Ht. unfold refresh_local_signal_bindings. rewrite He, Hs.
  unfold refresh_table. rewrite Hr, (bool_decide_false (explicit_rule = linear_rule)), Ht by done.
  rewrite (bool_decide_true (explicit_rule = explicit_rule)) by done.
  set (l1 := LC.update_entry (LC.set_explicit true) n (locals p)).
  assert (S1 : same_core (locals p) l1) by by apply update_core.
  set (l2 := LC.update_entry (LC.set_table None) n l1).
  assert (S2 : same_core (locals p) l2).
  { etrans; [exact S1|]. apply update_core. intros e1 He1. unfold l1 in He1. cbn in He1.
    rewrite lookup_alter_eq, He in He1. injection He1 as <-. unfold core. cbn. by rewrite Ht. }
  set (l3 := LC.update_entry (LC.set_domain (Some 0) None) n l2).
  assert (S3 : same_core (locals p) l3) by (etrans; [exact S2|by apply update_core]).
  destruct (same_core_find _ _ _ _ _ S3 HN Hf) as (d' & Hf' & Hd).
  unfold bind_domain, domain_of. rewrite !bool_decide_false by done. cbn [orb]. rewrite Hf'.
  unfold core in Hd. injection Hd as _ -> -> _. cbn [locals with_locals sent].
  split_and!; [done|etrans; [exact S3|by apply update_core]|done|].
  unfold l3, l2, l1. cbn. rewrite !lookup_alter_eq, He. by eexists.
Qed.

(** ** announce *)

Definition announcement (n : Z) (s : LocalSignal.local_signal) (i : Z) : list Peer.message :=
  [id_message n "subscribe" (LocalSignal.sig_id s);
   Peer.metadata_message n "signal" (stamped (LocalSignal.sig_metadata s) i)].

Lemma announce_refresh n s p e :
  LC.registered (locals p) !! n = Some e ->
  let p1 := refresh_local_signal_bindings n (send (id_message (LC.signo e) "subscribe" (LocalSignal.sig_id s)) p) in
  announce n s p
  = update (LC.set_connected true) n
      (send (Peer.metadata_message (LC.signo e) "signal" (stamped (LocalSignal.sig_metadata s) (LC.value_index e))) p1).
Proof. intros He. unfold announce. by rewrite He. Qed.

(** What subscribing the signals of interest needs: registered entries of a
    value signal [e] and its domain [d]. *)
Lemma announce_linear n p e s s0 t :
  LC.registered (locals p) !! n = Some e -> signal_of e p = Some s ->
  LocalSignal.sig_id s0 = LocalSignal.sig_id s -> LocalSignal.sig_metadata s0 = LocalSignal.sig_metadata s ->
  rule (LocalSignal.sig_metadata s) = linear_rule ->
  table_id (LocalSignal.sig_metadata s) = LocalSignal.sig_id s -> LC.table e = Some t ->
  let p' := announce n s0 p in
  sent p' = sent p ++ announcement (LC.signo e) s0 (LC.value_index e) /\ same_core (locals p) (locals p') /\
  LC.tables (locals p') = alter (LinearTable.update (LocalSignal.sig_metadata s)) t (LC.tables (locals p)).
Proof.
  intros He Hs H1 H2 Hr Hid Ht. rewrite (announce_refresh n s0 p e He).
  destruct (refresh_linear n (send (id_message (LC.signo e) "subscribe" (LocalSignal.sig_id s0)) p) e s t He Hs Hr Hid Ht)
    as (Hsent & Hcore & Htab).
  cbn [update with_locals send sent locals]. rewrite Hsent. cbn [send sent]. rewrite <- (assoc_L (++)).
  split_and!; [done| |done]. etrans; [exact Hcore|by apply update_core].
Qed.

Lemma announce_explicit n p e s s0 m d :
  Subscriptions.distinct (Subscriptions.names (locals p)) ->
  LC.registered (locals p) !! n = Some e -> signal_of e p = Some s ->
  LocalSignal.sig_id s0 = LocalSignal.sig_id s -> LocalSignal.sig_metadata s0 = LocalSignal.sig_metadata s ->
  rule (LocalSignal.sig_metadata s) = explicit_rule ->
  table_id (LocalSignal.sig_metadata s) <> "" ->
  table_id (LocalSignal.sig_metadata s) <> LocalSignal.sig_id s ->
  LC.find_local_signal (table_id (LocalSignal.sig_metadata s)) (locals p) = Some (m, d) ->
  LC.table e = None ->
  let p' := announce n s0 p in
  sent p' = sent p ++ announcement (LC.signo e) s0 (LC.value_index e) /\ same_core (locals p) (locals p') /\
  LC.tables (locals p') = LC.tables (locals p) /\
  exists e', LC.registered (locals p') !! n = Some e' /\ LC.is_explicit e' = true /\
    LC.data_connected e' = true /\ LC.domain_signo e' = Some (LC.signo d) /\ LC.domain_table e' = LC.table d.
Proof.
  intros HN He Hs H1 H2 Hr Hne Hid Hf Ht. rewrite (announce_refresh n s0 p e He).
  destruct (refresh_explicit n (send (id_message (LC.signo e) "subscribe" (LocalSignal.sig_id s0)) p) e s m d HN He Hs Hr Hne Hid Hf Ht)
    as (Hsent & Hcore & Htab & e' & He' & Hx & Hds & Hdt).
  cbn [update with_locals send sent locals]. rewrite Hsent. cbn [send sent]. rewrite <- (assoc_L (++)).
  split_and!; [done| |done|].
  - etrans; [exact Hcore|by apply update_core].
  - cbn. rewrite lookup_alter_eq, He'. by eexists.
Qed.

(** ** subscribe *)

Lemma subscribe_begins domain sid expl p n e s :
  LC.find_local_signal sid (locals p) = Some (n, e) -> subscribed e = false -> signal_of e p = Some s ->
  exists p2, sent p2 = sent p /\ same_core (locals p) (locals p2) /\
    LC.tables (locals p2) = LC.tables (locals p) /\
    (forall k, k <> n -> LC.registered (locals p2) !! k = LC.registered (locals p) !! k) /\
    subscribe_with domain sid expl p
    = (true, announce n s
               (if expl && negb (bool_decide (table_id (LocalSignal.sig_metadata s) = "")) &&
                   negb (bool_decide (table_id (LocalSignal.sig_metadata s) = sid))
                then domain (table_id (LocalSignal.sig_metadata s)) p2 else p2)).
Proof.
  intros Hf Hsub Hs. unfold subscribe_with. rewrite Hf, Hsub. cbn zeta.
  destruct (Subscriptions.find_local_signal_inv _ _ _ _ Hf) as (He & _).
  set (e' := if expl then _ else _).
  assert (He' : core e' = core e) by (unfold e'; by destruct expl).
  clearbody e'.
  assert (Hs' : signal_of e (update (fun _ => e') n p) = Some s) by exact Hs.
  rewrite Hs'. eexists. split_and!; [| | | |reflexivity]; [done| | |].
  - cbn. etrans; [|apply acquire_core]. apply update_core. intros e1. rewrite He. by intros [= <-].
  - cbn. unfold acquire_holder. cbn. by rewrite close_tables.
  - intros k Hk. unfold acquire_holder. cbn. rewrite lookup_alter_ne, close_other by done. cbn. by rewrite lookup_alter_ne.
Qed.

(** An explicit signal and its linear domain, both registered and not
    subscribed, with complete metadata. *)
Record offered (p : publisher) (sid tid : string) (n m : Z) (e d : LC.registered_local_signal)
    (sv st : LocalSignal.local_signal) (td : nat) (a b : Z) : Prop := {
  of_names : Subscriptions.distinct (Subscriptions.names (locals p));
  of_value : LC.find_local_signal sid (locals p) = Some (n, e);
  of_domain : LC.find_local_signal tid (locals p) = Some (m, d);
  of_signals : signal_of e p = Some sv /\ signal_of d p = Some st;
  of_numbers : LC.signo e = n /\ LC.signo d = m;
  of_idle : subscribed e = false /\ subscribed d = false;
  of_tables : LC.table e = None /\ LC.table d = Some td /\ is_Some (LC.tables (locals p) !! td);
  of_explicit : rule (LocalSignal.sig_metadata sv) = explicit_rule /\
    table_id (LocalSignal.sig_metadata sv) = tid /\ tid <> "" /\ tid <> sid;
  of_linear : rule (LocalSignal.sig_metadata st) = linear_rule /\
    table_id (LocalSignal.sig_metadata st) = tid /\
    linear_start_delta (LocalSignal.sig_metadata st) = (Some a, Some b) /\
    Metadata.value_index (LocalSignal.sig_metadata st) = Some (LC.value_index d);
  of_index : in_s 64 (LC.value_index e)
}.

Lemma offered_ids p sid tid n m e d sv st td a b :
  offered p sid tid n m e d sv st td a b ->
  LocalSignal.sig_id sv = sid /\ LocalSignal.sig_id st = tid /\
  LC.registered (locals p) !! n = Some e /\ LC.registered (locals p) !! m = Some d /\ n <> m.
Proof.
  intros [HN Hv Hd [Hsv Hst] _ _ _ (_ & _ & _ & Hne) _ _].
  destruct (Subscriptions.find_local_signal_inv _ _ _ _ Hv) as (He & s1 & Hs1 & Hn1 & <-).
  destruct (Subscriptions.find_local_signal_inv _ _ _ _ Hd) as (Hde & s2 & Hs2 & Hn2 & <-).
  unfold signal_of in *. simplify_eq. split_and!; try done. intros ->. congruence.
Qed.

(** An entry of another state of the same publisher. *)
Lemma kept_entry p p' n e s :
  same_core (locals p) (locals p') -> LC.registered (locals p) !! n = Some e -> signal_of e p = Some s ->
  exists e' s', LC.registered (locals p') !! n = Some e' /\ core e' = core e /\ signal_of e' p' = Some s' /\
    LocalSignal.sig_id s' = LocalSignal.sig_id s /\ LocalSignal.sig_metadata s' = LocalSignal.sig_metadata s.
Proof.
  intros Hc He Hs. destruct (same_core_entry _ _ _ _ Hc He) as (e' & He' & Hcore).
  destruct (same_core_signal _ _ _ _ Hc Hs) as (s' & Hs' & H1 & H2). exists e', s'. split_and!; try done.
  unfold signal_of. unfold core in Hcore. by injection Hcore as -> _ _ _.
Qed.

(** The implicit subscription of the domain. *)
Lemma subscribe_domain_sends p p2 sid tid n m e d sv st td a b :
  offered p sid tid n m e d sv st td a b -> sent p2 = sent p -> same_core (locals p) (locals p2) ->
  LC.tables (locals p2) = LC.tables (locals p) ->
  (exists d2, LC.find_local_signal tid (locals p2) = Some (m, d2) /\ subscribed d2 = false) ->
  let p3 := (subscribe_with (fun _ p => p) tid false p2).2 in
  sent p3 = sent p ++ announcement m st (LC.value_index d) /\ same_core (locals p) (locals p3) /\
  LC.tables (locals p3) = alter (LinearTable.update (LocalSignal.sig_metadata st)) td (LC.tables (locals p)).
Proof.
  intros Ho Hsent Hc Ht (d2 & Hf & Hsub).
  destruct (offered_ids _ _ _ _ _ _ _ _ _ _ _ _ Ho) as (_ & Hid & _ & Hd & _).
  destruct Ho as [HN _ _ [_ Hst] [_ Hm] _ (_ & Htd & _) _ (Hr & Htid & _) _].
  destruct (kept_entry p p2 m d st Hc Hd Hst) as (d' & s2 & Hd' & Hcore & Hs2 & Hid2 & Hmd2).
  pose proof (Subscriptions.find_local_signal_inv _ _ _ _ Hf) as (Hd2 & _).
  rewrite Hd' in Hd2. injection Hd2 as <-.
  destruct (subscribe_begins (fun _ p => p) _ false p2 _ d' s2 Hf Hsub Hs2)
    as (p3 & Hsent3 & Hc3 & Ht3 & _ & ->). cbn [andb snd].
  destruct (kept_entry p2 p3 _ d' s2 Hc3 Hd' Hs2) as (d3 & s3 & Hd3 & Hcore3 & Hs3 & Hid3 & Hmd3).
  unfold core in Hcore, Hcore3. injection Hcore as _ Hn1 Htb1 Hvi1. injection Hcore3 as _ Hn3 Htb3 Hvi3.
  destruct (announce_linear _ p3 d3 s3 s2 td Hd3 Hs3) as (E1 & E2 & E3); try congruence.
  rewrite E1, Hsent3, Hsent, E3, Hmd3, Hmd2, Ht3, Ht. unfold announcement.
  rewrite Hid2, Hmd2, Hn3, Hn1, Hm, Hvi3, Hvi1. split_and!; [done| |done].
  etrans; [exact Hc|]. by etrans.
Qed.

Lemma subscribe_succeeds p sid tid n m e d sv st td a b :
  offered p sid tid n m e d sv st td a b -> (subscribe sid true p).1 = true.
Proof.
  intros [_ Hv _ [Hsv _] _ [Hsub _] _ _ _ _]. unfold subscribe.
  by destruct (subscribe_begins (fun tid p => (subscribe_with (fun _ p => p) tid false p).2) sid true p n e sv Hv Hsub Hsv)
    as (? & _ & _ & _ & _ & ->).
Qed.

(** What the subscription sends, and what it leaves. *)
Lemma subscribe_sends p sid tid n m e d sv st td a b :
  offered p sid tid n m e d sv st td a b ->
  let p' := (subscribe sid true p).2 in
  sent p' = sent p ++ announcement m st (LC.value_index d) ++ announcement n sv (LC.value_index e) /\
  same_core (locals p) (locals p') /\
  LC.tables (locals p') = alter (LinearTable.update (LocalSignal.sig_metadata st)) td (LC.tables (locals p)) /\
  exists e', LC.registered (locals p') !! n = Some e' /\ LC.is_explicit e' = true /\
    LC.data_connected e' = true /\ LC.domain_signo e' = Some m /\ LC.domain_table e' = Some td.
Proof.
  intros Ho. destruct (offered_ids _ _ _ _ _ _ _ _ _ _ _ _ Ho) as (Hsid & Hid & He & Hd & Hnm).
  pose proof Ho as [HN Hv Hdf [Hsv Hst] [Hn Hm] [Hsub Hsubd] (Hte & Htd & _) (Hr & Htid & Hne & Hts) _ _].
  unfold subscribe. set (rec := fun (tid : string) (p : publisher) => (subscribe_with (fun _ p => p) tid false p).2).
  destruct (subscribe_begins rec sid true p n e sv Hv Hsub Hsv) as (p2 & Hsent2 & Hc2 & Ht2 & Hk2 & ->).
  rewrite Htid, !bool_decide_false by done. cbn [andb negb snd]. unfold rec.
  destruct (subscribe_domain_sends p p2 sid tid n m e d sv st td a b Ho Hsent2 Hc2 Ht2) as (Hsent3 & Hc3 & Ht3).
  { destruct (same_core_find _ _ _ _ _ Hc2 HN Hdf) as (d2 & Hd2 & _). exists d2. split; [done|].
    destruct (Subscriptions.find_local_signal_inv _ _ _ _ Hd2) as (Hd2' & _).
    rewrite Hk2 in Hd2' by done. congruence. }
  set (p3 := (subscribe_with _ _ _ _).2) in *.
  destruct (kept_entry p p3 n e sv Hc3 He Hsv) as (e3 & s3 & He3 & Hcore3 & Hs3 & Hid3 & Hmd3).
  destruct (same_core_find _ _ _ _ _ Hc3 HN Hdf) as (d3 & Hdf3 & Hcored).
  unfold core in Hcore3, Hcored. injection Hcore3 as _ Hn3 Htb3 Hvi3. injection Hcored as _ Hnd Htbd _.
  destruct (announce_explicit n p3 e3 s3 sv m d3) as (E1 & E2 & E3 & e' & He' & H1 & H2 & H3 & H4); try congruence.
  - by rewrite (same_core_names _ _ Hc3).
  - rewrite E1, Hsent3, E3, Hn3, Hvi3, Hn, <- (assoc_L (++)). split_and!; [done|by etrans|done|].
    exists e'. split_and!; try done; congruence.
Qed.
End Publishing.

(** ** The receiving side *)

Section Receiving.
Context `{JL : JsonLib}.
Context (to_uint64 : Z -> Z).

Definition signal_id (sid : string) : json := jobj [("signalId", jstr sid)].

Lemma subscribed_id_of sid : subscribed_id (signal_id sid) = sid.
Proof.
  unfold subscribed_id, signal_id, field. rewrite is_object_jobj, contains_jobj, members_jobj.
  cbn [list_to_map foldr fst snd uncurry]. rewrite lookup_insert_eq.
  rewrite bool_decide_true by by eexists. cbn [value_or andb]. by rewrite is_string_jstr, string_of_jstr.
Qed.

(** No samples are delivered. *)
Definition no_data (es : list notice) : Prop := forall q, delivered q es = [].

Lemma no_data_app es es' : no_data es -> no_data es' -> no_data (es ++ es').
Proof. intros H1 H2 q. by rewrite delivered_app, H1, H2. Qed.

Lemma alter_known {A} (f : A -> A) k (m : gmap nat A) x : m !! k = Some x -> alter f k m = <[k := f x]> m.
Proof.
  intros Hk. apply map_eq. intros j. destruct (decide (k = j)) as [<-|Hne].
  - by rewrite lookup_alter_eq, lookup_insert_eq, Hk.
  - by rewrite lookup_alter_ne, lookup_insert_ne.
Qed.

Definition with_signals (h : heap) (q : nat) (s : remote_signal) : heap :=
  mk_heap (<[q := s]> (signals h)) (tables h) (next h).

Lemma receive_subscribe n sid c x s :
  sid <> "" -> signals_by_id c !! sid = Some x -> signals (store c) !! signal x = Some s ->
  exists es, receive to_uint64 (metadata_in n "subscribe" (signal_id sid)) c
    = (mk_container (with_signals (store c) (signal x) (set_subscribed true (set_signo n s)))
         (signals_by_id c) (<[n := signal x]> (signals_by_signo c)), es, None) /\ no_data es.
Proof.
  intros Hsid Hx Hs. cbn [receive]. unfold on_peer_signal_metadata. rewrite bool_decide_true by done.
  unfold Receiver.handle_subscribe. rewrite subscribed_id_of, bool_decide_false by done.
  unfold add_remote_signal. rewrite Hx. unfold handle_metadata_at, handle_metadata, no_throw, on_signal.
  rewrite bool_decide_true by done. unfold set_remote_signal_signo. rewrite (alter_known _ _ _ s Hs).
  cbn [store signals]. rewrite lookup_insert_eq. unfold RemoteSignal.handle_subscribe.
  destruct (is_subscribed (set_signo n s)) eqn:E; cbn; rewrite insert_insert_eq.
  - exists []. split; [|by intros q]. unfold with_signals, set_store. destruct s; cbn in *; by subst.
  - exists [signal_event (on_subscribed (signal x))]. split; [done|by intros q].
Qed.

(** ** The "signal" message *)

Lemma receive_signal n m q x c :
  n <> 0 -> find_signo n c = Some q -> entry_at q c = Some x ->
  exists es, receive to_uint64 (metadata_in n "signal" m) c
    = (set_store (handle_signal (on_table_sought c) q m (store c)).1 c, es, None) /\ no_data es.
Proof.
  intros Hn Hq Hx. cbn [receive]. unfold on_peer_signal_metadata. do 2 rewrite bool_decide_false by done.
  rewrite (proj2 (Z.eqb_neq n 0)) by done. cbn [negb]. unfold dispatch_metadata. rewrite Hq, Hx.
  unfold handle_metadata_at, handle_metadata, no_throw.
  do 2 rewrite bool_decide_false by done. rewrite bool_decide_true by done.
  unfold handle_signal. destruct (signals (store c) !! q); cbn.
  - exists [signal_event (on_metadata_changed q)]. split; [done|by intros q'].
  - exists []. split; [done|by intros q'].
Qed.

(** What a "signal" message of a linear signal leaves: a table of its own that
    follows the rule, in the place of the one it had. *)
Lemma handle_signal_linear ots q m i a b s h :
  signals h !! q = Some s -> rule m = linear_rule -> table_id m = id s -> id s <> "" ->
  linear_start_delta m = (Some a, Some b) -> in_s 64 i ->
  (forall t, table s = Some t -> is_Some (tables h !! t)) ->
  exists s' t h', (handle_signal ots q (stamped m i) h).1 = h' /\
    signals h' = <[q := s']> (signals h) /\ tables h' = <[t := mk_table (id s) i a b i]> (tables h) /\
    table s' = Some t /\ is_subscribed s' = is_subscribed s /\ tcp_delta s' = tcp_delta s /\
    t = value_or (table s) (next h).
Proof.
  intros Hs Hr Hid Hne Hl Hi Ht. unfold handle_signal. rewrite Hs, metadata_stamped.
  set (s1 := set_sampling _ _ _ _). unfold bind_table. cbn [signals]. rewrite lookup_insert_eq.
  change (sig_metadata s1) with (stamped m i). rewrite rule_stamped, Hr, bool_decide_true by done.
  change (table s1) with (table s).
  assert (Hb : forall s2 h2, signals h2 !! q = Some s2 -> sig_metadata s2 = stamped m i -> id s2 = id s ->
    bind_domain ots q h2 = with_signals h2 q (set_domain None None s2)).
  { intros s2 h2 E1 E2 E3. unfold bind_domain. rewrite E1, E2, E3, table_id_stamped, Hid.
    by rewrite (bool_decide_true (id s = id s)), orb_true_r by done. }
  assert (Hu : forall t, update (stamped m i) t = mk_table (id s) i a b i).
  { intros t. rewrite <- Hid. apply update_stamped; [done|by rewrite Hid|done]. }
  destruct (table s) as [t|] eqn:Et; cbn [value_or].
  - destruct (Ht t eq_refl) as [T HT].
    rewrite (Hb s1) by (done || apply lookup_insert_eq).
    exists (set_domain None None s1), t. eexists. split_and!; [reflexivity|..]; cbn; try done.
    + by rewrite insert_insert_eq.
    + by rewrite (alter_known _ _ _ T HT), Hu.
  - rewrite (Hb (set_table (Some (next h)) s1)) by (done || apply lookup_insert_eq).
    exists (set_domain None None (set_table (Some (next h)) s1)), (next h). eexists.
    split_and!; [reflexivity|..]; cbn; try done.
    + by rewrite !insert_insert_eq.
    + unfold LinearTable.make. by rewrite Hu.
Qed.

(** The one of an explicit signal: it forgets its own table and follows that of
    its domain. *)
Lemma handle_signal_explicit ots q m i s d sd t h :
  signals h !! q = Some s -> rule m = explicit_rule -> table_id m <> "" -> table_id m <> id s ->
  in_s 64 i -> table s = None -> d <> q -> signals h !! d = Some sd -> table sd = Some t ->
  (forall s', table s' = None -> ots (with_signals h q s') (table_id m) = Some d) ->
  exists s' h', (handle_signal ots q (stamped m i) h).1 = h' /\
    signals h' = <[q := s']> (signals h) /\ tables h' = tables h /\
    is_subscribed s' = is_subscribed s /\ tcp_delta s' = tcp_delta s /\ table s' = None /\
    is_explicit s' = true /\ sample_size s' = Metadata.sample_size m /\ value_index s' = i /\
    domain_table s' = Some t.
Proof.
  intros Hs Hr Hne Hid Hi Ht Hd Hsd Htd Hots. unfold handle_signal. rewrite Hs, metadata_stamped.
  rewrite rule_stamped, Hr, bool_decide_true by done. rewrite sample_size_stamped, value_index_stamped by done.
  cbn [value_or]. set (s1 := set_sampling _ _ _ _). unfold bind_table. cbn [signals]. rewrite lookup_insert_eq.
  change (sig_metadata s1) with (stamped m i). rewrite rule_stamped, Hr, bool_decide_false by done.
  change (table s1) with (table s). rewrite Ht. cbn [signals tables next]. rewrite insert_insert_eq.
  set (s2 := set_table None s1). change (mk_heap _ _ _) with (with_signals h q s2).
  unfold bind_domain. cbn [signals with_signals]. rewrite lookup_insert_eq.
  change (sig_metadata s2) with (stamped m i). change (id s2) with (id s).
  rewrite table_id_stamped, !bool_decide_false by done. cbn [orb]. rewrite Hots by done.
  rewrite decide_False by done. cbn [mbind option_bind]. rewrite lookup_insert_ne by done. rewrite Hsd.
  cbn [mbind option_bind]. rewrite Htd. do 2 eexists. split_and!; [reflexivity|..]; cbn.
  1: by rewrite insert_insert_eq.
  all: done.
Qed.

(** ** Both announcements *)

(** Both signals are known, neither runs on a signal rate, and the table of no
    other signal has the name of the domain. *)
Record awaiting (c : container) (sid tid : string) (xv xt : remote_signal_entry)
    (rv rt : remote_signal) : Prop := {
  aw_wf : well_formed c;
  aw_value : signals_by_id c !! sid = Some xv /\ signals (store c) !! signal xv = Some rv;
  aw_domain : signals_by_id c !! tid = Some xt /\ signals (store c) !! signal xt = Some rt;
  aw_tcp : tcp_delta rv = 0 /\ tcp_delta rt = 0;
  aw_table : table rv = None /\ forall t, table rt = Some t -> is_Some (tables (store c) !! t);
  aw_alone : forall k x s t, signals_by_id c !! k = Some x -> k <> tid ->
    signals (store c) !! signal x = Some s -> table s = Some t ->
    table rt <> Some t /\ exists T, tables (store c) !! t = Some T /\ table_name T <> tid
}.

Lemma awaiting_distinct c sid tid xv xt rv rt k x :
  awaiting c sid tid xv xt rv rt -> signals_by_id c !! k = Some x -> k <> tid -> signal x <> signal xt.
Proof. intros [Hw _ [Ht _] _ _ _] Hx Hk Heq. apply Hk. by eapply (wf_distinct c Hw). Qed.

(** With the domain's table in place, the slot of [on_table_sought] finds it. *)
Lemma domain_found c sid tid xv xt rv rt r T i a b h :
  awaiting c sid tid xv xt rv rt -> tid <> "" -> sid <> tid ->
  T = value_or (table rt) (next (store c)) -> table r = Some T ->
  signals h !! signal xt = Some r -> tables h = <[T := mk_table tid i a b i]> (tables (store c)) ->
  (forall q, q <> signal xt -> q <> signal xv -> signals h !! q = signals (store c) !! q) ->
  (forall s, signals h !! signal xv = Some s -> table s = None) ->
  on_table_sought c h tid = Some (signal xt).
Proof.
  intros Ha Htid Hst HT Hr Hxt Htabs Hother Hxv. unfold on_table_sought, find_table.
  erewrite find_if_unique; [done|apply (aw_domain _ _ _ _ _ _ _ Ha)| |].
  - unfold has_table_id, table_of. cbn [store set_store]. rewrite Hxt, Hr, Htabs, lookup_insert_eq. cbn.
    by rewrite !bool_decide_true by done.
  - intros k x Hk Hx. destruct (decide (k = tid)) as [->|Hne]; [done|]. exfalso.
    pose proof (awaiting_distinct _ _ _ _ _ _ _ _ _ Ha Hk Hne) as Hq.
    unfold has_table_id, table_of in Hx. cbn [store set_store signals_by_id] in *.
    destruct (decide (signal x = signal xv)) as [Heq|Hqv].
    { rewrite Heq in Hx. destruct (signals h !! signal xv) as [s|] eqn:E; [|done]. by rewrite (Hxv s eq_refl) in Hx. }
    rewrite Hother in Hx by done. destruct (signals (store c) !! signal x) as [s|] eqn:E; [|done].
    destruct (table s) as [t|] eqn:Et; [|done].
    destruct (aw_alone _ _ _ _ _ _ _ Ha k x s t Hk Hne E Et) as (Hrt & T' & HT' & Hname).
    assert (T <> t) as HTt.
    { rewrite HT. destruct (table rt) as [t'|]; cbn; [congruence|].
      pose proof (wf_tables_fresh c (aw_wf _ _ _ _ _ _ _ Ha) t ltac:(by eexists)). lia. }
    rewrite Htabs, lookup_insert_ne, HT' in Hx by done.
    apply andb_true_iff in Hx as [_ Hx%bool_decide_eq_true]. done.
Qed.

Lemma entry_at_ids q c c' : signals_by_id c' = signals_by_id c -> entry_at q c' = entry_at q c.
Proof. unfold entry_at. by intros ->. Qed.

(** A signal's two messages, for a signal whose entry exists. *)
Lemma receive_announcement n s i c x r :
  n <> 0 -> LocalSignal.sig_id s <> "" -> entry_at (signal x) c = Some (LocalSignal.sig_id s, x) ->
  signals_by_id c !! LocalSignal.sig_id s = Some x -> signals (store c) !! signal x = Some r ->
  forall c1, c1 = mk_container (with_signals (store c) (signal x) (set_subscribed true (set_signo n r)))
                    (signals_by_id c) (<[n := signal x]> (signals_by_signo c)) ->
  exists es, arrivals to_uint64 (announcement n s i) c
    = (set_store (handle_signal (on_table_sought c1) (signal x) (stamped (LocalSignal.sig_metadata s) i) (store c1)).1 c1,
       es, None) /\ no_data es.
Proof.
  intros Hn Hid Hw Hx Hr c1 Hc1. unfold arrivals, announcement. cbn [fmap list_fmap arrival session Publisher.id_message].
  change (jobj _) with (signal_id (LocalSignal.sig_id s)).
  destruct (receive_subscribe n (LocalSignal.sig_id s) c x r Hid Hx Hr) as (es1 & -> & H1).
  rewrite <- Hc1.
  destruct (receive_signal n (stamped (LocalSignal.sig_metadata s) i) (signal x) (LocalSignal.sig_id s, x) c1 Hn)
    as (es2 & -> & H2).
  - rewrite Hc1. unfold find_signo. cbn. by rewrite lookup_insert_eq.
  - rewrite (entry_at_ids _ c) by by rewrite Hc1. done.
  - eexists. split; [done|]. apply no_data_app; [done|]. by rewrite app_nil_r.
Qed.

(** The metadata of the two signals, as [offered] has them. *)
Record described (sv st : LocalSignal.local_signal) (sid tid : string) (a b : Z) : Prop := {
  ds_ids : LocalSignal.sig_id sv = sid /\ LocalSignal.sig_id st = tid;
  ds_names : sid <> "" /\ tid <> "" /\ sid <> tid;
  ds_value : rule (LocalSignal.sig_metadata sv) = explicit_rule /\ table_id (LocalSignal.sig_metadata sv) = tid;
  ds_domain : rule (LocalSignal.sig_metadata st) = linear_rule /\ table_id (LocalSignal.sig_metadata st) = tid;
  ds_linear : linear_start_delta (LocalSignal.sig_metadata st) = (Some a, Some b)
}.

(** After the announcement of the domain: it is subscribed and has the table. *)
Record domain_ready (c c2 : container) (m : Z) (xt : remote_signal_entry) (rt2 : remote_signal)
    (t : nat) (tab : linear_table) : Prop := {
  dr_signals : signals (store c2) = <[signal xt := rt2]> (signals (store c));
  dr_tables : tables (store c2) = <[t := tab]> (tables (store c));
  dr_ids : signals_by_id c2 = signals_by_id c;
  dr_signo : signals_by_signo c2 = <[m := signal xt]> (signals_by_signo c);
  dr_signal : is_subscribed rt2 = true /\ tcp_delta rt2 = 0 /\ table rt2 = Some t
}.

(** After the announcement of the value signal. *)
Record signal_ready (c c2 : container) (n : Z) (xv : remote_signal_entry) : Prop := {
  sr_signals : exists rv2, signals (store c2) = <[signal xv := rv2]> (signals (store c)) /\
    table rv2 = None /\ tcp_delta rv2 = 0;
  sr_tables : tables (store c2) = tables (store c);
  sr_ids : signals_by_id c2 = signals_by_id c;
  sr_signo : signals_by_signo c2 = <[n := signal xv]> (signals_by_signo c)
}.

Lemma domain_announced c sid tid xv xt rv rt sv st a b i m :
  awaiting c sid tid xv xt rv rt -> described sv st sid tid a b -> m <> 0 -> in_s 64 i ->
  exists c2 es rt2, arrivals to_uint64 (announcement m st i) c = (c2, es, None) /\ no_data es /\
    domain_ready c c2 m xt rt2 (value_or (table rt) (next (store c))) (mk_table tid i a b i).
Proof.
  intros [Hw _ [Hxt Hsd] [_ Htcp] [_ Htab] _] [[_ Hid] (_ & Htid & _) _ [Hr Htt] Hl] Hm Hi.
  destruct (wf_owned c Hw tid xt Hxt) as (r & Hr' & Hidd). rewrite Hsd in Hr'. injection Hr' as <-.
  destruct (receive_announcement m st i c xt rt Hm ltac:(congruence) ltac:(by rewrite Hid; apply entry_at_live)
              ltac:(by rewrite Hid) Hsd _ eq_refl) as (es & E & D).
  set (c1 := mk_container _ _ _) in E. set (rt1 := set_subscribed true _) in c1.
  assert (Hid1 : id rt1 = tid) by exact Hidd.
  destruct (handle_signal_linear (on_table_sought c1) (signal xt) (LocalSignal.sig_metadata st) i a b rt1 (store c1))
    as (rt2 & t & h2 & E2 & Hsigs & Htabs & Ht & Hsub & Htcp2 & Hteq); rewrite ?Hid1; try done.
  { cbn. by rewrite lookup_insert_eq. }
  rewrite E2 in E. eexists _, es, rt2. split; [exact E|]. split; [done|].
  change (t = value_or (table rt) (next (store c))) in Hteq. rewrite <- Hteq. rewrite Hid1 in Htabs.
  split; cbn [store set_store signals_by_id signals_by_signo]; try done.
  - rewrite Hsigs. cbn. by rewrite insert_insert_eq.
  - rewrite Hsub, Htcp2. by split_and!.
Qed.

Lemma signal_announced w c c2 sid tid xv xt rv rt rt2 sv st a b i j :
  awaiting c sid tid xv xt rv rt -> described sv st sid tid a b ->
  domain_ready c c2 (domain_number w) xt rt2 (remote_table w) (mk_table tid i a b i) ->
  number w <> 0 -> number w <> domain_number w -> remote w = signal xv -> remote_domain w = signal xt ->
  remote_table w = value_or (table rt) (next (store c)) ->
  Metadata.sample_size (LocalSignal.sig_metadata sv) = size w -> in_s 64 j ->
  exists c' es, arrivals to_uint64 (announcement (number w) sv j) c2 = (c', es, None) /\ no_data es /\
    tracking w j (mk_table tid i a b i) c' /\ tracking_domain w c' /\ live w c' /\
    signal_ready c2 c' (number w) xv.
Proof.
  intros Ha [[Hid _] (Hsid & Htid & Hst) [Hr Htt] _ _] [Hsigs Htabs Hids Hsigno (D1 & D2 & D3)] Hn Hnm Hq Hqd Hqt Hsz Hj.
  pose proof Ha as [Hw [Hxv Hsv] [Hxt Hsd] [Htcp _] [Htab _] _].
  pose proof (awaiting_distinct _ _ _ _ _ _ _ _ _ Ha Hxv Hst) as Hne.
  destruct (wf_owned c Hw sid xv Hxv) as (r & Hr' & Hidv). rewrite Hsv in Hr'. injection Hr' as <-.
  assert (Hev : entry_at (signal xv) c = Some (sid, xv)) by by apply entry_at_live.
  assert (Het : entry_at (signal xt) c = Some (tid, xt)) by by apply entry_at_live.
  assert (Hsv2 : signals (store c2) !! signal xv = Some rv) by by rewrite Hsigs, lookup_insert_ne.
  destruct (receive_announcement (number w) sv j c2 xv rv Hn ltac:(congruence)
              ltac:(by rewrite Hid, (entry_at_ids _ c) by done) ltac:(by rewrite Hid, Hids) Hsv2 _ eq_refl)
    as (es & E & D).
  set (c3 := mk_container _ _ _) in E. set (rv1 := set_subscribed true _) in c3.
  assert (H3 : signals (store c3) = <[signal xv := rv1]> (signals (store c2))) by done.
  assert (T3 : tables (store c3) = tables (store c2)) by done.
  destruct (handle_signal_explicit (on_table_sought c3) (signal xv) (LocalSignal.sig_metadata sv) j rv1 (signal xt) rt2
              (remote_table w) (store c3))
    as (rv2 & h4 & E4 & Hsigs4 & Htabs4 & Hsub4 & Htcp4 & Ht4 & Hx4 & Hz4 & Hi4 & Hd4); rewrite ?Htt; try done.
  { by rewrite H3, lookup_insert_eq. }
  { change (id rv1) with (id rv). congruence. }
  { by rewrite H3, lookup_insert_ne, Hsigs, lookup_insert_eq. }
  { intros s' Hs'. replace (on_table_sought c3) with (on_table_sought c) by (unfold on_table_sought, find_table, set_store; cbn; by rewrite Hids).
    eapply (domain_found c sid tid xv xt rv rt rt2 (remote_table w)); try done.
    - cbn. by rewrite lookup_insert_ne, lookup_insert_ne, Hsigs, lookup_insert_eq.
    - intros q Hq1 Hq2. cbn. by rewrite !lookup_insert_ne, Hsigs, lookup_insert_ne by done.
    - intros s0. cbn. rewrite lookup_insert_eq. by intros [= <-]. }
  rewrite E4 in E. eexists _, es. split; [exact E|]. split; [done|].
  rewrite H3, insert_insert_eq in Hsigs4. rewrite T3 in Htabs4.
  assert (Hready : signal_ready c2 (set_store (handle_signal (on_table_sought c3) (signal xv)
      (stamped (LocalSignal.sig_metadata sv) j) (store c3)).1 c3) (number w) xv).
  { rewrite E4. split; [by exists rv2; rewrite Htcp4|done..]. }
  rewrite E4 in Hready. rewrite Hsigs in Hsigs4. rewrite Htabs in Htabs4. rewrite <- Hq in *. rewrite <- Hqd in *. split_and!.
  - exists rv2, (mk_table tid i a b i). unfold find_signo. cbn [store set_store signals_by_signo c3].
    rewrite Hsigs4, Htabs4, !lookup_insert_eq, Hz4, Hsz, Htcp4.
    split_and!; try done. congruence.
  - exists rt2. unfold find_signo. cbn [store set_store signals_by_signo c3].
    rewrite Hsigs4, Hsigno, Hqd, (lookup_insert_ne _ (number w)), lookup_insert_eq by done.
    rewrite (lookup_insert_ne _ (remote w)), lookup_insert_eq by congruence. by split_and!.
  - split; (rewrite (entry_at_ids _ c); [by eexists|done]).
  - exact Hready.
Qed.
End Receiving.

(** ** Subscription *)

Section Synchrony.
Context `{JL : JsonLib}.
Context (to_uint64 : Z -> Z).

(** The addresses and numbers of an offered signal whose peer awaits it. *)
Definition route_of (n m : Z) (e : LC.registered_local_signal) (sv : LocalSignal.local_signal) (td : nat)
    (xv xt : remote_signal_entry) (rt : remote_signal) (c : container) : route :=
  mk_route (LC.signal e) n m td (signal xv) (signal xt) (value_or (table rt) (next (store c)))
    (Metadata.sample_size (LocalSignal.sig_metadata sv)).

Lemma offered_described p sid tid n m e d sv st td a b :
  offered p sid tid n m e d sv st td a b -> sid <> "" -> described sv st sid tid a b.
Proof.
  intros Ho Hs. destruct (offered_ids _ _ _ _ _ _ _ _ _ _ _ _ Ho) as (? & ? & _).
  destruct Ho as [_ _ _ _ _ _ _ (? & ? & ? & Hne) (? & ? & ? & _) _]. by split.
Qed.

(** The entry is the only one of its signal. *)
Lemma entry_unique l n k e e' s :
  Subscriptions.distinct (Subscriptions.names l) -> LC.registered l !! n = Some e ->
  LC.registered l !! k = Some e' -> LC.signals l !! LC.signal e = Some s -> LC.signal e' = LC.signal e -> k = n.
Proof.
  intros HN He He' Hs Heq.
  assert (Hname : forall j x, LC.registered l !! j = Some x -> LC.signal x = LC.signal e ->
    Subscriptions.names l !! j = Some (LocalSignal.sig_id s, LocalSignal.sig_metadata s)).
  { intros j x Hx Hxe. rewrite Subscriptions.names_lookup, Hx. cbn. by rewrite Hxe, Hs. }
  by eapply HN; [by eapply Hname|by eapply Hname|].
Qed.

Lemma subscribed_as p sid tid n m e d sv st td a b xv xt rt c :
  offered p sid tid n m e d sv st td a b ->
  let p' := (Publisher.subscribe sid true p).2 in
  exists e', registered_as (route_of n m e sv td xv xt rt c) e' (Publisher.locals p') /\
    LC.value_index e' = LC.value_index e.
Proof.
  intros Ho p'. destruct (offered_ids _ _ _ _ _ _ _ _ _ _ _ _ Ho) as (_ & _ & He & _ & _).
  destruct (subscribe_sends _ _ _ _ _ _ _ _ _ _ _ _ Ho) as (_ & Hc & _ & e' & He' & H1 & H2 & H3 & H4).
  pose proof (proj1 (of_signals _ _ _ _ _ _ _ _ _ _ _ _ Ho)) as Hsv.
  pose proof (proj1 (of_numbers _ _ _ _ _ _ _ _ _ _ _ _ Ho)) as Hn.
  destruct (kept_entry p p' n e sv Hc He Hsv) as (e2 & s2 & He2 & Hcore & Hs2 & _). fold p' in He'.
  rewrite He' in He2. injection He2 as <-. unfold core in Hcore. injection Hcore as Hsig Hno _ Hvi.
  exists e'. split; [|done]. unfold registered_as, route_of. cbn [number local local_table domain_number].
  split_and!; try done; [congruence|]. intros k ek Hk Hke. unfold Publisher.signal_of in Hs2.
  apply (entry_unique (Publisher.locals p') n k e' ek s2); [|done..|congruence].
  unfold p'. rewrite (same_core_names _ _ Hc). apply (of_names _ _ _ _ _ _ _ _ _ _ _ _ Ho).
Qed.

Lemma subscription_synchronises p sid tid n m e d sv st td a b c xv xt rv rt :
  offered p sid tid n m e d sv st td a b -> awaiting c sid tid xv xt rv rt ->
  sid <> "" -> n <> 0 -> m <> 0 -> 0 < Metadata.sample_size (LocalSignal.sig_metadata sv) ->
  let p' := (Publisher.subscribe sid true p).2 in
  exists ms c' es, Publisher.sent p' = Publisher.sent p ++ ms /\
    arrivals to_uint64 ms c = (c', es, None) /\ no_data es /\ in_sync (route_of n m e sv td xv xt rt c) p' c' /\
    exists c2 es1 es2 rt2,
      arrivals to_uint64 (announcement m st (LC.value_index d)) c = (c2, es1, None) /\
      arrivals to_uint64 (announcement n sv (LC.value_index e)) c2 = (c', es2, None) /\
      domain_ready c c2 m xt rt2 (value_or (table rt) (next (store c)))
        (mk_table tid (LC.value_index d) a b (LC.value_index d)) /\
      signal_ready c2 c' n xv.
Proof.
  intros Ho Ha Hsid Hn Hm Hsz p'. pose proof (offered_described _ _ _ _ _ _ _ _ _ _ _ _ Ho Hsid) as Hds.
  destruct (offered_ids _ _ _ _ _ _ _ _ _ _ _ _ Ho) as (_ & _ & _ & _ & Hnm).
  destruct (subscribe_sends _ _ _ _ _ _ _ _ _ _ _ _ Ho) as (Hsent & _ & Htabs & _). fold p' in Hsent, Htabs.
  destruct (subscribed_as p sid tid n m e d sv st td a b xv xt rt c Ho) as (e' & He' & Hvi). fold p' in He'.
  set (w := route_of n m e sv td xv xt rt c) in *.
  destruct Ho as [_ _ _ _ _ _ (_ & _ & [T0 HT0]) _ (_ & Htt & Hl & Hvd) Hi].
  assert (Hd : in_s 64 (LC.value_index d)).
  { unfold Metadata.value_index in Hvd. destruct (is_number_integer _); [|done]. unfold get_int64 in Hvd.
    destruct (view _); try done; injection Hvd as <-; by apply swrap_range. }
  destruct (domain_announced to_uint64 c sid tid xv xt rv rt sv st a b (LC.value_index d) m Ha Hds Hm Hd)
    as (c2 & es1 & rt2 & E1 & D1 & Hready).
  destruct (signal_announced to_uint64 w c c2 sid tid xv xt rv rt rt2 sv st a b (LC.value_index d) (LC.value_index e) Ha Hds Hready)
    as (c' & es2 & E2 & D2 & Htr & Htd & Hlive & Hsignal); try done.
  change (number w) with n in E2, Hsignal.
  exists (announcement m st (LC.value_index d) ++ announcement n sv (LC.value_index e)), c', (es1 ++ es2).
  split; [done|]. split.
  { unfold arrivals in *. by rewrite fmap_app, (session_app _ _ _ _ _ _ E1), E2. }
  split; [by apply no_data_app|]. split; [|by exists c2, es1, es2, rt2].
  apply in_sync_tracking. split_and!; [done..| |done|].
  - cbn. intros Heq. apply (awaiting_distinct _ _ _ _ _ _ _ sid xv Ha (proj1 (aw_value _ _ _ _ _ _ _ Ha))); [|done].
    by destruct Hds as [_ (_ & _ & ?) _ _ _].
  - exists e', (mk_table tid (LC.value_index d) a b (LC.value_index d)). split; [done|]. split.
    + rewrite Htabs. cbn. rewrite lookup_alter_eq, HT0. cbn.
      rewrite (update_complete _ _ (LC.value_index d) a b); [by rewrite Htt| |done..].
      rewrite Htt. by destruct Hds as [_ (_ & ? & _) _ _ _].
    + by rewrite Hvi.
Qed.
End Synchrony.

(** ** Properties *)

(** From the subscription on, everything arrives.  The publishing side has
    an explicit signal and the linear domain its table id names, neither of them
    subscribed; the receiving side knows both from the advertisement (and has,
    at most, kept what an earlier subscription left).  Then subscribing the
    signal succeeds, and when what is sent from there on is received (the
    subscription of the domain and of the signal, with their metadata, and the
    packets of whatever is published afterwards) no handler fails, the samples
    are delivered in order with the domain values they were published with, and
    both sides are in sync. *)
Theorem subscription_streams `{JL : JsonLib} to_uint64 p sid tid n m e d sv st td a b c xv xt rv rt xs :
  offered p sid tid n m e d sv st td a b -> awaiting c sid tid xv xt rv rt ->
  sid <> "" -> n <> 0 -> m <> 0 -> 0 < Metadata.sample_size (LocalSignal.sig_metadata sv) ->
  Forall (publishable (Metadata.sample_size (LocalSignal.sig_metadata sv))) xs ->
  let w := route_of n m e sv td xv xt rt c in
  let '(done, p') := Publisher.subscribe sid true p in
  let p'' := foldl (fun p x => publish w x p) p' xs in
  done = true /\
  exists ms c' es, Publisher.sent p'' = Publisher.sent p ++ ms /\
    arrivals to_uint64 ms c = (c', es, None) /\ delivered (signal xv) es = xs /\ in_sync w p'' c'.
Proof.
  intros Ho Ha Hsid Hn Hm Hsz Hx w.
  destruct (subscription_synchronises to_uint64 p sid tid n m e d sv st td a b c xv xt rv rt Ho Ha Hsid Hn Hm Hsz)
    as (ms1 & c1 & es1 & E1 & A1 & D1 & S1 & _).
  destruct (publications_deliver to_uint64 w xs _ c1 S1 Hx) as (ms2 & c2 & es2 & E2 & _ & A2 & D2 & S2).
  pose proof (subscribe_succeeds p sid tid n m e d sv st td a b Ho) as Hdone.
  destruct (Publisher.subscribe sid true p) as [ok p'] eqn:Ep. split; [exact Hdone|].
  exists (ms1 ++ ms2), c2, (es1 ++ es2). cbn [snd] in *. split; [by rewrite E2, E1, <- (assoc_L (++))|].
  unfold arrivals in *. rewrite fmap_app, (session_app _ _ _ _ _ _ A1), A2. split; [done|].
  split; [|done]. by rewrite delivered_app, D1.
Qed.

(** ** An instance *)

Section Witness.
#[local] Existing Instance jv_json.

Definition advertised_receiver : container :=
  (arrivals Datatypes.id [Publisher.ids_message "available" ["D"; "A"; "B"]] empty_container).1.1.

Definition sample_entry (n : Z) : LC.registered_local_signal :=
  value_or (LC.registered (Publisher.locals Subscriptions.sample_publisher) !! n) (LC.make_registered 0 0).

Lemma sample_offered :
  offered Subscriptions.sample_publisher "A" "D" 2 1 (sample_entry 2) (sample_entry 1)
    (LocalSignal.make "A" Subscriptions.value_metadata) (LocalSignal.make "D" Subscriptions.domain_metadata)
    0 100 10.
Proof.
  constructor.
  - apply Subscriptions.distinct_b_true. by vm_compute.
  - by vm_compute.
  - by vm_compute.
  - split; by vm_compute.
  - split; by vm_compute.
  - split; by vm_compute.
  - split; [by vm_compute|]. split; [by vm_compute|]. eexists. by vm_compute.
  - split_and!; by vm_compute.
  - split_and!; by vm_compute.
  - by vm_compute.
Qed.

Lemma sample_awaiting :
  awaiting advertised_receiver "A" "D" (mk_entry false 1) (mk_entry false 0)
    (RemoteSignal.make "A") (RemoteSignal.make "D").
Proof.
  assert (Hno : map_Forall (fun _ s => table s = None) (signals (store advertised_receiver)))
    by (apply (bool_decide_unpack (map_Forall _ _)); by vm_compute).
  split.
  - pose proof (session_sound Datatypes.id
      (arrival <$> [Publisher.ids_message "available" ["D"; "A"; "B"]]) empty_container well_formed_empty eq_refl) as Hs.
    unfold advertised_receiver, arrivals. by destruct (session _ _ _) as [[c es] err], Hs.
  - split; by vm_compute.
  - split; by vm_compute.
  - done.
  - done.
  - intros k x s t _ _ Hs Ht. rewrite (Hno _ _ Hs) in Ht. done.
Qed.

Lemma subscription_streams_witness :
  let xs := [(100, 2, [1; 0; 2; 0]); (120, 1, [3; 0]); (500, 1, [4; 0])] in
  let w := mk_route 1 2 1 0 1 0 3 2 in
  let p := foldl (fun p x => publish w x p) (Publisher.subscribe "A" true Subscriptions.sample_publisher).2 xs in
  exists ms c' es, Publisher.sent p = Publisher.sent Subscriptions.sample_publisher ++ ms /\
    arrivals Datatypes.id ms advertised_receiver = (c', es, None) /\ delivered 1 es = xs.
Proof.
  intros xs w p.
  assert (Hw : route_of 2 1 (sample_entry 2) (LocalSignal.make "A" Subscriptions.value_metadata) 0
                 (mk_entry false 1) (mk_entry false 0) (RemoteSignal.make "D") advertised_receiver = w) by by vm_compute.
  assert (Hx : Forall (publishable (Metadata.sample_size Subscriptions.value_metadata)) xs)
    by (replace (Metadata.sample_size Subscriptions.value_metadata) with 2 by (by vm_compute); by repeat constructor).
  assert (Hsz : 0 < Metadata.sample_size Subscriptions.value_metadata) by by vm_compute.
  pose proof (subscription_streams Datatypes.id _ _ _ _ _ _ _ _ _ _ _ _ _ _ _ _ _ xs sample_offered sample_awaiting
                ltac:(done) ltac:(done) ltac:(done) Hsz Hx) as H.
  rewrite Hw in H. unfold p. destruct (Publisher.subscribe _ _ _) as [ok p1]. destruct H as [_ H]. cbn [snd].
  destruct H as (ms & c' & es & H1 & H2 & H3 & _). exists ms, c', es. split; [exact H1|split; [exact H2|exact H3]].
Defined.
End Witness.
