(* ===== verification/Rounds.v ===== *)
(** * Subscribing again and again

    [Synchrony] brings the two sides into step once.  Here a subscription is
    also given back, and what the sides keep afterwards is what a next
    subscription needs: the publishing side is idle again, and the receiving
    side awaits the signals with the table and the numbers of the last round. *)
From S2P Require Import Prelude Json Metadata OrderedMap LinearTable.
From S2P Require LocalSignal LocalSignalContainer.
Module LC := LocalSignalContainer.
From S2P Require Import RemoteSignal RemoteSignalContainer Receiver.
From S2P Require Peer Publisher Subscriptions StreamingProtocol.
From S2P Require Import EndToEnd Synchrony.

(** ** The publishing side *)

Section Publishing.
Context `{JL : JsonLib}.
Import Publisher.

Definition flags (e : LC.registered_local_signal) : bool * Z * bool :=
  (LC.is_explicitly_subscribed e, LC.implicit_subscribe_count e, LC.data_connected e).

Lemma flags_view l l' n e e' :
  LC.registered l !! n = Some e -> LC.registered l' !! n = Some e' ->
  Subscriptions.views l' !! n = Subscriptions.views l !! n -> flags e' = flags e.
Proof.
  intros He He' Hv. unfold Subscriptions.views in Hv. rewrite !lookup_fmap, He, He' in Hv.
  unfold Subscriptions.view_of, flags in *. cbn in Hv. by injection Hv as _ _ -> -> _ _ ->.
Qed.

(** *** Publishing

    A publication moves the index of the signal's entry and its domain's table,
    and nothing else. *)

Lemma drive_tables f t (T : gmap nat linear_table) k : is_Some (T !! k) -> is_Some (alter f t T !! k).
Proof.
  intros [x Hx]. destruct (decide (t = k)) as [<-|Hne]; [rewrite lookup_alter_eq|rewrite lookup_alter_ne by done];
    rewrite Hx; by eexists.
Qed.

Record published_frame (a : nat) (l l' : LC.local_state) : Prop := {
  pf_described : Subscriptions.described l' = Subscriptions.described l;
  pf_views : Subscriptions.views l' = Subscriptions.views l;
  pf_tables : forall t, is_Some (LC.tables l !! t) -> is_Some (LC.tables l' !! t);
  pf_entries : forall n e, LC.registered l !! n = Some e ->
    LC.registered l' !! n = Some e \/
    LC.find_address a l = Some n /\
    exists i, in_s 64 i /\ LC.registered l' !! n = Some (LC.set_value_index i e)
}.

Lemma publish_domain_frame e v t tab p :
  LC.signals (locals (publish_domain e v t tab p)) = LC.signals (locals p) /\
  LC.registered (locals (publish_domain e v t tab p)) = LC.registered (locals p) /\
  forall k, is_Some (LC.tables (locals p) !! k) -> is_Some (LC.tables (locals (publish_domain e v t tab p)) !! k).
Proof. unfold publish_domain. split_if; split_and!; try done. intros k Hk. by apply drive_tables. Qed.

Lemma on_published_frame n v k data p e :
  LC.registered (locals p) !! n = Some e ->
  let p' := on_local_signal_data_published n v k data p in
  LC.signals (locals p') = LC.signals (locals p) /\
  LC.registered (locals p')
  = alter (LC.set_value_index (s64 (LC.value_index e + k))) n (LC.registered (locals p)) /\
  forall q, is_Some (LC.tables (locals p) !! q) -> is_Some (LC.tables (locals p') !! q).
Proof.
  intros He. unfold on_local_signal_data_published. rewrite He.
  destruct (lock _ _) as [[t tab]|]; [|by split_and!].
  destruct (publish_domain_frame e v t tab p) as (H1 & H2 & H3).
  destruct (LC.is_explicit e); cbn; rewrite H1, H2; split_and!; try done; intros q Hq.
  apply drive_tables. by apply H3.
Qed.

Lemma publish_frame a v k data p :
  published_frame a (locals p) (locals (publish_data a v k data p)).
Proof.
  unfold publish_data. set (p0 := with_locals _ p).
  assert (H0 : Subscriptions.described (locals p0) = Subscriptions.described (locals p)).
  { by apply (Subscriptions.described_alter (LocalSignal.publish_domain_data v k data)). }
  change (LC.find_address a (locals p0)) with (LC.find_address a (locals p)).
  assert (Hid : published_frame a (locals p) (locals p0)) by (split; [done..|by left]).
  destruct (LC.find_address a (locals p)) as [j|] eqn:Ej; [|done].
  destruct (LC.registered (locals p0) !! j) as [e|] eqn:He; [|done].
  destruct (LC.data_connected e); [|done].
  destruct (on_published_frame j v k data p0 e He) as (H1 & H2 & H3). split; [| |exact H3|].
  - unfold Subscriptions.described in *. by rewrite H1.
  - unfold Subscriptions.views at 1. rewrite H2. change (LC.registered (locals p0)) with (LC.registered (locals p)).
    apply (Subscriptions.views_update_same _ j (locals p)). by intros [].
  - intros n x Hx. rewrite H2. change (LC.registered (locals p0)) with (LC.registered (locals p)).
    destruct (decide (j = n)) as [<-|Hne]; [right|left; by rewrite lookup_alter_ne].
    split; [done|]. eexists. rewrite lookup_alter_eq, Hx. split; [by apply swrap_range|done].
Qed.

(** ** What the publishing side keeps

    The value signal [sid] has the number [n], the address [al] and the metadata
    [mv], its domain [tid] the number [m], the table [td] and the metadata [mt].
    [fv] and [fd] are their subscription flags. *)

Record terms := mk_terms {
  sid : string; tid : string; n : Z; m : Z; al : nat; td : nat; mv : json; mt : json;
  start : Z; delta : Z; origin : Z
}.

Record agreeable (k : terms) : Prop := {
  ag_names : sid k <> "" /\ tid k <> "" /\ tid k <> sid k;
  ag_numbers : n k <> 0 /\ m k <> 0;
  ag_value : rule (mv k) = explicit_rule /\ table_id (mv k) = tid k;
  ag_size : 0 < Metadata.sample_size (mv k);
  ag_domain : rule (mt k) = linear_rule /\ table_id (mt k) = tid k;
  ag_linear : linear_start_delta (mt k) = (Some (start k), Some (delta k));
  ag_origin : Metadata.value_index (mt k) = Some (origin k)
}.

Record paired (k : terms) (fv fd : bool * Z * bool) (l : LC.local_state) : Prop := {
  pd_distinct : Subscriptions.distinct (Subscriptions.names l);
  pd_names : Subscriptions.names l !! n k = Some (sid k, mv k) /\
             Subscriptions.names l !! m k = Some (tid k, mt k);
  pd_value : exists e, LC.registered l !! n k = Some e /\ LC.signal e = al k /\ LC.signo e = n k /\
    LC.table e = None /\ in_s 64 (LC.value_index e) /\ flags e = fv;
  pd_domain : exists d, LC.registered l !! m k = Some d /\ LC.signo d = m k /\ LC.table d = Some (td k) /\
    LC.value_index d = origin k /\ flags d = fd;
  pd_table : is_Some (LC.tables l !! td k)
}.

Definition idle (k : terms) (p : publisher) : Prop := paired k (false, 0, false) (false, 0, false) (locals p).

Definition engaged (k : terms) (p : publisher) : Prop := paired k (true, 0, true) (false, 1, true) (locals p).

(** An entry with the name, and the signal it refers to. *)
Lemma named_entry l j x y e :
  Subscriptions.distinct (Subscriptions.names l) -> Subscriptions.names l !! j = Some (x, y) ->
  LC.registered l !! j = Some e ->
  exists s, LC.find_local_signal x l = Some (j, e) /\ LC.signals l !! LC.signal e = Some s /\
    LocalSignal.sig_id s = x /\ LocalSignal.sig_metadata s = y.
Proof.
  intros HN Hx He. pose proof (Subscriptions.key_intro _ _ _ _ HN Hx) as Hk.
  destruct (Subscriptions.find_local_signal_key _ _ _ HN Hk) as (e' & s & Hf & He' & Hs & Hn & Hid).
  rewrite He in He'. injection He' as <-. exists s. split_and!; try done. congruence.
Qed.

Lemma paired_other k fv fd l : agreeable k -> paired k fv fd l -> n k <> m k.
Proof. intros [(_ & _ & Hne) _ _ _ _ _ _] [_ [H1 H2] _ _ _] Heq. rewrite Heq in H1. congruence. Qed.

Lemma paired_domain k fv fd l :
  agreeable k -> paired k fv fd l ->
  Subscriptions.domain (Subscriptions.names l) (n k) = Some (m k) /\
  Subscriptions.domain (Subscriptions.names l) (m k) = None.
Proof.
  intros [(_ & Ht & Hne) _ [_ Hv] _ [_ Hd] _ _] [HN [H1 H2] _ _ _]. unfold Subscriptions.domain.
  rewrite H1, H2, Hv, Hd, !(bool_decide_false (tid k = "")), (bool_decide_true (tid k = tid k)),
    bool_decide_false by done. cbn [orb]. split; [|done]. by eapply Subscriptions.key_intro.
Qed.

Lemma paired_views k fv fd l :
  paired k fv fd l -> exists vv vd, Subscriptions.views l !! n k = Some vv /\ Subscriptions.views l !! m k = Some vd /\
    (Subscriptions.v_explicit vv, Subscriptions.v_count vv, Subscriptions.v_data vv) = fv /\
    (Subscriptions.v_explicit vd, Subscriptions.v_count vd, Subscriptions.v_data vd) = fd.
Proof.
  intros [_ _ (e & He & _ & _ & _ & _ & Hv) (d & Hd & _ & _ & _ & Hfd) _].
  exists (Subscriptions.view_of e), (Subscriptions.view_of d). unfold Subscriptions.views.
  by rewrite !lookup_fmap, He, Hd.
Qed.

(** Subscribing and unsubscribing keep all but the flags. *)
Lemma paired_flags k fv fd fv' fd' l l' vv vd :
  paired k fv fd l -> same_core l l' -> is_Some (LC.tables l' !! td k) ->
  Subscriptions.views l' !! n k = Some vv -> Subscriptions.views l' !! m k = Some vd ->
  (Subscriptions.v_explicit vv, Subscriptions.v_count vv, Subscriptions.v_data vv) = fv' ->
  (Subscriptions.v_explicit vd, Subscriptions.v_count vd, Subscriptions.v_data vd) = fd' ->
  paired k fv' fd' l'.
Proof.
  intros [HN HN2 (e & He & H1 & H2 & H3 & H4 & _) (d & Hd & D1 & D2 & D3 & _) _] Hc Ht Hvv Hvd Hfv Hfd.
  rewrite <- (same_core_names _ _ Hc) in HN, HN2.
  destruct (same_core_entry _ _ _ _ Hc He) as (e' & He' & Hcore).
  destruct (same_core_entry _ _ _ _ Hc Hd) as (d' & Hd' & Hcored).
  unfold core in Hcore, Hcored. injection Hcore as E1 E2 E3 E4. injection Hcored as E5 E6 E7 E8.
  pose proof (Subscriptions.view_lookup _ _ _ _ He' Hvv) as ->.
  pose proof (Subscriptions.view_lookup _ _ _ _ Hd' Hvd) as ->.
  split; [done|done| | |done].
  - exists e'. rewrite E1, E2, E3, E4. by split_and!.
  - exists d'. rewrite E6, E7, E8. by split_and!.
Qed.

Lemma idle_offered k p :
  agreeable k -> idle k p ->
  exists e d sv st, offered p (sid k) (tid k) (n k) (m k) e d sv st (td k) (start k) (delta k) /\
    LC.signal e = al k /\ LocalSignal.sig_metadata sv = mv k /\ LocalSignal.sig_metadata st = mt k.
Proof.
  intros [(Hs & Ht & Hne) _ [Hr1 Htv] _ [Hr2 Htd] Hl Ho]
    [HN [H1 H2] (e & He & E1 & E2 & E3 & E4 & Ef) (d & Hd & D1 & D2 & D3 & Df) HT].
  destruct (named_entry _ _ _ _ _ HN H1 He) as (sv & Hfv & Hsv & Hidv & Hmv).
  destruct (named_entry _ _ _ _ _ HN H2 Hd) as (st & Hft & Hst & Hidt & Hmt).
  exists e, d, sv, st. split; [|done]. unfold flags in Ef, Df. injection Ef as Ef1 Ef2 Ef3. injection Df as Df1 Df2 Df3.
  split; try done; rewrite ?Hmv, ?Hmt, ?D3; try done. unfold subscribed. by rewrite Ef1, Ef2, Df1, Df2.
Qed.

Lemma subscribe_engages k p : agreeable k -> idle k p -> engaged k (subscribe (sid k) true p).2.
Proof.
  intros Hk Hi. destruct (idle_offered k p Hk Hi) as (e & d & sv & st & Ho & _).
  destruct (subscribe_sends _ _ _ _ _ _ _ _ _ _ _ _ Ho) as (_ & Hc & Ht & _).
  destruct (paired_views _ _ _ _ Hi) as (vv & vd & Hvv & Hvd & Hfv & Hfd).
  pose proof (paired_other _ _ _ _ Hk Hi) as Hne. injection Hfv as Fv1 Fv2 Fv3. injection Hfd as Fd1 Fd2 Fd3.
  assert (Hkey : Subscriptions.key (Subscriptions.names (locals p)) (sid k) = Some (n k)).
  { eapply Subscriptions.key_intro; [exact (pd_distinct _ _ _ _ Hi)|exact (proj1 (pd_names _ _ _ _ Hi))]. }
  destruct (Subscriptions.subscribe_fresh p (sid k) (n k) vv (pd_distinct _ _ _ _ Hi) Hkey Hvv) as (_ & Hb & _).
  { unfold Subscriptions.v_subscribed. by rewrite Fv1, Fv2. }
  rewrite (proj1 (paired_domain _ _ _ _ Hk Hi)) in Hb. cbn [Subscriptions.opt_alter] in Hb.
  eapply (paired_flags k _ _ _ _ _ _ _ _ Hi Hc).
  - rewrite Ht. apply drive_tables, (pd_table _ _ _ _ Hi).
  - by rewrite Hb, lookup_alter_eq, lookup_alter_ne, lookup_alter_eq, Hvv by done.
  - by rewrite Hb, lookup_alter_ne, lookup_alter_eq, lookup_alter_ne, Hvd by done.
  - cbn. by rewrite Fv2.
  - unfold Subscriptions.v_up, Subscriptions.v_subscribed. rewrite Fd1, Fd2. done.
Qed.

Lemma frame_names a l l' : published_frame a l l' -> Subscriptions.names l' = Subscriptions.names l.
Proof. intros [Hd Hv _ _]. unfold Subscriptions.names. by rewrite Hd, Hv. Qed.

(** The signal's address leads to its entry alone. *)
Lemma addressed k fv fd l j :
  paired k fv fd l -> LC.find_address (al k) l = Some j -> j = n k.
Proof.
  intros [HN [H1 _] (e & He & E1 & _) _ _] Ha.
  unfold LC.find_address in Ha. apply fmap_Some in Ha as ([j' x] & [Hx Hxa%bool_decide_eq_true]%find_if_some & ->).
  cbn in *. rewrite Subscriptions.names_lookup, He in H1. cbn in H1. rewrite E1, <- Hxa in H1.
  eapply (HN j' (n k) (sid k, mv k) (sid k, mv k)); [|by rewrite Subscriptions.names_lookup, He; cbn; rewrite E1, <- Hxa|done].
  by rewrite Subscriptions.names_lookup, Hx.
Qed.

Lemma publish_engaged k p v j data :
  agreeable k -> engaged k p -> engaged k (publish_data (al k) v j data p).
Proof.
  intros Hk Hp. pose proof (paired_other _ _ _ _ Hk Hp) as Hne.
  pose proof Hp as [HN [H1 H2] (e & He & E1 & E2 & E3 & E4 & Ef) (d & Hd & D1 & D2 & D3 & Df) HT].
  pose proof (publish_frame (al k) v j data p) as F. pose proof (frame_names _ _ _ F) as HF.
  destruct F as [_ _ Htab Hent]. split; [by rewrite HF|by rewrite HF| | |by apply Htab].
  - destruct (Hent _ _ He) as [He'|(_ & i & Hi & He')]; [by exists e|]. by exists (LC.set_value_index i e).
  - destruct (Hent _ _ Hd) as [Hd'|(Ha & _)]; [by exists d|]. exfalso.
    apply Hne. symmetry. exact (addressed _ _ _ _ _ Hp Ha).
Qed.

(** Nothing happens to a publication nobody is subscribed to. *)
Lemma publish_idle k p v j data :
  idle k p -> idle k (publish_data (al k) v j data p) /\ sent (publish_data (al k) v j data p) = sent p.
Proof.
  intros Hp. pose proof Hp as [HN HN2 (e & He & E1 & E2 & E3 & E4 & Ef) Hd HT].
  assert (Hs : publish_data (al k) v j data p = with_locals (LC.set_signals (alter (LocalSignal.publish_domain_data v j data)
            (al k) (LC.signals (locals p))) (locals p)) p).
  { unfold publish_data. set (p0 := with_locals _ p).
    change (LC.find_address (al k) (locals p0)) with (LC.find_address (al k) (locals p)).
    destruct (LC.find_address (al k) (locals p)) as [i|] eqn:Ea; [|done].
    rewrite (addressed _ _ _ _ _ Hp Ea). change (LC.registered (locals p0)) with (LC.registered (locals p)).
    rewrite He. unfold flags in Ef. injection Ef as _ _ ->. done. }
  rewrite Hs. split; [|done].
  assert (Hnames : Subscriptions.names (LC.set_signals (alter (LocalSignal.publish_domain_data v j data) (al k)
            (LC.signals (locals p))) (locals p)) = Subscriptions.names (locals p)).
  { unfold Subscriptions.names. rewrite (Subscriptions.described_alter (LocalSignal.publish_domain_data v j data)) by done. done. }
  unfold idle. cbn [locals with_locals]. split; rewrite ?Hnames; [done|done|by exists e|done|done].
Qed.

(** *** Unsubscribing *)

Lemma withdraw_frame j s p e :
  LC.registered (locals p) !! j = Some e ->
  sent (withdraw j s p) = sent p ++ [id_message (LC.signo e) "unsubscribe" (LocalSignal.sig_id s)] /\
  same_core (locals p) (locals (withdraw j s p)) /\ LC.tables (locals (withdraw j s p)) = LC.tables (locals p) /\
  forall i, i <> j -> LC.registered (locals (withdraw j s p)) !! i = LC.registered (locals p) !! i.
Proof.
  intros He. unfold withdraw. set (p1 := with_locals _ _).
  assert (Hc : same_core (locals p) (locals p1)) by (etrans; [|apply close_core]; by apply update_core).
  destruct (same_core_entry _ _ _ _ Hc He) as (e2 & -> & Hcore). unfold core in Hcore.
  injection Hcore as _ -> _ _. cbn. rewrite close_tables. split_and!; [done|exact Hc|done|].
  intros i Hi. rewrite close_other by done. cbn. by rewrite lookup_alter_ne.
Qed.

(** One level of [unsubscribe], for the last subscription of a signal. *)
Lemma unsubscribe_last fuel x (expl : bool) p j e s :
  LC.find_local_signal x (locals p) = Some (j, e) -> signal_of e p = Some s ->
  subscribed (if expl then LC.set_subscription false (LC.implicit_subscribe_count e) e
              else LC.set_subscription (LC.is_explicitly_subscribed e) (u32 (LC.implicit_subscribe_count e - 1)) e) = false ->
  exists p', sent p' = sent p ++ [id_message (LC.signo e) "unsubscribe" (LocalSignal.sig_id s)] /\
    same_core (locals p) (locals p') /\ LC.tables (locals p') = LC.tables (locals p) /\
    (forall i, i <> j -> LC.registered (locals p') !! i = LC.registered (locals p) !! i) /\
    unsubscribe_fuel (S fuel) x expl p
    = if Subscriptions.seeks_domain x (LocalSignal.sig_metadata s) then
        match unsubscribe_fuel fuel (table_id (LocalSignal.sig_metadata s)) false p' with
        | Some (_, p) => Some (true, p)
        | None => None
        end
      else Some (true, p').
Proof.
  intros Hf Hs Hsub. cbn [unsubscribe_fuel]. rewrite Hf. cbn zeta. set (e' := if expl then _ else _) in *.
  rewrite Hsub. assert (He' : core e' = core e) by (unfold e'; by destruct expl). clearbody e'.
  pose proof He' as Hcore. unfold core in Hcore. injection Hcore as _ Hno _ _.
  destruct (Subscriptions.find_local_signal_inv _ _ _ _ Hf) as (He & _).
  change (signal_of e (update _ j p)) with (signal_of e p). rewrite Hs. set (p0 := update (fun _ => e') j p).
  assert (Hc : same_core (locals p) (locals p0)) by (apply update_core; intros e1; rewrite He; by intros [= <-]).
  assert (He0 : LC.registered (locals p0) !! j = Some e') by (cbn; by rewrite lookup_alter_eq, He).
  destruct (withdraw_frame j s p0 e' He0) as (W1 & W2 & W3 & W4). rewrite Hno in W1.
  exists (withdraw j s p0). split_and!; [done|by etrans|done| |done].
  intros i Hi. rewrite W4 by done. cbn. by rewrite lookup_alter_ne.
Qed.

(** The messages that withdraw both signals. *)
Definition withdrawal (k : terms) : list Peer.message :=
  [id_message (n k) "unsubscribe" (sid k); id_message (m k) "unsubscribe" (tid k)].

Lemma unsubscribe_sends k p :
  agreeable k -> engaged k p ->
  exists p', unsubscribe (sid k) true p = (true, p') /\ sent p' = sent p ++ withdrawal k /\
    same_core (locals p) (locals p') /\ LC.tables (locals p') = LC.tables (locals p).
Proof.
  intros Hk Hp. pose proof (paired_other _ _ _ _ Hk Hp) as Hne.
  pose proof Hp as [HN [H1 H2] (e & He & E1 & E2 & E3 & E4 & Ef) (d & Hd & D1 & D2 & D3 & Df) HT].
  destruct (named_entry _ _ _ _ _ HN H1 He) as (sv & Hfv & Hsv & Hidv & Hmv).
  injection Ef as Ef1 Ef2 Ef3. injection Df as Df1 Df2 Df3. destruct (ag_names k Hk) as (_ & Htn & Hts).
  unfold unsubscribe.
  destruct (unsubscribe_last (S (base.size (LC.registered (locals p)))) (sid k) true p (n k) e sv Hfv Hsv)
    as (p1 & S1 & C1 & T1 & R1 & ->); [unfold subscribed; cbn; by rewrite Ef2|].
  rewrite <- (same_core_names _ _ C1) in HN, H2. rewrite <- R1 in Hd by done.
  destruct (named_entry _ _ _ _ _ HN H2 Hd) as (st & Hft & Hst & Hidt & Hmt).
  unfold Subscriptions.seeks_domain. rewrite Hmv, (proj2 (ag_value k Hk)), !bool_decide_false by done. cbn [negb andb].
  destruct (unsubscribe_last (base.size (LC.registered (locals p))) (tid k) false p1 (m k) d st Hft Hst)
    as (p2 & S2 & C2 & T2 & R2 & ->); [unfold subscribed; cbn; by rewrite Df1, Df2|].
  unfold Subscriptions.seeks_domain.
  rewrite Hmt, (proj2 (ag_domain k Hk)), (bool_decide_true (tid k = tid k)), andb_false_r by done.
  exists p2. cbn [value_or]. split; [done|]. rewrite S2, S1, E2, D1, Hidv, Hidt, <- (assoc_L (++)).
  split_and!; [done|by etrans|congruence].
Qed.

Lemma unsubscribe_idle k p : agreeable k -> engaged k p -> idle k (unsubscribe (sid k) true p).2.
Proof.
  intros Hk Hp. destruct (unsubscribe_sends k p Hk Hp) as (p' & Hu & _ & Hc & Ht).
  destruct (paired_views _ _ _ _ Hp) as (vv & vd & Hvv & Hvd & Hfv & Hfd).
  pose proof (paired_other _ _ _ _ Hk Hp) as Hne. destruct (paired_domain _ _ _ _ Hk Hp) as [Hdn Hdm].
  injection Hfv as Fv1 Fv2 Fv3. injection Hfd as Fd1 Fd2 Fd3.
  assert (Hkey : Subscriptions.key (Subscriptions.names (locals p)) (sid k) = Some (n k)).
  { eapply Subscriptions.key_intro; [exact (pd_distinct _ _ _ _ Hp)|exact (proj1 (pd_names _ _ _ _ Hp))]. }
  destruct (Subscriptions.unsubscribe_explicit p (sid k) (n k) vv (pd_distinct _ _ _ _ Hp) Hkey Hvv) as (p2 & Hu2 & Hb & _).
  { lia. }
  { rewrite Hdn. by intros ? [= <-]. }
  rewrite Hu in Hu2. injection Hu2 as _ <-. rewrite Fv2, Hdn in Hb. cbn [Z.ltb Z.compare] in Hb. rewrite Hu.
  eapply (paired_flags k _ _ _ _ _ _ _ _ Hp Hc).
  - rewrite Ht. apply (pd_table _ _ _ _ Hp).
  - by rewrite Hb, lookup_alter_ne, lookup_alter_eq, Hvv by done.
  - by rewrite Hb, lookup_alter_eq, lookup_alter_ne, Hvd by done.
  - done.
  - by rewrite Fd1, Fd2.
Qed.
End Publishing.

(** ** The receiving side *)

Section Receiving.
Context `{JL : JsonLib}.
Context (to_uint64 : Z -> Z).

(** What data and withdrawals leave alone: which table a signal has, and the
    names of the tables. *)
Definition binding (s : remote_signal) : option nat * Z := (table s, tcp_delta s).

Record framed (c c' : container) : Prop := {
  fr_ids : signals_by_id c' = signals_by_id c;
  fr_signals : forall q, binding <$> signals (store c') !! q = binding <$> signals (store c) !! q;
  fr_tables : forall t, table_name <$> tables (store c') !! t = table_name <$> tables (store c) !! t
}.

#[export] Instance framed_preorder : PreOrder framed.
Proof. split; [by split|]. intros x y z [] []. split; congruence. Qed.

Lemma framed_signal (h : heap) q s s' r :
  signals h !! q = Some s -> binding s' = binding s ->
  binding <$> (<[q := s']> (signals h)) !! r = binding <$> signals h !! r.
Proof.
  intros Hs Hb. destruct (decide (q = r)) as [<-|Hne]; [|by rewrite lookup_insert_ne].
  rewrite lookup_insert_eq, Hs. cbn. by rewrite Hb.
Qed.

Lemma framed_table f t (T : gmap nat linear_table) r :
  (forall x, table_name (f x) = table_name x) -> table_name <$> alter f t T !! r = table_name <$> T !! r.
Proof.
  intros Hf. destruct (decide (t = r)) as [<-|Hne]; [|by rewrite lookup_alter_ne].
  rewrite lookup_alter_eq. destruct (T !! t); [|done]. cbn. by rewrite Hf.
Qed.

Lemma handle_data_framed q data c : framed c (set_store (handle_data q data (store c)).1 c).
Proof.
  unfold handle_data. destruct (signals (store c) !! q) as [s|] eqn:Hs; [|by split].
  destruct (is_subscribed s); [|by split]. cbn [negb].
  destruct (tcp_delta s =? 0); cbn [negb].
  2: { split; [done| |done]. intros r. by apply (framed_signal (store c) q s). }
  destruct (table s) as [t|] eqn:Et.
  - split; [done|done|]. intros r. cbn. split_if; [|done]. by apply framed_table.
  - destruct (is_explicit s); [|by split]. split; [done| |]; intros r; cbn.
    + by apply (framed_signal (store c) q s).
    + destruct (lock _ _) as [[t tab]|]; [by apply framed_table|done].
Qed.

Lemma data_framed j data c :
  framed c (receive to_uint64 (data_in j data) c).1.1 /\
  signals_by_signo (receive to_uint64 (data_in j data) c).1.1 = signals_by_signo c.
Proof.
  cbn. unfold on_peer_data_received. destruct (find_signo j c) as [q|]; [|done].
  destruct (entry_at q c); [|done]. pose proof (handle_data_framed q data c) as H.
  by destruct (handle_data q data (store c)).
Qed.

Lemma data_session ms : forall c c' es,
  Forall (fun x => Peer.is_data x = true) ms -> arrivals to_uint64 ms c = (c', es, None) ->
  framed c c' /\ signals_by_signo c' = signals_by_signo c.
Proof.
  unfold arrivals. induction ms as [|x ms IH]; intros c c' es Hd; cbn [fmap list_fmap session].
  { by intros [= <- _]. }
  apply Forall_cons in Hd as [Hx Hms]. destruct x as [j data|]; [|done]. cbn [arrival].
  pose proof (data_framed j data c) as [F S]. destruct (receive _ _ c) as [[c1 es1] [err|]]; [done|]. cbn in F, S.
  specialize (IH c1). fold (fmap (M := list) arrival) in *.
  destruct (session _ _ c1) as [[c2 es2] err] eqn:E. intros [= -> _ ->].
  destruct (IH c' es2 Hms eq_refl) as [F' S']. split; [by etrans|congruence].
Qed.

Lemma data_disciplined ms : forall c,
  Forall (fun x => Peer.is_data x = true) ms -> disciplined to_uint64 (arrival <$> ms) c = true.
Proof.
  induction ms as [|x ms IH]; intros c Hd; [done|]. apply Forall_cons in Hd as [Hx Hms].
  destruct x as [j data|]; [|done]. cbn [fmap list_fmap disciplined arrival keeps_number andb].
  destruct (receive _ _ c) as [[c1 ?] [?|]]; [done|]. by apply IH.
Qed.

(** ** What the receiving side keeps *)

Record expecting (k : terms) (xv xt : remote_signal_entry) (c : container) : Prop := {
  ex_awaiting : exists rv rt, awaiting c (sid k) (tid k) xv xt rv rt;
  ex_value : forall j, signals_by_signo c !! j = Some (signal xv) -> j = n k;
  ex_domain : forall j, signals_by_signo c !! j = Some (signal xt) -> j = m k
}.

Lemma awaiting_framed c c' x y xv xt rv rt :
  awaiting c x y xv xt rv rt -> framed c c' -> well_formed c' ->
  exists rv' rt', awaiting c' x y xv xt rv' rt'.
Proof.
  intros [_ [V1 V2] [D1 D2] [T1 T2] [B1 B2] Al] [Fi Fs Ft] Hw.
  pose proof (Fs (signal xv)) as Hv. rewrite V2 in Hv. apply fmap_Some in Hv as (rv' & Hv & Bv).
  pose proof (Fs (signal xt)) as Ht. rewrite D2 in Ht. apply fmap_Some in Ht as (rt' & Ht & Bt).
  unfold binding in Bv, Bt. injection Bv as Bv1 Bv2. injection Bt as Bt1 Bt2.
  exists rv', rt'. split; rewrite ?Fi; try done.
  - by rewrite <- Bv2, <- Bt2.
  - rewrite <- Bv1, <- Bt1. split; [done|]. intros t [T HT]%B2. pose proof (Ft t) as H.
    rewrite HT in H. apply fmap_Some in H as (T' & -> & _). by eexists.
  - intros z e s t Hz Hne Hs Hst. pose proof (Fs (signal e)) as H. rewrite Hs in H.
    symmetry in H. apply fmap_Some in H as (s0 & Hs0 & [= E1 _]). rewrite Hst in E1.
    destruct (Al z e s0 t Hz Hne Hs0) as (A1 & T & HT & Hn); [done|]. rewrite <- Bt1. split; [done|].
    pose proof (Ft t) as H. rewrite HT in H. apply fmap_Some in H as (T' & HT' & Hn'). exists T'. by rewrite <- Hn'.
Qed.

Lemma expecting_framed k xv xt c c' :
  expecting k xv xt c -> framed c c' -> well_formed c' ->
  (forall j q, signals_by_signo c' !! j = Some q -> signals_by_signo c !! j = Some q) -> expecting k xv xt c'.
Proof.
  intros [(rv & rt & Ha) Hv Hd] Hf Hw Hs. split; [by eapply awaiting_framed| |]; intros j Hj%Hs; [by apply Hv|by apply Hd].
Qed.

Lemma expecting_distinct k xv xt c : agreeable k -> expecting k xv xt c -> signal xv <> signal xt.
Proof.
  intros Hk [(rv & rt & Ha) _ _]. eapply awaiting_distinct; [exact Ha|by destruct Ha as [_ [] _ _ _ _]|].
  intros H. by apply (ag_names k Hk).
Qed.

Lemma expecting_data k xv xt c c' ms es :
  expecting k xv xt c -> Forall (fun x => Peer.is_data x = true) ms ->
  arrivals to_uint64 ms c = (c', es, None) -> expecting k xv xt c'.
Proof.
  intros He Hms E. destruct (data_session ms c c' es Hms E) as [F S].
  destruct (ex_awaiting _ _ _ _ He) as (rv & rt & Ha).
  pose proof (session_sound to_uint64 (arrival <$> ms) c (aw_wf _ _ _ _ _ _ _ Ha) (data_disciplined ms c Hms)) as Hs.
  unfold arrivals in E. rewrite E in Hs. eapply expecting_framed; [done..|by destruct Hs|by rewrite S].
Qed.
(** *** The announcements *)

Lemma ready_expecting k xv xt c c2 c' rt2 rv rt i a b :
  agreeable k -> awaiting c (sid k) (tid k) xv xt rv rt -> expecting k xv xt c ->
  domain_ready c c2 (m k) xt rt2 (value_or (table rt) (next (store c))) (mk_table (tid k) i a b i) ->
  signal_ready c2 c' (n k) xv -> well_formed c' -> expecting k xv xt c'.
Proof.
  intros Hk Ha He [D1 D2 D3 D4 (D5 & D6 & D7)] [(rv2 & S1 & S5 & S6) S2 S3 S4] Hw.
  pose proof (expecting_distinct _ _ _ _ Hk He) as Hne. destruct He as [_ Nv Nd].
  set (T := value_or (table rt) (next (store c))) in *. split.
  2: { intros j. rewrite S4, D4. intros [[Hj Hq]|[_ [[Hj Hq]|[_ Hj]]%lookup_insert_Some]]%lookup_insert_Some;
       [done|congruence|by apply Nv]. }
  2: { intros j. rewrite S4, D4. intros [[Hj Hq]|[_ [[Hj Hq]|[_ Hj]]%lookup_insert_Some]]%lookup_insert_Some;
       [congruence|done|by apply Nd]. }
  destruct Ha as [Hw0 [V1 V2] [W1 W2] _ [_ B2] Al].
  exists rv2, rt2. split; rewrite ?S3, ?D3; try done.
  - rewrite S1, lookup_insert_eq. by split.
  - rewrite S1, lookup_insert_ne, D1, lookup_insert_eq by done. by split.
  - split; [done|]. intros t. rewrite D7. intros [= <-]. rewrite S2, D2, lookup_insert_eq. by eexists.
  - intros z e s t Hz Hzt Hs Hst. destruct (decide (signal e = signal xv)) as [Heq|Hnv].
    { rewrite Heq, S1, lookup_insert_eq in Hs. injection Hs as <-. congruence. }
    assert (Hnt : signal e <> signal xt) by (intros Heq; apply Hzt; by eapply (wf_distinct c Hw0)).
    rewrite S1, lookup_insert_ne, D1, lookup_insert_ne in Hs by done.
    destruct (Al z e s t Hz Hzt Hs Hst) as (A1 & U & HU & HUn).
    assert (T <> t) as HTt.
    { unfold T. destruct (table rt) as [t'|]; cbn; [congruence|].
      pose proof (wf_tables_fresh c Hw0 t ltac:(by eexists)). lia. }
    rewrite D7. split; [congruence|]. exists U. by rewrite S2, D2, lookup_insert_ne.
Qed.

Lemma announcement_disciplined j s i c x :
  signals_by_id c !! LocalSignal.sig_id s = Some x ->
  (forall j', signals_by_signo c !! j' = Some (signal x) -> j' = j) ->
  disciplined to_uint64 (arrival <$> announcement j s i) c = true.
Proof.
  intros Hx Hj. unfold announcement. cbn [fmap list_fmap disciplined arrival Publisher.id_message].
  change (jobj _) with (signal_id (LocalSignal.sig_id s)).
  assert (Hk : keeps_number (metadata_in j "subscribe" (signal_id (LocalSignal.sig_id s))) c = true).
  { cbn [keeps_number]. rewrite bool_decide_true, subscribed_id_of, Hx by done. apply bool_decide_true.
    intros j' p Hp ->. by apply Hj. }
  rewrite Hk. cbn [andb]. destruct (receive _ _ c) as [[c1 ?] [?|]]; [done|].
  by destruct (receive _ _ c1) as [[? ?] [?|]].
Qed.

Lemma arrivals_sound ms c c' es :
  well_formed c -> disciplined to_uint64 (arrival <$> ms) c = true -> arrivals to_uint64 ms c = (c', es, None) ->
  well_formed c'.
Proof.
  intros Hw Hd E. pose proof (session_sound to_uint64 _ c Hw Hd) as H. unfold arrivals in E. rewrite E in H. by destruct H.
Qed.

(** *** The withdrawals *)

Lemma receive_unsubscribe j q params c :
  find_signo j c = Some q -> is_Some (entry_at q c) ->
  exists c' es, receive to_uint64 (metadata_in j "unsubscribe" params) c = (c', es, None) /\ no_data es /\
    framed c c' /\ signals_by_signo c' = delete j (signals_by_signo c).
Proof.
  intros Hj [x Hx]. cbn [receive]. unfold on_peer_signal_metadata.
  rewrite bool_decide_false, bool_decide_true by done. unfold Receiver.handle_unsubscribe, dispatch_metadata.
  rewrite Hj, Hx. unfold handle_metadata_at, handle_metadata, no_throw, on_signal.
  rewrite bool_decide_false, bool_decide_true by done.
  destruct (signals (store c) !! q) as [s|] eqn:Hs.
  - destruct (RemoteSignal.handle_unsubscribe q s) as [s' es] eqn:Eu. cbn. eexists _, _. split; [done|].
    assert (Hb : binding s' = binding s /\ no_data (signal_event <$> es)).
    { unfold RemoteSignal.handle_unsubscribe in Eu. destruct (is_subscribed s); injection Eu as <- <-; (split; [done|by intros r]). }
    split; [apply Hb|]. split; [|done]. split; [done| |done]. intros r. exact (framed_signal (store c) q s s' r Hs (proj1 Hb)).
  - cbn. eexists _, _. split; [done|]. split; [by intros r|]. split; [by split|done].
Qed.

Lemma withdrawal_received k xv xt c :
  agreeable k -> expecting k xv xt c -> n k <> m k -> find_signo (n k) c = Some (signal xv) -> find_signo (m k) c = Some (signal xt) ->
  exists c' es, arrivals to_uint64 (withdrawal k) c = (c', es, None) /\ no_data es /\ expecting k xv xt c'.
Proof.
  intros Hk He Hne Hn Hm. destruct (ex_awaiting _ _ _ _ He) as (rv & rt & Ha).
  pose proof (aw_wf _ _ _ _ _ _ _ Ha) as Hw.
  destruct (signo_live _ _ _ Hw Hn) as (x1 & e1 & L1). destruct (signo_live _ _ _ Hw Hm) as (x2 & e2 & L2).
  unfold arrivals, withdrawal. cbn [fmap list_fmap arrival Publisher.id_message].
  change (jobj [("signalId", jstr (sid k))]) with (signal_id (sid k)).
  change (jobj [("signalId", jstr (tid k))]) with (signal_id (tid k)).
  destruct (receive_unsubscribe (n k) (signal xv) (signal_id (sid k)) c Hn ltac:(by eexists))
    as (c1 & es1 & R1 & N1 & F1 & S1).
  destruct (receive_unsubscribe (m k) (signal xt) (signal_id (tid k)) c1) as (c2 & es2 & R2 & N2 & F2 & S2).
  { unfold find_signo in *. by rewrite S1, lookup_delete_ne. }
  { rewrite (entry_at_ids _ c) by apply F1. by eexists. }
  assert (Hw2 : well_formed c2).
  { apply (arrivals_sound (withdrawal k) c c2 (es1 ++ es2 ++ [])); [done| |].
    - unfold withdrawal. cbn [fmap list_fmap arrival Publisher.id_message disciplined keeps_number andb].
      change (jobj [("signalId", jstr (sid k))]) with (signal_id (sid k)). rewrite R1. cbn.
      change (jobj [("signalId", jstr (tid k))]) with (signal_id (tid k)). cbn in R2. by rewrite R2.
    - unfold arrivals, withdrawal. cbn [fmap list_fmap arrival Publisher.id_message session].
      change (jobj [("signalId", jstr (sid k))]) with (signal_id (sid k)).
      change (jobj [("signalId", jstr (tid k))]) with (signal_id (tid k)). by rewrite R1, R2. }
  cbn [session]. rewrite R1, R2. do 2 eexists. split; [done|]. split.
  { apply no_data_app; [done|]. by rewrite app_nil_r. }
  eapply expecting_framed; [exact He|by etrans|done|]. intros j q. rewrite S2, S1.
  intros [_ [_ H]%lookup_delete_Some]%lookup_delete_Some. exact H.
Qed.
End Receiving.

(** ** Rounds *)

Section Rounds.
Context `{JL : JsonLib}.
Context (to_uint64 : Z -> Z).

(** What is published in a round: before the signal is subscribed and while it
    is. *)
Record phase := mk_phase { unheard : list published; heard : list published }.

(** Some publications, a subscription, more publications, the subscription given
    back; the flag says that both requests were accepted. *)
Definition publications (k : terms) (xs : list published) (p : Publisher.publisher) : Publisher.publisher :=
  foldl (fun p x => Publisher.publish_data (al k) x.1.1 x.1.2 x.2 p) p xs.

Definition round (k : terms) (x : phase) (p : Publisher.publisher) : bool * Publisher.publisher :=
  let '(subscribed, p) := Publisher.subscribe (sid k) true (publications k (unheard x) p) in
  let '(unsubscribed, p) := Publisher.unsubscribe (sid k) true (publications k (heard x) p) in
  (subscribed && unsubscribed, p).

Fixpoint rounds (k : terms) (xss : list phase) (p : Publisher.publisher) : bool * Publisher.publisher :=
  match xss with
  | [] => (true, p)
  | xs :: xss =>
      let '(b, p) := round k xs p in
      let '(b', p) := rounds k xss p in
      (b && b', p)
  end.

Lemma publications_publish k w xs : forall p,
  local w = al k -> foldl (fun p x => publish w x p) p xs = publications k xs p.
Proof.
  unfold publications. induction xs as [|[[v j] data] xs IH]; intros p Hw; [done|]. cbn. by rewrite Hw, IH.
Qed.

Lemma publications_engaged k xs : forall p, agreeable k -> engaged k p -> engaged k (publications k xs p).
Proof.
  unfold publications. induction xs as [|[[v j] data] xs IH]; intros p Hk Hp; [done|]. cbn.
  apply IH; [done|]. by apply publish_engaged.
Qed.

Lemma publications_idle k xs : forall p,
  idle k p -> idle k (publications k xs p) /\ Publisher.sent (publications k xs p) = Publisher.sent p.
Proof.
  unfold publications. induction xs as [|[[v j] data] xs IH]; intros p Hp; [done|]. cbn.
  destruct (publish_idle k p v j data Hp) as [H1 H2]. destruct (IH _ H1) as [H3 H4]. split; [done|congruence].
Qed.

(** The subscription, seen from both sides. *)
Lemma round_begins k xv xt p c :
  agreeable k -> idle k p -> expecting k xv xt c ->
  let '(ok, p') := Publisher.subscribe (sid k) true p in
  ok = true /\ exists ms c' es w, Publisher.sent p' = Publisher.sent p ++ ms /\
    arrivals to_uint64 ms c = (c', es, None) /\ no_data es /\ in_sync w p' c' /\
    local w = al k /\ number w = n k /\ domain_number w = m k /\ remote w = signal xv /\
    remote_domain w = signal xt /\ size w = Metadata.sample_size (mv k) /\ engaged k p' /\ expecting k xv xt c'.
Proof.
  intros Hk Hi He. pose proof (subscribe_engages k p Hk Hi) as Heng.
  destruct (idle_offered k p Hk Hi) as (e & d & sv & st & Ho & Hal & Hmv & Hmt).
  destruct (ex_awaiting _ _ _ _ He) as (rv & rt & Ha).
  pose proof (subscribe_succeeds _ _ _ _ _ _ _ _ _ _ _ _ Ho) as Hok.
  destruct (ag_names k Hk) as (Hsid & _). destruct (ag_numbers k Hk) as [Hn Hm].
  pose proof (ag_size k Hk) as Hsz. rewrite <- Hmv in Hsz.
  destruct (subscription_synchronises to_uint64 p (sid k) (tid k) (n k) (m k) e d sv st (td k) (start k) (delta k) c
              xv xt rv rt Ho Ha Hsid Hn Hm Hsz)
    as (ms & c' & es & E & A & D & S & c2 & es1 & es2 & rt2 & A1 & A2 & R1 & R2).
  destruct (Publisher.subscribe (sid k) true p) as [ok p'] eqn:Ep. cbn [fst snd] in *. split; [done|].
  exists ms, c', es, (route_of (n k) (m k) e sv (td k) xv xt rt c). rewrite <- Hmv. split_and!; try done.
  destruct (offered_ids _ _ _ _ _ _ _ _ _ _ _ _ Ho) as (Hv & Ht & _).
  pose proof (aw_wf _ _ _ _ _ _ _ Ha) as Hw. pose proof (expecting_distinct _ _ _ _ Hk He) as Hne.
  assert (W2 : well_formed c2).
  { eapply arrivals_sound; [exact Hw| |exact A1]. eapply announcement_disciplined.
    - rewrite Ht. apply (aw_domain _ _ _ _ _ _ _ Ha).
    - apply (ex_domain _ _ _ _ He). }
  apply (ready_expecting k xv xt c c2 c' rt2 rv rt (LC.value_index d) (start k) (delta k)); try done.
  eapply arrivals_sound; [exact W2| |exact A2]. eapply announcement_disciplined.
  - rewrite Hv, (dr_ids _ _ _ _ _ _ _ R1). apply (aw_value _ _ _ _ _ _ _ Ha).
  - intros j. rewrite (dr_signo _ _ _ _ _ _ _ R1).
    intros [[_ Hq]|[_ Hj]]%lookup_insert_Some; [congruence|by apply (ex_value _ _ _ _ He)].
Qed.

Lemma round_delivers k xv xt p c x :
  agreeable k -> idle k p -> expecting k xv xt c -> Forall (publishable (Metadata.sample_size (mv k))) (heard x) ->
  let '(ok, p') := round k x p in
  ok = true /\ exists ms c' es, Publisher.sent p' = Publisher.sent p ++ ms /\
    arrivals to_uint64 ms c = (c', es, None) /\ delivered (signal xv) es = heard x /\
    idle k p' /\ expecting k xv xt c'.
Proof.
  destruct x as [ys xs]. cbn [heard]. intros Hk Hi0 He Hx. unfold round. cbn [heard unheard].
  destruct (publications_idle k ys p Hi0) as [Hi Hs0]. rewrite <- Hs0. clear Hi0 Hs0.
  revert Hi. generalize (publications k ys p). clear p ys. intros p Hi. pose proof (round_begins k xv xt p c Hk Hi He) as Hb.
  destruct (Publisher.subscribe (sid k) true p) as [ok p1]. destruct Hb as [-> Hb].
  destruct Hb as (ms1 & c1 & es1 & w & E1 & A1 & D1 & S1 & W1 & W2 & W3 & W4 & W5 & W6 & G1 & X1).
  rewrite <- W6 in Hx. destruct (publications_deliver to_uint64 w xs p1 c1 S1 Hx) as (ms2 & c2 & es2 & E2 & M2 & A2 & D2 & S2).
  rewrite (publications_publish k w xs p1 W1) in E2, S2.
  pose proof (publications_engaged k xs p1 Hk G1) as G2. pose proof (unsubscribe_idle k _ Hk G2) as Hidle.
  destruct (unsubscribe_sends k _ Hk G2) as (p3 & U & E3 & _). rewrite U in Hidle |- *. split; [done|].
  pose proof (expecting_data to_uint64 k xv xt c1 c2 ms2 es2 X1 M2 A2) as X2.
  destruct S2 as [(e & t & He2 & _ & _ & s & t' & F1 & _) (s2 & F2 & _) _ _ _].
  rewrite W2, W4 in F1. rewrite W3, W5 in F2.
  destruct (withdrawal_received to_uint64 k xv xt c2 Hk X2 (paired_other _ _ _ _ Hk G2) F1 F2) as (c3 & es3 & A3 & D3 & X3).
  exists (ms1 ++ ms2 ++ withdrawal k), c3, (es1 ++ es2 ++ es3). split; [by rewrite E3, E2, E1, <- !(assoc_L (++))|].
  unfold arrivals in *. rewrite !fmap_app, (session_app _ _ _ _ _ _ A1), (session_app _ _ _ _ _ _ A2), A3.
  split; [done|]. split; [|done]. by rewrite !delivered_app, D1, D3, app_nil_r, <- W4, D2.
Qed.
End Rounds.

(** Round after round, by induction. *)
Lemma rounds_deliver `{JL : JsonLib} to_uint64 k xv xt xss : forall p c,
  agreeable k -> idle k p -> expecting k xv xt c ->
  Forall (fun x => Forall (publishable (Metadata.sample_size (mv k))) (heard x)) xss ->
  let '(ok, p') := rounds k xss p in
  ok = true /\ exists ms c' es, Publisher.sent p' = Publisher.sent p ++ ms /\
    arrivals to_uint64 ms c = (c', es, None) /\ delivered (signal xv) es = concat (heard <$> xss) /\
    idle k p' /\ expecting k xv xt c'.
Proof.
  induction xss as [|xs xss IH]; intros p c Hk Hi He Hx; cbn [rounds].
  - split; [done|]. exists [], c, []. by rewrite app_nil_r.
  - apply Forall_cons in Hx as [Hx Hxs]. pose proof (round_delivers to_uint64 k xv xt p c xs Hk Hi He Hx) as Hr.
    destruct (round k xs p) as [ok1 p1]. destruct Hr as (-> & ms1 & c1 & es1 & E1 & A1 & D1 & I1 & X1).
    specialize (IH p1 c1 Hk I1 X1 Hxs). destruct (rounds k xss p1) as [ok2 p2].
    destruct IH as (-> & ms2 & c2 & es2 & E2 & A2 & D2 & I2 & X2). split; [done|].
    exists (ms1 ++ ms2), c2, (es1 ++ es2). split; [by rewrite E2, E1, <- (assoc_L (++))|].
    unfold arrivals in *. rewrite fmap_app, (session_app _ _ _ _ _ _ A1), A2. split; [done|]. split; [|done].
    cbn [fmap list_fmap concat]. by rewrite delivered_app, D1, D2.
Qed.

(** ** Properties *)

(** C2: a signal can be subscribed and given back any number of times.  The
    publishing side has an explicit signal and its linear domain, neither of
    them subscribed; the receiving side knows both.  In every round the
    subscription and its end are accepted, and when all that is sent is received
    no handler fails and the samples published while the signal was subscribed
    are delivered, round after round, in order and with the domain values they
    were published with, although the sample index and the domain's table go on
    from one round to the next.  What is published in between is not sent.  After the last round
    both sides are as ready as they were before the first one. *)
Theorem subscription_rounds `{JL : JsonLib} to_uint64 k xv xt xss : forall p c,
  agreeable k -> idle k p -> expecting k xv xt c ->
  Forall (fun x => Forall (publishable (Metadata.sample_size (mv k))) (heard x)) xss ->
  let '(ok, p') := rounds k xss p in
  ok = true /\ exists ms c' es, Publisher.sent p' = Publisher.sent p ++ ms /\
    arrivals to_uint64 ms c = (c', es, None) /\ delivered (signal xv) es = concat (heard <$> xss) /\
    idle k p' /\ expecting k xv xt c'.
Proof. exact (rounds_deliver to_uint64 k xv xt xss). Qed.

(** ** An instance *)

Section Witness.
#[local] Existing Instance jv_json.

Definition sample_terms : terms :=
  mk_terms "A" "D" 2 1 1 0 Subscriptions.value_metadata Subscriptions.domain_metadata 100 10 0.

Lemma sample_agreeable : agreeable sample_terms.
Proof. split; try (split_and!; by vm_compute); by vm_compute. Qed.

Lemma sample_idle : idle sample_terms Subscriptions.sample_publisher.
Proof.
  split.
  - apply Subscriptions.distinct_b_true. by vm_compute.
  - split; by vm_compute.
  - eexists. split; [by vm_compute|]. split_and!; by vm_compute.
  - eexists. split; [by vm_compute|]. split_and!; by vm_compute.
  - eexists. by vm_compute.
Qed.

Lemma sample_expecting : expecting sample_terms (mk_entry false 1) (mk_entry false 0) advertised_receiver.
Proof.
  assert (Hn : signals_by_signo advertised_receiver = ∅) by by vm_compute.
  split; [do 2 eexists; exact sample_awaiting| |]; intros j; by rewrite Hn, lookup_empty.
Qed.

Lemma subscription_rounds_witness :
  let xss := [mk_phase [(80, 2, [9; 0; 9; 0])] [(100, 2, [1; 0; 2; 0]); (120, 1, [3; 0])]; mk_phase [] [];
              mk_phase [(490, 1, [9])] [(500, 1, [4; 0]); (510, 1, [5; 0])]] in
  let '(ok, p) := rounds sample_terms xss Subscriptions.sample_publisher in
  ok = true /\ exists ms c es, Publisher.sent p = Publisher.sent Subscriptions.sample_publisher ++ ms /\
    arrivals Datatypes.id ms advertised_receiver = (c, es, None) /\ delivered 1 es = concat (heard <$> xss).
Proof.
  intros xss.
  assert (Hx : Forall (fun x => Forall (publishable (Metadata.sample_size (mv sample_terms))) (heard x)) xss)
    by (replace (Metadata.sample_size (mv sample_terms)) with 2 by (by vm_compute); by repeat constructor).
  pose proof (subscription_rounds Datatypes.id sample_terms (mk_entry false 1) (mk_entry false 0) xss
    Subscriptions.sample_publisher advertised_receiver sample_agreeable sample_idle sample_expecting Hx) as H.
  destruct (rounds sample_terms xss Subscriptions.sample_publisher) as [ok p]. destruct H as [H0 H].
  split; [exact H0|]. destruct H as (ms & c & es & H1 & H2 & H3 & _). exists ms, c, es.
  split; [exact H1|split; [exact H2|exact H3]].
Defined.
End Witness.
