(* ===== verification/CommandInterface.v ===== *)
(** * Clients of the command interface

    [src/detail/in_band_command_interface_client.cpp],
    [src/detail/http_command_interface_client.cpp],
    [src/detail/command_interface_client_factory.cpp] and
    [include/ws-streaming/json_rpc_exception.hpp].  A completion handler is a
    value of a type [H] and its invocation a [call].  An HTTP request is handed
    to an [http_client] object, named by a number; what that object reports is
    an argument of the completion. *)
From S2P Require Import Prelude Json OrderedMap BasePeer Peer Base64.

(** ** JSON-RPC errors *)

Record json_rpc_exception {J : Type} := mk_rpc_exception { code : Z; rpc_message : string; rpc_data : J }.
Arguments json_rpc_exception : clear implicits.
Arguments mk_rpc_exception {J}.

Definition code_parse_error : Z := -32700.
Definition code_invalid_request : Z := -32600.
Definition code_method_not_found : Z := -32601.
Definition code_invalid_params : Z := -32602.
Definition code_internal_error : Z := -32603.
Definition code_server_error : Z := -32000.

Section Rpc.
Context `{JL : JsonLib}.

Definition make_rpc_exception (c : Z) (m : string) : json_rpc_exception json := mk_rpc_exception c m jnull.

Definition rpc_json (e : json_rpc_exception json) : json :=
  let result := jobj [("code", jint (code e)); ("message", jstr (rpc_message e))] in
  if is_null (rpc_data e) then result else set_field result "data" (rpc_data e).
End Rpc.

Section CommandInterface.
Context `{JL : JsonLib} {H : Type}.

(** ** Completion handlers *)

Record call := mk_call { handler : H; error : error_code; response : json }.

(** The JSON-RPC request object both clients send. *)
Definition request_object (n : Z) (method : string) (params : json) : json :=
  jobj [("jsonrpc", jstr "2.0"); ("id", jint n); ("method", jstr method); ("params", params)].

(** ** in_band_command_interface_client *)

Record in_band_client := mk_in_band { next_id : Z; requests : gmap Z H }.

Definition make_in_band : in_band_client := mk_in_band 1 ∅.

(** [_requests.emplace] keeps an entry that exists. *)
Definition in_band_request (method : string) (params : json) (h : H) (c : in_band_client)
    : message * in_band_client :=
  let n := next_id c in
  (metadata_message 0 "request" (request_object n method params),
   mk_in_band (u32 (n + 1))
     (if requests c !! n is Some _ then requests c else <[n := h]> (requests c))).

Definition in_band_cancel (c : in_band_client) : list call * in_band_client :=
  ((fun h => mk_call h operation_aborted jnull) <$> (items (requests c)).*2, mk_in_band (next_id c) ∅).

(** The id of a response, converted to [unsigned]. *)
Definition response_id (params : json) : option Z :=
  if contains params "id" then
    if view (field params "id") is JInteger z then Some (u32 z) else None
  else None.

Definition handle_response (params : json) (c : in_band_client) : list call * in_band_client :=
  match response_id params with
  | None => ([], c)
  | Some n =>
      match requests c !! n with
      | None => ([], c)
      | Some h =>
          ([mk_call h success (field params "result")], mk_in_band (next_id c) (delete n (requests c)))
      end
  end.

(** ** http_command_interface_client *)

Record http_settings := mk_settings {
  hostname : string;
  port : string;
  http_method : string;
  http_path : string;
  http_version : string
}.

(** [clients] are the [http_client] objects with a request under way. *)
Record http_interface_client := mk_http_interface {
  settings : http_settings;
  http_next_id : Z;
  clients : gset nat;
  next_client : nat
}.

Definition make_http_interface (s : http_settings) : http_interface_client :=
  mk_http_interface s 1 ∅ 0.

(** The POST request given to an [http_client]. *)
Record post_request := mk_post { post_host : string; post_port : string; post_path : string; post_body : list Z }.

(** The id is used up even when the object cannot be written as text. *)
Definition http_request (method : string) (params : json) (c : http_interface_client)
    : result json_exception (nat * post_request) * http_interface_client :=
  let s := settings c in
  let n := http_next_id c in
  match dump (request_object n method params) with
  | Throw e => (Throw e, mk_http_interface s (u32 (n + 1)) (clients c) (next_client c))
  | Ok body =>
      let k := next_client c in
      (Ok (k, mk_post (hostname s) (port s) (http_path s) body),
       mk_http_interface s (u32 (n + 1)) ({[k]} ∪ clients c) (S k))
  end.

(** The handler [http_request] passes to the [http_client] [k]. *)
Definition http_complete (k : nat) (h : H) (ec : error_code) (status : Z) (body : list Z)
    (c : http_interface_client) : call * http_interface_client :=
  let c := mk_http_interface (settings c) (http_next_id c) (clients c ∖ {[k]}) (next_client c) in
  (if bool_decide (ec <> success) then mk_call h ec jnull
   else if (status <? 200) || (400 <=? status) then mk_call h bad_status jnull
   else mk_call h success (if parse body is Ok j then j else jnull), c).

(** Cancels every client, and reports which. *)
Definition http_cancel (c : http_interface_client) : gset nat * http_interface_client :=
  (clients c, mk_http_interface (settings c) (http_next_id c) ∅ (next_client c)).

(** ** The factory *)

Inductive command_interface_client : Type :=
| in_band (c : in_band_client)
| over_http (c : http_interface_client).

(** The members [jsonrpc-http] must have. *)
Definition valid_http (i : json) : bool :=
  is_object i
  && contains i "httpMethod" && is_string (field i "httpMethod")
  && contains i "httpPath" && is_string (field i "httpPath")
  && contains i "httpVersion" && is_string (field i "httpVersion")
  && contains i "port" && (is_string (field i "port") || is_number_integer (field i "port")).

(** A numeric port is not converted: [std::to_string] is applied to the type
    test [is_number_integer()], which is true. *)
Definition port_of (i : json) : string :=
  if is_number_integer (field i "port") then "1" else string_of (field i "port").

(** [address]: the remote endpoint of the peer's socket, if it has one. *)
Definition create_client (interfaces : json) (address : option string) : option command_interface_client :=
  if negb (is_object interfaces) then None
  else if contains interfaces "jsonrpc" then Some (in_band make_in_band)
  else
    let i := field interfaces "jsonrpc-http" in
    if contains interfaces "jsonrpc-http" && valid_http i then
      match address with
      | None => None
      | Some a =>
          Some (over_http (make_http_interface
            (mk_settings a (port_of i) (string_of (field i "httpMethod"))
               (string_of (field i "httpPath")) (string_of (field i "httpVersion")))))
      end
    else None.

(** ** Histories of an in-band client *)

Inductive operation : Type :=
| op_request (method : string) (params : json) (h : H)
| op_response (params : json)
| op_cancel.

Definition perform (o : operation) (c : in_band_client) : list call * in_band_client :=
  match o with
  | op_request m ps h => ([], (in_band_request m ps h c).2)
  | op_response ps => handle_response ps c
  | op_cancel => in_band_cancel c
  end.

Fixpoint performs (os : list operation) (c : in_band_client) : list call * in_band_client :=
  match os with
  | [] => ([], c)
  | o :: os =>
      let '(xs, c) := perform o c in
      let '(ys, c) := performs os c in
      (xs ++ ys, c)
  end.

(** The handlers handed over, in order. *)
Definition issued (os : list operation) : list H :=
  omap (fun o => if o is op_request _ _ h then Some h else None) os.

Definition pending (c : in_band_client) : list H := (items (requests c)).*2.

(** ** Lemmas *)

Lemma pending_perm c : pending c ≡ₚ (map_to_list (requests c)).*2.
Proof. unfold pending. by rewrite items_Permutation. Qed.

Lemma pending_insert n k h (m : gmap Z H) :
  m !! k = None -> pending (mk_in_band n (<[k := h]> m)) ≡ₚ h :: pending (mk_in_band n m).
Proof. intros Hk. rewrite !pending_perm. cbn [requests]. by rewrite map_to_list_insert. Qed.

Lemma pending_delete n n' k h (m : gmap Z H) :
  m !! k = Some h -> pending (mk_in_band n m) ≡ₚ h :: pending (mk_in_band n' (delete k m)).
Proof.
  intros Hk. rewrite !pending_perm. cbn [requests].
  by rewrite <- (map_to_list_delete m k h Hk).
Qed.

Lemma pending_empty n : pending (mk_in_band n ∅) = [].
Proof. unfold pending. cbn [requests]. by rewrite items_empty. Qed.

Lemma calls_of_cancel c : handler <$> (in_band_cancel c).1 = pending c.
Proof.
  unfold in_band_cancel, pending. cbn. rewrite <- list_fmap_compose.
  by rewrite list_fmap_id.
Qed.

(** [c] is the state after the handlers [hs] were handed over and the calls
    [xs] made: ids are positions, and every handler is called or pending. *)
Record tracks (hs : list H) (xs : list call) (c : in_band_client) : Prop := {
  tracks_next : next_id c = u32 (1 + Z.of_nat (length hs));
  tracks_ids : forall k h, requests c !! k = Some h ->
    1 <= k <= Z.of_nat (length hs) /\ hs !! Z.to_nat (k - 1) = Some h;
  tracks_all : (handler <$> xs) ++ pending c ≡ₚ hs
}.

Lemma tracks_fresh : tracks [] [] make_in_band.
Proof.
  split; [done|by intros ??; cbn; rewrite lookup_empty|].
  unfold make_in_band. by rewrite pending_empty.
Qed.

Lemma tracks_request hs xs c m ps h :
  tracks hs xs c -> Z.of_nat (length hs) + 1 < 2 ^ 32 ->
  tracks (hs ++ [h]) xs (in_band_request m ps h c).2.
Proof.
  intros [Hn Hid Hall] Hlt. destruct c as [n reqs]. cbn in *.
  assert (Hn' : n = 1 + Z.of_nat (length hs)) by (rewrite Hn; apply wrap_small; unfold in_u; lia).
  assert (Hfree : reqs !! n = None).
  { apply eq_None_not_Some. intros [x Hx]. apply Hid in Hx. lia. }
  rewrite Hfree. split; cbn [requests next_id].
  - rewrite Hn', length_app. cbn. f_equal. lia.
  - intros k x. rewrite lookup_insert_Some, length_app. cbn. intros [[<- <-]|[_ Hx]].
    + split; [lia|]. rewrite Hn'. replace (Z.to_nat _) with (length hs) by lia.
      by rewrite lookup_app_r, Nat.sub_diag.
    + destruct (Hid _ _ Hx) as [? Hl]. split; [lia|]. by apply lookup_app_l_Some.
  - rewrite pending_insert by done. rewrite <- Permutation_middle, <- Permutation_cons_append.
    f_equiv. exact Hall.
Qed.

Lemma tracks_response hs xs c ps :
  tracks hs xs c -> tracks hs (xs ++ (handle_response ps c).1) (handle_response ps c).2.
Proof.
  intros [Hn Hid Hall]. destruct c as [n reqs]. unfold handle_response. cbn in *.
  destruct (response_id ps) as [k|]; [|split; by rewrite ?app_nil_r].
  destruct (reqs !! k) as [h|] eqn:E; [|split; by rewrite ?app_nil_r]. split; cbn.
  - done.
  - intros k' x [_ Hx]%lookup_delete_Some. by apply Hid.
  - rewrite fmap_app, <- app_assoc. cbn. by rewrite <- (pending_delete n).
Qed.

Lemma tracks_cancel hs xs c :
  tracks hs xs c -> tracks hs (xs ++ (in_band_cancel c).1) (in_band_cancel c).2.
Proof.
  intros [Hn Hid Hall]. split; cbn [in_band_cancel snd requests next_id]; [done| |].
  - by intros ??; rewrite lookup_empty.
  - rewrite fmap_app, calls_of_cancel, pending_empty, app_nil_r. done.
Qed.

Lemma tracks_performs os : forall hs xs c,
  tracks hs xs c -> Z.of_nat (length hs + length (issued os)) < 2 ^ 32 ->
  tracks (hs ++ issued os) (xs ++ (performs os c).1) (performs os c).2.
Proof.
  induction os as [|o os IH]; intros hs xs c Ht Hlt; cbn [performs].
  { cbn. by rewrite !app_nil_r. }
  destruct (perform o c) as [ys c'] eqn:E. destruct (performs os c') as [zs c''] eqn:E'. cbn [fst snd].
  assert (Hstep : tracks (hs ++ issued [o]) (xs ++ ys) c').
  { destruct o as [m ps h|ps|]; cbn [issued omap list_omap perform] in *.
    - injection E as <- <-. rewrite app_nil_r. apply (tracks_request hs xs c m ps h); [done|].
      cbn [issued omap list_omap length] in Hlt. lia.
    - rewrite app_nil_r. replace ys with (handle_response ps c).1 by by rewrite E.
      replace c' with (handle_response ps c).2 by by rewrite E. by apply tracks_response.
    - rewrite app_nil_r. injection E as <- <-. by apply tracks_cancel. }
  replace (issued (o :: os)) with (issued [o] ++ issued os) in * by by destruct o.
  rewrite length_app in Hlt. specialize (IH _ _ _ Hstep). rewrite E' in IH. cbn [fst snd] in IH.
  rewrite (assoc_L (++)), (assoc_L (++)). apply IH. rewrite length_app. lia.
Qed.

(** ** Properties *)

(** C16: a completion handler handed to the in-band client is called exactly
    once or is still waiting: whatever responses arrive, in whatever order and
    however often, and whatever is cancelled, the handlers called and those
    pending are together the handlers handed over, no more and no fewer.  A
    response with the id of the [n]th request (counting from one) reaches the
    [n]th handler if it is still waiting and is otherwise ignored, and after
    [cancel] every handler has been called.  The ids are 32 bits wide, and the
    history may contain fewer than 2^32 requests. *)
Theorem in_band_handlers_called_once os :
  Z.of_nat (length (issued os)) < 2 ^ 32 ->
  let '(xs, c) := performs os make_in_band in
  (handler <$> xs) ++ pending c ≡ₚ issued os /\
  (forall n h r, requests c !! n = Some h ->
     issued os !! Z.to_nat (n - 1) = Some h /\
     handle_response (jobj [("id", jint n); ("result", r)]) c =
       ([mk_call h success r], mk_in_band (next_id c) (delete n (requests c)))) /\
  (forall params, response_id params ≫= (fun n => requests c !! n) = None ->
     handle_response params c = ([], c)) /\
  (handler <$> xs ++ (in_band_cancel c).1) ≡ₚ issued os.
Proof.
  intros Hlt. pose proof (tracks_performs os [] [] _ tracks_fresh Hlt) as Ht.
  destruct (performs os make_in_band) as [xs c]. cbn [app fst snd] in Ht.
  destruct Ht as [Hn Hid Hall]. split; [done|]. split; [|split].
  - intros n h r Hh. destruct (Hid _ _ Hh) as [Hr Hl]. split; [done|].
    unfold handle_response, response_id. rewrite contains_jobj. unfold field.
    rewrite members_jobj. simplify_map_eq.
    rewrite view_jint, wrap_small by (unfold in_u; lia). by rewrite Hh.
  - intros ps Hps. unfold handle_response. destruct (response_id ps) as [n|]; [|done].
    cbn in Hps. by rewrite Hps.
  - by rewrite fmap_app, calls_of_cancel.
Qed.

(** A command interface that a peer offers over HTTP on a numeric port is
    never used on that port: the client the factory makes connects to port 1,
    whatever number the peer gave. *)
Theorem numeric_http_port_is_one z m p v a :
  create_client (jobj [("jsonrpc-http",
    jobj [("httpMethod", jstr m); ("httpPath", jstr p); ("httpVersion", jstr v); ("port", jint z)])])
    (Some a) =
  Some (over_http (make_http_interface (mk_settings a "1" m p v))).
Proof.
  unfold create_client, valid_http, port_of, field. rewrite is_object_jobj, !contains_jobj, members_jobj.
  cbn [negb list_to_map foldr fst snd]. simplify_map_eq. rewrite is_object_jobj, !contains_jobj, members_jobj.
  cbn [list_to_map foldr fst snd]. simplify_map_eq. rewrite !is_string_jstr, !string_of_jstr.
  unfold is_string, is_number_integer. by rewrite view_jint.
Qed.

End CommandInterface.

Lemma in_band_handlers_called_once_witness :
  let os := [@op_request jv_json nat "a" (@jnull jv_json) 7%nat; @op_request jv_json nat "b" (@jnull jv_json) 8%nat;
             @op_response jv_json nat (@jobj jv_json [("id", @jint jv_json 2)])] in
  (handler <$> (performs os make_in_band).1) = [8%nat] /\
  (handler <$> (performs os make_in_band).1) ++ pending (performs os make_in_band).2 ≡ₚ issued os.
Proof.
  intros os. split; [by vm_compute|].
  assert (Hl : Z.of_nat (length (issued os)) < 2 ^ 32) by (by vm_compute).
  pose proof (@in_band_handlers_called_once jv_json nat os Hl) as Hw.
  destruct (performs os make_in_band) as [xs c]. apply Hw.
Defined.
