(* ===== verification/Connection.v ===== *)
(** * Connections

    The rest of [src/connection.cpp]: the object that joins the publishing side
    ([Publisher]), the receiving side ([Receiver]) and the client of the peer's
    command interface ([CommandInterface]): construction, the hello exchange,
    the dispatch of what the peer object signals, command interface requests
    and responses, the subscription requests of remote signals, and closing.
    What is handed to the peer object is [sent] of the publishing side; what is
    raised towards the application is a list of events.  The handlers the
    connection passes to its command interface client do nothing, so their type
    is [unit]. *)
From S2P Require Import Prelude Json OrderedMap.
From S2P Require Semver BasePeer RemoteSignal LocalSignal LocalSignalContainer.
From S2P Require Import Peer RemoteSignalContainer Receiver CommandInterface Publisher.
From Stdlib Require Import Ascii.

(** What a connection raises or starts. *)
Inductive connection_event : Type :=
| noticed (n : notice)
| posted (client : nat) (request : post_request)
| on_disconnected (ec : BasePeer.error_code).

(** An exception, or the use of an erased entry, that leaves a handler. *)
Inductive connection_failure : Type :=
| receiver_failure (f : failure)
| json_failure (e : json_exception).

Section Connection.
Context `{JL : JsonLib}.
Context (to_uint64 : Z -> Z).

(** [address] is the remote endpoint of the socket, if it has one. *)
Record connection := mk_connection {
  is_client : bool;
  local_stream_id : string;
  address : option string;
  remote_stream_id : string;
  api_version : Semver.semver;
  command_interfaces : json;
  interface : option (command_interface_client (H := unit));
  attached : bool;
  publishing : publisher;
  remote : container
}.

Definition outcome : Type := connection * list connection_event * option connection_failure.

Definition quiet (c : connection) : outcome := (c, [], None).

(** ** Assignments to members *)

Definition set_remote_stream_id (s : string) (c : connection) : connection :=
  mk_connection (is_client c) (local_stream_id c) (address c) s (api_version c)
    (command_interfaces c) (interface c) (attached c) (publishing c) (remote c).

Definition set_api_version (v : Semver.semver) (c : connection) : connection :=
  mk_connection (is_client c) (local_stream_id c) (address c) (remote_stream_id c) v
    (command_interfaces c) (interface c) (attached c) (publishing c) (remote c).

Definition set_interface (i : option command_interface_client) (c : connection) : connection :=
  mk_connection (is_client c) (local_stream_id c) (address c) (remote_stream_id c) (api_version c)
    (command_interfaces c) i (attached c) (publishing c) (remote c).

Definition set_attached (b : bool) (c : connection) : connection :=
  mk_connection (is_client c) (local_stream_id c) (address c) (remote_stream_id c) (api_version c)
    (command_interfaces c) (interface c) b (publishing c) (remote c).

Definition set_publishing (p : publisher) (c : connection) : connection :=
  mk_connection (is_client c) (local_stream_id c) (address c) (remote_stream_id c) (api_version c)
    (command_interfaces c) (interface c) (attached c) p (remote c).

Definition set_remote (r : container) (c : connection) : connection :=
  mk_connection (is_client c) (local_stream_id c) (address c) (remote_stream_id c) (api_version c)
    (command_interfaces c) (interface c) (attached c) (publishing c) r.

(** [_peer->send_metadata] *)
Definition send_metadata (n : Z) (method : string) (params : json) (c : connection) : connection :=
  set_publishing (send (metadata_message n method params) (publishing c)) c.

(** ** Construction *)

(** [signals]: the application's local signals. *)
Definition make (client : bool) (stream_id : string) (addr : option string)
    (signals : gmap nat LocalSignal.local_signal) : connection :=
  mk_connection client stream_id addr "" Semver.default_semver
    (set_field (jobj []) "jsonrpc" (jobj [("httpMethod", jstr "")])) None false
    (mk_publisher (LocalSignalContainer.fresh_locals signals) false []) empty_container.

Definition register_external_command_interface (k : string) (params : json) (c : connection) : connection :=
  mk_connection (is_client c) (local_stream_id c) (address c) (remote_stream_id c) (api_version c)
    (set_field (command_interfaces c) k params) (interface c) (attached c) (publishing c) (remote c).

Definition add_local_signal (a : nat) (c : connection) : connection :=
  set_publishing (Publisher.add_local_signal a (publishing c)) c.

Definition remove_local_signal (a : nat) (c : connection) : connection :=
  set_publishing (Publisher.remove_local_signal a (publishing c)) c.

(** ** Hello *)

Definition do_hello (c : connection) : connection :=
  let c := send_metadata 0 "apiVersion" (jobj [("version", jstr "2.0.0")]) c in
  let c := send_metadata 0 "init"
             (jobj [("streamId", jstr (local_stream_id c));
                    ("commandInterfaces", command_interfaces c)]) c in
  set_publishing (advertise (publishing c)) c.

(** [run()]: the slots are connected, the peer object is started, and a server
    speaks first. *)
Definition run (c : connection) : connection :=
  let c := set_attached true c in
  if is_client c then c else do_hello c.

(** ** Messages about the connection itself *)

Definition string_member (params : json) (k : string) : option string :=
  if contains params k && is_string (field params k) then Some (string_of (field params k)) else None.

Definition handle_api_version (params : json) (c : connection) : connection :=
  if is_object params then
    match string_member params "version" with
    | Some s =>
        set_api_version
          (value_or (Semver.try_parse (String.list_ascii_of_string s)) Semver.default_semver) c
    | None => c
    end
  else c.

Definition handle_init (params : json) (c : connection) : connection :=
  if negb (is_object params) then c
  else
    let c := if string_member params "streamId" is Some s then set_remote_stream_id s c else c in
    let c :=
      if contains params "commandInterfaces"
      then set_interface (create_client (field params "commandInterfaces") (address c)) c
      else c in
    if is_client c && Semver.geb (api_version c) (Semver.mk_semver 2 0 0) then do_hello c else c.

(** ** Command interface requests and responses *)

Definition subscribe_failed : string := "failed to subscribe signal".
Definition unsubscribe_failed : string := "failed to unsubscribe signal".

(** The exception behind an error of the publishing side. *)
Definition rpc_exception (stream_id method : string) (e : rpc_error) : json_rpc_exception json :=
  match e with
  | server_error =>
      make_rpc_exception code_server_error
        (if bool_decide (method = String.append stream_id ".subscribe")
         then subscribe_failed else unsubscribe_failed)
  | invalid_params =>
      make_rpc_exception code_invalid_params "params must be a signal ID or an array of signal IDs"
  | method_not_found => make_rpc_exception code_method_not_found "method not found"
  | invalid_request => make_rpc_exception code_invalid_request "invalid request object"
  end.

(** The result, or the error, of a request. *)
Definition execute_request (params : json) (c : connection)
    : result (json_rpc_exception json) json * connection :=
  match (if is_object params then string_member params "method" else None) with
  | None => (Throw (rpc_exception (local_stream_id c) "" invalid_request), c)
  | Some method =>
      match do_command_interface (local_stream_id c) method (field params "params") (publishing c) with
      | (Ok j, p) => (Ok j, set_publishing p c)
      | (Throw e, p) => (Throw (rpc_exception (local_stream_id c) method e), set_publishing p c)
      end
  end.

Definition response_params (request_id : json) (r : result (json_rpc_exception json) json) : json :=
  let base := jobj [("jsonrpc", jstr "2.0"); ("id", request_id)] in
  match r with
  | Throw e => set_field base "error" (rpc_json e)
  | Ok j => set_field base "result" j
  end.

(** [params.value("id", nullptr)] is evaluated outside the [try] block. *)
Definition handle_command_interface_request (params : json) (c : connection) : outcome :=
  let '(r, c) := execute_request params c in
  match value_of params "id" with
  | Throw e => (c, [], Some (json_failure e))
  | Ok request_id => quiet (send_metadata 0 "response" (response_params request_id r) c)
  end.

Definition handle_command_interface_response (params : json) (c : connection) : connection :=
  match interface c with
  | Some (in_band i) => set_interface (Some (in_band (handle_response params i).2)) c
  | _ => c
  end.

(** ** Dispatch *)

Definition lift (o : Receiver.outcome) (c : connection) : outcome :=
  let '(r, es, err) := o in (set_remote r c, noticed <$> es, receiver_failure <$> err).

Definition on_peer_metadata_received (n : Z) (method : string) (params : json) (c : connection)
    : outcome :=
  if bool_decide (method = "subscribe") then lift (handle_subscribe to_uint64 n params (remote c)) c
  else if bool_decide (method = "unsubscribe")
  then lift (handle_unsubscribe to_uint64 n params (remote c)) c
  else if negb (n =? 0) then lift (dispatch_metadata to_uint64 n method params (remote c)) c
  else if bool_decide (method = "apiVersion") then quiet (handle_api_version params c)
  else if bool_decide (method = "init") then quiet (handle_init params c)
  else if bool_decide (method = "available") then lift (handle_available params (remote c)) c
  else if bool_decide (method = "unavailable") then lift (handle_unavailable params (remote c)) c
  else if bool_decide (method = "request") then handle_command_interface_request params c
  else if bool_decide (method = "response") then quiet (handle_command_interface_response params c)
  else quiet c.

(** ** Closing *)

Definition on_peer_closed (ec : BasePeer.error_code) (c : connection) : outcome :=
  let c := set_attached false c in
  let '(r, es) := clear (remote c) in
  let c := set_remote r c in
  let p := publishing c in
  let c := set_publishing (with_locals (LocalSignalContainer.clear_local_signals (locals p)) p) c in
  (c, (noticed <$> es) ++ [on_disconnected ec], None).

(** A signal of the peer object, if the slots are connected. *)
Definition on_peer_signal (x : BasePeer.signal) (c : connection) : outcome :=
  if attached c then
    match x with
    | BasePeer.on_data_received n data => lift (on_peer_data_received n data (remote c)) c
    | BasePeer.on_metadata_received n method params => on_peer_metadata_received n method params c
    | BasePeer.on_closed ec => on_peer_closed ec c
    end
  else quiet c.

(** Signals in order, until one fails. *)
Fixpoint on_peer_signals (xs : list BasePeer.signal) (c : connection) : outcome :=
  match xs with
  | [] => quiet c
  | x :: xs =>
      match on_peer_signal x c with
      | (c, es, None) => let '(c, es', err) := on_peer_signals xs c in (c, es ++ es', err)
      | o => o
      end
  end.

(** ** Requests of remote signals *)

(** The request an application's first subscription of a remote signal, or its
    last unsubscription, sends to the peer; nothing without a client.  Written
    over HTTP, the request object may not be representable. *)
Definition request_command (suffix sid : string) (c : connection) : outcome :=
  let method := String.append (remote_stream_id c) suffix in
  let params := jarr [jstr sid] in
  match interface c with
  | None => quiet c
  | Some (in_band i) =>
      let '(m, i) := in_band_request method params tt i in
      quiet (set_interface (Some (in_band i)) (set_publishing (send m (publishing c)) c))
  | Some (over_http h) =>
      let '(r, h) := http_request method params h in
      let c := set_interface (Some (over_http h)) c in
      match r with
      | Ok (k, req) => (c, [posted k req], None)
      | Throw e => (c, [], Some (json_failure e))
      end
  end.

Definition on_signal_subscribe_requested : string -> connection -> outcome := request_command ".subscribe".
Definition on_signal_unsubscribe_requested : string -> connection -> outcome :=
  request_command ".unsubscribe".

(** The slots of the signal at [p] are connected while its entry exists. *)
Definition react (p : nat) (e : RemoteSignal.event) (c : connection) : outcome :=
  match entry_at p (remote c), e with
  | Some (sid, _), RemoteSignal.on_subscribe_requested _ => on_signal_subscribe_requested sid c
  | Some (sid, _), RemoteSignal.on_unsubscribe_requested _ => on_signal_unsubscribe_requested sid c
  | _, _ => quiet c
  end.

(** The application calls [subscribe] or [unsubscribe] of the remote signal at
    [p]; at most one event is raised. *)
Definition call_signal
    (f : RemoteSignal.remote_signal -> RemoteSignal.remote_signal * list RemoteSignal.event)
    (p : nat) (c : connection) : outcome :=
  let '(h, es) := RemoteSignal.on_signal f [] p (store (remote c)) in
  let c := set_remote (set_store h (remote c)) c in
  if es is e :: _ then react p e c else quiet c.

Definition subscribe_remote (p : nat) : connection -> outcome := call_signal (RemoteSignal.subscribe p) p.
Definition unsubscribe_remote (p : nat) : connection -> outcome := call_signal (RemoteSignal.unsubscribe p) p.

(** ** Lemmas on dispatch *)

Definition is_disconnection (e : connection_event) : bool := if e is on_disconnected _ then true else false.

(** Events without a disconnection. *)
Definition still_up (es : list connection_event) : Prop := Forall (fun e => is_disconnection e = false) es.

Lemma still_up_noticed es : still_up (noticed <$> es).
Proof. apply Forall_fmap, Forall_true. done. Qed.

Lemma lift_attached o c : let '(c', es, _) := lift o c in attached c' = attached c /\ still_up es.
Proof. destruct o as [[r es] err]. cbn. split; [done|apply still_up_noticed]. Qed.

Lemma handle_init_attached params c : attached (handle_init params c) = attached c.
Proof.
  unfold handle_init. destruct (negb _); [done|].
  destruct (string_member _ _), (contains _ _); cbn zeta; by case_match.
Qed.

Lemma handle_request_attached params c :
  let '(c', es, _) := handle_command_interface_request params c in attached c' = attached c /\ still_up es.
Proof.
  unfold handle_command_interface_request, execute_request.
  destruct (if is_object params then _ else _) as [m|];
    [destruct (do_command_interface _ _ _ _) as [[]]|]; destruct (value_of params "id"); by repeat constructor.
Qed.

Lemma on_metadata_attached n method params c :
  let '(c', es, _) := on_peer_metadata_received n method params c in attached c' = attached c /\ still_up es.
Proof.
  unfold on_peer_metadata_received, quiet.
  repeat (destruct (bool_decide _) || destruct (negb _));
    first [apply lift_attached|apply handle_request_attached|split; [|constructor]].
  - unfold handle_api_version. by repeat case_match.
  - apply handle_init_attached.
  - unfold handle_command_interface_response. by repeat case_match.
  - done.
Qed.

(** ** Lemmas on closing *)

Lemma detach_all_maps ps : forall r,
  signals_by_id (detach_all ps r).1 = signals_by_id r /\ signals_by_signo (detach_all ps r).1 = signals_by_signo r.
Proof.
  induction ps as [|p ps IH]; intros r; cbn; [done|].
  unfold detach_signal. destruct (RemoteSignal.on_signal _ _ _ _) as [h es].
  specialize (IH (set_store h r)). by destruct (detach_all ps _).
Qed.

Lemma clear_empty r : signals_by_id (clear r).1 = ∅ /\ signals_by_signo (clear r).1 = ∅.
Proof.
  unfold clear, clear_remote_signals.
  pose proof (detach_all_maps (signal <$> (items (signals_by_id r)).*2) (mk_container (store r) ∅ ∅)) as Hd.
  by destruct (detach_all _ _).
Qed.

Lemma close_holder_dom n (l : LocalSignalContainer.local_state) :
  dom (LocalSignalContainer.registered (LocalSignalContainer.close_entry_holder n l))
  = dom (LocalSignalContainer.registered l).
Proof.
  unfold LocalSignalContainer.close_entry_holder. repeat case_match; cbn; by rewrite ?dom_alter_L.
Qed.

Lemma erase_entry_dom n (l : LocalSignalContainer.local_state) :
  dom (LocalSignalContainer.registered (LocalSignalContainer.erase_entry n l))
  = dom (LocalSignalContainer.registered l) ∖ {[n]}.
Proof.
  unfold LocalSignalContainer.erase_entry. case_match eqn:E; cbn.
  - by rewrite dom_delete_L, close_holder_dom.
  - apply not_elem_of_dom in E. set_solver.
Qed.

Lemma erase_all_dom ns : forall l : LocalSignalContainer.local_state,
  dom (LocalSignalContainer.registered (fold_left (fun l n => LocalSignalContainer.erase_entry n l) ns l))
  = dom (LocalSignalContainer.registered l) ∖ list_to_set ns.
Proof. induction ns as [|n ns IH]; intros l; cbn; [set_solver|]. rewrite IH, erase_entry_dom. set_solver. Qed.

Lemma quiet_all_dom ns : forall l : LocalSignalContainer.local_state,
  dom (LocalSignalContainer.registered (fold_left (fun l n => LocalSignalContainer.close_entry_holder n
    (LocalSignalContainer.update_entry (LocalSignalContainer.set_connected false) n l)) ns l))
  = dom (LocalSignalContainer.registered l).
Proof.
  induction ns as [|n ns IH]; intros l; cbn; [done|]. rewrite IH, close_holder_dom. cbn. by rewrite dom_alter_L.
Qed.

Lemma clear_local_empty (l : LocalSignalContainer.local_state) :
  LocalSignalContainer.registered (LocalSignalContainer.clear_local_signals l) = ∅.
Proof.
  apply dom_empty_inv_L. unfold LocalSignalContainer.clear_local_signals.
  rewrite erase_all_dom, quiet_all_dom. apply set_eq. intros n. split; [|set_solver].
  intros [[e He]%elem_of_dom Hn]%elem_of_difference. destruct Hn.
  apply elem_of_list_to_set, list_elem_of_fmap. exists (n, e). split; [done|]. by apply elem_of_items.
Qed.

(** What closing leaves behind. *)
Definition cleared (c : connection) : Prop :=
  attached c = false /\ signals_by_id (remote c) = ∅ /\ signals_by_signo (remote c) = ∅ /\
  LocalSignalContainer.registered (locals (publishing c)) = ∅.

Lemma on_peer_closed_clears ec c :
  exists c' es, on_peer_closed ec c = (c', es ++ [on_disconnected ec], None) /\ still_up es /\ cleared c'.
Proof.
  unfold on_peer_closed. cbn [remote set_attached]. pose proof (clear_empty (remote c)) as [H1 H2].
  destruct (clear (remote c)) as [r es]. eexists _, _. split; [done|]. split; [apply still_up_noticed|].
  cbn in *. repeat split; try done. apply clear_local_empty.
Qed.

Lemma on_peer_signals_detached xs c : attached c = false -> on_peer_signals xs c = quiet c.
Proof.
  intros Hc. induction xs as [|x xs IH]; cbn; [done|]. unfold on_peer_signal. by rewrite Hc; cbn; rewrite IH.
Qed.

(** Either still attached, or disconnected by the last event. *)
Definition ends_once (o : outcome) : Prop :=
  let '(c, es, err) := o in
  (attached c = true /\ still_up es) \/
  (exists es' ec, es = es' ++ [on_disconnected ec] /\ still_up es' /\ err = None /\ cleared c).

Lemma ends_once_after es c es' err :
  still_up es -> ends_once (c, es', err) -> ends_once (c, es ++ es', err).
Proof.
  intros Hes [[? ?]|(es1 & ec & -> & ? & ? & ?)]; [left|right].
  - split; [done|by apply Forall_app].
  - exists (es ++ es1), ec. rewrite (assoc_L (++)). split; [done|]. split; [by apply Forall_app|done].
Qed.

Lemma on_peer_signal_ends x c : attached c = true -> ends_once (on_peer_signal x c).
Proof.
  intros Hc. unfold on_peer_signal. rewrite Hc. destruct x as [n data|n method params|ec].
  - pose proof (lift_attached (on_peer_data_received n data (remote c)) c) as Ho.
    destruct (lift _ _) as [[c1 es1] err]. left. by rewrite <- Hc.
  - pose proof (on_metadata_attached n method params c) as Ho.
    destruct (on_peer_metadata_received _ _ _ _) as [[c1 es1] err]. left. by rewrite <- Hc.
  - destruct (on_peer_closed_clears ec c) as (c' & es & -> & ? & ?). right. by exists es, ec.
Qed.

(** ** Properties *)

(** C17: a connection reports its end exactly once, and last: whatever the peer
    object signals, in whatever order, either the connection is still attached
    and has not reported a disconnection, or the disconnection is the last
    event it raised, no other event follows however much is still signalled,
    and every remote signal and every local registration is gone. *)
Theorem disconnection_reported_once xs c :
  attached c = true ->
  let '(c', es, err) := on_peer_signals xs c in
  (attached c' = true /\ still_up es) \/
  (exists es' ec, es = es' ++ [on_disconnected ec] /\ still_up es' /\ err = None /\ cleared c').
Proof.
  intros Hc. change (ends_once (on_peer_signals xs c)). revert c Hc.
  induction xs as [|x xs IH]; intros c Hc; cbn [on_peer_signals]; [by repeat constructor|].
  pose proof (on_peer_signal_ends x c Hc) as Ho.
  destruct (on_peer_signal x c) as [[c1 es1] [err|]]; [done|].
  destruct Ho as [[Ha Hu]|(es' & ec & -> & Hu & _ & Hcl)].
  - specialize (IH c1 Ha). destruct (on_peer_signals xs c1) as [[c2 es2] err2]. by apply ends_once_after.
  - rewrite on_peer_signals_detached by apply Hcl. cbn. rewrite app_nil_r. right. by exists es', ec.
Qed.

(** Every request object of the command interface is answered exactly once:
    the peer gets what the request itself gives rise to, and then one response
    that carries the id of the request and either a result or an error. *)
Theorem requests_are_answered params c :
  is_object params = true ->
  let '(r, c1) := execute_request params c in
  handle_command_interface_request params c =
    quiet (set_publishing (send (metadata_message 0 "response" (response_params (field params "id") r))
                             (publishing c1)) c1) /\
  field (response_params (field params "id") r) "id" = field params "id" /\
  match r with
  | Ok j => field (response_params (field params "id") r) "result" = j /\
            contains (response_params (field params "id") r) "error" = false
  | Throw e => field (response_params (field params "id") r) "error" = rpc_json e /\
               contains (response_params (field params "id") r) "result" = false
  end.
Proof.
  intros Hp. unfold handle_command_interface_request. destruct (execute_request params c) as [r c1].
  unfold value_of. rewrite Hp. split; [done|]. unfold response_params.
  destruct r; rewrite field_set_eq, field_set_ne, contains_set_ne, contains_jobj by done;
    unfold field; rewrite members_jobj; by simplify_map_eq.
Qed.

(** A request that is not a JSON object is not answered: the error response
    is prepared, but reading the id of the request throws a type error which no
    handler catches.  A message with the method [request] and no parameters is
    enough. *)
Theorem malformed_request_escapes params c :
  is_object params = false ->
  on_peer_metadata_received 0 "request" params c = (c, [], Some (json_failure type_error)).
Proof.
  intros Hp. unfold on_peer_metadata_received. cbn.
  unfold handle_command_interface_request, execute_request, value_of. by rewrite Hp.
Qed.

End Connection.

#[local] Existing Instance jv_json.

Lemma disconnection_reported_once_witness :
  let c := run (make false "s" None ∅) in
  let xs := [BasePeer.on_metadata_received 0 "available" (jarr [jstr "a"]);
             BasePeer.on_closed BasePeer.success; BasePeer.on_closed BasePeer.timeout] in
  attached c = true /\
  let '(c', es, err) := on_peer_signals Datatypes.id xs c in
  (attached c' = true /\ still_up es) \/
  (exists es' ec, es = es' ++ [on_disconnected ec] /\ still_up es' /\ err = None /\ cleared c').
Proof.
  intros c xs. split; [done|].
  apply (disconnection_reported_once Datatypes.id xs c). done.
Defined.

Lemma requests_are_answered_witness :
  let params := jobj [("id", jint 5); ("method", jstr "s.subscribe"); ("params", jstr "a")] in
  let c := make false "s" None ∅ in
  is_object params = true /\
  field (response_params (field params "id") (execute_request params c).1) "id" = field params "id".
Proof.
  intros params c. split; [done|].
  pose proof (requests_are_answered params c) as Hw.
  destruct (execute_request params c) as [r c1]. by apply Hw.
Defined.

Lemma malformed_request_escapes_witness :
  is_object brace_null = false /\
  on_peer_metadata_received Datatypes.id 0 "request" brace_null (make false "s" None ∅)
  = (make false "s" None ∅, [], Some (json_failure type_error)).
Proof.
  split; [done|]. by apply (malformed_request_escapes Datatypes.id brace_null (make false "s" None ∅)).
Defined.
