(* ===== verification/FullStack.v ===== *)
(** * Two connections over one byte stream

    The whole way of published data: an application publishes, the connection
    hands messages to its peer object ([Peer], the plaintext transport), whose
    socket takes the encoded bytes as it can; the peer object of the other side
    (of any transport) reads them in pieces, and its connection passes what it
    signals to the application there.  Either side may fail at any moment.
    [step] is one event; nothing a receiving connection does here makes it send,
    so the other direction of the stream is left out. *)
From S2P Require Import Prelude Json Metadata OrderedMap LinearTable.
From S2P Require BasePeer Peer Publisher LocalSignalContainer.
Module BP := BasePeer.
From S2P Require Import RemoteSignal RemoteSignalContainer Receiver EndToEnd Connection.
#[local] Existing Instances Peer.peer_transport Peer.peer_sender.

(** A connection with its peer object and what it has raised. *)
Record endpoint `{JL : JsonLib} (T : Type) := mk_endpoint {
  conn : connection;
  object : BP.base_peer * T;
  seen : list connection_event
}.
Arguments mk_endpoint {JL T}.
Arguments conn {JL T}.
Arguments object {JL T}.
Arguments seen {JL T}.

Section FullStack.
Context `{JL : JsonLib}.
Context (to_uint64 : Z -> Z).
Context {S : Type} `{SS : !Peer.Socket S} `{BC : Peer.DB.BufferCopy}.
Context {T : Type} `{TT : !BP.Transport T} `{CT : !BP.ControlSender T}.

(** The end that publishes, the end that receives, and how many bytes of the
    stream the latter has read. *)
Record link := mk_link {
  near : endpoint (Peer.peer_state S);
  far : endpoint T;
  consumed : nat
}.

Definition is_open {U} (e : endpoint U) : bool := negb (BP.is_closed (object e).1).

(** What the peer object has raised since goes to the slots of the connection;
    [None] if an exception leaves a handler. *)
Definition notify {U} (p : BP.base_peer * U) (e : endpoint U) : option (endpoint U) :=
  match on_peer_signals to_uint64 (drop (length (BP.raised (object e).1)) (BP.raised p.1)) (conn e) with
  | (c, es, None) => Some (mk_endpoint c p (seen e ++ es))
  | _ => None
  end.

(** The connection becomes [c], and the messages this adds to the sent ones are
    passed to the peer object. *)
Definition transmit (c : connection) (e : endpoint (Peer.peer_state S))
    : option (endpoint (Peer.peer_state S)) :=
  let ms := drop (length (Publisher.sent (publishing (conn e)))) (Publisher.sent (publishing c)) in
  match Peer.acts (Peer.act_send <$> ms) (object e) with
  | Some p => notify p (mk_endpoint c (object e) (seen e))
  | None => None
  end.

(** At most [n] of the unread bytes, and no more than fit. *)
Definition chunk_of (n : nat) (l : link) : list Z :=
  let b := (object (far l)).1 in
  take (n `min` (length (BP.rx_buffer b) - BP.rx_buffer_bytes b))
    (drop (consumed l) (Peer.wire (Peer.socket (object (near l)).2))).

Inductive event : Type :=
| publishes (x : published)
| writable (ec : BP.error_code)
| reads (n : nat)
| near_fails (ec : BP.error_code)
| far_fails (ec : BP.error_code).

Definition set_near (e : endpoint (Peer.peer_state S)) (l : link) : link := mk_link e (far l) (consumed l).

Definition step (w : route) (ev : event) (l : link) : option link :=
  match ev with
  | publishes x =>
      let c := conn (near l) in
      e ← transmit (set_publishing (publish w x (publishing c)) c) (near l);
      Some (set_near e l)
  | writable ec =>
      p ← Peer.act (Peer.act_writable ec) (object (near l));
      e ← notify p (near l); Some (set_near e l)
  | near_fails ec =>
      e ← notify (BP.close ec (object (near l))) (near l); Some (set_near e l)
  | reads n =>
      (* a wait for readability: it ends when there are bytes *)
      if is_open (far l) && negb (bool_decide (chunk_of n l = [])) then
        p ← BP.receive (chunk_of n l) (object (far l));
        e ← notify p (far l); Some (mk_link (near l) e (consumed l + length (chunk_of n l))%nat)
      else Some l
  | far_fails ec =>
      e ← notify (BP.close ec (object (far l))) (far l); Some (mk_link (near l) e (consumed l))
  end.

Fixpoint steps (w : route) (evs : list event) (l : link) : option link :=
  match evs with
  | [] => Some l
  | ev :: evs => l ← step w ev l; steps w evs l
  end.

(** What the application at the near end publishes, and what the one at the far
    end is given. *)
Definition publications (evs : list event) : list published :=
  omap (fun ev => if ev is publishes x then Some x else None) evs.

Definition notices (es : list connection_event) : list notice :=
  omap (fun e => if e is noticed n then Some n else None) es.

Definition received (w : route) (l : link) : list published := delivered (EndToEnd.remote w) (notices (seen (far l))).

(** Nothing is under way. *)
Definition drained (l : link) : bool :=
  Peer.DB.empty (Peer.tx_buffer (object (near l)).2) &&
  (consumed l =? length (Peer.wire (Peer.socket (object (near l)).2)))%nat.

(** ** Lemmas: what a peer object raises *)

Lemma notify_quiet {U} (p : BP.base_peer * U) e :
  BP.raised p.1 = BP.raised (object e).1 -> notify p e = Some (mk_endpoint (conn e) p (seen e)).
Proof. intros Hr. unfold notify. rewrite Hr, drop_all. cbn. by rewrite app_nil_r. Qed.

Lemma notify_detached {U} (p : BP.base_peer * U) e :
  attached (conn e) = false -> notify p e = Some (mk_endpoint (conn e) p (seen e)).
Proof. intros Hc. unfold notify. rewrite on_peer_signals_detached by done. cbn. by rewrite app_nil_r. Qed.

(** Events without data. *)
Definition silent (es : list connection_event) : Prop := forall q, delivered q (notices es) = [].

Lemma notices_app es es' : notices (es ++ es') = notices es ++ notices es'.
Proof. apply omap_app. Qed.

Lemma notices_noticed es : notices (noticed <$> es) = es.
Proof. induction es as [|e es IH]; [done|]. cbn. f_equal. exact IH. Qed.

Lemma detach_all_silent ps : forall r q, delivered q (signal_event <$> (detach_all ps r).2) = [].
Proof.
  induction ps as [|p ps IH]; intros r q; cbn; [done|].
  unfold detach_signal, on_signal. destruct (signals (store r) !! p) as [s|] eqn:E; cbn.
  - unfold detach. specialize (IH (set_store (mk_heap (<[p := (detach p s).1]> (signals (store r))) (tables (store r))
      (next (store r))) r) q). unfold detach in IH.
    destruct (is_subscribed s); cbn in *; destruct (detach_all ps _) as [c es]; cbn in *; exact IH.
  - specialize (IH (set_store (store r) r) q). destruct (detach_all ps _) as [c es]. exact IH.
Qed.

Lemma on_peer_closed_silent ec c : silent (on_peer_closed ec c).1.2.
Proof.
  intros q. unfold on_peer_closed, clear, clear_remote_signals. cbn [Connection.remote set_attached].
  pose proof (detach_all_silent (signal <$> (items (signals_by_id (Connection.remote c))).*2)
    (mk_container (store (Connection.remote c)) ∅ ∅) q) as Hd.
  destruct (detach_all _ _) as [r es]. cbn [fst snd] in *.
  rewrite notices_app, notices_noticed, !delivered_app, Hd. cbn.
  induction (signal <$> _) as [|p ps IH]; [done|]. exact IH.
Qed.

Lemma notify_closed {U} (p : BP.base_peer * U) e ec :
  BP.raised p.1 = BP.raised (object e).1 ++ [BP.on_closed ec] -> attached (conn e) = true ->
  exists c es, notify p e = Some (mk_endpoint c p (seen e ++ es)) /\ cleared c /\ silent es.
Proof.
  intros Hr Hc. unfold notify. rewrite Hr, drop_app_length. cbn [on_peer_signals]. unfold on_peer_signal.
  rewrite Hc. pose proof (on_peer_closed_silent ec (conn e)) as Hs.
  destruct (on_peer_closed_clears to_uint64 ec (conn e)) as (c & es & E & _ & Hcl). rewrite E in *.
  cbn in *. eexists c, _. by rewrite app_nil_r.
Qed.

(** The connection of an end is attached while its peer object is open; after
    that nothing is registered with it any more. *)
Definition consistent {U} (e : endpoint U) : Prop :=
  if BP.is_closed (object e).1 then cleared (conn e) else attached (conn e) = true.

(** Operations of the transmit side raise nothing but the end. *)
Lemma notify_may_close {U} (p : BP.base_peer * U) e :
  consistent e -> BP.may_close (object e).1 p.1 ->
  exists e', notify p e = Some e' /\ object e' = p /\ consistent e' /\
    (exists es, seen e' = seen e ++ es /\ silent es) /\
    (BP.is_closed p.1 = false -> conn e' = conn e).
Proof.
  intros He [_ _ _ _ _ [[Hc Hr]|(Hc & Hc' & ec & Hr)]]; unfold consistent in *.
  - rewrite notify_quiet by done. eexists. split; [done|]. cbn. rewrite Hc.
    split_and!; try done. exists []. by rewrite app_nil_r.
  - rewrite Hc in He. destruct (notify_closed p e ec Hr He) as (c & es & -> & Hcl & Hs).
    eexists. split; [done|]. cbn. rewrite Hc'. split_and!; try done. by exists es.
Qed.

(** ** Lemmas: what the receiving connection makes of it *)

Lemma on_peer_signals_app xs ys : forall c c1 es1,
  on_peer_signals to_uint64 xs c = (c1, es1, None) ->
  on_peer_signals to_uint64 (xs ++ ys) c
  = (let '(c2, es2, err) := on_peer_signals to_uint64 ys c1 in (c2, es1 ++ es2, err)).
Proof.
  induction xs as [|x xs IH]; intros c c1 es1 E; cbn in *.
  - injection E as <- <-. by destruct (on_peer_signals _ _ _) as [[? ?] ?].
  - destruct (on_peer_signal to_uint64 x c) as [[c0 es0] [err|]]; [done|].
    destruct (on_peer_signals to_uint64 xs c0) as [[c2 es2] err] eqn:E2. injection E as -> <- ->.
    rewrite (IH c0 c1 es2 E2). destruct (on_peer_signals to_uint64 ys c1) as [[? ?] ?]. by rewrite app_assoc.
Qed.

(** Data signals go to the remote signals. *)
Lemma on_data_signals ms : forall c r es,
  attached c = true -> Forall (fun m => Peer.is_data m = true) ms ->
  arrivals to_uint64 ms (Connection.remote c) = (r, es, None) ->
  on_peer_signals to_uint64 (Peer.message_signal <$> ms) c = (set_remote r c, noticed <$> es, None).
Proof.
  unfold arrivals. induction ms as [|m ms IH]; intros c r es Hc Hd E; cbn in E |- *.
  { injection E as <- <-. by destruct c. }
  apply Forall_cons in Hd as [Hm Hd]. destruct m as [n data|]; [|done]. cbn in E |- *.
  unfold on_peer_signal, lift. rewrite Hc.
  destruct (on_peer_data_received n data (Connection.remote c)) as [[r1 es1] [err|]]; [done|]. cbn.
  destruct (session to_uint64 (arrival <$> ms) r1) as [[r2 es2] err] eqn:E2. injection E as -> <- ->.
  rewrite (IH (set_remote r1 c) r es2 Hc Hd E2). by rewrite fmap_app.
Qed.

(** At most the end of the connection comes among the deliveries. *)
Lemma deliveries_split xs :
  List.filter BP.is_delivery xs = xs \/
  exists a ec b, xs = a ++ BP.on_closed ec :: b /\ List.filter BP.is_delivery xs = a ++ List.filter BP.is_delivery b.
Proof.
  induction xs as [|x xs IH]; [by left|]. destruct x as [n data|n m ps|ec].
  3: { right. by exists [], ec, xs. }
  all: destruct IH as [IH|(a & ec & b & -> & IH)]; cbn; rewrite IH; [by left|right; by eexists (_ :: a), ec, b].
Qed.

(** New signals of a peer object that is open: the deliveries among them, up to
    the end of the connection. *)
Lemma notify_deliveries {U} q (p : BP.base_peer * U) (e : endpoint U) ms r es :
  BP.wf (object e).1 -> BP.is_closed (object e).1 = false -> consistent e ->
  BP.evolves (Peer.message_signal <$> ms) (object e).1 p.1 ->
  Forall (fun m => Peer.is_data m = true) ms ->
  arrivals to_uint64 ms (Connection.remote (conn e)) = (r, es, None) ->
  exists e' es', notify p e = Some e' /\ object e' = p /\ consistent e' /\
    seen e' = seen e ++ es' /\ delivered q (notices es') `prefix_of` delivered q es /\
    (BP.is_closed p.1 = false ->
       Connection.remote (conn e') = r /\ delivered q (notices es') = delivered q es).
Proof.
  intros Hwf Hcl Hc He Hd Ha. unfold consistent in *. rewrite Hcl in Hc.
  destruct (BP.ev_raised _ _ _ He) as [xs Hr]. unfold notify. rewrite Hr, drop_app_length.
  assert (Hxs : List.filter BP.is_delivery xs = Peer.message_signal <$> ms).
  { pose proof (BP.ev_deliveries _ _ _ He) as Hde. unfold BP.deliveries in Hde.
    rewrite Hr, List.filter_app in Hde. by apply app_inv_head in Hde. }
  assert (Hcount : length (List.filter (fun s => negb (BP.is_delivery s)) xs)
                   = if BP.is_closed p.1 then 1%nat else 0%nat).
  { pose proof (BP.wf_closed _ (BP.ev_wf _ _ _ He)) as H1. pose proof (BP.wf_closed _ Hwf) as H2.
    unfold BP.closings in *. rewrite Hr, List.filter_app, length_app, H2, Hcl in H1. exact H1. }
  destruct (deliveries_split xs) as [Hall|(a & ec & b & Hsplit & Hab)].
  - rewrite <- Hall, Hxs, (on_data_signals ms _ _ _ Hc Hd Ha). eexists _, _. split; [done|]. cbn.
    assert (BP.is_closed p.1 = false) as ->.
    { destruct (BP.is_closed p.1); [|done]. exfalso. rewrite <- Hall in Hcount.
      clear -Hcount. induction xs as [|x xs IH]; cbn in *; [done|].
      destruct (BP.is_delivery x) eqn:E; cbn in *; [rewrite E in Hcount; cbn in Hcount|]; auto. }
    by rewrite notices_noticed.
  - assert (Hpc : BP.is_closed p.1 = true).
    { destruct (BP.is_closed p.1); [done|]. rewrite Hsplit, List.filter_app, length_app in Hcount. cbn in Hcount. lia. }
    rewrite Hab in Hxs. symmetry in Hxs. apply fmap_app_inv in Hxs as (ms1 & ms2 & -> & _ & ->).
    apply Forall_app in Hd as [Hd1 _]. unfold arrivals in Ha. rewrite fmap_app in Ha.
    apply session_split in Ha as (r1 & es1 & es2 & Ha1 & _ & ->).
    pose proof (on_data_signals ms1 (conn e) r1 es1 Hc Hd1 Ha1) as H1.
    rewrite Hsplit, (on_peer_signals_app _ _ _ _ _ H1). cbn [on_peer_signals].
    unfold on_peer_signal at 1. cbn [attached set_remote]. rewrite Hc.
    pose proof (on_peer_closed_silent ec (set_remote r1 (conn e))) as Hs.
    destruct (on_peer_closed_clears to_uint64 ec (set_remote r1 (conn e))) as (c & es' & E & _ & Hcl'). rewrite E in *.
    rewrite on_peer_signals_detached by apply Hcl'. cbn in *. eexists _, _. split; [done|].
    split_and!; try done; cbn; rewrite ?Hpc; try done.
    rewrite app_nil_r, notices_app, notices_noticed, !delivered_app, Hs, app_nil_r. by apply prefix_app_r.
Qed.

(** ** The receiving end

    [r] is what it has read of the stream of the messages [ms], which its
    connection began to receive in the state [c0]. *)
Record inbound (w : route) (tcp : bool) (c0 : container) (ms : list Peer.message) (r : list Z)
    (e : endpoint T) : Prop := {
  in_wf : BP.wf (object e).1;
  in_sender : BP.sender_ok (object e);
  in_tcp : BP.use_tcp_protocol (object e).1 = tcp;
  in_consistent : consistent e;
  in_received : exists ms1 ms2 c es, ms = ms1 ++ ms2 /\
    BP.stream_signals tcp r = Peer.message_signal <$> ms1 /\
    arrivals to_uint64 ms1 c0 = (c, es, None) /\
    delivered (EndToEnd.remote w) (notices (seen e)) `prefix_of` delivered (EndToEnd.remote w) es /\
    (BP.is_closed (object e).1 = false ->
       Connection.remote (conn e) = c /\ BP.pending (object e).1 = BP.stream_rest tcp r /\
       delivered (EndToEnd.remote w) (notices (seen e)) = delivered (EndToEnd.remote w) es)
}.

Lemma inbound_more w tcp c0 ms ms' r e : inbound w tcp c0 ms r e -> inbound w tcp c0 (ms ++ ms') r e.
Proof.
  intros [H1 H2 H3 H4 (ms1 & ms2 & c & es & -> & Hr)]. split; [done..|].
  exists ms1, (ms2 ++ ms'), c, es. by rewrite app_assoc.
Qed.

Lemma inbound_fails w tcp c0 ms r e ec :
  inbound w tcp c0 ms r e ->
  exists e', notify (BP.close ec (object e)) e = Some e' /\ inbound w tcp c0 ms r e' /\ is_open e' = false.
Proof.
  intros [H1 H2 H3 H4 (ms1 & ms2 & c & es & E & Hr & Ha & Hp & _)].
  pose proof (BP.close_may_close ec (object e)) as Hm.
  destruct (notify_may_close (BP.close ec (object e)) e H4 Hm) as (e' & -> & Ho & Hc & (es' & Hs & Hq) & _).
  exists e'. split; [done|]. unfold is_open. rewrite Ho, BP.close_is_closed. split; [|done].
  split; rewrite ?Ho; try done.
  - apply (BP.ev_wf [] (object e).1). by apply BP.evolves_may_close.
  - by apply BP.sender_ok_close.
  - by rewrite <- H3, (BP.mc_tcp _ _ Hm).
  - exists ms1, ms2, c, es. split_and!; try done.
    + by rewrite Hs, notices_app, delivered_app, (Hq _), app_nil_r.
    + by rewrite BP.close_is_closed.
Qed.

(** The bytes of messages. *)
Definition encoded (tcp : bool) (ms : list Peer.message) : list Z := mjoin (Peer.message_bytes tcp <$> ms).

Lemma stream_prefix tcp r chunk B :
  Forall is_byte (r ++ chunk) -> Forall is_byte B -> r ++ chunk `prefix_of` B ->
  exists tail, BP.stream_signals tcp B
    = BP.stream_signals tcp r ++ BP.stream_signals tcp (BP.stream_rest tcp r ++ chunk) ++ tail.
Proof.
  intros Hr Hb [rest ->]. apply Forall_app in Hb as [_ Hrest]. pose proof Hr as [H1 H2]%Forall_app.
  destruct (BP.stream_app tcp (r ++ chunk) rest Hr Hrest) as [-> _].
  destruct (BP.stream_app tcp r chunk H1 H2) as [-> _]. eexists. by rewrite <- app_assoc.
Qed.

Lemma inbound_reads w tcp c0 ms r e chunk c1 es1 :
  inbound w tcp c0 ms r e -> BP.is_closed (object e).1 = false ->
  Forall Peer.sendable ms -> Forall (fun m => Peer.is_data m = true) ms ->
  arrivals to_uint64 ms c0 = (c1, es1, None) -> r ++ chunk `prefix_of` encoded tcp ms ->
  (BP.rx_buffer_bytes (object e).1 + length chunk <= length (BP.rx_buffer (object e).1))%nat ->
  exists p e', BP.receive chunk (object e) = Some p /\ notify p e = Some e' /\
    inbound w tcp c0 ms (r ++ chunk) e'.
Proof.
  intros [H1 H2 H3 H4 (ms1 & ms2 & c & es & E & Hr & Ha & Hp & Ho)] Hcl Hs Hd Harr Hpre Hroom.
  destruct (Ho Hcl) as (Hc & Hpend & Hdel). clear Ho Hp.
  destruct (Peer.stream_messages tcp ms Hs (fun _ => Hd)) as (Hstream & _ & Hbytes).
  fold (encoded tcp ms) in Hstream, Hbytes.
  assert (Hrb : Forall is_byte (r ++ chunk)) by (destruct Hpre as [rest Hrest]; rewrite Hrest in Hbytes; by apply Forall_app in Hbytes as [? _]).
  pose proof Hrb as [Hrb1 Hrb2]%Forall_app.
  destruct (stream_prefix tcp r chunk _ Hrb Hbytes Hpre) as [tail Htail].
  rewrite Hstream, Hr, E, fmap_app in Htail. apply app_inv_head in Htail.
  apply fmap_app_inv in Htail as (mid & ms3 & Hmid & _ & ->). rewrite E, app_assoc in Hd, Harr.
  apply Forall_app in Hd as [[_ Hdm]%Forall_app _]. unfold arrivals in Harr.
  rewrite !fmap_app in Harr. apply session_split in Harr as (c3 & es3 & es4 & Harr & _ & _).
  pose proof Harr as (c2 & es5 & es2 & Ha2 & Ham & ->)%session_split.
  unfold arrivals in Ha. rewrite Ha in Ha2. injection Ha2 as <- <-.
  destruct (BP.receive_spec chunk (object e) H1 H2 Hrb2 Hroom) as (p & s & -> & Hs' & Hev & Hsp & Hopen).
  rewrite H3, Hpend, Hmid in Hsp, Hopen. exists p.
  destruct Hsp as [sk Hsk]. apply fmap_app_inv in Hsk as (m1 & m2 & -> & _ & ->).
  rewrite fmap_app in Ham. apply session_split in Ham as (c4 & es6 & es7 & Ham & Hrest & ->).
  rewrite <- Hc in Ham. apply Forall_app in Hdm as [Hdm _].
  destruct (notify_deliveries (EndToEnd.remote w) p e m1 c4 es6 H1 Hcl H4 Hev Hdm Ham)
    as (e' & es' & Hn & Hob & Hcons & Hseen & Hpre' & Hop). exists e'. split; [done|]. split; [done|].
  split; rewrite ?Hob; [apply Hev|done|by rewrite (BP.ev_tcp _ _ _ Hev)|done|].
  exists (ms1 ++ m1 ++ m2), ms3, c3, (es ++ es6 ++ es7). split; [by rewrite E, app_assoc|].
  destruct (BP.stream_app tcp r chunk Hrb1 Hrb2) as [-> ->]. rewrite Hr, Hmid, !fmap_app. split; [done|].
  unfold arrivals. rewrite !fmap_app. rewrite (session_app _ _ _ _ _ _ Ha).
  rewrite Hc in Ham. rewrite (session_app _ _ _ _ _ _ Ham), Hrest. split; [done|].
  rewrite Hseen, notices_app, !delivered_app, Hdel. split.
  { apply prefix_app. by apply prefix_app_r. }
  intros Hpc. destruct (Hopen Hpc) as (Hm1 & Hpend' & _). destruct (Hop Hpc) as [Hr4 Hd4].
  assert (m2 = []) as ->.
  { apply (f_equal length) in Hm1. rewrite !length_fmap, length_app in Hm1. apply length_zero_iff_nil. lia. }
  cbn in Hrest. injection Hrest as <- <-. split; [done|]. split; [done|].
  by rewrite Hd4, app_nil_r.
Qed.

(** ** The publishing end

    It has been given the messages [ms], which carry the publications [ys] and
    bring the receiving side from [c0] to [c1]; its stream was [w0] before. *)
Record outbound (w : route) (tcp : bool) (c0 : container) (w0 : list Z) (xs : list published)
    (ms : list Peer.message) (e : endpoint (Peer.peer_state S)) : Prop := {
  out_ok : Peer.peer_ok (BP.is_closed (object e).1) (object e).2;
  out_tcp : BP.use_tcp_protocol (object e).1 = tcp;
  out_consistent : consistent e;
  out_sendable : Forall Peer.sendable ms;
  out_data : Forall (fun m => Peer.is_data m = true) ms;
  out_grown : w0 `prefix_of` Peer.wire (Peer.socket (object e).2);
  out_wire : Peer.wire (Peer.socket (object e).2) `prefix_of` w0 ++ encoded tcp ms;
  out_published : exists ys c1 es, ys `prefix_of` xs /\
    arrivals to_uint64 ms c0 = (c1, es, None) /\ delivered (EndToEnd.remote w) es = ys /\
    (BP.is_closed (object e).1 = false -> ys = xs /\ in_sync w (publishing (conn e)) c1 /\
       Peer.outgoing (object e).2 = w0 ++ encoded tcp ms)
}.

(** A run of the transmit side that is given the messages [ms']. *)
Lemma outbound_acts w tcp c0 w0 xs xs' ms ms' acts e c c1 es1 :
  outbound w tcp c0 w0 xs ms e -> BP.is_closed (object e).1 = false ->
  Peer.sends acts = ms' -> Forall Peer.sendable ms' -> Forall (fun m => Peer.is_data m = true) ms' ->
  attached c = true -> arrivals to_uint64 (ms ++ ms') c0 = (c1, es1, None) ->
  delivered (EndToEnd.remote w) es1 = xs' -> in_sync w (publishing c) c1 ->
  exists p e', Peer.acts acts (object e) = Some p /\
    notify p (mk_endpoint c (object e) (seen e)) = Some e' /\ outbound w tcp c0 w0 xs' (ms ++ ms') e' /\
    Peer.wire (Peer.socket (object e).2) `prefix_of` Peer.wire (Peer.socket (object e').2).
Proof.
  intros [H1 H2 H3 H4 H5 H6 H7 (ys & c2 & es & Hy & Ha & Hd & Ho)] Hcl <- Hs Hda Hc Harr Hdel Hsync.
  destruct (Ho Hcl) as (_ & _ & Hout). clear Ho.
  destruct (Peer.peer_acts_sent acts (object e) Hs H1) as (p & -> & Hp & Hmay & [Hg Hb _] & Hopen).
  rewrite H2, Hout in *. fold (encoded tcp (Peer.sends acts)) in *. exists p.
  destruct (notify_may_close p (mk_endpoint c (object e) (seen e))) as (e' & -> & Hob & Hcons & _ & Hconn);
    [by unfold consistent; cbn; rewrite Hcl|done|].
  exists e'. split; [done|]. split; [done|]. rewrite Hob. split; [|done].
  assert (Henc : encoded tcp (ms ++ Peer.sends acts) = encoded tcp ms ++ encoded tcp (Peer.sends acts)).
  { unfold encoded. rewrite fmap_app. apply join_app. }
  split; rewrite ?Hob, ?Henc; try done; try by apply Forall_app.
  - by rewrite (BP.mc_tcp _ _ Hmay).
  - by etrans.
  - by rewrite app_assoc.
  - exists xs', c1, es1. split_and!; try done. intros Hpc. rewrite (Hconn Hpc), (Hopen Hpc), app_assoc.
    by cbn.
Qed.

Lemma publish_unregistered w x p :
  LocalSignalContainer.registered (Publisher.locals p) = ∅ ->
  Publisher.sent (publish w x p) = Publisher.sent p /\
  LocalSignalContainer.registered (Publisher.locals (publish w x p)) = ∅.
Proof.
  destruct x as [[v n] data]. intros Hr. cbn [publish]. unfold Publisher.publish_data.
  set (p0 := Publisher.with_locals _ p).
  assert (Hr0 : LocalSignalContainer.registered (Publisher.locals p0) = ∅) by exact Hr.
  assert (Hs0 : Publisher.sent p0 = Publisher.sent p) by done. clearbody p0.
  unfold LocalSignalContainer.find_address. rewrite Hr0. done.
Qed.

Lemma sends_all ms : Peer.sends (Peer.act_send <$> ms) = ms.
Proof. induction ms as [|m ms IH]; [done|]. cbn. f_equal. exact IH. Qed.

Lemma outbound_publishes w tcp c0 w0 xs ms e x :
  outbound w tcp c0 w0 xs ms e -> transmittable w x ->
  in_u 20 (number w) -> in_u 20 (domain_number w) ->
  exists ms' e', transmit (set_publishing (publish w x (publishing (conn e))) (conn e)) e = Some e' /\
    outbound w tcp c0 w0 (xs ++ [x]) (ms ++ ms') e' /\
    Peer.wire (Peer.socket (object e).2) `prefix_of` Peer.wire (Peer.socket (object e').2).
Proof.
  intros He Hx Hn1 Hn2. pose proof He as [H1 H2 H3 H4 H5 H6 H7 (ys & c1 & es & Hy & Ha & Hd & Ho)].
  unfold transmit. cbn [publishing set_publishing].
  destruct (BP.is_closed (object e).1) eqn:Hcl.
  - unfold consistent in H3. rewrite Hcl in H3. pose proof H3 as (Hat & Hm1 & Hm2 & Hreg).
    destruct (publish_unregistered w x (publishing (conn e)) Hreg) as [-> Hreg'].
    rewrite drop_all. cbn [fmap list_fmap Peer.acts]. rewrite notify_detached by done.
    exists []. eexists. split; [done|]. rewrite app_nil_r. split; [|done]. split; cbn; try done.
    + by rewrite Hcl.
    + unfold consistent. cbn. by rewrite Hcl.
    + exists ys, c1, es. split_and!; [by apply prefix_app_r|done..|congruence].
  - destruct (Ho eq_refl) as (-> & Hsync & _).
    destruct (publish_messages w _ c1 x Hsync Hx Hn1 Hn2) as (ms' & Hsent & Hdata & Hsend).
    destruct (publish_delivers to_uint64 w _ c1 x Hsync (proj1 Hx)) as (ms1 & c2 & es1 & Hsent1 & Ha1 & Hd1 & Hsync1).
    assert (ms1 = ms') as -> by (rewrite Hsent in Hsent1; by apply app_inv_head in Hsent1).
    rewrite Hsent, drop_app_length. unfold consistent in H3. rewrite Hcl in H3.
    destruct (outbound_acts w tcp c0 w0 xs (xs ++ [x]) ms ms' (Peer.act_send <$> ms') e
      (set_publishing (publish w x (publishing (conn e))) (conn e)) c2 (es ++ es1) He Hcl)
      as (p & e' & -> & Hnot & He' & Hg); try done; [by rewrite sends_all| | |by exists ms', e'].
    + unfold arrivals in *. rewrite fmap_app. by rewrite (session_app _ _ _ _ _ _ Ha), Ha1.
    + by rewrite delivered_app, Hd, Hd1.
Qed.

Lemma outbound_writable w tcp c0 w0 xs ms e ec :
  outbound w tcp c0 w0 xs ms e ->
  exists p e', Peer.act (Peer.act_writable ec) (object e) = Some p /\ notify p e = Some e' /\
    outbound w tcp c0 w0 xs ms e' /\
    Peer.wire (Peer.socket (object e).2) `prefix_of` Peer.wire (Peer.socket (object e').2).
Proof.
  intros [H1 H2 H3 H4 H5 H6 H7 (ys & c1 & es & Hy & Ha & Hd & Ho)].
  destruct (Peer.peer_act_spec (Peer.act_writable ec) (object e)) as (p & -> & [Hp Hmay Hopen Hw]); [done|done|].
  exists p. destruct (notify_may_close p e H3 Hmay) as (e' & -> & Hob & Hcons & _ & Hconn).
  exists e'. split; [done|]. split; [done|]. rewrite Hob. destruct Hw as [Hg Hb Hf]. split; [|done].
  cbn in Hb, Hopen. rewrite app_nil_r in Hb, Hopen.
  split; rewrite ?Hob; try done.
  - by rewrite (BP.mc_tcp _ _ Hmay).
  - by etrans.
  - destruct (BP.is_closed (object e).1) eqn:Hcl; [by rewrite (proj1 (Hf eq_refl))|].
    by destruct (Ho eq_refl) as (_ & _ & <-).
  - exists ys, c1, es. split_and!; try done. intros Hpc. destruct (Hopen Hpc) as [-> Hbase].
    rewrite (Hconn Hpc). apply Ho. by rewrite <- Hbase.
Qed.

Lemma outbound_fails w tcp c0 w0 xs ms e ec :
  outbound w tcp c0 w0 xs ms e ->
  exists e', notify (BP.close ec (object e)) e = Some e' /\ outbound w tcp c0 w0 xs ms e' /\
    Peer.wire (Peer.socket (object e').2) = Peer.wire (Peer.socket (object e).2).
Proof.
  intros [H1 H2 H3 H4 H5 H6 H7 (ys & c1 & es & Hy & Ha & Hd & Ho)].
  pose proof (BP.close_may_close ec (object e)) as Hm.
  destruct (notify_may_close (BP.close ec (object e)) e H3 Hm) as (e' & -> & Hob & Hc & _ & _).
  assert (Hw : Peer.wire (Peer.socket (BP.close ec (object e)).2) = Peer.wire (Peer.socket (object e).2)).
  { unfold BP.close. destruct (BP.is_closed _); [done|]. cbn. by rewrite Peer.wire_close, Peer.wire_shutdown. }
  exists e'. split; [done|]. rewrite Hob. split; [|done]. split; rewrite ?Hob, ?Hw; try done.
  - exact (BP.sender_ok_close ec (object e) H1).
  - by rewrite (BP.mc_tcp _ _ Hm).
  - exists ys, c1, es. split_and!; try done. by rewrite BP.close_is_closed.
Qed.

(** ** Both ends *)

Definition stream (l : link) : list Z := Peer.wire (Peer.socket (object (near l)).2).

(** What the far end has read since the stream was [w0]. *)
Definition read_since (w0 : list Z) (l : link) : list Z := drop (length w0) (take (consumed l) (stream l)).

Definition carrying (w : route) (tcp : bool) (c0 : container) (w0 : list Z) (xs : list published) (l : link)
    : Prop :=
  (length w0 <= consumed l <= length (stream l))%nat /\
  exists ms, outbound w tcp c0 w0 xs ms (near l) /\ inbound w tcp c0 ms (read_since w0 l) (far l).

Lemma take_prefix {A} n (a b : list A) : (n <= length a)%nat -> a `prefix_of` b -> take n b = take n a.
Proof. intros Hn [k ->]. by rewrite take_app_le. Qed.

(** The publishing end moved on. *)
Lemma carrying_near w tcp c0 w0 xs ms ms' l e :
  (length w0 <= consumed l <= length (stream l))%nat ->
  inbound w tcp c0 ms (read_since w0 l) (far l) -> outbound w tcp c0 w0 xs (ms ++ ms') e ->
  stream l `prefix_of` Peer.wire (Peer.socket (object e).2) ->
  carrying w tcp c0 w0 xs (set_near e l).
Proof.
  intros Hn Hi Ho Hp. pose proof (prefix_length _ _ Hp) as Hl. split; [unfold stream in *; cbn; lia|].
  exists (ms ++ ms'). split; [done|]. apply inbound_more. unfold read_since, stream in *. cbn.
  by rewrite (take_prefix _ _ _ (proj2 Hn) Hp).
Qed.

Lemma read_since_more w0 n l e :
  (length w0 <= consumed l)%nat -> (consumed l <= length (stream l))%nat ->
  let l' := mk_link (near l) e (consumed l + length (chunk_of n l)) in
  read_since w0 l' = read_since w0 l ++ chunk_of n l /\ (consumed l' <= length (stream l'))%nat.
Proof.
  intros H1 H2. cbn zeta. unfold read_since, stream, chunk_of in *. cbn [consumed near].
  set (W := Peer.wire _) in *. set (k := (n `min` _)%nat).
  assert (Hk : take (consumed l + length (take k (drop (consumed l) W))) W
               = take (consumed l) W ++ take k (drop (consumed l) W)).
  { rewrite <- (take_drop (consumed l) W) at 2. rewrite take_app_add' by len. f_equal.
    rewrite length_take. destruct (Nat.min_spec k (length (drop (consumed l) W))) as [[? ->]|[? ->]]; [done|].
    by rewrite firstn_all, take_ge. }
  rewrite Hk. split; [|len]. rewrite drop_app_le by len. done.
Qed.

Lemma carrying_reads w tcp c0 w0 xs n l :
  carrying w tcp c0 w0 xs l ->
  exists l', step w (reads n) l = Some l' /\ carrying w tcp c0 w0 xs l'.
Proof.
  intros [[Hn1 Hn2] (ms & Ho & Hi)]. cbn [step].
  destruct (is_open (far l)) eqn:Hop; cbn [andb]; [|exists l; by repeat split; try exists ms].
  destruct (bool_decide_reflect (chunk_of n l = [])) as [|Hne]; cbn [negb];
    [exists l; by repeat split; try exists ms|].
  apply negb_true_iff in Hop.
  destruct (read_since_more w0 n l (far l) Hn1 Hn2) as [Hr _].
  assert (Hpre : read_since w0 l ++ chunk_of n l `prefix_of` encoded tcp ms).
  { rewrite <- Hr. unfold read_since. cbn [consumed]. change (stream (mk_link _ _ _)) with (stream l).
    apply (prefix_app_inv w0). etrans; [|exact (out_wire _ _ _ _ _ _ _ Ho)].
    destruct (out_grown _ _ _ _ _ _ _ Ho) as [rest Hrest]. fold (stream l). unfold stream in *. rewrite Hrest in *.
    rewrite take_app_ge by lia. rewrite drop_app_length. apply prefix_app, prefix_take. }
  pose proof Ho as [O1 O2 O3 O4 O5 O6 O7 (ys & c1 & es & O8 & O9 & O10)].
  destruct (inbound_reads w tcp c0 ms _ (far l) (chunk_of n l) c1 es Hi Hop O4 O5 O9 Hpre)
    as (p & e' & Hp & Hnot & Hi'); [unfold chunk_of; pose proof (BP.wf_bytes _ (in_wf _ _ _ _ _ _ Hi)); len|].
  rewrite Hp. cbn [mbind option_bind]. rewrite Hnot. eexists. split; [done|].
  destruct (read_since_more w0 n l e' Hn1 Hn2) as [Hr' Hle].
  split; [cbn [consumed] in *; lia|]. exists ms. by rewrite Hr'.
Qed.

Lemma carrying_step w tcp c0 w0 xs ev l :
  in_u 20 (number w) -> in_u 20 (domain_number w) -> Forall (transmittable w) (publications [ev]) ->
  carrying w tcp c0 w0 xs l ->
  exists l', step w ev l = Some l' /\ carrying w tcp c0 w0 (xs ++ publications [ev]) l'.
Proof.
  intros Hn1 Hn2 Hx Hc. pose proof Hc as [Hn (ms & Ho & Hi)].
  destruct ev as [x|ec|n|ec|ec]; cbn [publications omap list_omap]; rewrite ?app_nil_r.
  - change (publications [publishes x]) with [x] in Hx. apply Forall_inv in Hx.
    destruct (outbound_publishes w tcp c0 w0 xs ms _ x Ho Hx Hn1 Hn2) as (ms' & e' & He' & Ho' & Hp).
    cbn [step]. rewrite He'. eexists. split; [done|]. by eapply carrying_near.
  - destruct (outbound_writable w tcp c0 w0 xs ms _ ec Ho) as (p & e' & Hp & He' & Ho' & Hg).
    cbn [step]. rewrite Hp. cbn [mbind option_bind]. rewrite He'. eexists. split; [done|].
    eapply (carrying_near w tcp c0 w0 xs ms []); [done|done|by rewrite app_nil_r|done].
  - by apply carrying_reads.
  - destruct (outbound_fails w tcp c0 w0 xs ms _ ec Ho) as (e' & He' & Ho' & Hw).
    cbn [step]. rewrite He'. eexists. split; [done|].
    eapply (carrying_near w tcp c0 w0 xs ms []); [done|done|by rewrite app_nil_r|by rewrite Hw].
  - destruct (inbound_fails w tcp c0 ms _ _ ec Hi) as (e' & He' & Hi' & _).
    cbn [step]. rewrite He'. eexists. split; [done|]. split; [done|]. by exists ms.
Qed.

Lemma carrying_steps w tcp c0 w0 evs : forall xs l,
  in_u 20 (number w) -> in_u 20 (domain_number w) -> Forall (transmittable w) (publications evs) ->
  carrying w tcp c0 w0 xs l ->
  exists l', steps w evs l = Some l' /\ carrying w tcp c0 w0 (xs ++ publications evs) l'.
Proof.
  induction evs as [|ev evs IH]; intros xs l Hn1 Hn2 Hx Hc; cbn [steps].
  { exists l. by rewrite app_nil_r. }
  assert (Hsplit : publications (ev :: evs) = publications [ev] ++ publications evs) by by destruct ev.
  rewrite Hsplit in *. apply Forall_app in Hx as [Hx1 Hx2].
  destruct (carrying_step w tcp c0 w0 xs ev l Hn1 Hn2 Hx1 Hc) as (l1 & -> & Hc1).
  rewrite app_assoc. by apply IH.
Qed.

(** ** The start and the end *)

(** The two ends are in sync and nothing is under way. *)
Record started (w : route) (l : link) : Prop := {
  st_sync : in_sync w (publishing (conn (near l))) (Connection.remote (conn (far l)));
  st_open : is_open (near l) = true /\ is_open (far l) = true;
  st_attached : attached (conn (near l)) = true /\ attached (conn (far l)) = true;
  st_near : Peer.peer_ok false (object (near l)).2;
  st_far : BP.wf (object (far l)).1 /\ BP.sender_ok (object (far l));
  st_same : BP.use_tcp_protocol (object (near l)).1 = BP.use_tcp_protocol (object (far l)).1;
  st_drained : drained l = true;
  st_pending : BP.rx_buffer_bytes (object (far l)).1 = 0%nat;
  st_unseen : seen (far l) = []
}.

Lemma drained_outgoing l c :
  drained l = true -> Peer.peer_ok c (object (near l)).2 ->
  Peer.outgoing (object (near l)).2 = stream l /\ consumed l = length (stream l).
Proof.
  intros [He Hc]%andb_true_iff [Hw _ _ _]. apply Nat.eqb_eq in He, Hc. split; [|done].
  pose proof (Peer.DB.length_content _ Hw) as Hl. unfold Peer.outgoing.
  assert (Peer.DB.content (Peer.tx_buffer (object (near l)).2) = []) as ->.
  { apply length_zero_iff_nil. lia. }
  by rewrite app_nil_r.
Qed.

Lemma stream_empty tcp : BP.stream_signals tcp [] = [] /\ BP.stream_rest tcp [] = [].
Proof. by destruct tcp. Qed.

Lemma started_carrying w l :
  started w l ->
  carrying w (BP.use_tcp_protocol (object (far l)).1) (Connection.remote (conn (far l))) (stream l) [] l.
Proof.
  intros [Hs [Ho1 Ho2]%and_comm [Ha1 Ha2] Hn [Hw Hso] Htcp Hd Hp Hu].
  apply negb_true_iff in Ho1, Ho2. destruct (drained_outgoing l false Hd Hn) as [Hout Hc].
  split; [unfold stream in *; lia|]. exists []. split.
  - split; try done; [by rewrite Ho2|by unfold consistent; rewrite Ho2|by apply prefix_app_r|].
    exists [], (Connection.remote (conn (far l))), []. split_and!; try done.
    intros _. split; [done|]. split; [done|]. rewrite Hout. cbn. by rewrite app_nil_r.
  - split; try done; [by unfold consistent; rewrite Ho1|].
    exists [], [], (Connection.remote (conn (far l))), []. unfold read_since.
    rewrite Hc, firstn_all, drop_all, Hu. split_and!; try done; [apply stream_empty|].
    intros _. split; [done|]. split; [|done]. unfold BP.pending. rewrite Hp. symmetry. apply stream_empty.
Qed.

Lemma carrying_received w tcp c0 w0 xs l : carrying w tcp c0 w0 xs l -> received w l `prefix_of` xs.
Proof.
  intros [_ (ms & [_ _ _ _ _ _ _ (ys & c1 & es & Hy & Ha & Hd & _)] & [_ _ _ _ (ms1 & ms2 & c & es1 & -> & _ & Ha1 & Hp & _)])].
  unfold received. etrans; [exact Hp|]. etrans; [|exact Hy]. unfold arrivals in Ha. rewrite fmap_app in Ha.
  apply session_split in Ha as (c2 & es2 & es3 & Ha & _ & ->). unfold arrivals in Ha1. rewrite Ha1 in Ha.
  injection Ha as <- <-. rewrite <- Hd, delivered_app. by apply prefix_app_r.
Qed.

Lemma carrying_drained w tcp c0 w0 xs l :
  carrying w tcp c0 w0 xs l -> is_open (near l) = true -> is_open (far l) = true -> drained l = true ->
  received w l = xs /\ in_sync w (publishing (conn (near l))) (Connection.remote (conn (far l))).
Proof.
  intros [_ (ms & [H1 _ _ H4 H5 H6 _ (ys & c1 & es & _ & Ha & Hd & Ho)] & [_ _ _ _ (ms1 & ms2 & c & es1 & E & Hr & Ha1 & _ & Hi)])] Hon Hof Hdr.
  apply negb_true_iff in Hon, Hof. destruct (Ho Hon) as (-> & Hsync & Hout).
  destruct (Hi Hof) as (Hc & _ & Hrec). destruct (drained_outgoing l _ Hdr H1) as [Hout' Hcons].
  rewrite Hout in Hout'. unfold read_since in Hr. rewrite Hcons, firstn_all, <- Hout', drop_app_length in Hr.
  destruct (Peer.stream_messages tcp ms H4 (fun _ => H5)) as (Hstream & _). fold (encoded tcp ms) in Hstream.
  assert (ms2 = []) as ->.
  { rewrite Hstream, E in Hr. apply (f_equal length) in Hr. rewrite !length_fmap, length_app in Hr.
    apply length_zero_iff_nil. lia. }
  rewrite app_nil_r in E. subst ms1. rewrite Ha in Ha1. injection Ha1 as -> ->.
  unfold received. by rewrite Hrec, Hc, Hd.
Qed.
End FullStack.

(** ** Properties *)

(** C1: whatever happens on the way, an application is given what the other one
    published, in order, nothing lost in between and nothing twice: from two
    connections that are in sync and idle, through any interleaving of
    publications, partial writes, write completions, reads of any size and
    failures of either side, over the WebSocket framing or plain TCP, no
    handler fails or gets stuck, and the domain values, sample counts and bytes
    received are the first ones published.  They are all of them, and the two
    sides are in sync again, whenever both sides are still open and everything
    written has been read. *)
Theorem published_values_cross_the_wire `{JL : JsonLib} to_uint64 {S} `{!Peer.Socket S}
    `{Peer.DB.BufferCopy} {T} `{!BP.Transport T} `{!BP.ControlSender T} (w : route) evs (l : link (S := S) (T := T)) :
  started w l -> in_u 20 (number w) -> in_u 20 (domain_number w) ->
  Forall (transmittable w) (publications evs) ->
  exists l', steps to_uint64 w evs l = Some l' /\ received w l' `prefix_of` publications evs /\
    (is_open (near l') = true -> is_open (far l') = true -> drained l' = true ->
     received w l' = publications evs /\
     in_sync w (publishing (conn (near l'))) (Connection.remote (conn (far l')))).
Proof.
  intros Hs Hn1 Hn2 Hx.
  destruct (carrying_steps to_uint64 w _ _ _ evs [] l Hn1 Hn2 Hx (started_carrying to_uint64 w l Hs)) as (l' & Hl & Hc).
  exists l'. split; [done|]. split; [exact (carrying_received _ _ _ _ _ _ _ Hc)|].
  exact (carrying_drained _ _ _ _ _ _ _ Hc).
Qed.

(** ** An instance *)

Section Witness.
#[local] Existing Instances jv_json Peer.DB.reference_buffer_copy Peer.script_socket.

Definition with_sides (p : Publisher.publisher) (r : container) : connection :=
  set_remote r (set_publishing p (set_attached true (Connection.make false "s" None ∅))).

(** The two ends of [EndToEnd], with new peer objects. *)
Definition sample_link : link (S := Peer.script) (T := Peer.peer_state Peer.script) :=
  mk_link
    (mk_endpoint (with_sides subscribed_publisher empty_container)
       (Peer.make_peer (Peer.mk_script [] [5; 20; 100; 100; 100]%nat []) false 16 4096) [])
    (mk_endpoint (with_sides (Publisher.mk_publisher (LocalSignalContainer.fresh_locals ∅) false []) subscribed_receiver)
       (Peer.make_peer (Peer.mk_script [] [] []) false 512 4096) [])
    0.

Definition sample_events : list event :=
  [publishes (100, 2, [1; 0; 2; 0]); reads 3; writable BP.success; reads 100;
   publishes (500, 1, [4; 0]); writable BP.success; reads 1; reads 100; writable BP.success; reads 100].

Lemma sample_started : started sample_route sample_link.
Proof.
  split.
  - unfold sample_link, with_sides. cbn -[subscribed_publisher subscribed_receiver]. exact sample_in_sync.
  - by vm_compute.
  - by vm_compute.
  - apply (Peer.peer_make_peer_ok (Peer.mk_script [] [5; 20; 100; 100; 100]%nat []) false 16 4096).
  - split; [apply BP.wf_make|exact (Peer.peer_make_peer_ok (Peer.mk_script [] [] []) false 512 4096)].
  - by vm_compute.
  - by vm_compute.
  - by vm_compute.
  - done.
Qed.

Lemma published_values_cross_the_wire_witness :
  exists l', steps Datatypes.id sample_route sample_events sample_link = Some l' /\
    received sample_route l' = [(100, 2, [1; 0; 2; 0]); (500, 1, [4; 0])].
Proof.
  assert (H1 : in_u 20 (number sample_route)) by done.
  assert (H2 : in_u 20 (domain_number sample_route)) by done.
  assert (Hx : Forall (transmittable sample_route) (publications sample_events)) by by repeat constructor.
  assert (Hr : match steps Datatypes.id sample_route sample_events sample_link with
               | Some l' => is_open (near l') && is_open (far l') && drained l'
               | None => false
               end = true) by (vm_compute; reflexivity).
  destruct (published_values_cross_the_wire Datatypes.id sample_route sample_events sample_link
    sample_started H1 H2 Hx) as (l' & Hl & _ & Hw).
  rewrite Hl in Hr. apply andb_true_iff in Hr as [[Hn Hf]%andb_true_iff Hd].
  exists l'. split; [exact Hl|exact (proj1 (Hw Hn Hf Hd))].
Defined.
End Witness.
