(* ===== verification/Handshake.v ===== *)
(** * Two connections

    A server's connection and a client's connection, each receiving the
    messages the other one hands to its peer object: the hello exchange brings
    both into a state in which each knows the other, and a subscription an
    application asks for at one end takes effect at the other end and is
    answered. *)
From S2P Require Import Prelude Json OrderedMap.
From S2P Require Semver BasePeer RemoteSignal LocalSignal LocalSignalContainer.
From S2P Require Import Peer RemoteSignalContainer Receiver CommandInterface Publisher Connection.

Section Handshake.
Context `{JL : JsonLib}.
Context (to_uint64 : Z -> Z).

(** The messages one connection sent arrive at the other one. *)
Definition deliver (ms : list message) (c : connection) : Connection.outcome :=
  on_peer_signals to_uint64 (message_signal <$> ms) c.

Definition version_2 : Semver.semver := Semver.mk_semver 2 0 0.

(** The ids of the registered signals, in the order of their numbers. *)
Definition advertised (p : publisher) : list string :=
  omap (fun e => LocalSignal.sig_id <$> signal_of e p)
    (items (LocalSignalContainer.registered (locals p))).*2.

(** What [do_hello] sends. *)
Definition hello (c : connection) : list message :=
  [metadata_message 0 "apiVersion" (jobj [("version", jstr "2.0.0")]);
   metadata_message 0 "init" (jobj [("streamId", jstr (local_stream_id c));
                                    ("commandInterfaces", command_interfaces c)])] ++
  (if bool_decide (advertised (publishing c) = []) then []
   else [ids_message "available" (advertised (publishing c))]).

(** What a connection learns from the first two messages of [a]. *)
Definition greeted (a c : connection) : connection :=
  set_interface (Some (in_band make_in_band))
    (set_remote_stream_id (local_stream_id a) (set_api_version version_2 c)).

(** The signal is known and was announced to the application. *)
Definition announced (sid : string) (r : container) : Prop :=
  exists e, find_remote_signal sid r = Some e /\ hidden e = false.

(** ** Lemmas *)

Lemma do_hello_sends c :
  do_hello c = set_publishing (mk_publisher (locals (publishing c)) true
                                 (Publisher.sent (publishing c) ++ hello c)) c.
Proof.
  unfold do_hello, advertise, hello. cbn. unfold advertised, signal_of. cbn.
  case_bool_decide; cbn; unfold set_publishing; cbn; by rewrite <- !(assoc_L (++)).
Qed.

Lemma hello_same_publishing p c :
  locals p = locals (publishing c) -> hello (set_publishing p c) = hello c.
Proof. intros Hp. unfold hello, advertised, signal_of. cbn. by rewrite Hp. Qed.

Lemma string_member_of_jobj l k s :
  (list_to_map l : gmap string json) !! k = Some (jstr s) -> string_member (jobj l) k = Some s.
Proof.
  intros Hk. unfold string_member, field. rewrite contains_jobj, members_jobj, Hk.
  cbn [value_or]. by rewrite is_string_jstr, string_of_jstr, bool_decide_true by by eexists.
Qed.

Lemma handle_api_version_2 c :
  handle_api_version (jobj [("version", jstr "2.0.0")]) c = set_api_version version_2 c.
Proof.
  unfold handle_api_version. rewrite is_object_jobj, (string_member_of_jobj _ _ "2.0.0"); [|by simplify_map_eq].
  f_equal.
Qed.

Lemma create_in_band i addr :
  contains i "jsonrpc" = true ->
  create_client i addr = Some (in_band (make_in_band (H := unit))).
Proof. intros Hi. unfold create_client. by rewrite (contains_is_object _ _ Hi), Hi. Qed.

Lemma handle_init_greets a c :
  contains (command_interfaces a) "jsonrpc" = true -> api_version c = version_2 ->
  handle_init (jobj [("streamId", jstr (local_stream_id a)); ("commandInterfaces", command_interfaces a)]) c
  = let c := greeted a c in if is_client c then do_hello c else c.
Proof.
  intros Ha Hv. unfold handle_init. rewrite is_object_jobj. cbn [negb].
  rewrite (string_member_of_jobj _ _ (local_stream_id a)) by by simplify_map_eq.
  rewrite contains_jobj. unfold field. rewrite members_jobj. cbn [list_to_map foldr fst snd].
  simplify_map_eq. rewrite create_in_band by done. cbn zeta.
  assert (Hg : set_interface (Some (in_band make_in_band)) (set_remote_stream_id (local_stream_id a) c)
               = greeted a c).
  { unfold greeted. rewrite <- Hv. by destruct c. }
  rewrite Hg. cbn [greeted is_client api_version set_interface set_remote_stream_id set_api_version].
  rewrite Hv. change (Semver.geb version_2 (Semver.mk_semver 2 0 0)) with true.
  by rewrite andb_true_r.
Qed.

Lemma make_available_announces sid sid' r :
  announced sid' (make_available (jstr sid) r).1 <-> sid' = sid \/ announced sid' r.
Proof.
  unfold make_available, announced, find_remote_signal, add_remote_signal.
  rewrite is_string_jstr, string_of_jstr.
  destruct (signals_by_id r !! sid) as [e|] eqn:E; cbn.
  - destruct (hidden e) eqn:Eh; cbn.
    + destruct (decide (sid' = sid)) as [->|Hne].
      * rewrite lookup_alter_eq, E. cbn. split; [by left|]. intros _. by eexists.
      * rewrite lookup_alter_ne by done. naive_solver.
    + naive_solver.
  - destruct (decide (sid' = sid)) as [->|Hne].
    + rewrite lookup_alter_eq, lookup_insert_eq. cbn. split; [by left|]. intros _. by eexists.
    + rewrite lookup_alter_ne, lookup_insert_ne by done. naive_solver.
Qed.

Lemma all_available ids : forall r,
  forall sid, announced sid (for_each make_available (jstr <$> ids) r).1 <-> sid ∈ ids \/ announced sid r.
Proof.
  induction ids as [|x ids IH]; intros r sid; cbn; [set_solver|].
  pose proof (make_available_announces x sid r) as Hx.
  destruct (make_available (jstr x) r) as [r1 es1]. specialize (IH r1 sid).
  destruct (for_each _ _ r1) as [r2 es2]. cbn in *. rewrite IH, Hx, elem_of_cons. tauto.
Qed.

Lemma handle_available_ids ids r :
  handle_available (jobj [("signalIds", jarr (jstr <$> ids))]) r
  = let '(r, es) := for_each make_available (jstr <$> ids) r in (r, es, None).
Proof.
  unfold handle_available, signal_ids. rewrite is_object_jobj, contains_jobj. unfold field.
  rewrite members_jobj. cbn [list_to_map foldr fst snd]. simplify_map_eq.
  unfold is_array. by rewrite view_jarr, elements_jarr.
Qed.

(** The end of a hello: the advertisement. *)
Lemma deliver_available ids c :
  attached c = true ->
  deliver (if bool_decide (ids = []) then [] else [ids_message "available" ids]) c
  = (set_remote (for_each make_available (jstr <$> ids) (remote c)).1 c,
     noticed <$> (for_each make_available (jstr <$> ids) (remote c)).2, None).
Proof.
  intros Hc. unfold deliver. case_bool_decide as Hi; [subst; by destruct c|].
  unfold ids_message. cbn [fmap list_fmap message_signal on_peer_signals].
  unfold on_peer_signal. rewrite Hc.
  change (on_peer_metadata_received to_uint64 0 "available" ?x c) with (lift (handle_available x (remote c)) c).
  rewrite handle_available_ids. destruct (for_each _ _ _) as [r es]. cbn. by rewrite app_nil_r.
Qed.

Lemma deliver_hello a c :
  attached c = true -> contains (command_interfaces a) "jsonrpc" = true ->
  exists r es,
    deliver (hello a) c =
      (set_remote r (let c := greeted a c in if is_client c then do_hello c else c), noticed <$> es, None) /\
    forall sid, announced sid r <-> sid ∈ advertised (publishing a) \/ announced sid (remote c).
Proof.
  intros Hc Ha. unfold hello, deliver. cbn [app fmap list_fmap message_signal on_peer_signals].
  unfold on_peer_signal at 1. rewrite Hc.
  change (on_peer_metadata_received to_uint64 0 "apiVersion" ?x ?y) with (quiet (handle_api_version x y)).
  rewrite handle_api_version_2. cbn [quiet]. unfold on_peer_signal at 1. cbn [attached set_api_version].
  rewrite Hc. change (on_peer_metadata_received to_uint64 0 "init" ?x ?y) with (quiet (handle_init x y)).
  rewrite handle_init_greets by done. cbn [quiet]. cbn zeta. change (greeted a (set_api_version version_2 c)) with (greeted a c).
  set (c1 := if is_client _ then _ else _).
  assert (Hc1 : attached c1 = true /\ remote c1 = remote c).
  { unfold c1. destruct (is_client _); [rewrite do_hello_sends|]; cbn; by rewrite Hc. }
  pose proof (deliver_available (advertised (publishing a)) c1 (proj1 Hc1)) as Hd. unfold deliver in Hd.
  rewrite (proj2 Hc1) in Hd. rewrite Hd. eexists _, _. split; [done|].
  intros sid. apply all_available.
Qed.

(** ** Commands over the connection *)

(** A client's request for a remote signal, as the message it sends. *)
Definition command (suffix sid : string) (c : connection) (i : in_band_client (H := unit)) : message :=
  metadata_message 0 "request"
    (request_object (next_id i) (String.append (remote_stream_id c) suffix) (jarr [jstr sid])).

(** The publishing operation behind a command. *)
Definition operation_of (sub : bool) : string -> publisher -> bool * publisher :=
  if sub then fun sid => subscribe sid true else fun sid => unsubscribe sid true.

Definition suffix_of (sub : bool) : string := if sub then ".subscribe" else ".unsubscribe".

(** The response that reports [b] for the single signal of request [n]. *)
Definition outcome_response (n : Z) (b : bool) : message :=
  metadata_message 0 "response" (response_params (jint n) (Ok (jarr [jbool b]))).

Lemma do_command_one (sub : bool) lsid sid p :
  do_command_interface lsid (String.append lsid (suffix_of sub)) (jarr [jstr sid]) p
  = let '(b, p) := operation_of sub sid p in (Ok (jarr [jbool b]), p).
Proof.
  unfold do_command_interface.
  assert (Hone : forall f, do_command f (jarr [jstr sid]) p
                 = let '(b, p) := f sid p in (Ok (jarr [jbool b]), p)).
  { intros f. unfold do_command, is_string, is_array. rewrite view_jarr, elements_jarr.
    cbn [each_signal]. rewrite is_string_jstr, string_of_jstr. by destruct (f sid p). }
  destruct sub; cbn [suffix_of operation_of].
  - rewrite bool_decide_true by done. apply Hone.
  - rewrite bool_decide_false by by intros ?%(inj (String.append lsid)).
    rewrite bool_decide_true by done. apply Hone.
Qed.

Lemma request_object_fields n method params :
  let o := request_object n method params in
  is_object o = true /\ string_member o "method" = Some method /\ field o "params" = params /\
  field o "id" = jint n.
Proof.
  cbn zeta. unfold request_object. rewrite is_object_jobj. split; [done|]. split.
  - apply string_member_of_jobj. by simplify_map_eq.
  - unfold field. rewrite members_jobj. by simplify_map_eq.
Qed.

Lemma serve_command (sub : bool) sid n c :
  attached c = true ->
  let '(b, p) := operation_of sub sid (publishing c) in
  on_peer_signal to_uint64 (message_signal (metadata_message 0 "request"
    (request_object n (String.append (local_stream_id c) (suffix_of sub)) (jarr [jstr sid])))) c
  = quiet (set_publishing (send (outcome_response n b) p) c).
Proof.
  intros Hc. unfold on_peer_signal. rewrite Hc. cbn [message_signal].
  change (on_peer_metadata_received to_uint64 0 "request" ?x ?y)
    with (handle_command_interface_request x y).
  destruct (request_object_fields n (String.append (local_stream_id c) (suffix_of sub)) (jarr [jstr sid]))
    as (Ho & Hm & Hp & Hi).
  unfold handle_command_interface_request, execute_request. rewrite Ho, Hm, Hp, do_command_one.
  destruct (operation_of sub sid (publishing c)) as [b p]. unfold value_of. by rewrite Ho, Hi.
Qed.

Lemma take_response n b c i h :
  attached c = true -> interface c = Some (in_band i) -> in_u 32 n -> requests i !! n = Some h ->
  on_peer_signal to_uint64 (message_signal (outcome_response n b)) c
  = quiet (set_interface (Some (in_band (mk_in_band (next_id i) (delete n (requests i))))) c).
Proof.
  intros Hc Hi Hn Hh. unfold on_peer_signal. rewrite Hc. cbn [message_signal outcome_response].
  change (on_peer_metadata_received to_uint64 0 "response" ?x ?y)
    with (quiet (handle_command_interface_response x y)).
  unfold handle_command_interface_response. rewrite Hi. unfold handle_response, response_id, response_params.
  rewrite contains_set_ne, field_set_ne, contains_jobj by done. unfold field at 1. rewrite members_jobj.
  simplify_map_eq. rewrite view_jint, wrap_small by done. by rewrite Hh.
Qed.

(** ** Properties *)

(** A connection before anything was exchanged. *)
Definition starting (c : connection) : Prop :=
  Publisher.sent (publishing c) = [] /\ remote c = empty_container /\
  contains (command_interfaces c) "jsonrpc" = true.

(** What a connection knows of [a] once both said hello. *)
Definition acquainted (a c : connection) : Prop :=
  Publisher.sent (publishing c) = hello c /\ hello_sent (publishing c) = true /\
  remote_stream_id c = local_stream_id a /\ api_version c = version_2 /\
  interface c = Some (in_band make_in_band) /\
  forall sid, announced sid (remote c) <-> sid ∈ advertised (publishing a).

Lemma nothing_announced sid : ~ announced sid empty_container.
Proof. intros (e & He & _). unfold find_remote_signal in He. cbn in He. by rewrite lookup_empty in He. Qed.

(** C8: the hello exchange comes to an end, with both sides acquainted.  The
    server speaks first, the client answers the server's greeting with its own,
    and nothing more is sent: each side said hello exactly once, knows the
    stream id and the version of the other and has a client of its command
    interface, and has announced to its application exactly the signals the
    other one had registered. *)
Theorem handshake_completes s c :
  is_client s = false -> is_client c = true -> starting s -> starting c ->
  let s1 := run s in
  let c1 := run c in
  Publisher.sent (publishing c1) = [] /\
  exists c2 es s2 es',
    deliver (Publisher.sent (publishing s1)) c1 = (c2, es, None) /\
    deliver (Publisher.sent (publishing c2)) s1 = (s2, es', None) /\
    acquainted s c2 /\ acquainted c s2.
Proof.
  intros Hs Hc (Hs1 & Hs2 & Hs3) (Hc1 & Hc2 & Hc3). cbn zeta. unfold run.
  cbn [is_client set_attached]. rewrite Hs, Hc. split; [done|].
  set (s1 := do_hello (set_attached true s)). set (c1 := set_attached true c).
  assert (Es : s1 = set_publishing (mk_publisher (locals (publishing s)) true (hello s)) (set_attached true s)).
  { unfold s1. rewrite do_hello_sends. cbn. by rewrite Hs1. }
  destruct (deliver_hello s c1 eq_refl Hs3) as (r & es & Hd & Hr).
  destruct (deliver_hello c s1 ltac:(by rewrite Es) Hc3) as (r' & es' & Hd' & Hr').
  set (c2 := set_remote r (do_hello (greeted s c1))).
  assert (Ec : c2 = set_remote r (set_publishing (mk_publisher (locals (publishing c)) true (hello c)) (greeted s c1))).
  { unfold c2. rewrite do_hello_sends. cbn. by rewrite Hc1. }
  exists c2, (noticed <$> es), (set_remote r' (greeted c s1)), (noticed <$> es').
  rewrite Es at 1. cbn [publishing set_publishing Publisher.sent]. split; [|split; [|split]].
  - rewrite Hd. cbn [is_client greeted set_interface set_remote_stream_id set_api_version c1 set_attached].
    by rewrite Hc.
  - rewrite Ec. cbn [publishing set_remote set_publishing Publisher.sent]. rewrite Hd', Es.
    cbn [is_client greeted set_interface set_remote_stream_id set_api_version set_publishing set_attached].
    by rewrite Hs.
  - rewrite Ec. refine (conj _ (conj _ (conj _ (conj _ (conj _ _))))); try done. intros sid.
    cbn [remote set_remote]. rewrite Hr. cbn [c1 set_attached remote].
    rewrite Hc2. pose proof (nothing_announced sid). tauto.
  - rewrite Es. refine (conj _ (conj _ (conj _ (conj _ (conj _ _))))); try done. intros sid.
    cbn [remote set_remote]. rewrite Hr', Es. cbn [set_publishing set_attached remote].
    rewrite Hs2. pose proof (nothing_announced sid). tauto.
Qed.

(** C9: a subscription of a remote signal travels the whole way: the
    application's first [subscribe] (or last [unsubscribe]) at one end sends one
    request, whose arrival performs exactly the explicit [subscribe] (or
    [unsubscribe]) of that signal at the other end and sends its outcome back,
    and the arrival of the response settles the request: the requests pending
    are again those of before. *)
Theorem remote_command_roundtrip (sub : bool) sid p a b e s i :
  attached a = true -> attached b = true -> remote_stream_id a = local_stream_id b ->
  interface a = Some (in_band i) -> in_u 32 (next_id i) -> requests i !! next_id i = None ->
  entry_at p (remote a) = Some (sid, e) -> RemoteSignal.signals (store (remote a)) !! p = Some s ->
  RemoteSignal.subscription_count s = (if sub then 0 else 1) ->
  let '(done, pub) := operation_of sub sid (publishing b) in
  exists a1 a2,
    (if sub then subscribe_remote p a else unsubscribe_remote p a) = quiet a1 /\
    Publisher.sent (publishing a1) = Publisher.sent (publishing a) ++ [command (suffix_of sub) sid a i] /\
    on_peer_signal to_uint64 (message_signal (command (suffix_of sub) sid a i)) b =
      quiet (set_publishing (send (outcome_response (next_id i) done) pub) b) /\
    on_peer_signal to_uint64 (message_signal (outcome_response (next_id i) done)) a1 = quiet a2 /\
    interface a2 = Some (in_band (mk_in_band (u32 (next_id i + 1)) (requests i))).
Proof.
  intros Ha Hb Hid Hi Hn Hfree He Hs Hcount.
  pose proof (serve_command sub sid (next_id i) b Hb) as Hserve.
  destruct (operation_of sub sid (publishing b)) as [done pub].
  set (h := RemoteSignal.mk_heap (<[p := RemoteSignal.set_count (if sub then 1 else 0) s]>
              (RemoteSignal.signals (store (remote a)))) (RemoteSignal.tables (store (remote a)))
              (RemoteSignal.next (store (remote a)))).
  set (i1 := mk_in_band (u32 (next_id i + 1)) (<[next_id i := tt]> (requests i))).
  set (a1 := set_interface (Some (in_band i1))
               (set_publishing (send (command (suffix_of sub) sid a i) (publishing a))
                  (set_remote (set_store h (remote a)) a))).
  exists a1, (set_interface (Some (in_band (mk_in_band (next_id i1) (delete (next_id i) (requests i1))))) a1).
  assert (He' : entry_at p (set_store h (remote a)) = Some (sid, e)) by exact He.
  split; [|split; [done|split; [|split]]].
  - assert (Hreq : request_command (suffix_of sub) sid (set_remote (set_store h (remote a)) a) = quiet a1).
    { unfold request_command. cbn [interface set_remote]. rewrite Hi. unfold in_band_request. by rewrite Hfree. }
    rewrite <- Hreq. unfold subscribe_remote, unsubscribe_remote, call_signal, RemoteSignal.on_signal,
      RemoteSignal.subscribe, RemoteSignal.unsubscribe.
    destruct sub; rewrite Hs, Hcount; cbn [fst snd]; unfold react; cbn [remote set_remote];
      by change (entry_at p ?x) with (entry_at p (set_store h (remote a))); rewrite He'.
  - unfold command. rewrite Hid. exact Hserve.
  - apply (take_response _ _ _ i1 tt); [done|done|done|]. cbn. by rewrite lookup_insert_eq.
  - cbn. by rewrite delete_insert_id.
Qed.

End Handshake.

(** ** Instances *)

#[local] Existing Instance jv_json.

(** A server with one signal and a client without. *)
Definition sample_server : connection :=
  Connection.add_local_signal 0
    (make false "server" None {[0%nat := LocalSignal.make "a" (jobj [])]}).

Definition sample_client : connection := make true "client" None ∅.

(** The client once the exchange is over. *)
Definition greeted_client : connection :=
  (deliver Datatypes.id (Publisher.sent (publishing (run sample_server))) (run sample_client)).1.1.

Lemma handshake_completes_witness :
  starting sample_server /\ starting sample_client /\
  exists c2 es s2 es',
    deliver Datatypes.id (Publisher.sent (publishing (run sample_server))) (run sample_client) = (c2, es, None) /\
    deliver Datatypes.id (Publisher.sent (publishing c2)) (run sample_server) = (s2, es', None) /\
    acquainted sample_server c2 /\ acquainted sample_client s2.
Proof.
  assert (Hs : starting sample_server) by by (split; [|split]; vm_compute).
  assert (Hc : starting sample_client) by by (split; [|split]; vm_compute).
  split; [done|]. split; [done|].
  exact (proj2 (handshake_completes Datatypes.id sample_server sample_client eq_refl eq_refl Hs Hc)).
Defined.

Lemma remote_command_roundtrip_witness :
  let a := greeted_client in
  let b := run sample_server in
  let i := make_in_band in
  attached a = true /\ advertised (publishing b) = ["a"] /\
  (operation_of true "a" (publishing b)).1 = true /\
  exists a1 a2,
    subscribe_remote 0 a = quiet a1 /\
    on_peer_signal Datatypes.id (message_signal (command ".subscribe" "a" a i)) b =
      quiet (set_publishing (send (outcome_response 1 true) (operation_of true "a" (publishing b)).2) b) /\
    on_peer_signal Datatypes.id (message_signal (outcome_response 1 true)) a1 = quiet a2 /\
    interface a2 = Some (in_band (mk_in_band 2 ∅)).
Proof.
  intros a b i.
  assert (Ha : attached a = true) by (vm_compute; reflexivity).
  assert (Hv : advertised (publishing b) = ["a"]) by (vm_compute; reflexivity).
  assert (Ho : (operation_of true "a" (publishing b)).1 = true) by (vm_compute; reflexivity).
  assert (Hid : remote_stream_id a = local_stream_id b) by (vm_compute; reflexivity).
  assert (Hi : interface a = Some (in_band i)) by (vm_compute; reflexivity).
  assert (He : entry_at 0 (remote a) = Some ("a", mk_entry false 0)) by (vm_compute; reflexivity).
  assert (Hs : RemoteSignal.signals (store (remote a)) !! 0%nat = Some (RemoteSignal.make "a"))
    by (vm_compute; reflexivity).
  split; [exact Ha|]. split; [exact Hv|]. split; [exact Ho|].
  assert (Hn : in_u 32 (next_id i)) by (cbn; unfold in_u; lia).
  pose proof (remote_command_roundtrip Datatypes.id true "a" 0 a b (mk_entry false 0)
                (RemoteSignal.make "a") i Ha eq_refl Hid Hi Hn eq_refl He Hs eq_refl) as Hw.
  destruct (operation_of true "a" (publishing b)) as [x pub]. cbn in Ho. subst x.
  destruct Hw as (a1 & a2 & H1 & _ & H3 & H4 & H5).
  exists a1, a2. split; [exact H1|]. split; [exact H3|]. split; [exact H4|exact H5].
Defined.
