(* ===== verification/Sources.v ===== *)
(** * The example sources

    [examples/server-source.cpp], [examples/client-source.cpp] and
    [examples/lazy-publish.cpp]: programs that publish a signal over a linear
    domain from an acquisition loop.  They are clients of the modelled library,
    so they are where its contracts meet: the metadata they build is what
    [Rounds] asks of a publishing side, and their publications follow the rule
    of the domain they declare.

    [system_clock::period] depends on the implementation and is a parameter, as
    is the representation of the samples that [std::sin] computes. *)
From S2P Require Import Prelude Json Metadata OrderedMap LinearTable.
From S2P Require MetadataBuilder LocalSignal LocalSignalContainer Publisher Subscriptions Peer.
From S2P Require Import RemoteSignal RemoteSignalContainer Receiver EndToEnd Synchrony Rounds.
From S2P Require Handshake.
From S2P Require StreamingProtocol.

(** [std::chrono::system_clock::period] *)
Class SystemClock := {
  period_num : Z;
  period_den : Z;
  period_range : 0 < period_num /\ 0 < period_den < 2 ^ 63 /\ period_num < 2 ^ 63
}.

Section Sources.
Context `{JL : JsonLib} `{SystemClock}.
Import MetadataBuilder.

(** [duration_cast<system_clock::duration>(1s).count()] *)
Definition one_second : Z := period_den / period_num.

Definition sample_rate : Z := 1000.

Definition block_rate : Z := 10.

(** ** Metadata *)

Definition unix_epoch : string := "1970-01-01T00:00:00.000Z".

Definition client_time_operations : list operation :=
  [op_data_type int64_t; op_unit seconds; op_linear_rule 0 (one_second / sample_rate);
   op_resolution period_num period_den; op_table "/Time"].

(** The servers also say where their time starts. *)
Definition server_time_operations : list operation :=
  [op_data_type int64_t; op_unit seconds; op_linear_rule 0 (one_second / sample_rate);
   op_resolution period_num period_den; op_origin unix_epoch; op_table "/Time"].

Definition value_operations : list operation :=
  [op_data_type real64_t; op_unit volts; op_range (double_of (-10)) (double_of 10); op_table "/Time"].

Definition time_signal (ops : list operation) : LocalSignal.local_signal :=
  LocalSignal.make "/Time" (metadata (build ops "Time")).

Definition value_signal (sid : string) : LocalSignal.local_signal :=
  LocalSignal.make sid (metadata (build value_operations "Value")).

(** The two signals, registered with a connection in this order. *)
Definition source (ops : list operation) (sid : string) (hello_sent : bool) (sent : list Peer.message)
    : Publisher.publisher :=
  Publisher.add_local_signal 1
    (Publisher.add_local_signal 0
       (Publisher.mk_publisher
          (LocalSignalContainer.fresh_locals (<[1%nat := value_signal sid]> {[0%nat := time_signal ops]}))
          hello_sent sent)).

(** ** The acquisition loops *)

Record loop := mk_loop { when : Z; tick : Z }.

(** One iteration, after the sleep: the time of the block and its samples;
    [wave] gives the bytes of [std::sin(t / 1000.0)]. *)
Definition iteration (wave : Z -> list Z) (st : loop) : published * loop :=
  let when := when st + one_second / block_rate in
  let n := sample_rate / block_rate in
  let samples := mjoin ((fun i => wave (u64 (tick st + Z.of_nat (S i)))) <$> seq 0 (Z.to_nat n)) in
  ((when, n, samples), mk_loop when (u64 (tick st + n))).

(** [n] blocks. *)
Fixpoint acquire (wave : Z -> list Z) (n : nat) (st : loop) : list published * loop :=
  match n with
  | O => ([], st)
  | S n =>
      let '(x, st) := iteration wave st in
      let '(xs, st) := acquire wave n st in
      (x :: xs, st)
  end.

(** The loop goes on whether a peer is subscribed or not: blocks nobody hears,
    then blocks a peer is subscribed to, and so on. *)
Fixpoint turns (wave : Z -> list Z) (ns : list (nat * nat)) (st : loop) : list phase :=
  match ns with
  | [] => []
  | (n, k) :: ns =>
      let '(ys, st) := acquire wave n st in
      let '(xs, st) := acquire wave k st in
      mk_phase ys xs :: turns wave ns st
  end.

(** [lazy-publish] acquires only while a peer is subscribed, from the current
    time, and publishes the vector as it was constructed. *)
Fixpoint lazy_acquire (n : nat) (when : Z) : list published :=
  match n with
  | O => []
  | S n =>
      let when := when + one_second / block_rate in
      let k := sample_rate / block_rate in
      (when, k, replicate (Z.to_nat (8 * k)) 0) :: lazy_acquire n when
  end.

Definition lazy_turns (ns : list (Z * nat)) : list phase :=
  (fun '(now, n) => mk_phase [] (lazy_acquire n now)) <$> ns.

(** The two sources' programs: the id of the value signal and, for the client,
    a domain without an origin. *)
Definition client_source (sent : list Peer.message) : Publisher.publisher :=
  source client_time_operations "/Value" true sent.

Definition server_source : Publisher.publisher :=
  source server_time_operations "/Channel1/Value" false [].

Definition lazy_source : Publisher.publisher := source server_time_operations "/Value" false [].

(** *** The thread of [lazy-publish]

    The slots on the value signal start and stop the loop.  Assigning to a
    [std::thread] that is joinable ends the program, and joining one that is not
    throws.  [exit] is indeterminate at first. *)
Inductive thread_error : Type := terminate | not_joinable.

Record lazy_thread := mk_lazy { joinable : bool; exit : option bool }.

Definition lazy_start : lazy_thread := mk_lazy false None.

Definition lazy_slot (e : LocalSignal.event) (th : lazy_thread) : result thread_error lazy_thread :=
  match e with
  | LocalSignal.on_subscribed => if joinable th then Throw terminate else Ok (mk_lazy true (Some false))
  | LocalSignal.on_unsubscribed => if joinable th then Ok (mk_lazy false (Some true)) else Throw not_joinable
  | _ => Ok th
  end.

Definition lazy_run (es : list LocalSignal.event) : result thread_error lazy_thread :=
  fold_left (fun r e => th <-? r ; lazy_slot e th) es (Ok lazy_start).

(** ** What is read of the metadata *)

Lemma one_second_range : 0 <= one_second < 2 ^ 63.
Proof.
  pose proof period_range as (H1 & H2 & _). unfold one_second. split; [apply Z.div_pos; lia|].
  apply Z.div_lt_upper_bound; nia.
Qed.

Lemma rate_divides a b : 0 <= a -> 0 < b -> 0 <= a / b <= a.
Proof. intros. split; [apply Z.div_pos; lia|apply Z.div_le_upper_bound; nia]. Qed.

(** Both lists of operations for the domain. *)
Definition time_operations (ops : list operation) : Prop := ops = client_time_operations \/ ops = server_time_operations.

Lemma time_reads ops :
  time_operations ops -> let m := metadata (build ops "Time") in
  rule m = linear_rule /\ table_id m = "/Time" /\
  linear_start_delta m = (Some 0, Some (one_second / sample_rate)) /\ Metadata.value_index m = Some 0.
Proof.
  intros Hops m. pose proof period_range as (H1 & H2 & H3). pose proof one_second_range.
  pose proof (rate_divides one_second sample_rate ltac:(lia) ltac:(done)).
  assert (Hin : Forall in_type ops).
  { destruct Hops as [-> | ->]; repeat (apply Forall_cons_2; [cbn; unfold in_s, in_u; try done; lia|]); constructor. }
  destruct (built_reads "Time" ops Hin) as (_ & Hr & _ & _ & _ & Hl & _ & _ & _ & Ht & Hv & _).
  fold m in Hr, Hl, Ht, Hv. rewrite Hr, Hl, Ht, Hv. by destruct Hops as [-> | ->].
Qed.

Lemma value_reads :
  let m := metadata (build value_operations "Value") in
  rule m = explicit_rule /\ table_id m = "/Time" /\ Metadata.sample_size m = 8.
Proof.
  intros m. assert (Hin : Forall in_type value_operations) by (repeat (apply Forall_cons_2; [done|]); constructor).
  destruct (built_reads "Value" value_operations Hin) as (_ & Hr & Hd & _ & _ & _ & _ & _ & _ & Ht & _).
  fold m in Hr, Hd, Ht. rewrite Hr, Ht. unfold Metadata.sample_size. by rewrite Hd.
Qed.

(** ** A source is what a subscription needs *)

Definition source_terms (ops : list operation) (sid : string) : terms :=
  mk_terms sid "/Time" 2 1 1 0 (metadata (build value_operations "Value")) (metadata (build ops "Time"))
    0 (one_second / sample_rate) 0.

Lemma source_agreeable ops sid :
  time_operations ops -> sid <> "" -> sid <> "/Time" -> agreeable (source_terms ops sid).
Proof.
  intros Hops H1 H2. destruct (time_reads ops Hops) as (T1 & T2 & T3 & T4). destruct value_reads as (V1 & V2 & V3).
  split; cbn [source_terms Rounds.sid Rounds.tid Rounds.n Rounds.m Rounds.mv Rounds.mt Rounds.start Rounds.delta Rounds.origin];
    rewrite ?V3; done.
Qed.

(** Registering does not depend on what was sent. *)
Lemma add_locals a p :
  Publisher.locals (Publisher.add_local_signal a p)
  = Publisher.locals (Publisher.add_local_signal a (Publisher.mk_publisher (Publisher.locals p) false [])).
Proof.
  unfold Publisher.add_local_signal. cbn [Publisher.locals].
  destruct (LocalSignalContainer.add_local_signal a (Publisher.locals p)) as [[n []] l]; [|done].
  destruct (_ !! a); [|done]. cbn. by destruct (Publisher.hello_sent p).
Qed.

Lemma add_sent a s n l p :
  LocalSignalContainer.add_local_signal a (Publisher.locals p) = (n, true, l) ->
  LocalSignalContainer.signals (Publisher.locals p) !! a = Some s ->
  Publisher.sent (Publisher.add_local_signal a p)
  = Publisher.sent p ++ (if Publisher.hello_sent p
                         then [Publisher.ids_message "available" [LocalSignal.sig_id s]] else []).
Proof.
  intros Ha Hs. unfold Publisher.add_local_signal. rewrite Ha, Hs. cbn.
  destruct (Publisher.hello_sent p); cbn; by rewrite ?app_nil_r.
Qed.

(** The entries of two signals, the domain first. *)
Definition time_entry : LocalSignalContainer.registered_local_signal :=
  LocalSignalContainer.mk_registered 0 1 false 0 false false false (Some 0%nat) 0 None None false.

Definition value_entry : LocalSignalContainer.registered_local_signal :=
  LocalSignalContainer.mk_registered 1 2 false 0 false false false None 0 (Some 1) (Some 0%nat) true.

Section Pair.
Context (st sv : LocalSignal.local_signal).
Context (Rt : rule (LocalSignal.sig_metadata st) = linear_rule) (Rv : rule (LocalSignal.sig_metadata sv) = explicit_rule).
Context (Tt : table_id (LocalSignal.sig_metadata st) = LocalSignal.sig_id st).
Context (Tv : table_id (LocalSignal.sig_metadata sv) = LocalSignal.sig_id st).
Context (Nt : LocalSignal.sig_id st <> "") (Nv : LocalSignal.sig_id sv <> LocalSignal.sig_id st).

Let both : gmap nat LocalSignal.local_signal := <[1%nat := sv]> {[0%nat := st]}.

Let time_table : gmap nat linear_table := {[0%nat := LinearTable.make (LocalSignal.sig_metadata st)]}.

Lemma registered_time hello sent0 :
  Publisher.locals (Publisher.add_local_signal 0
    (Publisher.mk_publisher (LocalSignalContainer.fresh_locals both) hello sent0))
  = LocalSignalContainer.mk_locals both time_table 1 {[1 := time_entry]} 2.
Proof using Rt Tt.
  rewrite add_locals. unfold Publisher.add_local_signal. cbn [Publisher.locals].
  change (LocalSignalContainer.add_local_signal 0 _) with
    (1, true, LocalSignalContainer.mk_locals both ∅ 0 {[1 := LocalSignalContainer.make_registered 0 1]} 2).
  change (LocalSignalContainer.signals _ !! 0%nat) with (Some st). cbv beta iota zeta.
  rewrite Rt, (bool_decide_false (linear_rule = explicit_rule)), (bool_decide_true (linear_rule = linear_rule)) by done.
  unfold Publisher.bind_domain, Publisher.domain_of.
  rewrite Tt, (bool_decide_true (LocalSignal.sig_id st = LocalSignal.sig_id st)), orb_true_r by done. reflexivity.
Qed.

Lemma registered_pair hello sent0 :
  Publisher.locals (Publisher.add_local_signal 1 (Publisher.add_local_signal 0
    (Publisher.mk_publisher (LocalSignalContainer.fresh_locals both) hello sent0)))
  = LocalSignalContainer.mk_locals both time_table 1 {[1 := time_entry; 2 := value_entry]} 3.
Proof using All.
  rewrite add_locals, registered_time. unfold Publisher.add_local_signal. cbn [Publisher.locals].
  change (LocalSignalContainer.add_local_signal 1 _) with
    (2, true, LocalSignalContainer.mk_locals both time_table 1
                {[1 := time_entry; 2 := LocalSignalContainer.make_registered 1 2]} 3).
  change (LocalSignalContainer.signals _ !! 1%nat) with (Some sv). cbv beta iota zeta.
  rewrite Rv, (bool_decide_true (explicit_rule = explicit_rule)), (bool_decide_false (explicit_rule = linear_rule)) by done.
  unfold Publisher.bind_domain, Publisher.domain_of.
  rewrite Tv, (bool_decide_false (LocalSignal.sig_id st = "")),
    (bool_decide_false (LocalSignal.sig_id st = LocalSignal.sig_id sv)) by congruence.
  cbn [orb]. set (l := LocalSignalContainer.update_entry _ _ _).
  assert (Hf : LocalSignalContainer.find_local_signal (LocalSignal.sig_id st) l = Some (1, time_entry)).
  { unfold LocalSignalContainer.find_local_signal. apply find_if_unique; [done|by apply bool_decide_true|].
    intros k e Hk Hid. destruct (decide (k = 1)) as [|Hne]; [done|]. exfalso.
    assert (Hr : LocalSignalContainer.registered l
                 = {[1 := time_entry; 2 := LocalSignalContainer.set_explicit true (LocalSignalContainer.make_registered 1 2)]})
      by reflexivity.
    rewrite Hr in Hk. apply lookup_insert_Some in Hk as [[E _]|[_ Hk]]; [by subst k|].
    apply lookup_singleton_Some in Hk as [<- <-]. apply bool_decide_eq_true in Hid. cbn in Hid. by apply Nv. }
  rewrite Hf. reflexivity.
Qed.

Lemma pair_sent hello sent0 :
  Publisher.sent (Publisher.add_local_signal 1 (Publisher.add_local_signal 0
    (Publisher.mk_publisher (LocalSignalContainer.fresh_locals both) hello sent0)))
  = sent0 ++ (if hello then [Publisher.ids_message "available" [LocalSignal.sig_id st];
                             Publisher.ids_message "available" [LocalSignal.sig_id sv]] else []).
Proof using Rt Tt.
  erewrite (add_sent 1 sv) by (rewrite registered_time; reflexivity).
  erewrite (add_sent 0 st) by reflexivity.
  assert (Publisher.hello_sent (Publisher.add_local_signal 0
      (Publisher.mk_publisher (LocalSignalContainer.fresh_locals both) hello sent0)) = hello) as ->.
  { unfold Publisher.add_local_signal. cbn. by destruct hello. }
  cbn. destruct hello; by rewrite ?app_nil_r, <- ?(assoc_L (++)).
Qed.
End Pair.

Lemma source_idle ops sid hello sent0 :
  time_operations ops -> sid <> "" -> sid <> "/Time" -> idle (source_terms ops sid) (source ops sid hello sent0).
Proof.
  intros Hops H1 H2. destruct (time_reads ops Hops) as (T1 & T2 & T3 & T4). destruct value_reads as (V1 & V2 & V3).
  unfold idle. unfold source. rewrite (registered_pair (time_signal ops) (value_signal sid)) by done.
  set (l := LocalSignalContainer.mk_locals _ _ _ _ _).
  assert (Hn : Subscriptions.names l = {[1 := ("/Time", metadata (build ops "Time"));
                                        2 := (sid, metadata (build value_operations "Value"))]}).
  { apply map_eq. intros i. rewrite Subscriptions.names_lookup. cbn [l LocalSignalContainer.registered].
    destruct (decide (i = 1)) as [->|N1]; [done|]. destruct (decide (i = 2)) as [->|N2]; [done|].
    cbn [LocalSignalContainer.registered]. by rewrite !lookup_insert_ne, !lookup_singleton_ne by done. }
  split; rewrite ?Hn; try done.
  - intros i j x y Hx Hy E. rewrite !lookup_insert_Some, !lookup_singleton_Some in Hx, Hy.
    by destruct Hx as [[<- <-]|[_ [<- <-]]], Hy as [[<- <-]|[_ [<- <-]]]; cbn in E; try congruence.
  - exists value_entry. by split_and!.
  - exists time_entry. by split_and!.
Qed.

(** ** What a peer learns

    A client registers its signals with a connection that has said hello; a
    server's connection says hello after they are registered. *)
Definition offer (ops : list operation) (sid : string) (hello_sent : bool) : Publisher.publisher :=
  if hello_sent then source ops sid true [] else Publisher.advertise (source ops sid false []).

Definition known (sid : string) : container :=
  mk_container (mk_heap (<[1%nat := RemoteSignal.make sid]> {[0%nat := RemoteSignal.make "/Time"]}) ∅ 2)
    (<[sid := mk_entry false 1]> {["/Time" := mk_entry false 0]}) ∅.

Lemma make_available_new x (c : container) :
  signals_by_id c !! x = None ->
  make_available (jstr x) c
  = (mk_container (mk_heap (<[next (store c) := RemoteSignal.make x]> (signals (store c))) (tables (store c)) (S (next (store c))))
       (<[x := mk_entry false (next (store c))]> (signals_by_id c)) (signals_by_signo c),
     [on_available (next (store c))]).
Proof.
  intros Hx. unfold make_available, add_remote_signal. rewrite is_string_jstr, string_of_jstr, Hx.
  cbn. unfold set_hidden. cbn. by rewrite alter_insert_eq.
Qed.

Lemma offer_locals ops sid hello :
  Publisher.locals (offer ops sid hello) = Publisher.locals (source ops sid hello []).
Proof.
  destruct hello; [done|]. unfold offer, Publisher.advertise. cbn. by case_bool_decide.
Qed.

Lemma session_available to_uint64 ids ts c :
  session to_uint64 (arrival (Publisher.ids_message "available" ids) :: ts) c
  = let '(c, es) := for_each make_available (jstr <$> ids) c in
    let '(c, es', err) := session to_uint64 ts c in (c, es ++ es', err).
Proof.
  cbn [session]. assert (receive to_uint64 (arrival (Publisher.ids_message "available" ids)) c
    = let '(c, es) := for_each make_available (jstr <$> ids) c in (c, es, None)) as ->.
  { rewrite <- Handshake.handle_available_ids. reflexivity. }
  by destruct (for_each _ _ _).
Qed.

Definition time_known : container :=
  mk_container (mk_heap {[0%nat := RemoteSignal.make "/Time"]} ∅ 1) {["/Time" := mk_entry false 0]} ∅.

Lemma time_made : make_available (jstr "/Time") empty_container = (time_known, [on_available 0]).
Proof. by apply make_available_new. Qed.

Lemma value_made sid : sid <> "/Time" -> make_available (jstr sid) time_known = (known sid, [on_available 1]).
Proof. intros Hs. rewrite make_available_new; [done|]. cbn. by rewrite lookup_singleton_ne. Qed.

Lemma offer_sent ops sid hello to_uint64 :
  time_operations ops -> sid <> "/Time" ->
  arrivals to_uint64 (Publisher.sent (offer ops sid hello)) empty_container
  = (known sid, [on_available 0; on_available 1], None).
Proof.
  intros Hops H2. destruct (time_reads ops Hops) as (T1 & T2 & _). destruct value_reads as (V1 & V2 & _).
  unfold arrivals, offer. destruct hello.
  - unfold source. rewrite (pair_sent (time_signal ops) (value_signal sid)) by done.
    change (LocalSignal.sig_id (time_signal ops)) with "/Time". change (LocalSignal.sig_id (value_signal sid)) with sid.
    cbn [app fmap list_fmap]. rewrite session_available. cbn [for_each fmap list_fmap].
    rewrite time_made, session_available. cbn [for_each fmap list_fmap]. by rewrite value_made.
  - assert (Publisher.sent (Publisher.advertise (source ops sid false []))
            = [Publisher.ids_message "available" ["/Time"; sid]]) as ->.
    { pose proof (registered_pair (time_signal ops) (value_signal sid) T1 V1 T2 V2 ltac:(done) H2 false []) as Hl.
      pose proof (pair_sent (time_signal ops) (value_signal sid) T1 T2 false []) as Hs.
      fold (source ops sid false []) in Hl, Hs. unfold Publisher.advertise, Publisher.signal_of. rewrite Hl.
      cbn [Publisher.sent]. set (ids := omap _ _). assert (ids = ["/Time"; sid]) as -> by reflexivity.
      rewrite bool_decide_false by done. cbn [Publisher.sent Publisher.send]. by rewrite Hs. }
    cbn [fmap list_fmap]. rewrite session_available. cbn [for_each fmap list_fmap]. by rewrite time_made, value_made.
Qed.

Lemma known_sound sid : sid <> "/Time" -> well_formed (known sid).
Proof.
  intros Hs. pose proof (make_available_sound (jstr "/Time") empty_container well_formed_empty) as H1.
  rewrite time_made in H1. pose proof (make_available_sound (jstr sid) time_known (proj1 H1)) as H2.
  rewrite value_made in H2 by done. apply H2.
Qed.

Lemma known_expecting ops sid :
  sid <> "/Time" -> expecting (source_terms ops sid) (mk_entry false 1) (mk_entry false 0) (known sid).
Proof.
  intros H2. split; [|intros j; cbn; by rewrite lookup_empty..].
  exists (RemoteSignal.make sid), (RemoteSignal.make "/Time"). split.
  - by apply known_sound.
  - cbn. by rewrite lookup_insert_eq.
  - cbn. by rewrite lookup_insert_ne.
  - done.
  - done.
  - intros k x s t Hk Hne Hs Ht. exfalso. cbn in Hs.
    apply lookup_insert_Some in Hs as [[_ <-]|[_ Hs]]; [done|]. by apply lookup_singleton_Some in Hs as [_ <-].
Qed.

(** ** What is acquired *)

Definition block : Z := one_second / block_rate.

Lemma interval_range : 0 <= block.
Proof. pose proof one_second_range. apply (rate_divides one_second block_rate); [lia|done]. Qed.

Lemma samples_size (f : nat -> list Z) l : (forall i, size_of (f i) = 8) -> size_of (mjoin (f <$> l)) = 8 * size_of l.
Proof.
  intros Hf. induction l as [|i l IH]; [done|].
  change (mjoin (f <$> i :: l)) with (f i ++ mjoin (f <$> l)). rewrite size_of_app, Hf, IH. unfold size_of. cbn [length]. lia.
Qed.

Lemma acquired_publishable wave n : forall st,
  (forall t, size_of (wave t) = 8) -> - 2 ^ 63 <= when st -> when st + Z.of_nat n * block < 2 ^ 63 ->
  Forall (publishable 8) (acquire wave n st).1 /\ when (acquire wave n st).2 = when st + Z.of_nat n * block.
Proof.
  induction n as [|n IH]; intros st Hw H0 Hn; [cbn; split; [done|lia]|].
  pose proof interval_range. cbn [acquire]. unfold iteration. cbv zeta. fold block.
  set (st1 := mk_loop _ _). specialize (IH st1 Hw). change (when st1) with (when st + block) in IH.
  destruct (acquire wave n st1) as [xs st2]. cbn [fst snd] in *.
  destruct IH as [IH1 IH2]; [lia..|]. split; [|lia]. constructor; [|done].
  split; [unfold in_s; lia|]. split; [done|]. by rewrite samples_size.
Qed.

Lemma lazily_publishable n : forall now,
  - 2 ^ 63 <= now -> now + Z.of_nat n * block < 2 ^ 63 -> Forall (publishable 8) (lazy_acquire n now).
Proof.
  induction n as [|n IH]; intros now H0 Hn; cbn [lazy_acquire]; constructor; pose proof interval_range; fold block.
  - split; [unfold in_s; lia|]. split; [done|]. unfold size_of. by rewrite length_replicate.
  - apply IH; lia.
Qed.

(** The number of blocks. *)
Definition blocks (ns : list (nat * nat)) : Z := foldr (fun x k => Z.of_nat x.1 + Z.of_nat x.2 + k) 0 ns.

Lemma blocks_nonneg ns : 0 <= blocks ns.
Proof. unfold blocks. induction ns as [|x ns IH]; cbn [foldr]; lia. Qed.

Lemma turns_publishable wave ns : forall st,
  (forall t, size_of (wave t) = 8) -> - 2 ^ 63 <= when st -> when st + blocks ns * block < 2 ^ 63 ->
  Forall (fun x => Forall (publishable 8) (heard x)) (turns wave ns st).
Proof.
  induction ns as [|[n k] ns IH]; intros st Hw H0 Hn; [done|]. cbn [turns].
  change (blocks ((n, k) :: ns)) with (Z.of_nat n + Z.of_nat k + blocks ns) in Hn.
  pose proof interval_range. pose proof (Z.mul_nonneg_nonneg _ block (blocks_nonneg ns) ltac:(done)).
  pose proof (Z.mul_nonneg_nonneg (Z.of_nat n) block ltac:(lia) ltac:(done)).
  pose proof (Z.mul_nonneg_nonneg (Z.of_nat k) block ltac:(lia) ltac:(done)). rewrite !Z.mul_add_distr_r in Hn.
  destruct (acquired_publishable wave n st Hw) as [_ Hw1]; [lia..|].
  destruct (acquire wave n st) as [ys st1]. cbn [fst snd] in Hw1.
  destruct (acquired_publishable wave k st1 Hw) as [Hp Hw2]; [lia..|].
  destruct (acquire wave k st1) as [xs st2]. cbn [fst snd] in *. constructor; [done|]. apply IH; [done|lia..].
Qed.

(** ** From the offer on *)

Lemma offer_streams ops sid hello to_uint64 xss :
  time_operations ops -> sid <> "" -> sid <> "/Time" ->
  Forall (fun x => Forall (publishable 8) (heard x)) xss ->
  let '(ok, p) := rounds (source_terms ops sid) xss (offer ops sid hello) in
  ok = true /\ exists c es, arrivals to_uint64 (Publisher.sent p) empty_container = (c, es, None) /\
    delivered 1 es = concat (heard <$> xss).
Proof.
  intros Hops H1 H2 Hx. destruct value_reads as (_ & _ & V3).
  assert (Hi : idle (source_terms ops sid) (offer ops sid hello)).
  { unfold idle. rewrite offer_locals. by apply source_idle. }
  pose proof (rounds_deliver to_uint64 (source_terms ops sid) _ _ xss _ _ (source_agreeable ops sid Hops H1 H2) Hi
    (known_expecting ops sid H2)) as Hr. cbn [source_terms mv] in Hr. rewrite V3 in Hr. specialize (Hr Hx).
  destruct (rounds _ _ _) as [ok p]. destruct Hr as (-> & ms & c & es & Hs & Ha & Hd & _). split; [done|].
  exists c, ([on_available 0; on_available 1] ++ es).
  pose proof (offer_sent ops sid hello to_uint64 Hops H2) as Ho. unfold arrivals in *.
  by rewrite Hs, fmap_app, (session_app _ _ _ _ _ _ Ho), Ha.
Qed.

(** ** Economy

    Blocks follow the rule of the domain, so that the domain is sent at most once
    after each subscription. *)

Lemma announcement_length j s i : length (announcement j s i) = 2%nat.
Proof. done. Qed.

(** The publishing side of a route. *)
Definition pub_route (k : terms) : route :=
  mk_route (al k) (Rounds.n k) (m k) (td k) 0 0 0 (Metadata.sample_size (mv k)).

Lemma source_subscribed k p :
  agreeable k -> idle k p ->
  let p' := (Publisher.subscribe (Rounds.sid k) true p).2 in
  exists e t ms, registered_as (pub_route k) e (Publisher.locals p') /\
    LocalSignalContainer.tables (Publisher.locals p') !! td k = Some t /\ LinearTable.delta t = Rounds.delta k /\
    Publisher.sent p' = Publisher.sent p ++ ms /\ length ms = 4%nat.
Proof.
  intros Hk Hi p'. pose proof (subscribe_engages k p Hk Hi) as Heng. fold p' in Heng.
  destruct (idle_offered k p Hk Hi) as (e & d & sv & st & Ho & Hal & Hmv & Hmt).
  destruct (subscribe_sends _ _ _ _ _ _ _ _ _ _ _ _ Ho) as (Hsent & _ & Ht & e' & He' & Hx & Hc & Hs & Hd).
  fold p' in Hsent, Ht, He'. destruct (pd_table _ _ _ _ Hi) as [t0 Ht0].
  exists e', (LinearTable.update (LocalSignal.sig_metadata st) t0), (announcement (m k) st (LC.value_index d) ++ announcement (Rounds.n k) sv (LC.value_index e)).
  destruct Heng as [HN Hnames (e1 & He1 & E1 & E2 & _) Hdom Htab]. rewrite He' in He1. injection He1 as <-.
  split; [|split; [by rewrite Ht, lookup_alter_eq, Ht0|split; [|by rewrite Hsent]]].
  - split_and!; try done. intros j x Hj Hxa. symmetry.
    eapply (HN (Rounds.n k) j); [exact (proj1 Hnames)| |done].
    rewrite Subscriptions.names_lookup, Hj. cbn. rewrite Hxa. cbn [pub_route local].
    destruct Hnames as [Hn1 _]. rewrite Subscriptions.names_lookup, He' in Hn1. cbn in Hn1. by rewrite E1 in Hn1.
  - unfold LinearTable.update. rewrite Hmt, (ag_linear k Hk). by destruct (Metadata.value_index _).
Qed.

Definition samples_per_block : Z := sample_rate / block_rate.

(** The clock's tick divides a sample interval. *)
Definition exact_rate : Prop := one_second / sample_rate * samples_per_block = block.

Lemma value_at_next i t : value_at (s64 (i + samples_per_block)) t = s64 (value_at i t + LinearTable.delta t * samples_per_block).
Proof.
  rewrite !value_at_exact. rewrite swrap_add_l by lia.
  rewrite <- (swrap_add_r 64 _ (_ * (s64 _ - _))) by lia.
  rewrite <- (swrap_mul_r 64 (LinearTable.delta t) (s64 _ - _)) by lia.
  replace (s64 (i + samples_per_block) - LinearTable.index t) with (s64 (i + samples_per_block) + - LinearTable.index t) by lia.
  rewrite swrap_add_l, swrap_mul_r, swrap_add_r by lia. f_equal. lia.
Qed.

(** Once the domain is where the last block was, only samples are sent. *)
Lemma blocks_send w wave n : forall p e t st,
  exact_rate -> registered_as w e (Publisher.locals p) ->
  LocalSignalContainer.tables (Publisher.locals p) !! local_table w = Some t ->
  LinearTable.delta t = one_second / sample_rate ->
  value_at (LC.value_index e) t = when st + block ->
  - 2 ^ 63 <= when st -> when st + Z.of_nat n * block < 2 ^ 63 ->
  Publisher.sent (foldl (fun p x => publish w x p) p (acquire wave n st).1)
  = Publisher.sent p ++ ((fun x => Peer.data_message (number w) x.2) <$> (acquire wave n st).1).
Proof.
  induction n as [|n IH]; intros p e t st Hx He Ht Hd Hv H0 Hn; [by rewrite app_nil_r|].
  pose proof interval_range as Hb. cbn [acquire]. unfold iteration. cbv zeta. fold block. fold samples_per_block.
  set (xs := mjoin _). set (st1 := mk_loop (when st + block) _). specialize (IH (publish w (when st + block, samples_per_block, xs) p)).
  destruct (publish_sends w p e t (when st + block) samples_per_block xs He Ht) as (S1 & R1 & T1).
  rewrite Hv, Z.eqb_refl in S1, T1. cbn [negb app] in S1, T1.
  specialize (IH _ _ st1 Hx R1 T1). cbn [LinearTable.delta drive_to LC.value_index LC.set_value_index] in IH.
  change (when st1) with (when st + block) in IH.
  destruct (acquire wave n st1) as [ys st2] eqn:Ea. cbn [fst] in *. cbn [foldl fmap list_fmap].
  destruct (decide (n = O)) as [->|Hn0].
  { injection Ea as <- _. cbn [foldl fmap list_fmap]. cbn [publish]. by rewrite S1. }
  rewrite IH; [|done| |lia|lia].
  - cbn [publish]. rewrite S1. cbn [snd]. by rewrite <- (assoc_L (++)).
  - change (value_at ?i (drive_to ?j t)) with (value_at i t). rewrite value_at_next, Hv, Hd, Hx.
    apply swrap_small; [done|]. unfold in_s. nia.
Qed.

(** The first block may move the domain. *)
Lemma run_length w wave n p e t st :
  exact_rate -> registered_as w e (Publisher.locals p) ->
  LocalSignalContainer.tables (Publisher.locals p) !! local_table w = Some t ->
  LinearTable.delta t = one_second / sample_rate ->
  - 2 ^ 63 <= when st -> when st + Z.of_nat n * block < 2 ^ 63 ->
  exists ms, Publisher.sent (foldl (fun p x => publish w x p) p (acquire wave n st).1) = Publisher.sent p ++ ms /\
    (length ms <= n + 1)%nat.
Proof.
  destruct n as [|n]; intros Hx He Ht Hd H0 Hn; [exists []; split; [by rewrite app_nil_r|cbn; lia]|].
  pose proof interval_range as Hb. cbn [acquire]. unfold iteration. cbv zeta. fold block. fold samples_per_block.
  set (xs := mjoin _). set (st1 := mk_loop (when st + block) _).
  destruct (publish_sends w p e t (when st + block) samples_per_block xs He Ht) as (S1 & R1 & T1).
  set (p1 := Publisher.publish_data _ _ _ _ p) in *.
  set (moved := negb _) in *. set (t1 := if moved then _ else t) in *.
  assert (Hv : value_at (LC.value_index e) t1 = when st + block /\ LinearTable.delta t1 = LinearTable.delta t).
  { unfold t1, moved. destruct (Z.eqb_spec (when st + block) (value_at (LC.value_index e) t)) as [E|E]; cbn; [done|].
    split; [|done]. rewrite value_at_exact. cbn. rewrite Z.sub_diag, Z.mul_0_r, Z.add_0_r.
    apply swrap_small; [done|]. unfold in_s. nia. }
  destruct Hv as [Hv Hd1].
  pose proof (blocks_send w wave n p1 _ _ st1 Hx R1 T1) as Hs.
  cbn [LinearTable.delta drive_to LC.value_index LC.set_value_index] in Hs. change (when st1) with (when st + block) in Hs.
  assert (Hlen : length (acquire wave n st1).1 = n).
  { generalize st1. clear. induction n as [|n IH]; intros st; [done|]. cbn [acquire]. destruct (iteration wave st) as [x s1].
    specialize (IH s1). destruct (acquire wave n s1). cbn in *. by rewrite IH. }
  destruct (acquire wave n st1) as [ys st2] eqn:Ea. cbn [fst] in *. cbn [foldl publish]. fold p1.
  destruct (decide (n = O)) as [->|Hn0].
  { injection Ea as <- _. cbn [foldl]. rewrite S1. eexists. split; [done|]. destruct moved; cbn; lia. }
  rewrite Hs; [|by rewrite Hd1| |lia|lia].
  - rewrite S1, <- (assoc_L (++)). eexists. split; [done|]. rewrite !length_app, length_fmap, (Hlen : length (A := Z * Z * list Z) ys = n). destruct moved; cbn; lia.
  - change (value_at ?i (drive_to ?j t1)) with (value_at i t1). rewrite value_at_next, Hv, Hd1, Hd, Hx.
    apply swrap_small; [done|]. unfold in_s. nia.
Qed.

(** ** Properties *)

(** C3: the example sources work.  A program registers the signals of
    [server-source] or [client-source] with a connection, before or after its
    hello, and runs the acquisition loop for any number of blocks, while a peer
    subscribes to the value signal and gives it back any number of times.  The
    requests are accepted; and a peer that knows nothing at first and receives
    everything the connection sent, without a failure, obtains exactly the
    blocks that were acquired while it was subscribed, each with the time it was
    acquired at, provided the clock stays within 64 bits. *)
Theorem source_streams ops sid hello to_uint64 wave ns st :
  time_operations ops -> sid <> "" -> sid <> "/Time" ->
  (forall t, size_of (wave t) = 8) -> - 2 ^ 63 <= when st -> when st + blocks ns * block < 2 ^ 63 ->
  let '(ok, p) := rounds (source_terms ops sid) (turns wave ns st) (offer ops sid hello) in
  ok = true /\ exists c es, arrivals to_uint64 (Publisher.sent p) empty_container = (c, es, None) /\
    delivered 1 es = concat (heard <$> turns wave ns st).
Proof. intros. apply offer_streams; try done. by apply turns_publishable. Qed.

(** C4: when the clock's tick divides the sample interval, a subscription of [n]
    blocks costs at most seven messages besides the blocks: four that announce
    the two signals, one that places the domain, two that take the signals back.
    In between the domain follows from the rule. *)
Theorem turn_economy ops sid wave n st ys p :
  exact_rate -> time_operations ops -> sid <> "" -> sid <> "/Time" -> idle (source_terms ops sid) p ->
  - 2 ^ 63 <= when st -> when st + Z.of_nat n * block < 2 ^ 63 ->
  exists ms, Publisher.sent (round (source_terms ops sid) (mk_phase ys (acquire wave n st).1) p).2 = Publisher.sent p ++ ms /\
    (length ms <= n + 7)%nat.
Proof.
  intros Hx Hops H1 H2 Hi H0 Hn. set (k := source_terms ops sid) in *. pose proof (source_agreeable ops sid Hops H1 H2) as Hk.
  fold k in Hk. unfold round. cbn [unheard heard]. destruct (publications_idle k ys p Hi) as [Hi1 Hs1].
  set (p1 := publications k ys p) in *. destruct (source_subscribed k p1 Hk Hi1) as (e & t & ms & He & Ht & Hd & Hs2 & Hl).
  pose proof (subscribe_engages k p1 Hk Hi1) as Heng.
  destruct (Publisher.subscribe (Rounds.sid k) true p1) as [ok p2]. cbn [snd] in *.
  destruct (run_length (pub_route k) wave n p2 e t st Hx He Ht Hd H0 Hn) as (ms2 & Hs3 & Hl2).
  rewrite (publications_publish k (pub_route k) _ p2 eq_refl) in Hs3.
  destruct (unsubscribe_sends k _ Hk (publications_engaged k (acquire wave n st).1 p2 Hk Heng)) as (p3 & Hu & Hs4 & _).
  rewrite Hu. cbn [snd]. exists (ms ++ ms2 ++ withdrawal k). rewrite Hs4, Hs3, Hs2, Hs1, <- !(assoc_L (++)).
  split; [done|]. rewrite !length_app, Hl. cbn [withdrawal length]. lia.
Qed.

(** [lazy-publish] *)
Theorem lazy_source_streams to_uint64 ns :
  Forall (fun x => - 2 ^ 63 <= x.1 /\ x.1 + Z.of_nat x.2 * block < 2 ^ 63) ns ->
  let '(ok, p) := rounds (source_terms server_time_operations "/Value") (lazy_turns ns) (Publisher.advertise lazy_source) in
  ok = true /\ exists c es, arrivals to_uint64 (Publisher.sent p) empty_container = (c, es, None) /\
    delivered 1 es = concat (heard <$> lazy_turns ns).
Proof.
  intros Hn. apply (offer_streams server_time_operations "/Value" false); [by right|done|done|]. unfold lazy_turns. apply Forall_fmap.
  eapply Forall_impl; [exact Hn|]. intros [now n] [H1 H2]. by apply lazily_publishable.
Qed.

Lemma lazy_skip es : forall r,
  fold_left (fun r e => th <-? r ; lazy_slot e th) es r
  = fold_left (fun r e => th <-? r ; lazy_slot e th) (LocalSignal.subscriptions es) r.
Proof.
  induction es as [|e es IH]; intros r; [done|]. cbn [fold_left LocalSignal.subscriptions List.filter].
  destruct e; cbn [fold_left]; rewrite IH; try done; by destruct r.
Qed.

Lemma lazy_alternating b l :
  LocalSignal.alternating b l -> exists e, fold_left (fun r e => th <-? r ; lazy_slot e th) l (Ok lazy_start) = Ok (mk_lazy b e) /\
    (b = true -> e = Some false).
Proof.
  induction 1 as [|l _ (e & IH & _)|l _ (e & IH & _)]; [by eexists| |]; rewrite fold_left_app, IH; by eexists.
Qed.

(** The acquisition thread of [lazy-publish] runs exactly while the value signal
    is subscribed, whatever its peers do: no thread is started over a running
    one, and none is joined that does not run. *)
Theorem lazy_thread_follows st s sg :
  LocalSignal.good st -> LocalSignal.signals st !! s = Some sg ->
  exists e, lazy_run (LocalSignal.events sg) = Ok (mk_lazy (LocalSignal.is_subscribed sg) e) /\
    (LocalSignal.is_subscribed sg = true -> e = Some false).
Proof.
  intros [_ Hg] Hs. destruct (Hg s sg Hs) as [_ Ha]. unfold lazy_run. rewrite lazy_skip. by apply lazy_alternating.
Qed.
End Sources.

(** ** An instance *)

Section Witness.
#[local] Existing Instance jv_json.

(** Nanoseconds, as on Linux. *)
#[local] Instance nanoseconds : SystemClock.
Proof. refine {| period_num := 1; period_den := 1000000000 |}. by split_and!. Defined.

(** Two turns, with a block nobody hears before the second one. *)
Lemma source_streams_witness :
  let st := mk_loop 1700000000000000000 0 in
  let ns := [(0%nat, 2%nat); (1%nat, 1%nat)] in
  let '(ok, p) := rounds (source_terms server_time_operations "/Channel1/Value") (turns (le_bytes 8) ns st)
                    (offer server_time_operations "/Channel1/Value" false) in
  ok = true /\ exists c es, arrivals Datatypes.id (Publisher.sent p) empty_container = (c, es, None) /\
    delivered 1 es = concat (heard <$> turns (le_bytes 8) ns st).
Proof.
  intros st ns.
  assert (Hw : forall t, size_of (le_bytes 8 t) = 8) by (intros t; len).
  assert (H1 : - 2 ^ 63 <= when st) by (by vm_compute).
  assert (H2 : when st + blocks ns * block < 2 ^ 63) by (by vm_compute).
  exact (source_streams server_time_operations "/Channel1/Value" false Datatypes.id (le_bytes 8) ns st
           (or_intror eq_refl) ltac:(discriminate) ltac:(discriminate) Hw H1 H2).
Defined.

Lemma turn_economy_witness :
  let st := mk_loop 1700000000000000000 0 in
  exists ms, Publisher.sent (round (source_terms server_time_operations "/Channel1/Value")
                               (mk_phase [] (acquire (le_bytes 8) 2 st).1) server_source).2
             = Publisher.sent server_source ++ ms /\ (length ms <= 9)%nat.
Proof.
  intros st.
  assert (Hx : exact_rate) by (by vm_compute).
  assert (Hs : time_operations server_time_operations) by (by right).
  assert (Hi : idle (source_terms server_time_operations "/Channel1/Value") server_source)
    by (apply source_idle; [exact Hs|discriminate|discriminate]).
  assert (H1 : - 2 ^ 63 <= when st) by (by vm_compute).
  assert (H2 : when st + Z.of_nat 2 * block < 2 ^ 63) by (by vm_compute).
  exact (turn_economy server_time_operations "/Channel1/Value" (le_bytes 8) 2 st [] server_source Hx Hs
           ltac:(discriminate) ltac:(discriminate) Hi H1 H2).
Defined.
End Witness.
