(* ===== verification/CanSource.v ===== *)
(** * Structure-valued data: CAN messages

    [examples/can-source.cpp] and [examples/can_message.hpp]: a structure-valued
    signal over a domain that is itself explicit.  The metadata describe the
    memory layout of the packed [can_message], which is what is published. *)
From S2P Require Import Prelude Json Metadata OrderedMap.
From S2P Require MetadataBuilder LocalSignal LocalSignalContainer Publisher Peer RemoteSignal Sources.
Module LC := LocalSignalContainer.

(** ** can_message

    Packed, so its members follow each other; the machine is little-endian. *)
Record can_message := mk_can_message {
  message_id : Z;
  payload_length : Z;
  payload : list Z
}.

Definition well_typed (m : can_message) : Prop :=
  in_u 32 (message_id m) /\ in_u 8 (payload_length m) /\ length (payload m) = 64%nat /\ Forall is_byte (payload m).

Definition can_bytes (m : can_message) : list Z :=
  le_bytes 4 (message_id m) ++ le_bytes 1 (payload_length m) ++ payload m.

(** [std::memcpy(message.payload.data(), "helloworld", 10)] over zeros. *)
Definition hello_world : list Z := [104; 101; 108; 108; 111; 119; 111; 114; 108; 100].

Definition message : can_message :=
  mk_can_message 4660 10 (hello_world ++ replicate 54 0).

Section CanSource.
Context `{JL : JsonLib} `{Sources.SystemClock}.
Import MetadataBuilder.

(** ** Metadata *)

Definition time_operations : list operation :=
  [op_data_type uint64_t; op_unit nanoseconds; op_origin Sources.unix_epoch; op_table "/Time"].

Definition can_fields : list (string * string * option Z) :=
  [("ArbId", int32_t, None); ("Length", int8_t, None); ("Data", uint8_t, Some 64)].

Definition can_operations : list operation :=
  op_data_type struct_t :: ((fun f => op_struct_field (built_field f)) <$> can_fields) ++
  [op_unit volts; op_range (double_of (-10)) (double_of 10); op_table "/Time"].

Definition time_metadata : json := metadata (build time_operations "Time").

Definition can_metadata : json := metadata (build can_operations "CAN").

(** ** The acquisition loop

    [time_signal] is at address 0 and [can_signal] at address 1; [mss] is drawn
    by the random engine. *)

Definition one_millisecond : Z := Sources.period_den / (Sources.period_num * 1000).

(** [duration_cast<duration<std::uint64_t, std::nano>>(when.time_since_epoch())]:
    the conversion factor is a reduced ratio, and the count is unsigned. *)
Definition nanoseconds_of (when : Z) : Z :=
  let num := Sources.period_num * 1000000000 in
  let den := Sources.period_den in
  let g := Z.gcd num den in
  u64 (u64 when * (num / g)) / (den / g).

Definition iteration (mss : Z) (st : Z * Publisher.publisher) : Z * Publisher.publisher :=
  let '(when, p) := st in
  let when := when + mss * one_millisecond in
  let p := Publisher.publish_data 0 0 0 (le_bytes 8 (nanoseconds_of when)) p in
  let p := Publisher.publish_data 1 0 0 (can_bytes message) p in
  (when, p).

(** ** Lemmas *)

Lemma can_time_reads :
  rule time_metadata = explicit_rule /\ table_id time_metadata = "/Time" /\
  Metadata.data_type time_metadata = uint64_t /\ Metadata.sample_size time_metadata = 8.
Proof.
  assert (Hin : Forall in_type time_operations) by (repeat (apply Forall_cons_2; [done|]); constructor).
  destruct (built_reads "Time" time_operations Hin) as (_ & Hr & Hd & _ & _ & _ & _ & _ & _ & Ht & _).
  fold time_metadata in Hr, Hd, Ht. rewrite Hr, Ht. unfold Metadata.sample_size. by rewrite Hd.
Qed.

(** The bytes of a sample, cut as the metadata's structure fields say. *)
Fixpoint cut (fields : list json) (bs : list Z) : list (list Z) :=
  match fields with
  | [] => []
  | f :: fields =>
      let n := Z.to_nat (field_size f) in
      take n bs :: cut fields (drop n bs)
  end.

Lemma metadata_build nm ops : metadata (build ops nm) = build ops nm.
Proof.
  destruct (r_definition _ _ (represents_build ops nm)) as [Hc%contains_is_object _].
  unfold metadata. by rewrite Hc.
Qed.

Lemma emplace_all_built fs :
  Forall (fun f => utf8_text f.1.1 = true /\ utf8_text f.1.2 = true) fs ->
  emplace_all struct_field (built_field <$> fs) = Ok (built_field <$> fs).
Proof.
  intros Hfs. transitivity (Ok (E := json_exception) (object_or_empty <$> (built_field <$> fs))).
  - apply emplace_all_printable. intros x ([[nm type] size] & -> & Hin)%list_elem_of_fmap.
    rewrite Forall_forall in Hfs. destruct (Hfs _ Hin). by apply printable_built.
  - f_equal. rewrite <- list_fmap_compose. apply list_fmap_ext. intros _ f _. apply built_field_object.
Qed.

Lemma can_reads :
  rule can_metadata = explicit_rule /\ table_id can_metadata = "/Time" /\
  Metadata.data_type can_metadata = struct_t /\ Metadata.sample_size can_metadata = 69 /\
  struct_fields can_metadata = Ok (built_field <$> can_fields).
Proof.
  assert (Hin : Forall in_type can_operations) by (repeat (apply Forall_cons_2; [done|]); constructor).
  destruct (built_reads "CAN" can_operations Hin) as (_ & Hr & Hd & _ & _ & _ & _ & _ & _ & Ht & _ & Hs & _).
  fold can_metadata in Hr, Hd, Ht, Hs. rewrite Hr, Ht, Hd, Hs. split_and!; try done.
  2: { apply (emplace_all_built can_fields). repeat (apply Forall_cons_2; [by split|]). apply Forall_nil_2. }
  unfold can_metadata. rewrite metadata_build.
  by rewrite (settled_sample_size "CAN" can_operations can_fields) by (done || by repeat constructor).
Qed.

(** Values of the given sizes, one after the other, are cut apart again. *)
Lemma cut_values (fs : list (string * string * option Z)) (values : list (list Z)) :
  Forall2 (fun f v => in_u 64 (value_or f.2 1) /\ in_u 64 (built_size f) /\ size_of v = built_size f) fs values ->
  cut (built_field <$> fs) (mjoin values) = values.
Proof.
  induction 1 as [|f v fs vs (H1 & H2 & Hv) _ IH]; [done|].
  cbn [fmap list_fmap cut]. change (mjoin (v :: vs)) with (v ++ mjoin vs).
  rewrite field_size_built, <- Hv by done. unfold size_of. rewrite Nat2Z.id.
  by rewrite take_app_length, drop_app_length, IH.
Qed.

(** ** One iteration

    The entry of a signal a peer is subscribed to, the only one of its address,
    and without a table for its domain. *)
Record listening (a : nat) (j : Z) (e : LC.registered_local_signal) (p : Publisher.publisher) : Prop := {
  li_entry : LC.registered (Publisher.locals p) !! j = Some e;
  li_signal : LC.signal e = a;
  li_connected : LC.data_connected e = true;
  li_domain : LC.domain_table e = None;
  li_index : in_s 64 (LC.value_index e);
  li_only : forall k e', LC.registered (Publisher.locals p) !! k = Some e' -> LC.signal e' = a -> k = j
}.

Lemma publish_listening a j e data p :
  listening a j e p ->
  let p' := Publisher.publish_data a 0 0 data p in
  Publisher.sent p' = Publisher.sent p ++ [Peer.data_message (LC.signo e) data] /\
  LC.registered (Publisher.locals p') = LC.registered (Publisher.locals p).
Proof.
  intros [He Hs Hc Hd Hi Hu]. unfold Publisher.publish_data. set (p0 := Publisher.with_locals _ p).
  assert (LC.find_address a (Publisher.locals p0) = Some j) as ->.
  { unfold LC.find_address. erewrite find_if_unique; [done|exact He|by apply bool_decide_true|].
    intros k e' He' Hs'%bool_decide_eq_true. by eapply Hu. }
  change (LC.registered (Publisher.locals p0)) with (LC.registered (Publisher.locals p)). rewrite He, Hc.
  unfold Publisher.on_local_signal_data_published.
  change (LC.registered (Publisher.locals p0)) with (LC.registered (Publisher.locals p)). rewrite He, Hd.
  split; [done|]. cbn. rewrite Z.add_0_r, swrap_small by done. apply map_eq. intros k.
  destruct (decide (j = k)) as [<-|Hne]; [|by rewrite lookup_alter_ne].
  rewrite lookup_alter_eq, He. cbn. by destruct e.
Qed.

Lemma listening_registered a j e p p' :
  LC.registered (Publisher.locals p') = LC.registered (Publisher.locals p) -> listening a j e p -> listening a j e p'.
Proof. intros H0 []. split; rewrite ?H0; try done. Qed.

(** An iteration sends the time and the message, and leaves the entries as they
    were: without a sample count the index of an explicit signal stays. *)
Lemma iteration_sends mss when p j0 e0 j1 e1 :
  listening 0 j0 e0 p -> listening 1 j1 e1 p ->
  let when' := when + mss * one_millisecond in
  let '(w, p') := iteration mss (when, p) in
  w = when' /\ listening 0 j0 e0 p' /\ listening 1 j1 e1 p' /\
  Publisher.sent p' = Publisher.sent p ++ [Peer.data_message (LC.signo e0) (le_bytes 8 (nanoseconds_of when'));
                                           Peer.data_message (LC.signo e1) (can_bytes message)].
Proof.
  intros H0 H1 when'. unfold iteration. fold when'.
  destruct (publish_listening 0 j0 e0 (le_bytes 8 (nanoseconds_of when')) p H0) as [S0 R0].
  set (p1 := Publisher.publish_data 0 _ _ _ p) in *.
  destruct (publish_listening 1 j1 e1 (can_bytes message) p1 (listening_registered _ _ _ _ _ R0 H1)) as [S1 R1].
  assert (R : LC.registered (Publisher.locals (Publisher.publish_data 1 0 0 (can_bytes message) p1))
              = LC.registered (Publisher.locals p)) by congruence.
  split; [done|]. split; [by apply (listening_registered _ _ _ p)|]. split; [by apply (listening_registered _ _ _ p)|].
  by rewrite S1, S0, <- (assoc_L (++)).
Qed.

(** At the peer a message is one sample. *)
Lemma message_received q h s m :
  RemoteSignal.signals h !! q = Some s -> RemoteSignal.is_subscribed s = true -> RemoteSignal.tcp_delta s = 0 ->
  RemoteSignal.table s = None -> RemoteSignal.is_explicit s = true -> RemoteSignal.domain_table s = None ->
  RemoteSignal.sample_size s = Metadata.sample_size can_metadata -> well_typed m ->
  (RemoteSignal.handle_data q (can_bytes m) h).2 = [RemoteSignal.on_data_received q 0 1 (can_bytes m)].
Proof.
  intros Hs H1 H2 H3 H4 H5 H6 (_ & _ & Hl & _). rewrite (proj1 (proj2 (proj2 (proj2 can_reads)))) in H6.
  assert (Hz : size_of (can_bytes m) = 69) by (unfold can_bytes; len).
  unfold RemoteSignal.handle_data. rewrite Hs, H1, H2, H3, H4. cbn [negb Z.eqb].
  unfold RemoteSignal.handle_data_explicit, RemoteSignal.data_samples. rewrite H5, H6, Hz. done.
Qed.

(** ** Properties *)

(** C29: the metadata of the CAN signal describe the packed [can_message].  The
    sample size computed from them is the size of the object that is published;
    and cutting the published bytes as the structure's fields say, in their
    order, gives the members of the message, each in the bytes of its own field. *)
Theorem can_message_described m :
  well_typed m ->
  Metadata.sample_size can_metadata = size_of (can_bytes m) /\
  exists fields id len, struct_fields can_metadata = Ok fields /\ cut fields (can_bytes m) = [id; len; payload m] /\
    le_value id = message_id m /\ le_value len = payload_length m.
Proof.
  intros (H1 & H2 & H3 & _). destruct can_reads as (_ & _ & _ & -> & ->). split; [unfold can_bytes; len|].
  exists (built_field <$> can_fields), (le_bytes 4 (message_id m)), (le_bytes 1 (payload_length m)). split; [done|]. rewrite !le_value_le_bytes.
  rewrite !wrap_small by done. split; [|done].
  transitivity (cut (built_field <$> can_fields)
                  (mjoin [le_bytes 4 (message_id m); le_bytes 1 (payload_length m); payload m])).
  { f_equal. unfold can_bytes. cbn [mjoin list_join]. by rewrite app_nil_r. }
  apply cut_values. repeat constructor; try done; cbn; unfold size_of; by rewrite ?length_le_bytes, ?H3.
Qed.
End CanSource.

(** ** An instance *)

Section Witness.
#[local] Existing Instance jv_json.

Lemma can_message_described_witness :
  Metadata.sample_size (can_metadata) = size_of (can_bytes message) /\
  exists fields id len, struct_fields can_metadata = Ok fields /\ cut fields (can_bytes message) = [id; len; payload message] /\
    le_value id = 4660 /\ le_value len = 10.
Proof.
  assert (Hm : well_typed message) by (split_and!; [by vm_compute..|]; apply (bool_decide_unpack (Forall is_byte _)); by vm_compute).
  exact (can_message_described message Hm).
Defined.
End Witness.
