(* ===== verification/Sinks.v ===== *)
(** * The example sinks

    [examples/client-sink.cpp], [examples/server-sink.cpp] and
    [examples/can-sink.cpp]: handlers that wait for a signal of a given id to be
    announced and subscribe to it.  [Sources] and [CanSource] hold the programs
    they are run against. *)
From S2P Require Import Prelude Json Metadata OrderedMap.
From S2P Require MetadataBuilder Publisher.
From S2P Require Import RemoteSignal RemoteSignalContainer Receiver EndToEnd Sources.

Section Sinks.
Context `{JL : JsonLib}.

(** ** on_available

    What the handler does with the signal at [s]; its events include the request
    that [subscribe] raises.  [server-sink] subscribes first, then connects. *)
Inductive action : Type :=
| connect_data (s : nat)
| raised (e : event).

Definition on_signal_available (target : string) (s : nat) (h : heap) : heap * list action :=
  match signals h !! s with
  | Some r =>
      if bool_decide (RemoteSignal.id r = target) then
        let '(r, es) := RemoteSignal.subscribe s r in
        (mk_heap (<[s := r]> (signals h)) (tables h) (next h), connect_data s :: (raised <$> es))
      else (h, [])
  | None => (h, [])
  end.

(** The default of [client-sink], and the ids the other sinks look for. *)
Definition default_target : string := "/Value".

Definition server_sink_target : string := "/Value".

Definition can_sink_target : string := "/CAN".

(** The handler is connected to [on_available]. *)
Fixpoint sink (target : string) (es : list notice) (h : heap) : heap * list action :=
  match es with
  | [] => (h, [])
  | on_available s :: es =>
      let '(h, acts) := on_signal_available target s h in
      let '(h, acts') := sink target es h in
      (h, acts ++ acts')
  | _ :: es => sink target es h
  end.

(** The signals a subscription is requested for. *)
Definition requested (acts : list action) : list nat :=
  omap (fun a => match a with raised (on_subscribe_requested s) => Some s | _ => None end) acts.

(** ** can-sink's signal_state

    The domain signal whose data the sink is connected to, and the three
    connections on the value signal, which are made and dropped together.
    Assigning a scoped connection disconnects the one it held. *)
Record signal_state := mk_state {
  domain_signal : option nat;
  on_domain_data : option nat;
  on_value_signal : bool
}.

Definition can_available : signal_state := mk_state None None true.

Definition can_metadata_changed (c : container) (m : json) (st : signal_state) : signal_state :=
  match find_remote_signal (table_id m) c with
  | Some e => mk_state (Some (signal e)) (Some (signal e)) (on_value_signal st)
  | None => mk_state None None (on_value_signal st)
  end.

Definition can_unavailable (st : signal_state) : signal_state :=
  mk_state (domain_signal st) None false.

(** ** Lemmas *)

Lemma sink_known target sid :
  sid <> "/Time" ->
  requested (sink target [on_available 0; on_available 1] (store (known sid))).2
  = if decide (target = "/Time") then [0%nat] else if decide (target = sid) then [1%nat] else [].
Proof.
  intros Hs. cbn [sink]. unfold on_signal_available at 1. cbn.
  rewrite lookup_insert_ne, lookup_singleton_eq by done. cbn.
  destruct (decide (target = "/Time")) as [->|Ht].
  - rewrite bool_decide_true by done. unfold on_signal_available. cbn.
    rewrite lookup_insert_ne, lookup_insert_eq by done. cbn. by rewrite bool_decide_false.
  - rewrite bool_decide_false by congruence. unfold on_signal_available. cbn. rewrite lookup_insert_eq. cbn.
    destruct (decide (target = sid)) as [->|Hn]; [by rewrite bool_decide_true|by rewrite bool_decide_false by congruence].
Qed.

(** ** Properties *)

(** What a sink asks for when it is connected to one of the sources: a single
    subscription, to the signal of its target, and none when the source has no
    such signal. *)
Theorem sink_requests `{SystemClock} to_uint64 ops sid hello target :
  time_operations ops -> sid <> "/Time" ->
  let '(c, es, err) := arrivals to_uint64 (Publisher.sent (offer ops sid hello)) empty_container in
  err = None /\ requested (sink target es (store c)).2
    = if decide (target = "/Time") then [0%nat] else if decide (target = sid) then [1%nat] else [].
Proof. intros Ho Hs. rewrite offer_sent by done. split; [done|]. by apply sink_known. Qed.

(** [client-source] and [lazy-publish] serve [server-sink] and [client-sink];
    [server-source] offers nothing that [client-sink], by default, or [can-sink]
    look for. *)
Theorem sinks_and_sources `{SystemClock} to_uint64 :
  let asks p target :=
    let '(c, es, _) := arrivals to_uint64 (Publisher.sent p) empty_container in
    requested (sink target es (store c)).2 in
  asks (client_source []) server_sink_target = [1%nat] /\
  asks (Publisher.advertise lazy_source) default_target = [1%nat] /\
  asks (Publisher.advertise server_source) default_target = [] /\
  asks (Publisher.advertise server_source) can_sink_target = [].
Proof.
  assert (Hc : time_operations client_time_operations) by by left.
  assert (Hs : time_operations server_time_operations) by by right.
  cbv beta zeta. change (client_source []) with (offer client_time_operations "/Value" true).
  change (Publisher.advertise lazy_source) with (offer server_time_operations "/Value" false).
  change (Publisher.advertise server_source) with (offer server_time_operations "/Channel1/Value" false).
  rewrite !offer_sent by done. by rewrite !sink_known.
Qed.

(** [can-sink] hears the domain its value signal's metadata name, as long as it
    knows that signal, and no other. *)
Theorem can_sink_domain c m st :
  let st' := can_metadata_changed c m st in
  on_domain_data st' = domain_signal st' /\
  on_domain_data st' = signal <$> signals_by_id c !! table_id m.
Proof.
  unfold can_metadata_changed, find_remote_signal. by destruct (signals_by_id c !! table_id m).
Qed.
End Sinks.
