(* ===== verification/Http.v ===== *)
(** * HTTP messages

    The requests and responses the program builds and reads through
    Boost.Beast: what it sets on a message and what it reads from one.  Beast
    itself (parsing, serialisation, [prepare_payload]) is not modelled. *)
From S2P Require Import Prelude Json Base64.

Inductive verb : Type := verb_get | verb_post | verb_options | verb_other.

(** The header fields the sources name. *)
Inductive header : Type :=
| connection_field
| upgrade_field
| host_field
| server_field
| user_agent_field
| content_type_field
| sec_websocket_key_field
| sec_websocket_accept_field
| sec_websocket_version_field
| allow_headers_field
| allow_origin_field
| other_field (name : string).

#[export] Instance verb_eq_dec : EqDecision verb.
Proof. solve_decision. Defined.

#[export] Instance header_eq_dec : EqDecision header.
Proof. solve_decision. Defined.

Definition fields : Type := list (header * string).

(** [set]: replaces every field of the name. *)
Definition set_header (f : header) (v : string) (fs : fields) : fields :=
  List.filter (fun x => negb (bool_decide (x.1 = f))) fs ++ [(f, v)].

(** The value of the first field of the name, empty if there is none. *)
Definition get_header (f : header) (fs : fields) : string :=
  value_or (snd <$> List.find (fun x => bool_decide (x.1 = f)) fs) "".

(** The version is 10 times the major plus the minor number. *)
Record request := mk_request {
  method : verb;
  target : string;
  version : Z;
  request_fields : fields;
  request_body : list Z
}.

(** [keeps_alive] is what [keep_alive(bool)] was last called with. *)
Record response := mk_response {
  status : Z;
  response_version : Z;
  response_fields : fields;
  keeps_alive : option bool;
  response_body : list Z
}.

Definition switching_protocols : Z := 101.
Definition status_ok : Z := 200.
Definition no_content : Z := 204.
Definition bad_request : Z := 400.
Definition internal_server_error : Z := 500.

Definition make_response (st v : Z) : response := mk_response st v [] None [].

Definition set_response_field (f : header) (v : string) (r : response) : response :=
  mk_response (status r) (response_version r) (set_header f v (response_fields r)) (keeps_alive r)
    (response_body r).

Definition set_keep_alive (b : bool) (r : response) : response :=
  mk_response (status r) (response_version r) (response_fields r) (Some b) (response_body r).

Definition set_response_body (b : list Z) (r : response) : response :=
  mk_response (status r) (response_version r) (response_fields r) (keeps_alive r) b.

Lemma get_set_header f v fs : get_header f (set_header f v fs) = v.
Proof.
  unfold get_header, set_header. induction fs as [|[g w] fs IH]; cbn; [by rewrite bool_decide_true|].
  case_bool_decide as E; cbn; [exact IH|]. by rewrite bool_decide_false by done.
Qed.

Lemma get_set_header_ne f g v fs : f <> g -> get_header f (set_header g v fs) = get_header f fs.
Proof.
  intros Hne. unfold get_header, set_header. induction fs as [|[h w] fs IH]; cbn.
  - by rewrite bool_decide_false by congruence.
  - destruct (decide (h = g)) as [->|Hh].
    + rewrite (bool_decide_true (g = g)), bool_decide_false by congruence. exact IH.
    + rewrite (bool_decide_false (h = g)) by done. cbn. by destruct (bool_decide (h = f)).
Qed.
