(* ===== verification/HttpServicer.v ===== *)
(** * The HTTP side of the server

    [include/ws-streaming/detail/http_client_servicer.hpp], for both
    instantiations ([tls]).  A servicer has at most one asynchronous operation
    under way; the completion of that operation, the expiry of its deadline,
    [stop] and the handler [stop] posts are the steps of a transition system.
    The slot of [on_command_interface_request] is a parameter that works on a
    state [W]; the texts of exceptions and Beast's reading of [keep_alive] are
    parameters too. *)
From S2P Require Import Prelude Json Base64 Http.
From S2P Require Import BasePeer.

(** What the slot does: nothing is connected, it returns, or it throws. *)
Inductive slot_result {J : Type} : Type :=
| no_slot
| returned (j : J)
| threw (what : string).
Arguments slot_result : clear implicits.

(** enum class response_actions *)
Inductive response_actions : Type := action_close | action_keepalive | action_upgrade.

Inductive io_operation : Type :=
| io_handshake
| io_read
| io_write (action : response_actions).

Inductive servicer_event : Type :=
| on_websocket_upgrade
| servicer_closed (ec : error_code).

Section HttpServicer.
Context `{JL : JsonLib} `{!ArchiveIterators} `{!Sha1} {W : Type}.
Context (slot : string -> json -> W -> slot_result json * W).
Context (parse_what : list Z -> string) (keep_alive : request -> bool) (default_keep : Z -> bool)
        (http_product_string : string).

(** ** Responses *)

(** An array of [true]s, or [true]. *)
Definition is_success (j : json) : bool :=
  if is_array j then forallb (fun x => if view x is JBoolean b then b else false) (elements j)
  else if view j is JBoolean b then b else false.

(** The common end: the server field, and what to do after the write. *)
Definition finish_response (r : response) : response * response_actions :=
  let r := set_response_field server_field http_product_string r in
  (r, if status r =? switching_protocols then action_upgrade
      else if value_or (keeps_alive r) (default_keep (response_version r)) then action_keepalive
      else action_close).

Definition cors (req : request) (st : Z) : response :=
  set_response_field allow_origin_field "*"
    (set_response_field allow_headers_field "*"
       (set_keep_alive (keep_alive req) (make_response st (version req)))).

(** [do_response(req, status, json)] *)
Definition json_response (req : request) (st : Z) (j : json)
    : result json_exception (response * response_actions) :=
  let r := cors req st in
  if is_null j then Ok (finish_response r)
  else if is_success j then
    Ok (finish_response (set_response_body (string_bytes "Succeeded")
                           (set_response_field content_type_field "text/plain" r)))
  else
    match dump j with
    | Throw e => Throw e
    | Ok text =>
        Ok (finish_response (set_response_body text
                               (set_response_field content_type_field "application/json" r)))
    end.

Definition error_object (message : string) : json :=
  jobj [("code", jint (-32700)); ("message", jstr message)].

(** The branch of a POST request. *)
Definition respond_post (req : request) (w : W)
    : result json_exception (response * response_actions) * W :=
  match parse (request_body req) with
  | Throw _ =>
      (json_response req internal_server_error (error_object (parse_what (request_body req))), w)
  | Ok j =>
      if negb (is_object j && contains j "method" && is_string (field j "method"))
      then (json_response req bad_request (error_object "Request object is invalid"), w)
      else
        match slot (string_of (field j "method"))
                (if contains j "params" then field j "params" else brace_null) w with
        | (threw what, w) => (json_response req internal_server_error (error_object what), w)
        | (no_slot, w) => (json_response req internal_server_error (error_object "No connected slot"), w)
        | (returned answer, w) => (json_response req status_ok answer, w)
        end
  end.

(** The answer to a request: [finish_read] without the error case.  An exception
    is the one [dump] throws. *)
Definition respond (req : request) (w : W) : result json_exception (response * response_actions) * W :=
  let key := get_header sec_websocket_key_field (request_fields req) in
  if bool_decide (get_header upgrade_field (request_fields req) = "websocket")
     && negb (bool_decide (key = "")) then
    (Ok (finish_response
           (set_response_field sec_websocket_accept_field (get_response_key key)
              (set_response_field upgrade_field "websocket"
                 (set_response_field connection_field "Upgrade"
                    (set_response_field server_field http_product_string
                       (make_response switching_protocols (version req))))))), w)
  else if bool_decide (method req = verb_post) then respond_post req w
  else if bool_decide (method req = verb_options) then (json_response req no_content jnull, w)
  else
    (Ok (set_response_field allow_origin_field "*"
           (set_response_field allow_headers_field "*"
              (set_keep_alive (keep_alive req)
                 (set_response_field server_field http_product_string
                    (make_response bad_request (version req))))),
         if keep_alive req then action_keepalive else action_close), w).

(** ** The servicer *)

(** [expired]: the deadline passed and closed the socket, and the operation
    under way will report [timeout].  [posted]: handlers of [stop] not yet run. *)
Record servicer := mk_servicer {
  tls : bool;
  is_open : bool;
  expired : bool;
  operations : list io_operation;
  posted : nat;
  written : list response;
  raised : list servicer_event;
  exceptions : list json_exception
}.

Definition make (t : bool) : servicer := mk_servicer t true false [] 0 [] [] [].

Definition set_operations (l : list io_operation) (s : servicer) : servicer :=
  mk_servicer (tls s) (is_open s) (expired s) l (posted s) (written s) (raised s) (exceptions s).

Definition set_posted (n : nat) (s : servicer) : servicer :=
  mk_servicer (tls s) (is_open s) (expired s) (operations s) n (written s) (raised s) (exceptions s).

Definition raise (e : servicer_event) (s : servicer) : servicer :=
  mk_servicer (tls s) (is_open s) (expired s) (operations s) (posted s) (written s) (raised s ++ [e])
    (exceptions s).

Definition set_open (b : bool) (s : servicer) : servicer :=
  mk_servicer (tls s) b (expired s) (operations s) (posted s) (written s) (raised s) (exceptions s).

Definition start (o : io_operation) (s : servicer) : servicer := set_operations (operations s ++ [o]) s.

Definition do_read : servicer -> servicer := start io_read.

Definition do_write (r : response) (a : response_actions) (s : servicer) : servicer :=
  let s := start (io_write a) s in
  mk_servicer (tls s) (is_open s) (expired s) (operations s) (posted s) (written s ++ [r]) (raised s)
    (exceptions s).

Definition close (ec : error_code) (s : servicer) : servicer :=
  if bool_decide (ec = timeout) then raise (servicer_closed ec) s
  else if negb (is_open s) then s
  else raise (servicer_closed ec) (set_open false s).

Definition run (s : servicer) : servicer := if tls s then start io_handshake s else do_read s.

Definition stop (s : servicer) : servicer := set_posted (S (posted s)) s.

Definition finish_handshake (ec : error_code) (s : servicer) : servicer :=
  if bool_decide (ec <> success) then close ec s else do_read s.

Definition throw (e : json_exception) (s : servicer) : servicer :=
  mk_servicer (tls s) (is_open s) (expired s) (operations s) (posted s) (written s) (raised s)
    (exceptions s ++ [e]).

Definition finish_read (ec : error_code) (req : request) (s : servicer) (w : W) : servicer * W :=
  if bool_decide (ec <> success) then (close ec s, w)
  else
    match respond req w with
    | (Ok (r, a), w) => (do_write r a s, w)
    | (Throw e, w) => (throw e s, w)
    end.

(** After an upgrade the plaintext servicer has released its socket; the TLS
    stream stays with the servicer unless the slot took it. *)
Definition finish_write (a : response_actions) (ec : error_code) (taken : bool) (s : servicer)
    : servicer :=
  if bool_decide (ec <> success) then close ec s
  else
    match a with
    | action_keepalive => do_read s
    | action_upgrade =>
        let s := if tls s then s else set_open false s in
        let s := raise on_websocket_upgrade s in
        if tls s && taken then set_open false s else s
    | action_close => close success s
    end.

(** ** Steps *)

(** What an operation may report. *)
Definition reports (s : servicer) (ec : error_code) : Prop := ec = timeout <-> expired s = true.

(** The operation under way has finished. *)
Definition settle (s : servicer) : servicer := set_operations (tail (operations s)) s.

(** The deadline passes: the stream closes its socket. *)
Definition expire (s : servicer) : servicer :=
  mk_servicer (tls s) false true (operations s) (posted s) (written s) (raised s) (exceptions s).

Inductive step : servicer * W -> servicer * W -> Prop :=
| step_handshake s w ec :
    head (operations s) = Some io_handshake -> reports s ec ->
    step (s, w) (finish_handshake ec (settle s), w)
| step_read s w ec req :
    head (operations s) = Some io_read -> reports s ec ->
    step (s, w) (finish_read ec req (settle s) w)
| step_write s w a ec taken :
    head (operations s) = Some (io_write a) -> reports s ec ->
    step (s, w) (finish_write a ec taken (settle s), w)
| step_expire s w :
    is_open s = true -> operations s <> [] -> step (s, w) (expire s, w)
| step_stop s w : step (s, w) (stop s, w)
| step_posted s w : posted s <> O -> step (s, w) (close success (set_posted (pred (posted s)) s), w).

Definition is_closing (e : servicer_event) : bool := if e is servicer_closed _ then true else false.
Definition closings (s : servicer) : nat := length (List.filter is_closing (raised s)).
Definition upgrades (s : servicer) : nat := length (List.filter (fun e => negb (is_closing e)) (raised s)).

(** ** Lemmas *)

Lemma closings_of_raise e s : closings (raise e s) = (closings s + if is_closing e then 1 else 0)%nat.
Proof.
  unfold closings. cbn. rewrite List.filter_app, length_app. cbn. by destruct (is_closing e).
Qed.

Lemma upgrades_of_raise e s : upgrades (raise e s) = (upgrades s + if is_closing e then 0 else 1)%nat.
Proof.
  unfold upgrades. cbn. rewrite List.filter_app, length_app. cbn. by destruct (is_closing e).
Qed.

(** Everything reachable satisfies this: one operation at most; once the end is
    reported the socket is closed and no operation can report a timeout; and an
    idle servicer has an explanation. *)
Record orderly (s : servicer) : Prop := {
  orderly_operations : (length (operations s) <= 1)%nat;
  orderly_closings : (closings s <= 1)%nat;
  orderly_upgrades : (upgrades s <= 1)%nat;
  orderly_expired : expired s = true -> is_open s = false;
  orderly_closed : closings s = 1%nat -> is_open s = false /\ (operations s <> [] -> expired s = false);
  orderly_open : is_open s = false -> expired s = false -> (closings s + upgrades s >= 1)%nat;
  orderly_upgraded : upgrades s = 1%nat -> operations s = [];
  orderly_released : upgrades s = 1%nat -> tls s = false -> is_open s = false;
  orderly_idle : operations s = [] -> (closings s + upgrades s >= 1)%nat \/ exceptions s <> []
}.

(** A servicer whose only operation has just finished. *)
Definition settled (s : servicer) : Prop :=
  operations s = [] /\ upgrades s = 0%nat /\ (closings s <= 1)%nat /\
  (expired s = true -> is_open s = false /\ closings s = 0%nat) /\
  (closings s = 1%nat -> is_open s = false) /\
  (is_open s = false -> expired s = false -> closings s = 1%nat).

Lemma settle_settled s o : orderly s -> head (operations s) = Some o -> settled (settle s).
Proof.
  intros [H1 H2 H3 H4 H5 H6 H7 H8 H9] Ho.
  assert (Hne : operations s <> []) by by destruct (operations s).
  assert (Hu : upgrades s = 0%nat).
  { destruct (decide (upgrades s = 1%nat)) as [E|]; [|lia]. by destruct (Hne (H7 E)). }
  unfold settle, settled, closings, upgrades in *. cbn in *.
  refine (conj _ (conj Hu (conj H2 (conj _ (conj _ _))))).
  - destruct (operations s) as [|? [|]]; cbn in *; try done; lia.
  - intros E. split; [by apply H4|].
    destruct (decide (length (List.filter is_closing (raised s)) = 1%nat)) as [E'|]; [|lia].
    destruct (H5 E') as [_ Hx]. by rewrite (Hx Hne) in E.
  - intros E. by destruct (H5 E).
  - intros Ha Hb. specialize (H6 Ha Hb). lia.
Qed.

(** Closes the fields of [orderly] that are arithmetic on the counts. *)
Ltac accounting :=
  try done; cbn; try done; try lia; try congruence;
  try (intros; match goal with H : _ -> ?g |- ?g => apply H; lia end).

Lemma start_orderly o s : settled s -> expired s = false -> orderly (start o s).
Proof.
  intros (H1 & H2 & H3 & H4 & H5 & H6) He. unfold closings, upgrades in *.
  split; unfold start, closings, upgrades; cbn in *; rewrite ?H1; accounting.
Qed.

(** Closing a servicer that has nothing under way. *)
Lemma close_settled_orderly ec s :
  settled s -> (ec = timeout <-> expired s = true) -> orderly (close ec s).
Proof.
  intros (H1 & H2 & H3 & H4 & H5 & H6) Hec. unfold close.
  case_bool_decide as Et.
  - destruct (H4 (proj1 Hec Et)) as [Ho Hc].
    split; rewrite ?closings_of_raise, ?upgrades_of_raise; cbn; rewrite ?H1; accounting.
  - assert (He : expired s = false) by (destruct (expired s); [by destruct Et; apply Hec|done]).
    destruct (is_open s) eqn:Eo; cbn [negb].
    + assert (Hc : closings s = 0%nat) by (destruct (decide (closings s = 1%nat)) as [E|]; [by specialize (H5 E)|lia]).
      split; rewrite ?closings_of_raise, ?upgrades_of_raise; unfold closings, upgrades in *; cbn in *;
        rewrite ?H1; accounting.
    + specialize (H6 eq_refl He).
      split; try (rewrite H1; cbn); accounting.
Qed.

Lemma stop_orderly s n : orderly s -> orderly (set_posted n s).
Proof. intros [H1 H2 H3 H4 H5 H6 H7 H8 H9]. by split. Qed.

Lemma close_orderly s : orderly s -> orderly (close success s).
Proof.
  intros [H1 H2 H3 H4 H5 H6 H7 H8 H9]. unfold close. rewrite bool_decide_false by done.
  destruct (is_open s) eqn:Eo; cbn [negb]; [|by split; rewrite ?Eo].
  assert (Hc : closings s = 0%nat) by (destruct (decide (closings s = 1%nat)) as [E|]; [by destruct (H5 E)|lia]).
  assert (He : expired s = false) by (destruct (expired s); [by specialize (H4 eq_refl)|done]).
  split; rewrite ?closings_of_raise, ?upgrades_of_raise; unfold closings, upgrades in *; cbn in *; accounting.
Qed.

Lemma expire_orderly s : orderly s -> is_open s = true -> operations s <> [] -> orderly (expire s).
Proof.
  intros [H1 H2 H3 H4 H5 H6 H7 H8 H9] Ho Hne.
  split; unfold closings, upgrades in *; cbn in *; try done.
  intros E. destruct (H5 E) as [Hx _]. congruence.
Qed.

Lemma completed_in_time ec s :
  bool_decide (ec <> success) = false -> (ec = timeout <-> expired s = true) ->
  ec = success /\ expired s = false.
Proof.
  intros E%bool_decide_eq_false Hec. assert (ec = success) as -> by (by destruct (decide (ec = success))).
  split; [done|]. destruct (expired s); [|done]. by destruct Hec as [_ Hx]; specialize (Hx eq_refl).
Qed.

Lemma finish_write_orderly a ec taken s :
  settled s -> (ec = timeout <-> expired s = true) -> orderly (finish_write a ec taken s).
Proof.
  intros Hs Hec. unfold finish_write. destruct (bool_decide _) eqn:E; [by apply close_settled_orderly|].
  destruct (completed_in_time _ _ E Hec) as [-> He].
  destruct a.
  - apply close_settled_orderly; [done|]. by rewrite He.
  - by apply start_orderly.
  - destruct s as [t o x ops n wr ra exs]. destruct Hs as (H1 & H2 & H3 & H4 & H5 & H6).
    unfold closings, upgrades in *. cbn in *. subst ops.
    destruct t, taken; split; unfold closings, upgrades; cbn;
      rewrite ?List.filter_app, ?length_app, ?He; cbn; accounting;
      intros; split; accounting.
Qed.

Lemma finish_read_orderly ec req s w :
  settled s -> (ec = timeout <-> expired s = true) -> orderly (finish_read ec req s w).1.
Proof.
  intros Hs Hec. unfold finish_read. destruct (bool_decide _) eqn:E; [by apply close_settled_orderly|].
  destruct (completed_in_time _ _ E Hec) as [-> He].
  destruct (respond req w) as [[[r a]|e] w']; cbn [fst].
  - by destruct (start_orderly (io_write a) s Hs He).
  - destruct Hs as (H1 & H2 & H3 & H4 & H5 & H6). unfold closings, upgrades in *.
    split; unfold throw, closings, upgrades; cbn; rewrite ?H1; accounting.
    intros _. right. by destruct (exceptions s).
Qed.

Lemma finish_handshake_orderly ec s :
  settled s -> (ec = timeout <-> expired s = true) -> orderly (finish_handshake ec s).
Proof.
  intros Hs Hec. unfold finish_handshake. destruct (bool_decide _) eqn:E; [by apply close_settled_orderly|].
  destruct (completed_in_time _ _ E Hec) as [-> He]. by apply start_orderly.
Qed.

Lemma step_orderly x y : step x y -> orderly x.1 -> orderly y.1.
Proof.
  destruct 1 as [s w ec Ho Hr|s w ec req Ho Hr|s w a ec taken Ho Hr|s w Ho Hne|s w|s w Hp];
    cbn [fst]; intros Hs.
  - apply finish_handshake_orderly; [by eapply settle_settled|exact Hr].
  - apply finish_read_orderly; [by eapply settle_settled|exact Hr].
  - apply finish_write_orderly; [by eapply settle_settled|exact Hr].
  - by apply expire_orderly.
  - by apply stop_orderly.
  - by apply close_orderly, stop_orderly.
Qed.

Lemma run_orderly t : orderly (run (make t)).
Proof. destruct t; split; unfold closings, upgrades; accounting. Qed.

Lemma steps_orderly x y : rtc step x y -> orderly x.1 -> orderly y.1.
Proof. induction 1 as [|x y z Hxy _ IH]; [done|]. intros Hx. by apply IH, (step_orderly x y). Qed.

(** A plaintext servicer that has handed its socket over stays as it is. *)
Lemma released_stays x y :
  rtc step x y -> operations x.1 = [] -> is_open x.1 = false ->
  raised y.1 = raised x.1 /\ written y.1 = written x.1.
Proof.
  induction 1 as [|x y z Hxy _ IH]; [done|]. intros Hop Ho.
  assert (Hsame : operations y.1 = [] /\ is_open y.1 = false /\ raised y.1 = raised x.1 /\ written y.1 = written x.1).
  { destruct Hxy as [s w ec He|s w ec req He|s w a ec taken He|s w He|s w|s w Hp]; cbn in *;
      rewrite ?Hop in *; try done; try congruence.
    unfold close. rewrite bool_decide_false by done. cbn. by rewrite Ho. }
  destruct Hsame as (H1 & H2 & H3 & H4). destruct (IH H1 H2) as [-> ->]. done.
Qed.

(** ** Properties *)

(** C19: however reads, writes, timeouts and calls of [stop] are interleaved, a
    servicer has at most one operation under way, reports its end at most once
    and an upgrade at most once, and is never forgotten: when it has nothing
    under way it has reported its end or an upgrade, or an exception has left
    one of its handlers. *)
Theorem servicer_accounts_for_itself t w s w' :
  rtc step (run (make t), w) (s, w') ->
  (length (operations s) <= 1)%nat /\ (closings s <= 1)%nat /\ (upgrades s <= 1)%nat /\
  (operations s = [] -> (closings s + upgrades s >= 1)%nat \/ exceptions s <> []).
Proof.
  intros Hs. destruct (steps_orderly _ _ Hs (run_orderly t)) as [H1 H2 H3 H4 H5 H6 H7 H8 H9]. done.
Qed.

(** C33: after a plaintext upgrade [on_closed] is never raised: no completion,
    timeout or call of [stop] raises anything any more, although the class is
    documented to raise [on_closed] once an upgrade has been handled, and the
    server removes a session only in that slot. *)
Theorem upgraded_servicer_stays_silent w s w1 s' w2 :
  rtc step (run (make false), w) (s, w1) -> upgrades s = 1%nat -> rtc step (s, w1) (s', w2) ->
  raised s' = raised s.
Proof.
  intros Hs Hu Hs'. pose proof (steps_orderly _ _ Hs (run_orderly false)) as Ho.
  assert (Ht : tls s = false).
  { clear -Hs. remember (run (make false), w) as x eqn:Ex. remember (s, w1) as y eqn:Ey.
    assert (Hx : tls x.1 = false) by by subst. assert (tls y.1 = false) as Hy; [|by subst].
    clear Ex Ey. induction Hs as [|x y z Hxy _ IH]; [done|]. apply IH. clear IH.
    destruct Hxy; cbn in *; try done; unfold finish_handshake, finish_read, finish_write, close;
      repeat case_match; simplify_eq/=; try done; congruence. }
  apply (released_stays _ _ Hs'); [by apply (orderly_upgraded s)|by apply (orderly_released s)].
Qed.

(** What is done with a request that is answered: the connection is handed
    over for the WebSocket exactly when the request asks for it and carries a
    key, and then the response has status 101 and the accept key computed from
    that key, and the command interface is not consulted; otherwise the
    connection is kept exactly when the request keeps it alive. *)
Theorem response_action req w r a w' :
  respond req w = (Ok (r, a), w') ->
  let key := get_header sec_websocket_key_field (request_fields req) in
  let upgrade := bool_decide (get_header upgrade_field (request_fields req) = "websocket")
                 && negb (bool_decide (key = "")) in
  a = (if upgrade then action_upgrade else if keep_alive req then action_keepalive else action_close) /\
  (upgrade = true -> status r = 101 /\ w' = w /\
     get_header sec_websocket_accept_field (response_fields r) = get_response_key key /\
     get_header upgrade_field (response_fields r) = "websocket" /\
     get_header connection_field (response_fields r) = "Upgrade").
Proof.
  unfold respond. destruct (_ && _) eqn:Eu; cbn zeta; intros Heq.
  - injection Heq as <- <- <-. split; [done|]. intros _. cbn [status response_fields set_response_field].
    repeat split; rewrite ?get_set_header, ?get_set_header_ne by done; by rewrite ?get_set_header.
  - split; [|done].
    assert (Hj : forall st j, st <> 101 -> json_response req st j = Ok (r, a) ->
                 a = if keep_alive req then action_keepalive else action_close).
    { intros st j Hst. unfold json_response, cors. repeat case_match; intros [= <- <-]; cbn;
        rewrite (proj2 (Z.eqb_neq st switching_protocols)); done || by destruct (keep_alive req). }
    unfold respond_post in Heq. repeat case_match; simplify_eq; try done;
      (eapply Hj; [|eassumption]; done).
Qed.

End HttpServicer.

(** ** Instances *)

#[local] Existing Instances jv_json reference_iterators checksum_sha1.

(** A slot that answers [true] and counts its calls. *)
Definition counting_slot (method : string) (params : json) (n : nat) : slot_result json * nat :=
  (returned (jbool true), S n).

Definition sample_respond := respond counting_slot (fun _ => "parse error") (fun _ => true) (fun _ => true) "ws".
Definition sample_step :=
  step counting_slot (fun _ => "parse error") (fun _ => true) (fun _ => true) "ws".

Definition upgrade_request : request :=
  mk_request verb_get "/" 11 [(upgrade_field, "websocket"); (sec_websocket_key_field, "dGhlIHNhbXBsZQ==")] [].

Definition command_request : request :=
  mk_request verb_post "/" 11 []
    (jv_encode (jobj [("method", jstr "s.subscribe"); ("params", jarr [jstr "a"])])).

(** The servicer once an upgrade has been written, and after a call of [stop]. *)
Definition upgraded : servicer :=
  finish_write action_upgrade success true
    (settle (finish_read counting_slot (fun _ => "parse error") (fun _ => true) (fun _ => true) "ws"
               success upgrade_request (settle (run (make false))) 0%nat).1).

Lemma upgraded_reachable : rtc sample_step (run (make false), 0%nat) (upgraded, 0%nat).
Proof.
  eapply rtc_l.
  { apply (step_read _ _ _ _ _ _ _ success upgrade_request); [done|]. by split. }
  apply rtc_once. apply (step_write _ _ _ _ _ _ _ action_upgrade success true); [done|]. by split.
Qed.

Lemma servicer_accounts_for_itself_witness :
  rtc sample_step (run (make false), 0%nat) (upgraded, 0%nat) /\
  (closings upgraded + upgrades upgraded >= 1)%nat.
Proof.
  split; [apply upgraded_reachable|].
  destruct (servicer_accounts_for_itself counting_slot (fun _ => "parse error") (fun _ => true)
              (fun _ => true) "ws" false 0%nat upgraded 0%nat upgraded_reachable) as (_ & _ & _ & Hidle).
  destruct (Hidle eq_refl) as [H|H]; [exact H|]. by destruct H.
Defined.

Lemma upgraded_servicer_stays_silent_witness :
  let s := close success (set_posted 0 (stop upgraded)) in
  rtc sample_step (upgraded, 0%nat) (s, 0%nat) /\ raised s = [on_websocket_upgrade].
Proof.
  intros s. assert (Hs : rtc sample_step (upgraded, 0%nat) (s, 0%nat)).
  { eapply rtc_l; [apply step_stop|]. apply rtc_once. by apply step_posted. }
  split; [exact Hs|].
  exact (upgraded_servicer_stays_silent counting_slot (fun _ => "parse error") (fun _ => true)
           (fun _ => true) "ws" 0%nat upgraded 0%nat s 0%nat upgraded_reachable eq_refl Hs).
Defined.

Lemma response_action_witness :
  exists r, sample_respond upgrade_request 0%nat = (Ok (r, action_upgrade), 0%nat) /\
  get_header sec_websocket_accept_field (response_fields r) = get_response_key "dGhlIHNhbXBsZQ==".
Proof.
  destruct (sample_respond upgrade_request 0%nat) as [[[r a]|e] w] eqn:E; [|by vm_compute in E].
  destruct (response_action counting_slot (fun _ => "parse error") (fun _ => true) (fun _ => true) "ws"
              _ _ _ _ _ E) as [-> Hu].
  destruct (Hu eq_refl) as (_ & -> & Hk & _). exists r. split; [done|exact Hk].
Defined.

(** A command is consulted once and answered with success. *)
Example command_answered :
  let '(r, n) := sample_respond command_request 0%nat in
  n = 1%nat /\ match r with
               | Ok (r, a) => a = action_keepalive /\ response_body r = string_bytes "Succeeded"
               | Throw _ => False
               end.
Proof. by vm_compute. Qed.
