(* ===== verification/HttpClient.v ===== *)
(** * The HTTP client

    [include/ws-streaming/detail/http_client.hpp], for both instantiations
    ([tls]).  A request goes through a chain of asynchronous operations, each
    reporting an error code; the first error, or the end of the chain, calls the
    completion handler.  An operation finishes, with an error code that the
    environment chooses, when the execution context runs its completion; that
    can be after [cancel] although the operation itself was over before.  What a
    handler does with the client while it runs (it
    may start the next request) is the parameter [reacts]. *)
From S2P Require Import Prelude Http.
From S2P Require Import BasePeer.

Inductive stage : Type := resolving | connecting | client_handshake | writing | reading.

#[export] Instance stage_eq_dec : EqDecision stage.
Proof. solve_decision. Defined.

Section HttpClient.
Context {H : Type}.

(** The request, with its own handler, that a handler starts on the client. *)
Context (reacts : H -> error_code -> option (request * H)).
Context (http_product_string : string).

(** An operation under way, and whether it has been aborted. *)
Abbreviation operation := (stage * bool)%type.

(** [stages] are the operations under way, [transmitted] the requests written,
    [called] the handlers called. *)
Record http_client := mk_client {
  tls : bool;
  handler : option H;
  current : option request;
  stages : list operation;
  transmitted : list request;
  called : list (H * error_code)
}.

Definition make (t : bool) : http_client := mk_client t None None [] [] [].

Definition set_handler (h : option H) (c : http_client) : http_client :=
  mk_client (tls c) h (current c) (stages c) (transmitted c) (called c).

Definition set_stages (l : list operation) (c : http_client) : http_client :=
  mk_client (tls c) (handler c) (current c) l (transmitted c) (called c).

Definition start (s : stage) (c : http_client) : http_client := set_stages (stages c ++ [(s, false)]) c.

Definition with_user_agent (r : request) : request :=
  mk_request (method r) (target r) (version r)
    (set_header user_agent_field http_product_string (request_fields r)) (request_body r).

Definition async_request (r : request) (h : H) (c : http_client) : http_client :=
  start resolving
    (mk_client (tls c) (Some h) (Some (with_user_agent r)) (stages c) (transmitted c) (called c)).

(** The handler is cleared after the call, whatever it did. *)
Definition complete (ec : error_code) (c : http_client) : http_client :=
  match handler c with
  | None => c
  | Some h =>
      let c := mk_client (tls c) (handler c) (current c) (stages c) (transmitted c)
                 (called c ++ [(h, ec)]) in
      let c := if reacts h ec is Some (r, h') then async_request r h' c else c in
      set_handler None c
  end.

Definition do_write (c : http_client) : http_client :=
  start writing
    (mk_client (tls c) (handler c) (current c) (stages c)
       (transmitted c ++ if current c is Some r then [r] else []) (called c)).

Definition finish_resolve (ec : error_code) (c : http_client) : http_client :=
  if bool_decide (ec <> success) then complete ec c else start connecting c.

Definition finish_connect (ec : error_code) (c : http_client) : http_client :=
  if bool_decide (ec <> success) then complete ec c
  else if tls c then start client_handshake c else do_write c.

Definition finish_handshake (ec : error_code) (c : http_client) : http_client :=
  if bool_decide (ec <> success) then complete ec c else do_write c.

Definition finish_write (ec : error_code) (c : http_client) : http_client :=
  if bool_decide (ec <> success) then complete ec c else start reading c.

Definition finish_read (ec : error_code) (c : http_client) : http_client :=
  if bool_decide (ec <> success) then complete ec c else complete success c.

Definition finish (s : stage) : error_code -> http_client -> http_client :=
  match s with
  | resolving => finish_resolve
  | connecting => finish_connect
  | client_handshake => finish_handshake
  | writing => finish_write
  | reading => finish_read
  end.

(** The operation longest under way finishes: with [operation_aborted] when it
    has been aborted, and otherwise with [ec]. *)
Definition advance (ec : error_code) (c : http_client) : http_client :=
  match stages c with
  | [] => c
  | (s, aborted) :: rest => finish s (if aborted then operation_aborted else ec) (set_stages rest c)
  end.

Definition advances (ecs : list error_code) (c : http_client) : http_client :=
  fold_left (fun c ec => advance ec c) ecs c.

(** [_resolver.cancel()] and [tcp_layer().cancel()].  Of the operations under
    way, Asio aborts those that are waiting; one whose completion, or that of a
    step of it, is already scheduled is not affected.  [waiting] tells them
    apart, by their position. *)
Definition cancel (waiting : nat -> bool) (c : http_client) : http_client :=
  set_stages (imap (fun i '(s, aborted) => (s, aborted || waiting i)) (stages c)) c.

(** ** Specification *)

(** The operations of a request, in order. *)
Definition chain (t : bool) : list stage :=
  if t then [resolving; connecting; client_handshake; writing; reading]
  else [resolving; connecting; writing; reading].

(** What a request comes to when its operations report [ecs]: nothing yet, or
    the first error, or success at the end. *)
Fixpoint verdict (ss : list stage) (ecs : list error_code) : option error_code :=
  match ss with
  | [] => Some success
  | _ :: ss =>
      match ecs with
      | [] => None
      | ec :: ecs => if bool_decide (ec <> success) then Some ec else verdict ss ecs
      end
  end.

(** ** Lemmas *)

(** The rest of the chain after a stage. *)
Definition after (t : bool) (s : stage) : list stage :=
  match s with
  | resolving => connecting :: (if t then [client_handshake; writing; reading] else [writing; reading])
  | connecting => if t then [client_handshake; writing; reading] else [writing; reading]
  | client_handshake => [writing; reading]
  | writing => [reading]
  | reading => []
  end.

Lemma advances_cons ec ecs c : advances (ec :: ecs) c = advances ecs (advance ec c).
Proof. done. Qed.

Lemma advances_idle ecs c : stages c = [] -> advances ecs c = c.
Proof.
  intros Hc. induction ecs as [|ec ecs IH]; [done|].
  rewrite advances_cons. by replace (advance ec c) with c by (unfold advance; by rewrite Hc).
Qed.

Lemma finish_failed s ec c : ec <> success -> finish s ec c = complete ec c.
Proof.
  intros He. unfold finish, finish_resolve, finish_connect, finish_handshake, finish_write, finish_read.
  by destruct s; rewrite bool_decide_true by done.
Qed.

Lemma finish_success s c :
  exists c', finish s success c = match after (tls c) s with
                                  | [] => complete success c
                                  | s' :: _ => start s' c'
                                  end /\
    tls c' = tls c /\ handler c' = handler c /\ stages c' = stages c /\ called c' = called c.
Proof.
  unfold finish, finish_resolve, finish_connect, finish_handshake, finish_write, finish_read.
  destruct s; rewrite bool_decide_false by (intros []; done); cbn; try (by exists c).
  - destruct (tls c) eqn:E; [by exists c|]. by eexists; split; [reflexivity|].
  - by eexists; split; [reflexivity|].
Qed.

Lemma complete_tls ec c : tls (complete ec c) = tls c.
Proof. unfold complete. destruct (handler c); [|done]. by destruct (reacts _ _) as [[]|]. Qed.

Lemma advance_tls ec c : tls (advance ec c) = tls c.
Proof.
  unfold advance. destruct (stages c) as [|[s b] rest]; [done|].
  set (ec' := if b then operation_aborted else ec). destruct (decide (ec' = success)) as [->|Hne].
  - destruct (finish_success s (set_stages rest c)) as (c' & -> & Ht & _).
    destruct (after _ s); [exact (complete_tls _ (set_stages rest c))|exact Ht].
  - rewrite finish_failed by done. exact (complete_tls _ (set_stages rest c)).
Qed.

Lemma after_chain t s s' rest : after t s = s' :: rest -> after t s' = rest.
Proof. destruct s, t; cbn; by intros [= <- <-]. Qed.

(** A handler that leaves the client alone. *)
Lemma complete_quiet ec c h :
  reacts h ec = None -> handler c = Some h -> stages c = [] ->
  let c' := complete ec c in
  handler c' = None /\ stages c' = [] /\ called c' = called c ++ [(h, ec)].
Proof. intros Hr Hh Hs. cbn zeta. unfold complete. by rewrite Hh, Hr. Qed.

(** The verdict on a request whose operation under way is aborted, or not. *)
Definition verdict_from (aborted : bool) (ss : list stage) (ecs : list error_code) : option error_code :=
  if aborted then (if ecs is [] then None else Some operation_aborted) else verdict ss ecs.

Lemma advances_verdict h s b : (forall ec, reacts h ec = None) -> forall ecs c,
  handler c = Some h -> stages c = [(s, b)] ->
  called (advances ecs c) =
    called c ++ (if verdict_from b (s :: after (tls c) s) ecs is Some ec then [(h, ec)] else []).
Proof.
  intros Hr ecs. revert s b. induction ecs as [|ec ecs IH]; intros s b c Hh Hs.
  { destruct b; cbn; by rewrite app_nil_r. }
  rewrite advances_cons. unfold advance. rewrite Hs. destruct b; cbn [verdict_from verdict].
  { rewrite finish_failed by done.
    destruct (complete_quiet operation_aborted (set_stages [] c) h (Hr _) Hh eq_refl) as (_ & Hst & Hc).
    by rewrite advances_idle, Hc. }
  destruct (decide (ec = success)) as [->|Hne].
  - rewrite bool_decide_false by (intros []; done).
    destruct (finish_success s (set_stages [] c)) as (c' & -> & Ht & Hh' & Hs' & Hc').
    cbn in Ht, Hh', Hs', Hc'. cbn [tls set_stages].
    destruct (after (tls c) s) as [|s' rest] eqn:Ea.
    + destruct (complete_quiet success (set_stages [] c) h (Hr _) Hh eq_refl) as (_ & Hst & Hc).
      by rewrite advances_idle, Hc.
    + rewrite (IH s' false); cbn; [|by rewrite Hh'|by rewrite Hs'].
      rewrite Hc', Ht. by rewrite (after_chain _ _ _ _ Ea).
  - rewrite bool_decide_true by done. rewrite finish_failed by done.
    destruct (complete_quiet ec (set_stages [] c) h (Hr _) Hh eq_refl) as (_ & Hst & Hc).
    by rewrite advances_idle, Hc.
Qed.

(** Where a request is after some reports: its handler has been called, or one
    operation is under way and the reports were all successes. *)
Lemma advances_progress h s : (forall ec, reacts h ec = None) -> forall ecs c,
  handler c = Some h -> stages c = [(s, false)] ->
  let c' := advances ecs c in
  tls c' = tls c /\
  match verdict (s :: after (tls c) s) ecs with
  | Some ec => handler c' = None /\ stages c' = [] /\ called c' = called c ++ [(h, ec)]
  | None => handler c' = Some h /\ called c' = called c /\
      exists s', stages c' = [(s', false)] /\
        forall more, verdict (s :: after (tls c) s) (ecs ++ more) = verdict (s' :: after (tls c) s') more
  end.
Proof.
  intros Hr ecs. revert s. induction ecs as [|ec ecs IH]; intros s c Hh Hs; cbn zeta.
  { split; [done|]. cbn [verdict]. split; [done|]. split; [done|]. by exists s. }
  rewrite advances_cons. unfold advance. rewrite Hs. cbn [verdict app].
  destruct (decide (ec = success)) as [->|Hne].
  - rewrite bool_decide_false by (intros []; done).
    destruct (finish_success s (set_stages [] c)) as (c' & -> & Ht & Hh' & Hs' & Hc').
    cbn in Ht, Hh', Hs', Hc'. cbn [tls set_stages].
    destruct (after (tls c) s) as [|s' rest] eqn:Ea.
    + destruct (complete_quiet success (set_stages [] c) h (Hr _) Hh eq_refl) as (Hn & Hst & Hc).
      rewrite advances_idle by done. split; [|by rewrite Hc].
      unfold complete. cbn [handler set_stages]. rewrite Hh. by rewrite Hr.
    + destruct (IH s' (start s' c')) as [H1 H2]; [by rewrite <- Hh, <- Hh'|unfold start; cbn; by rewrite Hs'|].
      cbn [tls start set_stages called] in H1, H2. rewrite Ht, Hc' in *. rewrite <- (after_chain _ _ _ _ Ea). done.
  - rewrite bool_decide_true by done. rewrite finish_failed by done.
    destruct (complete_quiet ec (set_stages [] c) h (Hr _) Hh eq_refl) as (Hn & Hst & Hc).
    rewrite advances_idle by done. split; [|by rewrite Hc].
    unfold complete. cbn [handler set_stages]. rewrite Hh. by rewrite Hr.
Qed.

(** A cancelled request: nothing changes when its handler has been called, the
    operation under way fails when it was waiting, and otherwise the request goes
    on as if it had not been cancelled. *)
Definition cancelled_verdict (ss : list stage) (waited : bool) (before later : list error_code) : option error_code :=
  match verdict ss before with
  | Some ec => Some ec
  | None => if waited then (if later is [] then None else Some operation_aborted) else verdict ss (before ++ later)
  end.

Lemma verdict_some ss : forall ecs, (length ss <= length ecs)%nat -> is_Some (verdict ss ecs).
Proof.
  induction ss as [|s ss IH]; intros [|ec ecs] Hl; cbn in *; try (by eexists); [lia|].
  case_bool_decide; [by eexists|]. apply IH. lia.
Qed.

Lemma cancelled_verdict_some ss w before later :
  (length ss <= length before + length later)%nat -> later <> [] -> is_Some (cancelled_verdict ss w before later).
Proof.
  intros Hl Hn. unfold cancelled_verdict. destruct (verdict ss before); [by eexists|].
  destruct w; [destruct later; [done|by eexists]|]. apply verdict_some. by rewrite length_app.
Qed.

Lemma cancel_stages w c s : stages c = [(s, false)] -> stages (cancel w c) = [(s, w 0%nat)].
Proof. intros Hs. unfold cancel. by rewrite Hs. Qed.

Lemma cancel_idle w c : stages c = [] -> cancel w c = c.
Proof. intros Hs. unfold cancel. rewrite Hs. cbn. rewrite <- Hs. by destruct c. Qed.

Lemma cancelled_request r h w before later c :
  (forall ec, reacts h ec = None) -> stages c = [] ->
  called (advances later (cancel w (advances before (async_request r h c))))
  = called c ++ (if cancelled_verdict (chain (tls c)) (w 0%nat) before later is Some ec then [(h, ec)] else []).
Proof.
  intros Hr Hs. set (c0 := async_request r h c).
  assert (Hs0 : stages c0 = [(resolving, false)]) by (unfold c0, async_request, start; cbn; by rewrite Hs).
  destruct (advances_progress h resolving Hr before c0 eq_refl Hs0) as [Ht Hp].
  change (tls c0) with (tls c) in *. change (called c0) with (called c) in *.
  assert (Hchain : chain (tls c) = resolving :: after (tls c) resolving) by (by destruct (tls c)).
  unfold cancelled_verdict. rewrite Hchain. destruct (verdict _ before) as [ec|].
  - destruct Hp as (_ & Hst & Hc). by rewrite cancel_idle, advances_idle, Hc.
  - destruct Hp as (Hh & Hc & s' & Hst & Hv). rewrite (advances_verdict h s' (w 0%nat) Hr later); [|done|by apply cancel_stages].
    cbn [tls called cancel set_stages]. rewrite Ht, Hc, Hv. by destruct (w 0%nat).
Qed.

(** Without a handler nothing is called. *)
Lemma complete_none ec c : handler c = None -> complete ec c = c.
Proof. intros Hh. unfold complete. by rewrite Hh. Qed.

Lemma advance_silent ec c : handler c = None -> handler (advance ec c) = None /\ called (advance ec c) = called c.
Proof.
  intros Hh. unfold advance. destruct (stages c) as [|[s b] rest]; [done|].
  set (ec' := if b then operation_aborted else ec). destruct (decide (ec' = success)) as [->|Hne].
  - destruct (finish_success s (set_stages rest c)) as (c' & -> & _ & Hh' & _ & Hc').
    destruct (after _ s); cbn in *; [by rewrite complete_none|]. by rewrite Hh', Hc'.
  - rewrite finish_failed by done. by rewrite complete_none.
Qed.

Lemma advances_silent ecs : forall c, handler c = None -> called (advances ecs c) = called c.
Proof.
  induction ecs as [|ec ecs IH]; intros c Hc; cbn; [done|].
  destruct (advance_silent ec c Hc) as [Hh <-]. by apply IH.
Qed.

(** ** Properties *)

(** C20: the handler of a request is called exactly once, with the first error
    its operations report or with success, as soon as enough of them have
    reported; it is not called earlier, and reports that come later do not call
    it again.  (The handler does not itself use the client.) *)
Theorem handler_called_exactly_once t r h ecs :
  (forall ec, reacts h ec = None) ->
  called (advances ecs (async_request r h (make t))) =
    (if verdict (chain t) ecs is Some ec then [(h, ec)] else []) /\
  ((length (chain t) <= length ecs)%nat -> verdict (chain t) ecs <> None).
Proof.
  intros Hr. split.
  - rewrite (advances_verdict h resolving false Hr ecs (async_request r h (make t))) by done. by destruct t.
  - intros Hl. destruct (verdict_some (chain t) ecs Hl) as [ec ->]. done.
Qed.

(** A handler that starts the next request on the client loses it: the new
    request runs, but its handler is cleared when the first one returns and is
    never called, whatever its operations report. *)
Theorem request_from_handler_lost t r h ec r' h' ecs :
  ec <> success -> reacts h ec = Some (r', h') ->
  called (advances (ec :: ecs) (async_request r h (make t))) = [(h, ec)] /\
  stages (advances [ec] (async_request r h (make t))) = [(resolving, false)].
Proof.
  intros Hne Hr.
  assert (Hfirst : advance ec (async_request r h (make t))
    = set_handler None (async_request r' h'
        (mk_client t (Some h) (Some (with_user_agent r)) [] [] [(h, ec)]))).
  { unfold advance. cbn [stages async_request start set_stages app make]. rewrite finish_failed by done.
    unfold complete. cbn. by rewrite Hr. }
  split.
  - by rewrite advances_cons, Hfirst, advances_silent.
  - by rewrite advances_cons, Hfirst.
Qed.

End HttpClient.

(** ** Instances *)

Definition sample_request : request := mk_request verb_get "/" 11 [] [].

Lemma handler_called_exactly_once_witness :
  called (advances (fun (_ : nat) _ => None) "ws" [success; success; operation_aborted; success]
            (async_request "ws" sample_request 1%nat (make false))) = [(1%nat, operation_aborted)].
Proof.
  destruct (handler_called_exactly_once (fun (_ : nat) _ => None) "ws" false sample_request 1%nat
              [success; success; operation_aborted; success] (fun _ => eq_refl)) as [Hc _].
  exact Hc.
Defined.

Lemma request_from_handler_lost_witness :
  called (advances (fun h ec => if bool_decide (ec = success) then None else Some (sample_request, S h)) "ws"
            [other_error 1; success; success; success; success]
            (async_request "ws" sample_request 1%nat (make false))) = [(1%nat, other_error 1)].
Proof.
  destruct (request_from_handler_lost
              (fun h ec => if bool_decide (ec = success) then None else Some (sample_request, S h)) "ws"
              false sample_request 1%nat (other_error 1) sample_request 2%nat
              [success; success; success; success]) as [Hc _]; [done|done|exact Hc].
Defined.
