(* ===== verification/Tls.v ===== *)
(** * TLS contexts

    [include/ws-streaming/detail/tls.hpp].  A [boost::asio::ssl::context] is
    what this code sets in it: its role, options, verification mode and files.
    Reading a file into a context is OpenSSL's: [load] gives the error it
    reports, if any.  [accepts] is the part of a handshake that the verification
    mode decides, as OpenSSL documents it. *)
From S2P Require Import Prelude.

(** tls_client, tls_server *)
Inductive context_role : Type := tls_client | tls_server.

Inductive context_option : Type :=
| default_workarounds | no_sslv2 | no_sslv3 | no_tlsv1 | no_tlsv1_1.

#[export] Instance context_option_eq_dec : EqDecision context_option.
Proof. solve_decision. Defined.

Definition verify_none : Z := 0.
Definition verify_peer : Z := 1.
Definition verify_fail_if_no_peer_cert : Z := 2.

Inductive file_use : Type := verify_file | certificate_chain_file | private_key_file.

Inductive tls_error : Type :=
| invalid_argument
| system_error (code : Z).

Record context := mk_context {
  role : context_role;
  options : list context_option;
  verify_mode : Z;
  ca : option string;
  chain : option string;
  key : option string
}.

(** The constructor. *)
Definition fresh (r : context_role) : context := mk_context r [] verify_none None None None.

Definition set_options (l : list context_option) (c : context) : context :=
  mk_context (role c) (options c ++ l) (verify_mode c) (ca c) (chain c) (key c).

Definition set_verify_mode (m : Z) (c : context) : context :=
  mk_context (role c) (options c) m (ca c) (chain c) (key c).

Definition apply_common_options (c : context) : context :=
  set_options [default_workarounds; no_sslv2; no_sslv3; no_tlsv1; no_tlsv1_1] c.

Section Tls.
Context (load : file_use -> string -> context -> option Z).

Definition load_file (u : file_use) (f : string) (c : context) : result tls_error context :=
  match load u f c with
  | Some e => Throw (system_error e)
  | None =>
      Ok (match u with
          | verify_file => mk_context (role c) (options c) (verify_mode c) (Some f) (chain c) (key c)
          | certificate_chain_file => mk_context (role c) (options c) (verify_mode c) (ca c) (Some f) (key c)
          | private_key_file => mk_context (role c) (options c) (verify_mode c) (ca c) (chain c) (Some f)
          end)
  end.

(** A file that is read only when it is named. *)
Definition load_optional (u : file_use) (f : string) (c : context) : result tls_error context :=
  if bool_decide (f = "") then Ok c else load_file u f c.

Definition make_client_tls_context (ca_file cert_file key_file : string) : result tls_error context :=
  if negb (Bool.eqb (bool_decide (cert_file = "")) (bool_decide (key_file = ""))) then Throw invalid_argument
  else
    let ctx := apply_common_options (fresh tls_client) in
    if bool_decide (ca_file = "") then Throw invalid_argument
    else
      ctx <-? load_file verify_file ca_file ctx;
      ctx <-? load_optional certificate_chain_file cert_file (set_verify_mode verify_peer ctx);
      load_optional private_key_file key_file ctx.

Definition make_client_tls_context_without_verification : context :=
  set_verify_mode verify_none (apply_common_options (fresh tls_client)).

Definition make_server_tls_context (cert_file key_file ca_file : string) : result tls_error context :=
  ctx <-? load_file certificate_chain_file cert_file (apply_common_options (fresh tls_server));
  ctx <-? load_file private_key_file key_file ctx;
  if bool_decide (ca_file = "") then Ok ctx
  else
    ctx <-? load_file verify_file ca_file ctx;
    Ok (set_verify_mode (Z.lor verify_peer verify_fail_if_no_peer_cert) ctx).

(** ** What a context accepts

    [trusted f c]: the certificates of the file [f] vouch for [c]. *)
Section Accepts.
Context {C : Type} (trusted : string -> C -> bool).

(** A client is always sent a certificate, or the handshake fails; a server is
    sent one only if it asks and the client has one. *)
Definition accepts (ctx : context) (cert : option C) : bool :=
  if Z.land (verify_mode ctx) verify_peer =? 0 then
    if role ctx is tls_client then bool_decide (is_Some cert) else true
  else
    match cert with
    | Some c => if ca ctx is Some f then trusted f c else false
    | None =>
        if role ctx is tls_server then Z.land (verify_mode ctx) verify_fail_if_no_peer_cert =? 0 else false
    end.
End Accepts.

(** ** Lemmas *)

(** Nothing but the files has been set since. *)
Definition same_policy (c c' : context) : Prop :=
  role c' = role c /\ options c' = options c /\ verify_mode c' = verify_mode c.

Lemma load_file_ok u f c c' :
  load_file u f c = Ok c' ->
  same_policy c c' /\
  ca c' = (if u is verify_file then Some f else ca c) /\
  chain c' = (if u is certificate_chain_file then Some f else chain c) /\
  key c' = (if u is private_key_file then Some f else key c).
Proof. unfold load_file. destruct (load u f c); [done|]. intros [= <-]. by destruct u. Qed.

Lemma load_optional_ok u f c c' :
  load_optional u f c = Ok c' ->
  same_policy c c' /\ (u <> verify_file -> ca c' = ca c).
Proof.
  unfold load_optional. case_bool_decide; [by intros [= <-]|].
  intros H1%load_file_ok. destruct H1 as (? & H1 & _). split; [done|]. intros Hu. by destruct u.
Qed.

Lemma client_context_ok ca_file cert_file key_file ctx :
  make_client_tls_context ca_file cert_file key_file = Ok ctx ->
  role ctx = tls_client /\ options ctx = options (apply_common_options (fresh tls_client)) /\
  verify_mode ctx = verify_peer /\ ca ctx = Some ca_file /\ ca_file <> "".
Proof.
  unfold make_client_tls_context. destruct (negb _); [done|]. case_bool_decide as Hca; [done|].
  destruct (load_file verify_file ca_file _) as [c1|] eqn:E1; [|done]. cbn [rbind].
  destruct (load_optional certificate_chain_file _ _) as [c2|] eqn:E2; [|done]. cbn [rbind].
  intros E3. apply load_file_ok in E1 as ((R1 & O1 & _) & A1 & _).
  apply load_optional_ok in E2 as ((R2 & O2 & V2) & A2). apply load_optional_ok in E3 as ((R3 & O3 & V3) & A3).
  rewrite R3, O3, V3, A3, R2, O2, V2, A2 by done. cbn. by rewrite R1, O1, A1.
Qed.

Lemma server_context_ok cert_file key_file ca_file ctx :
  make_server_tls_context cert_file key_file ca_file = Ok ctx ->
  role ctx = tls_server /\ options ctx = options (apply_common_options (fresh tls_server)) /\
  chain ctx = Some cert_file /\ key ctx = Some key_file /\
  if bool_decide (ca_file = "") then verify_mode ctx = verify_none
  else verify_mode ctx = Z.lor verify_peer verify_fail_if_no_peer_cert /\ ca ctx = Some ca_file.
Proof.
  unfold make_server_tls_context. destruct (load_file certificate_chain_file _ _) as [c1|] eqn:E1; [|done].
  cbn [rbind]. destruct (load_file private_key_file _ _) as [c2|] eqn:E2; [|done]. cbn [rbind].
  apply load_file_ok in E1 as ((R1 & O1 & V1) & _ & C1 & _).
  apply load_file_ok in E2 as ((R2 & O2 & V2) & _ & C2 & K2). case_bool_decide as Hca.
  - intros [= <-]. by rewrite R2, O2, V2, C2, R1, O1, V1, C1.
  - destruct (load_file verify_file _ _) as [c3|] eqn:E3; [|done]. cbn [rbind]. intros [= <-].
    apply load_file_ok in E3 as ((R3 & O3 & _) & A3 & C3 & K3). cbn.
    by rewrite R3, O3, A3, C3, K3, R2, O2, C2, R1, O1, C1, K2.
Qed.

Lemma modern_options r o : o <> default_workarounds -> o ∈ options (apply_common_options (fresh r)).
Proof. intros Ho. cbn. destruct o; try done; rewrite !elem_of_cons; naive_solver. Qed.

(** ** Properties *)

(** C23: whom TLS admits: a context for a client, if it can be made, accepts a
    server only when the certificates of the given file vouch for it; made
    without verification it accepts any server; a server's context admits
    clients without a certificate exactly when no certificate file for clients
    is given, and otherwise only those the file vouches for.  None of the
    contexts allows a protocol version before TLS 1.2. *)
Theorem tls_policy {C : Type} (trusted : string -> C -> bool) :
  (forall ca_file cert_file key_file ctx cert,
     make_client_tls_context ca_file cert_file key_file = Ok ctx ->
     accepts trusted ctx cert = (if cert is Some c then trusted ca_file c else false)) /\
  (forall c, accepts trusted make_client_tls_context_without_verification (Some c) = true) /\
  (forall cert_file key_file ca_file ctx cert,
     make_server_tls_context cert_file key_file ca_file = Ok ctx ->
     accepts trusted ctx cert =
       (if bool_decide (ca_file = "") then true else if cert is Some c then trusted ca_file c else false)) /\
  (forall ctx o, o <> default_workarounds ->
     ctx = make_client_tls_context_without_verification \/
     (exists ca_file cert_file key_file, make_client_tls_context ca_file cert_file key_file = Ok ctx) \/
     (exists cert_file key_file ca_file, make_server_tls_context cert_file key_file ca_file = Ok ctx) ->
     o ∈ options ctx).
Proof.
  split; [|split; [done|split]].
  - intros ca_file cert_file key_file ctx cert (R & _ & V & A & _)%client_context_ok.
    unfold accepts. by rewrite V, A, R.
  - intros cert_file key_file ca_file ctx cert (R & _ & _ & _ & H)%server_context_ok.
    unfold accepts. rewrite R. case_bool_decide; [by rewrite H|]. destruct H as [-> ->]. by destruct cert.
  - intros ctx o Ho [->|[(? & ? & ? & (_ & -> & _)%client_context_ok)|(? & ? & ? & (_ & -> & _)%server_context_ok)]];
      by apply modern_options.
Qed.

(** A client's context needs a file of certificates, and either both or none of
    the files that identify the client. *)
Theorem client_context_arguments ca_file cert_file key_file :
  make_client_tls_context ca_file cert_file key_file = Throw invalid_argument <->
  ca_file = "" \/ (cert_file = "" <-> key_file <> "").
Proof.
  unfold make_client_tls_context, load_optional, load_file.
  repeat case_bool_decide; subst; cbn; try naive_solver;
    repeat (case_match; cbn; try naive_solver).
Qed.

End Tls.

(** ** Instances *)

(** Files that exist, and certificates named after the file that vouches for
    them. *)
Definition sample_load (u : file_use) (f : string) (c : context) : option Z :=
  if bool_decide (f = "missing.crt") then Some 2 else None.

Definition sample_trusted (f c : string) : bool := bool_decide (f = c).

Lemma tls_policy_witness :
  exists ctx, make_server_tls_context sample_load "server.crt" "server.key" "clients.crt" = Ok ctx /\
    accepts sample_trusted ctx None = false /\ accepts sample_trusted ctx (Some "clients.crt") = true /\
    no_tlsv1_1 ∈ options ctx.
Proof.
  destruct (tls_policy sample_load sample_trusted) as (_ & _ & Hs & Ho).
  assert (E : exists ctx, make_server_tls_context sample_load "server.crt" "server.key" "clients.crt" = Ok ctx)
    by (eexists; vm_compute; reflexivity).
  destruct E as [ctx E]. exists ctx. split; [exact E|].
  split; [rewrite (Hs _ _ _ ctx None E); reflexivity|].
  split; [rewrite (Hs _ _ _ ctx (Some "clients.crt") E); reflexivity|].
  apply (Ho ctx no_tlsv1_1); [done|]. right. right. by exists "server.crt", "server.key", "clients.crt".
Defined.

Lemma client_context_arguments_witness :
  make_client_tls_context sample_load "ca.crt" "client.crt" "" = Throw invalid_argument.
Proof. apply (client_context_arguments sample_load "ca.crt" "client.crt" ""). right. by split. Defined.
