(* ===== verification/Client.v ===== *)
(** * Connecting to a server

    [src/client.cpp] and [include/ws-streaming/client.hpp]: which server a URL
    stands for, the WebSocket upgrade request and what becomes of its outcome,
    and the client object with its HTTP clients and its TLS settings.  Whether
    the build has TLS is a parameter; contexts are those of [Tls].  The remote
    endpoint of a socket is an argument, [None] when asking for it throws. *)
From S2P Require Import Prelude Json BasePeer Base64 Http Url.
From S2P Require StreamingProtocol LocalSignal Connection HttpServicer HttpClient Tls.
From stdpp Require Import pretty.
From Stdlib Require Import Ascii.

#[local] Open Scope Z_scope.

(** [std::to_string] *)
Definition to_string (z : Z) : string := pretty z.

(** The address and the port of a remote endpoint. *)
Definition endpoint : Type := string * Z.

(** [address().to_string() + ":" + std::to_string(port())] *)
Definition stream_id (e : endpoint) : string := String.append e.1 (String.append ":" (to_string e.2)).

Inductive transport : Type := websocket | secure_websocket | direct_tcp.

#[export] Instance transport_eq_dec : EqDecision transport.
Proof. solve_decision. Defined.

(** The connection attempt a call of [async_connect] starts. *)
Record attempt := mk_attempt {
  via : transport;
  host : list ascii;
  service : string;
  upgrade : option request
}.

(** Whether and how the completion handler is called. *)
Inductive connect_result {C : Type} : Type :=
| reported (ec : BasePeer.error_code) (c : option C)
| unreported.
Arguments connect_result : clear implicits.

Section Client.
Context `{JL : JsonLib} `{!ArchiveIterators}.
Context (atoi_overflow : list ascii -> Z) (tls_enabled : bool).

(** ** The upgrade request *)

(** The time as text, cut or filled with zeros to 16 characters. *)
Definition key_bytes (now : Z) : list Z :=
  let s := string_bytes (to_string now) in
  take 16 s ++ replicate (16 - length s) 0%Z.

Definition get_random_key (now : Z) : string := String.string_of_list_ascii (base64 (key_bytes now)).

Definition create_request (u : url) (now : Z) : request :=
  let path := if bool_decide (Url.path u = []) then ["/"%char] else Url.path u in
  mk_request verb_get (String.string_of_list_ascii path) 11
    (set_header upgrade_field "websocket"
       (set_header sec_websocket_version_field "13"
          (set_header sec_websocket_key_field (get_random_key now)
             (set_header host_field (String.string_of_list_ascii (host_address u))
                (set_header connection_field "Upgrade" [])))))
    [].

(** ** The object *)

Section Object.
(** The completion handlers, and what the handler does with the HTTP client
    that calls it. *)
Context {Handler : Type} (reacts : Handler -> BasePeer.error_code -> option (request * Handler)).
Context (http_product_string : string).
Context (load : Tls.file_use -> string -> Tls.context -> option Z).

(** [_ssl_context] and [_https_client] are assigned together; [direct] are the
    handlers of the direct TCP connections being made. *)
Record client := mk_client {
  http : HttpClient.http_client (H := Handler);
  https : option (Tls.context * HttpClient.http_client (H := Handler));
  direct : list Handler;
  ca_file : string;
  cert_file : string;
  key_file : string;
  verify_server : bool
}.

Definition make_client : client := mk_client (HttpClient.make false) None [] "" "" "" true.

Definition set_http (x : HttpClient.http_client) (c : client) : client :=
  mk_client x (https c) (direct c) (ca_file c) (cert_file c) (key_file c) (verify_server c).

Definition set_https (x : option (Tls.context * HttpClient.http_client)) (c : client) : client :=
  mk_client (http c) x (direct c) (ca_file c) (cert_file c) (key_file c) (verify_server c).

Definition set_direct (l : list Handler) (c : client) : client :=
  mk_client (http c) (https c) l (ca_file c) (cert_file c) (key_file c) (verify_server c).

(** The settings are kept even when the context cannot be made. *)
Definition enable_tls (ca cert key : string) (c : client) : result Tls.tls_error unit * client :=
  let c := mk_client (http c) (https c) (direct c) ca cert key true in
  match Tls.make_client_tls_context load (ca_file c) (cert_file c) (key_file c) with
  | Throw e => (Throw e, c)
  | Ok ctx => (Ok tt, set_https (Some (ctx, HttpClient.make true)) c)
  end.

Definition enable_tls_without_verification (c : client) : client :=
  let c := mk_client (http c) (https c) (direct c) "" "" "" false in
  set_https (Some (Tls.make_client_tls_context_without_verification, HttpClient.make true)) c.

Definition ensure_https_client (c : client) : result Tls.tls_error client :=
  match https c with
  | Some _ => Ok c
  | None =>
      ctx <-? (if verify_server c then Tls.make_client_tls_context load (ca_file c) (cert_file c) (key_file c)
               else Ok Tls.make_client_tls_context_without_verification);
      Ok (set_https (Some (ctx, HttpClient.make true)) c)
  end.

(** ** async_connect *)

Inductive connect_error : Type :=
| bad_url (e : url_error)
| tls_failure (e : Tls.tls_error)
| no_tls.

Definition scheme_is (s : string) (u : url) : bool := bool_decide (scheme u = String.list_ascii_of_string s).

(** The attempt that is made for a URL. *)
Definition attempt_for (u : url) (now : Z) : attempt :=
  let to v default r := mk_attempt v (host_address u) (to_string (value_or (port_number u) default)) r in
  if scheme_is "ws" u then to websocket StreamingProtocol.DEFAULT_WEBSOCKET_PORT (Some (create_request u now))
  else if scheme_is "wss" u
  then to secure_websocket StreamingProtocol.DEFAULT_SECURE_WEBSOCKET_PORT (Some (create_request u now))
  else to direct_tcp StreamingProtocol.DEFAULT_TCP_PORT None.

(** Starts the attempt: a request on one of the HTTP clients, or a direct
    connection. *)
Definition start_attempt (a : attempt) (h : Handler) (c : client) : result connect_error client :=
  match via a, upgrade a with
  | websocket, Some r => Ok (set_http (HttpClient.async_request http_product_string r h (http c)) c)
  | secure_websocket, Some r =>
      if tls_enabled then
        match ensure_https_client c with
        | Throw e => Throw (tls_failure e)
        | Ok c =>
            Ok (set_https ((fun x => (x.1, HttpClient.async_request http_product_string r h x.2)) <$> https c) c)
        end
      else Throw no_tls
  | _, _ => Ok (set_direct (direct c ++ [h]) c)
  end.

Definition async_connect (text : list ascii) (now : Z) (h : Handler) (c : client) : result connect_error attempt * client :=
  match parse_url atoi_overflow text with
  | Throw e => (Throw (bad_url e), c)
  | Ok u =>
      match start_attempt (attempt_for u now) h c with
      | Throw e => (Throw e, c)
      | Ok c => (Ok (attempt_for u now), c)
      end
  end.

(** The operations of each HTTP client that are waiting, see [HttpClient.cancel]. *)
Definition cancel (waiting : bool -> nat -> bool) (c : client) : client :=
  let c := set_http (HttpClient.cancel (waiting false) (http c)) c in
  set_https ((fun x => (x.1, HttpClient.cancel (waiting true) x.2)) <$> https c) c.
End Object.

(** ** Outcomes *)

(** A connection made for the socket and started.  [signals] is the
    application's heap of local signals. *)
Definition start_connection (signals : gmap nat LocalSignal.local_signal) (e : endpoint)
    : Connection.connection :=
  Connection.run (Connection.make true (stream_id e) (Some e.1) signals).

(** The end of both attempts: without an endpoint the handler is not called. *)
Definition finish_connect (signals : gmap nat LocalSignal.local_signal) (e : option endpoint)
    : connect_result Connection.connection :=
  match e with
  | Some e => reported BasePeer.success (Some (start_connection signals e))
  | None => unreported
  end.

(** The handler of the upgrade request of [ws] and [wss]. *)
Definition finish_upgrade (signals : gmap nat LocalSignal.local_signal) (ec : BasePeer.error_code)
    (st : Z) (e : option endpoint) : connect_result Connection.connection :=
  if bool_decide (ec <> BasePeer.success) then reported ec None
  else if negb (st =? switching_protocols) then reported BasePeer.bad_status None
  else finish_connect signals e.

(** The handlers of a direct TCP connection: resolving, then connecting. *)
Definition finish_direct (signals : gmap nat LocalSignal.local_signal)
    (resolved connected : BasePeer.error_code) (e : option endpoint)
    : connect_result Connection.connection :=
  if bool_decide (resolved <> BasePeer.success) then reported resolved None
  else if bool_decide (connected <> BasePeer.success) then reported connected None
  else finish_connect signals e.

(** ** Lemmas *)

Lemma string_bytes_byte s : Forall is_byte (string_bytes s).
Proof.
  unfold string_bytes. apply Forall_fmap, Forall_true. intros c. cbn. unfold in_u.
  pose proof (nat_ascii_bounded c). lia.
Qed.

Lemma key_bytes_ok now : Forall is_byte (key_bytes now) /\ length (key_bytes now) = 16%nat.
Proof.
  unfold key_bytes. split.
  - apply Forall_app_2; [apply Forall_take, string_bytes_byte|]. apply Forall_replicate. unfold in_u. lia.
  - rewrite length_app, length_take, length_replicate. lia.
Qed.

Lemma decode64_base64 bs :
  Forall is_byte bs -> decode64 (S (length bs)) (base64 bs) = Some bs.
Proof.
  intros Hb. unfold base64. rewrite binary_to_base64_law by done. fold (padding bs).
  apply decode64_encode; [done|lia].
Qed.

(** ** Lemmas: the object *)

Section ObjectLemmas.
Context {Handler : Type} (reacts : Handler -> BasePeer.error_code -> option (request * Handler)).
Context (http_product_string : string).
Context (load : Tls.file_use -> string -> Tls.context -> option Z).

(** The handlers the HTTP clients have called. *)
Definition calls (c : client (Handler := Handler)) : list (Handler * BasePeer.error_code) :=
  HttpClient.called (http c) ++ (if https c is Some (_, x) then HttpClient.called x else []).

(** The operations of a direct attempt are not part of the object; those of the
    HTTP clients report one after another. *)
Definition reports (v : transport) (ecs : list BasePeer.error_code) (c : client (Handler := Handler)) : client :=
  match v with
  | websocket => set_http (HttpClient.advances reacts http_product_string ecs (http c)) c
  | secure_websocket => set_https ((fun x => (x.1, HttpClient.advances reacts http_product_string ecs x.2)) <$> https c) c
  | direct_tcp => c
  end.

(** No request is under way. *)
Definition idle (c : client (Handler := Handler)) : Prop :=
  HttpClient.stages (http c) = [] /\ forall ctx x, https c = Some (ctx, x) -> HttpClient.stages x = [].

Lemma ensure_https c c1 :
  ensure_https_client load c = Ok c1 ->
  http c1 = http c /\ direct c1 = direct c /\ calls c1 = calls c /\ is_Some (https c1) /\
  (idle c -> idle c1).
Proof.
  unfold ensure_https_client. destruct (https c) as [[ctx x]|] eqn:E.
  - intros [= <-]. rewrite E. by split_and!.
  - destruct (if verify_server c then _ else _) as [ctx|e]; [|done]. intros [= <-].
    unfold calls. cbn. rewrite E. split_and!; try done. intros [H1 _]. split; [done|].
    cbn. intros ctx' x [= <- <-]. done.
Qed.

(** Whom the client trusts: an HTTPS client checks the server against a file. *)
Definition verifying (c : client (Handler := Handler)) : Prop :=
  verify_server c = true /\
  forall ctx x, https c = Some (ctx, x) ->
    Tls.role ctx = Tls.tls_client /\ Tls.verify_mode ctx = Tls.verify_peer /\
    exists f, Tls.ca ctx = Some f /\ f <> "".

Lemma client_context_verifies ca cert key ctx :
  Tls.make_client_tls_context load ca cert key = Ok ctx ->
  Tls.role ctx = Tls.tls_client /\ Tls.verify_mode ctx = Tls.verify_peer /\
  exists f, Tls.ca ctx = Some f /\ f <> "".
Proof. intros (? & _ & ? & ? & ?)%Tls.client_context_ok. eauto. Qed.

Lemma enable_tls_verifying ca cert key c : verifying c -> verifying (enable_tls load ca cert key c).2.
Proof.
  intros [_ Hh]. unfold enable_tls. cbn [ca_file cert_file key_file].
  destruct (Tls.make_client_tls_context load ca cert key) as [ctx|e] eqn:E; (split; [done|]); cbn; [|done].
  intros ctx' x [= <- <-]. by eapply client_context_verifies.
Qed.

Lemma start_attempt_verifying a h c c1 :
  verifying c -> start_attempt http_product_string load a h c = Ok c1 -> verifying c1.
Proof.
  intros [Hv Hh]. unfold start_attempt. destruct (via a), (upgrade a) as [r|]; try (intros [= <-]; by split).
  destruct tls_enabled; [|done]. unfold ensure_https_client.
  destruct (https c) as [[ctx x]|] eqn:E.
  - intros [= <-]. split; [done|]. cbn. rewrite E. intros ctx' x' [= <- <-]. by eapply Hh.
  - rewrite Hv. destruct (Tls.make_client_tls_context _ _ _ _) as [ctx|] eqn:Ec; [|done]. intros [= <-].
    split; [done|]. cbn. intros ctx' x' [= <- <-]. by eapply client_context_verifies.
Qed.

Lemma async_connect_verifying text now h c :
  verifying c -> verifying (async_connect http_product_string load text now h c).2.
Proof.
  intros Hc. unfold async_connect. destruct (parse_url _ _) as [u|]; [|done].
  destruct (start_attempt _ _ _ _ _) as [c1|] eqn:E; [|done]. by eapply start_attempt_verifying.
Qed.

Lemma cancel_verifying w c : verifying c -> verifying (cancel w c).
Proof.
  intros [Hv Hh]. split; [done|]. cbn. destruct (https c) as [[ctx x]|]; cbn; [|done].
  intros ctx' x' [= <- <-]. by eapply Hh.
Qed.

(** Which of the two HTTP clients speaks TLS. *)
Definition made (c : client (Handler := Handler)) : Prop :=
  HttpClient.tls (http c) = false /\ forall ctx x, https c = Some (ctx, x) -> HttpClient.tls x = true.

Lemma ensure_https_made c c1 : made c -> ensure_https_client load c = Ok c1 -> made c1.
Proof.
  intros [H1 H2]. unfold ensure_https_client. destruct (https c) as [[ctx x]|] eqn:E.
  - intros [= <-]. split; [done|]. by rewrite E.
  - destruct (if verify_server c then _ else _); [|done]. intros [= <-]. split; [done|]. by intros ctx x [= <- <-].
Qed.

Lemma start_attempt_made a h c c1 : made c -> start_attempt http_product_string load a h c = Ok c1 -> made c1.
Proof.
  intros Hm. unfold start_attempt. destruct (via a), (upgrade a) as [r|]; try (intros [= <-]; exact Hm).
  destruct tls_enabled; [|done]. destruct (ensure_https_client load c) as [c'|] eqn:E; [|done]. intros [= <-].
  destruct (ensure_https_made c c' Hm E) as [H1 H2]. split; [done|]. cbn.
  destruct (https c') as [[ctx x]|] eqn:Ec; [|done]. intros ctx' x' [= <- <-]. exact (H2 ctx x eq_refl).
Qed.

(** What the application does with a client, and what its HTTP clients report. *)
Inductive client_action : Type :=
| act_enable_tls (ca cert key : string)
| act_without_verification
| act_connect (text : list ascii) (now : Z) (h : Handler)
| act_cancel (waiting : bool -> nat -> bool)
| act_http (ec : BasePeer.error_code)
| act_https (ec : BasePeer.error_code).

Definition client_act (a : client_action) (c : client) : client :=
  match a with
  | act_enable_tls ca cert key => (enable_tls load ca cert key c).2
  | act_without_verification => enable_tls_without_verification c
  | act_connect text now h => (async_connect http_product_string load text now h c).2
  | act_cancel w => cancel w c
  | act_http ec => set_http (HttpClient.advance reacts http_product_string ec (http c)) c
  | act_https ec =>
      set_https ((fun x => (x.1, HttpClient.advance reacts http_product_string ec x.2)) <$> https c) c
  end.

Definition client_acts (l : list client_action) (c : client) : client :=
  fold_left (fun c a => client_act a c) l c.

Lemma client_acts_verifying l : forall c,
  act_without_verification ∉ l -> verifying c -> verifying (client_acts l c).
Proof.
  induction l as [|a l IH]; intros c Hl Hc; cbn; [done|]. apply not_elem_of_cons in Hl as [Ha Hl].
  apply IH; [done|]. destruct a as [ca cert key| |text now h|w|ec|ec]; cbn [client_act]; [|done| | | |].
  - by apply enable_tls_verifying.
  - by apply async_connect_verifying.
  - by apply cancel_verifying.
  - by destruct Hc.
  - destruct Hc as [Hv Hh]. split; [done|]. cbn. destruct (https c) as [[ctx x]|]; cbn; [|done].
    intros ctx' x' [= <- <-]. by eapply Hh.
Qed.

Lemma client_act_made a c : made c -> made (client_act a c).
Proof.
  intros Hm. pose proof Hm as [H1 H2]. destruct a as [ca cert key| |text now h|w|ec|ec]; cbn [client_act].
  - unfold enable_tls. cbn [ca_file cert_file key_file].
    destruct (Tls.make_client_tls_context load ca cert key); [|exact Hm]. split; [done|]. by intros ctx x [= <- <-].
  - split; [done|]. by intros ctx x [= <- <-].
  - unfold async_connect. destruct (parse_url _ _) as [u|]; [|done].
    destruct (start_attempt _ _ _ _ _) as [c1|] eqn:E; [|done]. by eapply start_attempt_made.
  - split; [done|]. cbn. destruct (https c) as [[ctx x]|] eqn:Ec; [|done]. intros ctx' x' [= <- <-]. exact (H2 ctx x eq_refl).
  - split; [by cbn; rewrite HttpClient.advance_tls|exact H2].
  - split; [done|]. cbn. destruct (https c) as [[ctx x]|] eqn:Ec; [|done]. intros ctx' x' [= <- <-].
    cbn [snd]. rewrite HttpClient.advance_tls. exact (H2 ctx x eq_refl).
Qed.

Lemma client_acts_made l : made (client_acts l make_client).
Proof.
  assert (Hm : made (make_client (Handler := Handler))) by (by split). revert Hm. unfold client_acts. generalize (make_client (Handler := Handler)) as c.
  induction l as [|a l IH]; intros c Hc; [done|]. cbn. by apply IH, client_act_made.
Qed.
End ObjectLemmas.

(** ** Properties *)

(** C22: a client never talks TLS to a server it has not checked unless the
    application has asked for that: whatever else it does, in whatever order
    (enabling TLS with files that cannot be read included), as long as it does
    not call [enable_tls_without_verification] every HTTPS client that is used
    accepts only servers that a named file of certificates vouches for. *)
Theorem verified_unless_disabled {Handler C : Type} (trusted : string -> C -> bool)
    (reacts : Handler -> BasePeer.error_code -> option (request * Handler)) product load l ctx x cert :
  act_without_verification ∉ l ->
  https (client_acts reacts product load l make_client) = Some (ctx, x) ->
  Tls.accepts trusted ctx cert = true ->
  exists f c, Tls.ca ctx = Some f /\ f <> "" /\ cert = Some c /\ trusted f c = true.
Proof.
  intros Hl Hx Ha.
  destruct (client_acts_verifying reacts product load l make_client Hl) as [_ Hv]; [by split|].
  destruct (Hv ctx x Hx) as (Hr & Hm & f & Hf & Hne). unfold Tls.accepts in Ha. rewrite Hm, Hf, Hr in Ha.
  destruct cert as [c|]; [|done]. by exists f, c.
Qed.

(** The settings of [enable_tls] are stored, but when its files cannot be
    used an HTTPS client made earlier stays in place: after
    [enable_tls_without_verification], a call of [enable_tls] that throws
    leaves a client that still accepts any server, although verification is
    set. *)
Theorem failed_enable_tls_keeps_client {Handler C : Type} (trusted : string -> C -> bool) load
    ca cert key (c : client (Handler := Handler)) e :
  (enable_tls load ca cert key (enable_tls_without_verification c)).1 = Throw e ->
  let c' := (enable_tls load ca cert key (enable_tls_without_verification c)).2 in
  verify_server c' = true /\ ensure_https_client load c' = Ok c' /\
  exists ctx x, https c' = Some (ctx, x) /\ forall s, Tls.accepts trusted ctx (Some s) = true.
Proof.
  unfold enable_tls. cbn [ca_file cert_file key_file].
  destruct (Tls.make_client_tls_context load ca cert key); [done|]. cbn. intros _.
  split; [done|]. split; [done|]. by eexists _, _.
Qed.

(** C34: cancelling.  After whatever an application has done with a client, an
    attempt to open a connection is started while no request is under way, its
    operations report [before], [cancel] is called, and they report [later]; the
    handler does not itself use the client.  The handler of the upgrade request
    ([ws] and [wss]) is called once: as before when it had already
    been called; with [operation_aborted] when the operation under way was
    waiting at the moment of the call; and when the completion of that operation
    was already scheduled the attempt goes on as if [cancel] had not been called
    and can still succeed, as the documentation says.  An attempt to open a
    direct TCP connection is never affected, which the documentation does not
    say. *)
Theorem cancel_aborts_upgrades {Handler : Type}
    (reacts : Handler -> BasePeer.error_code -> option (request * Handler)) product load text now h
    history a c1 waiting before later :
  let c := client_acts reacts product load history make_client in
  idle c -> (forall ec, reacts h ec = None) ->
  async_connect product load text now h c = (Ok a, c1) ->
  let c2 := reports reacts product (via a) later (cancel waiting (reports reacts product (via a) before c1)) in
  if bool_decide (via a = direct_tcp)
  then direct c2 = direct c ++ [h] /\ calls c2 = calls c
  else
    let tls := bool_decide (via a = secure_websocket) in
    let v := HttpClient.cancelled_verdict (HttpClient.chain tls) (waiting tls 0%nat) before later in
    direct c2 = direct c /\
    calls c2 ≡ₚ calls c ++ (if v is Some ec then [(h, ec)] else []) /\
    ((length (HttpClient.chain tls) <= length before + length later)%nat -> later <> [] -> is_Some v).
Proof.
  intros c [Hi1 Hi2] Hr. pose proof (client_acts_made reacts product load history) as Hm. fold c in Hm.
  clearbody c. unfold async_connect. destruct (parse_url _ _) as [u|]; [|done].
  unfold start_attempt. set (at' := attempt_for u now).
  assert (Hup : via at' = direct_tcp <-> upgrade at' = None).
  { unfold at', attempt_for. by repeat case_match. }
  destruct (via at') eqn:Ev, (upgrade at') as [r|] eqn:Eu;
    try (exfalso; first [discriminate (proj1 Hup eq_refl)|discriminate (proj2 Hup eq_refl)]).
  - intros [= <- <-]. rewrite Ev, !bool_decide_false by done. cbn zeta. split; [done|].
    split; [|apply HttpClient.cancelled_verdict_some].
    unfold calls, cancel, reports. cbn [http https set_http set_https].
    rewrite HttpClient.cancelled_request, (proj1 Hm) by done.
    destruct (https c) as [[ctx x]|] eqn:E; cbn [fmap option_fmap option_map fst snd]; [|by rewrite !app_nil_r].
    rewrite HttpClient.cancel_idle by (by eapply Hi2). solve_Permutation.
  - destruct tls_enabled; [|done].
    destruct (ensure_https_client load c) as [c'|] eqn:E; [|done].
    destruct (ensure_https load c c' E) as (H1 & H2 & H3 & [[ctx x] H4] & H5).
    destruct (ensure_https_made load c c' Hm E) as [_ Hx]. specialize (Hx ctx x H4).
    intros [= <- <-]. rewrite Ev, bool_decide_false, bool_decide_true by done. cbn zeta.
    unfold cancel, calls, reports in *. cbn [http https direct set_http set_https]. rewrite H4 in *. split; [done|].
    split; [|apply HttpClient.cancelled_verdict_some].
    rewrite <- H3, H1. cbn [fmap option_fmap option_map fst snd]. rewrite HttpClient.cancel_idle by done.
    rewrite HttpClient.cancelled_request; [by rewrite Hx, app_assoc|done|]. destruct (H5 (conj Hi1 Hi2)) as [_ H6]. by eapply H6.
  - intros [= <- <-]. rewrite Ev, bool_decide_true by done. split; [done|].
    unfold calls, cancel, reports. cbn [http https set_http set_https set_direct]. rewrite HttpClient.cancel_idle by done.
    destruct (https c) as [[ctx x]|] eqn:E; cbn [fmap option_fmap option_map fst snd]; [|done].
    by rewrite HttpClient.cancel_idle by (by eapply Hi2).
Qed.

(** C21: the upgrade request of a client is one that the server's servicer
    accepts: its key is the Base64 text of exactly 16 bytes, the response has
    status 101 and carries the accept key computed from the key that was sent,
    the socket is handed over, and the client takes the response for a success
    and reports a connection. *)
Theorem upgrade_request_accepted `{!Sha1} {W : Type}
    (slot : string -> json -> W -> HttpServicer.slot_result json * W)
    parse_what keep_alive default_keep product u now w signals e :
  exists r,
    HttpServicer.respond slot parse_what keep_alive default_keep product (create_request u now) w
      = (Ok (r, HttpServicer.action_upgrade), w) /\
    status r = switching_protocols /\
    get_header sec_websocket_accept_field (response_fields r) = get_response_key (get_random_key now) /\
    decode64 17 (String.list_ascii_of_string (get_random_key now)) = Some (key_bytes now) /\
    length (key_bytes now) = 16%nat /\
    finish_upgrade signals BasePeer.success (status r) (Some e) =
      reported BasePeer.success (Some (start_connection signals e)).
Proof.
  destruct (key_bytes_ok now) as [Hb Hl].
  assert (Hd : decode64 17 (String.list_ascii_of_string (get_random_key now)) = Some (key_bytes now)).
  { unfold get_random_key. rewrite String.list_ascii_of_string_of_list_ascii.
    change 17%nat with (S 16). rewrite <- Hl. by apply decode64_base64. }
  assert (Hk : get_random_key now <> "").
  { intros E. rewrite E in Hd. cbn in Hd. injection Hd as Hd. by rewrite <- Hd in Hl. }
  unfold HttpServicer.respond, create_request. cbn [request_fields version].
  rewrite get_set_header, !get_set_header_ne, get_set_header by done.
  rewrite bool_decide_true, bool_decide_false by done. cbn [andb negb].
  eexists. split; [done|]. split; [done|]. split; [|split; [done|split; [done|]]].
  - cbn [response_fields HttpServicer.finish_response fst]. unfold HttpServicer.finish_response.
    cbn [response_fields set_response_field fst]. by rewrite get_set_header_ne, get_set_header by done.
  - unfold finish_upgrade. by rewrite bool_decide_false by (intros []; done).
Qed.

End Client.

(** ** Instances *)

Section Witnesses.
#[local] Existing Instances jv_json reference_iterators.

Definition quiet_handler (h : nat) (ec : BasePeer.error_code) : option (request * nat) := None.

Definition zero_overflow (l : list ascii) : Z := 0.

Definition wss_url : list ascii := String.list_ascii_of_string "wss://host".

Definition careless_history : list (client_action (Handler := nat)) :=
  [act_enable_tls "missing.crt" "" ""; act_connect wss_url 1 1%nat; act_enable_tls "ca.crt" "" "";
   act_connect wss_url 2 2%nat; act_cancel (fun _ _ => true)].

Lemma verified_unless_disabled_witness :
  exists ctx x,
    https (client_acts zero_overflow true quiet_handler "ws" Tls.sample_load careless_history make_client) = Some (ctx, x) /\
    exists f c, Tls.ca ctx = Some f /\ f <> "" /\ Some "ca.crt" = Some c /\ Tls.sample_trusted f c = true.
Proof.
  assert (Hn : act_without_verification ∉ careless_history).
  { unfold careless_history. rewrite !not_elem_of_cons. split_and!; try done. apply not_elem_of_nil. }
  assert (E : match https (client_acts zero_overflow true quiet_handler "ws" Tls.sample_load careless_history make_client) with
              | Some (ctx, _) => Tls.accepts Tls.sample_trusted ctx (Some "ca.crt")
              | None => false
              end = true) by (vm_compute; reflexivity).
  destruct (https _) as [[ctx x]|] eqn:Ex; [|done]. exists ctx, x. split; [done|].
  exact (verified_unless_disabled zero_overflow true Tls.sample_trusted quiet_handler "ws" Tls.sample_load
           careless_history ctx x (Some "ca.crt") Hn Ex E).
Defined.

Lemma failed_enable_tls_keeps_client_witness :
  let c := enable_tls_without_verification (make_client (Handler := nat)) in
  exists ctx x, https (enable_tls Tls.sample_load "missing.crt" "" "" c).2 = Some (ctx, x) /\
    forall s, Tls.accepts Tls.sample_trusted ctx (Some s) = true.
Proof.
  intros c.
  exact (proj2 (proj2 (failed_enable_tls_keeps_client Tls.sample_trusted Tls.sample_load "missing.crt" "" ""
                         make_client (Tls.system_error 2) eq_refl))).
Defined.

Definition connected_client (url : string) : result connect_error attempt * client :=
  async_connect zero_overflow true "ws" Tls.sample_load (String.list_ascii_of_string url) 1 7%nat make_client.

(** A direct attempt, an upgrade cancelled while the name is being resolved, and
    one whose response was being delivered. *)
Lemma cancel_aborts_upgrades_witness :
  let after url w ecs later :=
    let '(a, c) := connected_client url in
    if a is Ok a then reports quiet_handler "ws" (via a) later (cancel (fun _ _ => w) (reports quiet_handler "ws" (via a) ecs c))
    else c in
  let ok := BasePeer.success in
  direct (after "ws.tcp://host" true [] []) = [7%nat] /\
  calls (after "ws://host" true [] [ok]) ≡ₚ [(7%nat, BasePeer.operation_aborted)] /\
  calls (after "ws://host" false [ok; ok; ok] [ok]) ≡ₚ [(7%nat, ok)].
Proof.
  assert (Hi : idle (make_client (Handler := nat))) by (by split).
  assert (E : forall url v, match connected_client url with (Ok a, _) => via a = v | _ => False end ->
    exists a c, connected_client url = (Ok a, c) /\ via a = v).
  { intros url v. destruct (connected_client url) as [[a|e] c]; [by eauto|done]. }
  destruct (E "ws.tcp://host" direct_tcp) as (a1 & c1 & E1 & V1); [by vm_compute|].
  destruct (E "ws://host" websocket) as (a2 & c2 & E2 & V2); [by vm_compute|].
  cbv zeta beta. rewrite E1, E2. split; [|split].
  - pose proof (cancel_aborts_upgrades zero_overflow true quiet_handler "ws" Tls.sample_load _ 1 7%nat
                  [] a1 c1 (fun _ _ => true) [] [] Hi (fun _ => eq_refl) E1) as Hw.
    cbn zeta in Hw. rewrite V1, bool_decide_true in Hw by done. rewrite V1. exact (proj1 Hw).
  - pose proof (cancel_aborts_upgrades zero_overflow true quiet_handler "ws" Tls.sample_load _ 1 7%nat
                  [] a2 c2 (fun _ _ => true) [] [BasePeer.success] Hi (fun _ => eq_refl) E2) as Hw.
    cbn zeta in Hw. rewrite V2 in Hw. rewrite V2. rewrite !bool_decide_false in Hw by done. exact (proj1 (proj2 Hw)).
  - pose proof (cancel_aborts_upgrades zero_overflow true quiet_handler "ws" Tls.sample_load _ 1 7%nat
                  [] a2 c2 (fun _ _ => false) [BasePeer.success; BasePeer.success; BasePeer.success]
                  [BasePeer.success] Hi (fun _ => eq_refl) E2) as Hw.
    cbn zeta in Hw. rewrite V2 in Hw. rewrite V2. rewrite !bool_decide_false in Hw by done. exact (proj1 (proj2 Hw)).
Defined.
End Witnesses.
