(* ===== verification/Registration.v ===== *)
(** * Which local signals a connection has registered

    The numbers and addresses of the registered local signals change only when
    a signal is added or removed: subscriptions, publications and commands keep
    them.  [placed] is the invariant of the container of local signals. *)
From S2P Require Import Prelude Json Metadata OrderedMap LocalSignal LocalSignalContainer Publisher.

Section Registration.
Context `{JL : JsonLib}.

(** The address registered under each number. *)
Definition places (l : local_state) : gmap Z nat := signal <$> registered l.

(** No signal is registered twice. *)
Definition once (l : local_state) : Prop :=
  forall k k' a, places l !! k = Some a -> places l !! k' = Some a -> k = k'.

(** Whether the entry of the signal at [a] holds a subscription. *)
Definition holds (a : nat) (l : local_state) : bool :=
  existsb (fun x => bool_decide (signal x.2 = a) && holder x.2) (items (registered l)).

(** The signal at [a] counts [n] subscriptions, and has reported the changes
    between none and some, alternately. *)
Definition counted (n : Z) (a : nat) (h : gmap nat local_signal) : Prop :=
  forall sg, h !! a = Some sg ->
    subscribe_count sg = n /\ alternating (is_subscribed sg) (subscriptions (events sg)).

(** A count that includes the connection's own subscription, besides [k] others. *)
Definition accounts (a : nat) (l l' : local_state) : Prop :=
  forall k, 0 <= k < 2 ^ 32 - 2 ->
  counted (k + Z.b2z (holds a l)) a (signals l) -> counted (k + Z.b2z (holds a l')) a (signals l').

(** Nothing is registered or unregistered, the same signals exist, and their
    counts follow the subscriptions of the entries. *)
Record keeps (l l' : local_state) : Prop := {
  keeps_places : places l' = places l;
  keeps_next : next_signo l' = next_signo l;
  keeps_dom : dom (signals l') = dom (signals l);
  keeps_counts : once l -> forall a, accounts a l l'
}.

#[export] Instance keeps_preorder : PreOrder keeps.
Proof.
  split; [intros l; by split; try (intros _ a k _)|]. intros l1 l2 l3 [P1 N1 D1 C1] [P2 N2 D2 C2].
  split; try congruence. intros Ho a k Hk Hc. apply C2; [|done|by apply C1]. unfold once. by rewrite P1.
Qed.

Lemma places_lookup l k a : places l !! k = Some a <-> exists e, registered l !! k = Some e /\ signal e = a.
Proof. unfold places. rewrite lookup_fmap, fmap_Some. naive_solver. Qed.

(** ** Which entries hold a subscription *)

Lemma holds_true a l :
  holds a l = true <-> exists k e, registered l !! k = Some e /\ signal e = a /\ holder e = true.
Proof.
  unfold holds. rewrite existsb_exists. split.
  - intros ([k e] & Hin & [Ha%bool_decide_eq_true Hh]%andb_true_iff). exists k, e.
    split; [|done]. apply elem_of_items. by apply list_elem_of_In.
  - intros (k & e & Hk & Ha & Hh). exists (k, e). cbn. rewrite bool_decide_true, Hh by done.
    split; [|done]. apply list_elem_of_In. by apply elem_of_items.
Qed.

Lemma bool_iff (b b' : bool) : (b = true <-> b' = true) -> b = b'.
Proof. destruct b, b'; naive_solver. Qed.

Lemma holds_same a l l' :
  (forall k, (fun e => (signal e, holder e)) <$> registered l' !! k
             = (fun e => (signal e, holder e)) <$> registered l !! k) ->
  holds a l' = holds a l.
Proof.
  intros H. apply bool_iff. rewrite !holds_true. split; intros (k & e & Hk & Ha & Hh); specialize (H k).
  - rewrite Hk in H. symmetry in H. apply fmap_Some in H as (e' & ? & ?). exists k, e'. naive_solver.
  - rewrite Hk in H. apply fmap_Some in H as (e' & ? & ?). exists k, e'. naive_solver.
Qed.

(** With one entry per signal, the entry decides. *)
Lemma holds_entry l k e : once l -> registered l !! k = Some e -> holds (signal e) l = holder e.
Proof.
  intros Ho Hk. apply bool_iff. rewrite holds_true. split; [|by exists k, e].
  intros (k' & e' & Hk' & Ha & Hh). assert (k' = k) as ->; [|by simplify_eq].
  apply (Ho k' k (signal e)); apply places_lookup; by eexists.
Qed.

Lemma accounts_refl a l l' : holds a l' = holds a l -> signals l' !! a = signals l !! a -> accounts a l l'.
Proof. intros Hh Hs k _ Hc. unfold counted. by rewrite Hh, Hs. Qed.

(** ** The pieces *)

Lemma places_update f n l : (forall e, signal (f e) = signal e) -> places (update_entry f n l) = places l.
Proof.
  intros Hf. apply map_eq. intros k. unfold places. cbn. rewrite !lookup_fmap.
  destruct (decide (n = k)) as [<-|Hne]; [|by rewrite lookup_alter_ne].
  rewrite lookup_alter_eq. destruct (registered l !! n); cbn; [|done]. by rewrite Hf.
Qed.

Lemma holds_update a f n l :
  (forall e, registered l !! n = Some e -> signal (f e) = signal e /\ holder (f e) = holder e) ->
  holds a (update_entry f n l) = holds a l.
Proof.
  intros Hf. apply holds_same. intros k. cbn.
  destruct (decide (n = k)) as [<-|Hne]; [|by rewrite lookup_alter_ne].
  rewrite lookup_alter_eq. destruct (registered l !! n) as [e|] eqn:E; cbn; [|done].
  by destruct (Hf e eq_refl) as [-> ->].
Qed.

Lemma update_keeps f n l :
  (forall e, signal (f e) = signal e) -> (forall e, holder (f e) = holder e) -> keeps l (update_entry f n l).
Proof.
  intros Hs Hh. split; try done; [by apply places_update|].
  intros _ a. apply accounts_refl; [|done]. apply holds_update. auto.
Qed.

(** An entry with new counts. *)
Lemma replace_keeps n e e' l :
  registered l !! n = Some e -> signal e' = signal e -> holder e' = holder e ->
  keeps l (update_entry (fun _ => e') n l).
Proof.
  intros He Hs Hh. split; try done.
  - apply map_eq. intros k. unfold places. cbn. rewrite !lookup_fmap.
    destruct (decide (n = k)) as [<-|Hne]; [|by rewrite lookup_alter_ne].
    rewrite lookup_alter_eq, He. cbn. by rewrite Hs.
  - intros _ a. apply accounts_refl; [|done]. apply holds_update. naive_solver.
Qed.

(** Only tables differ. *)
Lemma same_keeps l l' :
  registered l' = registered l -> signals l' = signals l -> next_signo l' = next_signo l -> keeps l l'.
Proof.
  intros Hr Hs Hn. split; [by unfold places; rewrite Hr|done|by rewrite Hs|].
  intros _ a. apply accounts_refl; [by unfold holds; rewrite Hr|by rewrite Hs].
Qed.

(** Giving up the subscription of an entry. *)
Lemma close_entry_holder_other a n l :
  (forall e, registered l !! n = Some e -> signal e <> a) ->
  holds a (close_entry_holder n l) = holds a l /\ signals (close_entry_holder n l) !! a = signals l !! a.
Proof.
  intros Hn. unfold close_entry_holder. destruct (registered l !! n) as [e|] eqn:E; [|done].
  destruct (holder e); [|done]. specialize (Hn e eq_refl). cbn [signals update_entry set_signals].
  rewrite lookup_alter_ne by done. split; [|done]. apply bool_iff. rewrite !holds_true. cbn.
  split; intros (k & e' & Hk & Ha & Hh); exists k.
  - destruct (decide (n = k)) as [<-|Hne]; [|rewrite lookup_alter_ne in Hk by done; by exists e'].
    rewrite lookup_alter_eq, E in Hk. by simplify_eq/=.
  - exists e'. destruct (decide (n = k)) as [<-|Hne]; [by simplify_eq|]. by rewrite lookup_alter_ne.
Qed.

Lemma close_entry_holder_places n l : places (close_entry_holder n l) = places l.
Proof.
  unfold close_entry_holder. destruct (registered l !! n); [|done]. destruct (holder _); [|done].
  by rewrite places_update.
Qed.

Lemma close_entry_holder_entry n l e :
  registered l !! n = Some e -> registered (close_entry_holder n l) !! n = Some (set_holder false e).
Proof.
  intros He. unfold close_entry_holder. rewrite He. destruct (holder e) eqn:Hh; cbn.
  - by rewrite lookup_alter_eq, He.
  - rewrite He. f_equal. destruct e. cbn in *. by subst.
Qed.

Lemma close_entry_holder_accounts n l a : once l -> accounts a l (close_entry_holder n l).
Proof.
  intros Ho. destruct (registered l !! n) as [e|] eqn:E.
  2: { unfold close_entry_holder. rewrite E. by apply accounts_refl. }
  destruct (decide (signal e = a)) as [<-|Hne].
  2: { apply accounts_refl; apply close_entry_holder_other; intros e' He'; by simplify_eq. }
  intros k Hk Hc sg. assert (Ho' : once (close_entry_holder n l)) by (unfold once; by rewrite close_entry_holder_places).
  pose proof (holds_entry _ n _ Ho' (close_entry_holder_entry n l e E)) as Hh. cbn in Hh. rewrite Hh.
  rewrite (holds_entry l n e Ho E) in Hc. unfold close_entry_holder. rewrite E.
  destruct (holder e); [|apply Hc]. cbn [signals update_entry set_signals].
  rewrite lookup_alter_eq. intros (sg0 & Hs & ->)%fmap_Some. destruct (Hc sg0 Hs) as [Hn Ha]. cbn in Hn |- *.
  destruct (release_good sg0 (k + 1) Hn ltac:(lia) Ha) as [-> ?]. split; [lia|done].
Qed.

Lemma close_entry_holder_keeps n l : keeps l (close_entry_holder n l).
Proof.
  split; [apply close_entry_holder_places| | |intros Ho a; by apply close_entry_holder_accounts];
    unfold close_entry_holder; destruct (registered l !! n); try done; destruct (holder _); try done.
  apply dom_alter_L.
Qed.

(** The subscription of an entry, taken or renewed: the new holder is made
    before the old one is given up. *)
Definition renew (e : registered_local_signal) (s : local_signal) : local_signal :=
  if holder e then release (acquire s) else acquire s.

Lemma acquire_holder_effect n e e0 l :
  registered l !! n = Some e0 -> signal e0 = signal e ->
  registered (acquire_holder n e l) = <[n := set_holder true e0]> (registered l) /\
  signals (acquire_holder n e l) = alter (renew e0) (signal e0) (signals l) /\
  next_signo (acquire_holder n e l) = next_signo l.
Proof.
  intros He Hs. unfold acquire_holder, close_entry_holder, renew. rewrite <- Hs. cbn. rewrite He.
  destruct (holder e0); cbn; split_and!; try done.
  - apply map_eq. intros k. destruct (decide (n = k)) as [<-|Hn].
    + by rewrite !lookup_alter_eq, He, lookup_insert_eq.
    + by rewrite !lookup_alter_ne, lookup_insert_ne.
  - apply map_eq. intros a. destruct (decide (signal e0 = a)) as [<-|Hn].
    + rewrite !lookup_alter_eq. by destruct (signals l !! signal e0).
    + by rewrite !lookup_alter_ne.
  - apply map_eq. intros k. destruct (decide (n = k)) as [<-|Hn].
    + by rewrite lookup_alter_eq, He, lookup_insert_eq.
    + by rewrite lookup_alter_ne, lookup_insert_ne.
Qed.

Lemma renew_counted e s k :
  0 <= k < 2 ^ 32 - 2 -> subscribe_count s = k + Z.b2z (holder e) ->
  alternating (is_subscribed s) (subscriptions (events s)) ->
  subscribe_count (renew e s) = k + 1 /\
  alternating (is_subscribed (renew e s)) (subscriptions (events (renew e s))).
Proof.
  intros Hk Hn Ha. unfold renew. destruct (holder e); cbn in Hn.
  - destruct (acquire_good s (k + 1) Hn ltac:(lia) Ha) as [Hn1 Ha1].
    destruct (release_good (acquire s) (k + 1 + 1) Hn1 ltac:(lia) Ha1) as [-> ?]. split; [lia|done].
  - apply acquire_good; [lia|lia|done].
Qed.

Lemma acquire_holder_keeps n e e0 l :
  registered l !! n = Some e0 -> signal e0 = signal e -> keeps l (acquire_holder n e l).
Proof.
  intros He Hs. destruct (acquire_holder_effect n e e0 l He Hs) as (Hr & Hsig & Hn).
  assert (Hp : places (acquire_holder n e l) = places l).
  { unfold places. rewrite Hr, fmap_insert. apply insert_id. rewrite lookup_fmap, He. done. }
  split; [done|done|rewrite Hsig; apply dom_alter_L|]. intros Ho a.
  assert (He' : registered (acquire_holder n e l) !! n = Some (set_holder true e0)) by (rewrite Hr; apply lookup_insert_eq).
  destruct (decide (signal e0 = a)) as [<-|Hne].
  - intros k Hk Hc sg. rewrite (holds_entry l n e0 Ho He) in Hc.
    assert (Ho' : once (acquire_holder n e l)) by (unfold once; by rewrite Hp).
    pose proof (holds_entry _ n _ Ho' He') as Hh. cbn in Hh. rewrite Hh, Hsig, lookup_alter_eq.
    intros (sg0 & Hs0 & ->)%fmap_Some. destruct (Hc sg0 Hs0). by apply renew_counted.
  - apply accounts_refl; [|by rewrite Hsig, lookup_alter_ne]. apply bool_iff. rewrite !holds_true, Hr.
    split; intros (k & e' & Hk & Ha & Hh); exists k, e'.
    + apply lookup_insert_Some in Hk as [[_ <-]|[_ Hk]]; [done|by split_and!].
    + rewrite lookup_insert_ne; [by split_and!|]. intros <-. congruence.
Qed.

Lemma bind_domain_keeps s n l : keeps l (bind_domain s n l).
Proof. unfold bind_domain. destruct (domain_of s l) as [[? d]|]; [|done]. by apply update_keeps. Qed.

Lemma new_table_keeps m n l : keeps l (new_table m n l).
Proof.
  unfold new_table. set (l1 := mk_locals _ _ _ _ _). trans l1; [by apply same_keeps|]. by apply update_keeps.
Qed.

Lemma refresh_table_keeps m n e l : keeps l (refresh_table m n e l).
Proof.
  unfold refresh_table. case_bool_decide; destruct (table e); [by apply same_keeps|apply new_table_keeps| |].
  - trans (set_tables (delete n0 (tables l)) l); [by apply same_keeps|]. by apply update_keeps.
  - by apply update_keeps.
Qed.

Lemma refresh_keeps n p : keeps (locals p) (locals (refresh_local_signal_bindings n p)).
Proof.
  unfold refresh_local_signal_bindings. destruct (registered (locals p) !! n) as [e|]; [|done].
  destruct (signal_of e p) as [s|]; [|done]. cbn [locals with_locals].
  etrans; [|apply bind_domain_keeps]. etrans; [|by apply update_keeps].
  etrans; [|apply refresh_table_keeps]. by apply update_keeps.
Qed.

(** ** Subscription *)

Lemma announce_keeps n s p : keeps (locals p) (locals (announce n s p)).
Proof.
  unfold announce. destruct (registered (locals p) !! n) as [e|]; [|done].
  set (p1 := send _ p). trans (locals (refresh_local_signal_bindings n p1)); [apply (refresh_keeps n p1)|].
  by apply update_keeps.
Qed.

Lemma withdraw_keeps n s p : keeps (locals p) (locals (withdraw n s p)).
Proof.
  assert (Hk : keeps (locals p) (close_entry_holder n (update_entry (set_connected false) n (locals p)))).
  { etrans; [|apply close_entry_holder_keeps]. by apply update_keeps. }
  unfold withdraw. cbn zeta. destruct (registered _ !! n) as [e|]; exact Hk.
Qed.

Lemma subscribe_with_keeps domain sid expl p :
  (forall tid q, keeps (locals q) (locals (domain tid q))) ->
  keeps (locals p) (locals (subscribe_with domain sid expl p).2).
Proof.
  intros Hd. unfold subscribe_with. destruct (find_local_signal sid (locals p)) as [[n e]|] eqn:Ef; [|done].
  assert (He : registered (locals p) !! n = Some e) by (by apply find_if_some in Ef as []).
  cbn zeta. set (e' := if expl then _ else _). set (p1 := update (fun _ => e') n p).
  assert (H1 : keeps (locals p) (locals p1)).
  { apply (replace_keeps n e e'); [done|unfold e'; by destruct expl..]. }
  destruct (subscribed e); [done|]. destruct (signal_of e p1) as [s|]; [|done]. cbn [snd].
  etrans; [exact H1|]. etrans; [|apply announce_keeps].
  set (p2 := with_locals _ p1). trans (locals p2).
  { apply (acquire_holder_keeps n e' e'); [|done]. cbn. by rewrite lookup_alter_eq, He. }
  destruct (_ && _); [apply Hd|done].
Qed.

Lemma subscribe_keeps sid expl p : keeps (locals p) (locals (subscribe sid expl p).2).
Proof. apply subscribe_with_keeps. intros tid q. by apply subscribe_with_keeps. Qed.

Lemma unsubscribe_fuel_keeps fuel : forall sid expl p b p',
  unsubscribe_fuel fuel sid expl p = Some (b, p') -> keeps (locals p) (locals p').
Proof.
  induction fuel as [|fuel IH]; intros sid expl p b p'; [done|]. cbn [unsubscribe_fuel].
  destruct (find_local_signal sid (locals p)) as [[n e]|] eqn:Ef; [|by intros [= _ <-]].
  assert (He : registered (locals p) !! n = Some e) by (by apply find_if_some in Ef as []).
  cbn zeta. set (e' := if expl then _ else _). set (p1 := update (fun _ => e') n p).
  assert (H1 : keeps (locals p) (locals p1)).
  { apply (replace_keeps n e e'); [done|unfold e'; by destruct expl..]. }
  destruct (subscribed e'); [by intros [= _ <-]|].
  destruct (signal_of e p1) as [s|]; [|by intros [= _ <-]].
  pose proof (withdraw_keeps n s p1) as H2.
  destruct (_ && _); [|by intros [= _ <-]; etrans].
  destruct (unsubscribe_fuel fuel _ false _) as [[b' p2]|] eqn:E; [|done].
  intros [= _ <-]. etrans; [exact H1|]. etrans; [exact H2|]. by apply IH in E.
Qed.

Lemma unsubscribe_keeps sid expl p : keeps (locals p) (locals (unsubscribe sid expl p).2).
Proof.
  unfold unsubscribe. destruct (unsubscribe_fuel _ sid expl p) as [[b p']|] eqn:E; [|done].
  by apply unsubscribe_fuel_keeps in E.
Qed.

Lemma each_signal_keeps f ids :
  (forall sid p, keeps (locals p) (locals (f sid p).2)) ->
  forall p, keeps (locals p) (locals (each_signal f ids p).2).
Proof.
  intros Hf. induction ids as [|j ids IH]; intros p; cbn; [done|].
  specialize (Hf (string_of j) p). destruct (is_string j).
  - destruct (f (string_of j) p) as [b p1]. specialize (IH p1). destruct (each_signal f ids p1). by etrans.
  - specialize (IH p). by destruct (each_signal f ids p).
Qed.

Lemma do_command_keeps f params p :
  (forall sid p, keeps (locals p) (locals (f sid p).2)) ->
  keeps (locals p) (locals (do_command f params p).2).
Proof.
  intros Hf. unfold do_command. destruct (is_string params).
  - specialize (Hf (string_of params) p). by destruct (f _ p).
  - destruct (is_array params); [|done].
    pose proof (each_signal_keeps f (elements params) Hf p) as Hk. by destruct (each_signal _ _ p).
Qed.

Lemma do_command_interface_keeps sid method params p :
  keeps (locals p) (locals (do_command_interface sid method params p).2).
Proof.
  unfold do_command_interface, do_command_interface_subscribe, do_command_interface_unsubscribe.
  case_bool_decide; [apply do_command_keeps; intros; apply subscribe_keeps|].
  case_bool_decide; [apply do_command_keeps; intros; apply unsubscribe_keeps|done].
Qed.

(** ** Erasing entries *)

Lemma accounts_trans a l1 l2 l3 : accounts a l1 l2 -> accounts a l2 l3 -> accounts a l1 l3.
Proof. intros H1 H2 k Hk Hc. auto. Qed.

Lemma erase_entry_places n l : places (erase_entry n l) = delete n (places l).
Proof.
  unfold erase_entry. destruct (registered l !! n) as [e|] eqn:E.
  - rewrite <- (close_entry_holder_places n l). unfold places. cbn. by rewrite fmap_delete.
  - symmetry. apply delete_id. unfold places. by rewrite lookup_fmap, E.
Qed.

Lemma erase_entry_once n l : once l -> once (erase_entry n l).
Proof.
  intros Ho k k' a. rewrite erase_entry_places. intros [_ H1]%lookup_delete_Some [_ H2]%lookup_delete_Some.
  by apply (Ho k k' a).
Qed.

Lemma erase_entry_accounts n l a : once l -> accounts a l (erase_entry n l).
Proof.
  intros Ho. unfold erase_entry. destruct (registered l !! n) as [e|] eqn:E; [|by apply accounts_refl].
  eapply accounts_trans; [by apply (close_entry_holder_accounts n)|]. set (l1 := close_entry_holder n l).
  pose proof (close_entry_holder_entry n l e E) as He. fold l1 in He. clearbody l1.
  apply accounts_refl; [|done]. apply bool_iff. rewrite !holds_true. cbn.
  split; intros (k & e' & Hk & Ha & Hh); exists k, e'.
  - apply lookup_delete_Some in Hk as [_ Hk]. by split_and!.
  - rewrite lookup_delete_ne; [by split_and!|]. intros <-. rewrite He in Hk. injection Hk as <-. done.
Qed.

Lemma erase_all_accounts ns a : forall l,
  once l -> accounts a l (fold_left (fun l n => erase_entry n l) ns l).
Proof.
  induction ns as [|n ns IH]; intros l Ho; cbn; [by apply accounts_refl|].
  eapply accounts_trans; [by apply erase_entry_accounts|]. by apply IH, erase_entry_once.
Qed.

Lemma erase_all_dom_signals ns : forall l : local_state,
  dom (signals (fold_left (fun l n => erase_entry n l) ns l)) = dom (signals l).
Proof.
  induction ns as [|n ns IH]; intros l; cbn; [done|]. rewrite IH.
  unfold erase_entry. case_match; [|done]. cbn. apply (keeps_dom _ _ (close_entry_holder_keeps n l)).
Qed.

(** The first half of clearing: everything is disconnected and given up. *)
Lemma quiet_all_keeps ns : forall l,
  keeps l (fold_left (fun l n => close_entry_holder n (update_entry (set_connected false) n l)) ns l).
Proof.
  induction ns as [|n ns IH]; intros l; cbn; [done|]. etrans; [|apply IH].
  etrans; [|apply close_entry_holder_keeps]. by apply update_keeps.
Qed.

Lemma clear_local_accounts l a : once l -> accounts a l (clear_local_signals l).
Proof.
  intros Ho. unfold clear_local_signals. set (ns := (items (registered l)).*1).
  pose proof (quiet_all_keeps ns l) as K. eapply accounts_trans; [by apply (keeps_counts _ _ K)|].
  apply erase_all_accounts. unfold once. by rewrite (keeps_places _ _ K).
Qed.

Lemma holds_nothing a l : registered l = ∅ -> holds a l = false.
Proof.
  intros Hr. destruct (holds a l) eqn:E; [|done]. apply holds_true in E as (k & e & Hk & _).
  by rewrite Hr, lookup_empty in Hk.
Qed.

(** ** Adding and removing *)

(** The signals [A] are registered, each once, under numbers up to [n]. *)
Record placed (n : Z) (A : gset nat) (l : local_state) : Prop := {
  placed_count : 0 <= n < 2 ^ 32 - 1;
  placed_next : next_signo l = 1 + n;
  placed_numbers : forall k a, places l !! k = Some a -> 1 <= k <= n;
  placed_addresses : forall a, a ∈ A <-> exists k, places l !! k = Some a;
  placed_once : forall k k' a, places l !! k = Some a -> places l !! k' = Some a -> k = k'
}.

Lemma keeps_placed n A l l' : keeps l l' -> placed n A l -> placed n A l'.
Proof. intros [P N D] [H1 H2 H3 H4 H5]. split; rewrite ?P, ?N; done. Qed.

Lemma fresh_placed s : placed 0 ∅ (fresh_locals s).
Proof.
  split; try done; intros *; unfold places; cbn; rewrite ?fmap_empty; try (by rewrite lookup_empty).
  split; [set_solver|]. intros [k Hk]. by rewrite lookup_empty in Hk.
Qed.

Lemma find_address_placed n A l a :
  placed n A l ->
  match find_address a l with
  | Some k => places l !! k = Some a
  | None => a ∉ A
  end.
Proof.
  intros [H1 H2 H3 H4 H5]. unfold find_address.
  destruct (find_if _ (registered l)) as [[k e]|] eqn:E; cbn.
  - apply find_if_some in E as [He Ha%bool_decide_eq_true]. apply places_lookup. by exists e.
  - intros Ha. apply H4 in Ha as [k Hk]. apply places_lookup in Hk as (e & He & Hs).
    pose proof (find_if_none _ _ k e E He) as Hn. cbn in Hn.
    by rewrite bool_decide_true in Hn.
Qed.

Lemma add_places n A l a :
  placed n A l -> a ∉ A ->
  (LocalSignalContainer.add_local_signal a l).1 = (1 + n, true) /\
  places (LocalSignalContainer.add_local_signal a l).2 = <[1 + n := a]> (places l) /\
  next_signo (LocalSignalContainer.add_local_signal a l).2 = u32 (2 + n) /\
  signals (LocalSignalContainer.add_local_signal a l).2 = signals l.
Proof.
  intros Hp Ha. pose proof (find_address_placed _ _ _ a Hp) as Hf.
  unfold LocalSignalContainer.add_local_signal.
  destruct (find_address a l) as [k|].
  { destruct Ha. apply (placed_addresses _ _ _ Hp). by exists k. }
  rewrite (placed_next _ _ _ Hp).
  assert (Hfree : registered l !! (1 + n) = None).
  { destruct (registered l !! (1 + n)) as [e|] eqn:E; [|done].
    assert (Hx : places l !! (1 + n) = Some (signal e)) by (apply places_lookup; by exists e).
    apply (placed_numbers _ _ _ Hp) in Hx. lia. }
  rewrite Hfree. cbn. split; [done|]. split; [|split; [by f_equal; lia|done]].
  unfold places. cbn. by rewrite fmap_insert.
Qed.

Lemma add_accounts a b l : accounts b l (LocalSignalContainer.add_local_signal a l).2.
Proof.
  unfold LocalSignalContainer.add_local_signal. destruct (find_address a l); [by apply accounts_refl|].
  destruct (registered l !! next_signo l) as [e|] eqn:E; [by apply accounts_refl|].
  apply accounts_refl; [|done]. apply bool_iff. rewrite !holds_true. cbn.
  split; intros (k & e' & Hk & Ha & Hh); exists k, e'.
  - apply lookup_insert_Some in Hk as [[_ <-]|[_ Hk]]; [done|by split_and!].
  - rewrite lookup_insert_ne; [by split_and!|]. intros <-. congruence.
Qed.

Lemma add_local_signal_placed n A a p :
  placed n A (locals p) -> a ∉ A -> is_Some (signals (locals p) !! a) -> n + 1 < 2 ^ 32 - 1 ->
  placed (n + 1) ({[a]} ∪ A) (locals (Publisher.add_local_signal a p)) /\
  dom (signals (locals (Publisher.add_local_signal a p))) = dom (signals (locals p)) /\
  forall b, accounts b (locals p) (locals (Publisher.add_local_signal a p)).
Proof.
  intros Hp Ha [s Hs] Hn. destruct (add_places n A (locals p) a Hp Ha) as (H1 & H2 & H3 & H4).
  pose proof (fun b => add_accounts a b (locals p)) as Hac. unfold Publisher.add_local_signal.
  destruct (LocalSignalContainer.add_local_signal a (locals p)) as [[k b] l1]. cbn in H1, H2, H3, H4, Hac.
  injection H1 as -> ->. rewrite Hs. cbn zeta.
  set (l2 := update_entry _ (1 + n) l1).
  set (l3 := if bool_decide (rule (sig_metadata s) = _) then new_table _ _ l2 else l2).
  assert (K : keeps l1 (bind_domain s (1 + n) l3)).
  { etrans; [|apply bind_domain_keeps]. trans l2; [by apply update_keeps|].
    unfold l3. case_bool_decide; [apply new_table_keeps|done]. }
  assert (Hl1 : placed (n + 1) ({[a]} ∪ A) l1).
  { destruct Hp as [P1 P2 P3 P4 P5]. split; rewrite ?H2, ?H3.
    - lia.
    - rewrite wrap_small by (unfold in_u; lia). lia.
    - intros k' a'. rewrite lookup_insert_Some. intros [[<- <-]|[_ Hk]]; [lia|]. apply P3 in Hk. lia.
    - intros a'. rewrite elem_of_union, elem_of_singleton, P4. split.
      + intros [->|[k' Hk]]; [exists (1 + n); by rewrite lookup_insert_eq|].
        exists k'. rewrite lookup_insert_ne; [done|]. apply P3 in Hk. lia.
      + intros [k' Hk]. apply lookup_insert_Some in Hk as [[_ <-]|[_ Hk]]; [by left|right; by exists k'].
    - intros k' k'' a'. rewrite !lookup_insert_Some. intros [[<- <-]|[? Hk]] [[<- E]|[? Hk']]; try done.
      + destruct Ha. apply P4. by exists k''.
      + subst. destruct Ha. apply P4. by exists k'.
      + by apply (P5 k' k'' a'). }
  set (l4 := bind_domain s (1 + n) l3) in *.
  assert (Hlast : forall q : publisher, locals q = l4 ->
    placed (n + 1) ({[a]} ∪ A) (locals q) /\ dom (signals (locals q)) = dom (signals (locals p)) /\
    forall b, accounts b (locals p) (locals q)).
  { intros q ->. split; [exact (keeps_placed _ _ _ _ K Hl1)|]. split; [rewrite <- H4; exact (keeps_dom _ _ K)|].
    intros b. eapply accounts_trans; [apply Hac|]. apply (keeps_counts _ _ K). exact (placed_once _ _ _ Hl1). }
  by case_match; apply Hlast.
Qed.

Lemma remove_local_signal_placed n A a p :
  placed n A (locals p) ->
  placed n (A ∖ {[a]}) (locals (Publisher.remove_local_signal a p)) /\
  dom (signals (locals (Publisher.remove_local_signal a p))) = dom (signals (locals p)) /\
  forall b, accounts b (locals p) (locals (Publisher.remove_local_signal a p)).
Proof.
  intros Hp. pose proof (find_address_placed _ _ _ a Hp) as Hf.
  assert (Hl : locals (Publisher.remove_local_signal a p)
               = (LocalSignalContainer.remove_local_signal a (locals p)).2).
  { unfold Publisher.remove_local_signal. destruct (LocalSignalContainer.remove_local_signal a (locals p)) as [k l].
    cbn. destruct (negb _); [|done]. by destruct (signals l !! a). }
  rewrite Hl. unfold LocalSignalContainer.remove_local_signal. destruct (find_address a (locals p)) as [k|]; cbn [snd].
  - set (l' := erase_entry k (locals p)).
    assert (Hl' : places l' = delete k (places (locals p))) by apply erase_entry_places.
    split; [|split; [exact (erase_all_dom_signals [k] (locals p))|]].
    2: { intros b. apply erase_entry_accounts. exact (placed_once _ _ _ Hp). }
    destruct Hp as [P1 P2 P3 P4 P5]. split; rewrite ?Hl'; try done.
    + unfold l', erase_entry. destruct (registered (locals p) !! k); [|done].
      cbn. by rewrite (keeps_next _ _ (close_entry_holder_keeps k (locals p))).
    + intros k' a' [_ Hk']%lookup_delete_Some. by apply (P3 k' a').
    + intros a'. rewrite elem_of_difference, elem_of_singleton, P4. split.
      * intros [[k' Hk'] Hne]. exists k'. apply lookup_delete_Some. split; [|done]. intros <-. congruence.
      * intros [k' [Hne Hk']%lookup_delete_Some]. split; [by exists k'|]. intros ->. destruct Hne. by apply (P5 k k' a).
    + intros k' k'' a' [_ Hk']%lookup_delete_Some [_ Hk'']%lookup_delete_Some. by apply (P5 k' k'' a').
  - split; [by replace (A ∖ {[a]}) with A by set_solver|]. split; [done|]. intros b. by apply accounts_refl.
Qed.

End Registration.
