(* ===== verification/Server.v ===== *)
(** * The server

    [src/server.cpp], the handlers of [include/ws-streaming/server.hpp] and
    [include/ws-streaming/listener.hpp].  Sessions (HTTP servicers) and
    connections are named by numbers; [heap] holds the application's local
    signals, which all connections share.  The slots the server puts on its
    sessions and connections are [command_slot], [on_servicer_websocket_upgrade],
    [on_servicer_closed] and [forward].  A session is given the TLS context the
    server has when it is accepted. *)
From S2P Require Import Prelude Json OrderedMap BasePeer Http.
From S2P Require LocalSignal LocalSignalContainer StreamingProtocol RemoteSignalContainer.
From S2P Require Import Receiver CommandInterface Publisher Connection Handshake Registration Client.
From S2P Require HttpServicer Tls.
From Stdlib Require Import Ascii.

(** ** Listeners *)

(** [accepting]: an accept operation is under way. *)
Record listener := mk_listener { listen_port : Z; secure : bool; accepting : bool }.

Definition make_listener (p : Z) (tls : bool) : listener := mk_listener p tls false.

Definition do_accept (l : listener) : listener := mk_listener (listen_port l) (secure l) true.

(** Whether [on_accept] is raised, and the listener afterwards. *)
Definition finish_accept (ec : error_code) (l : listener) : bool * listener :=
  let l := mk_listener (listen_port l) (secure l) false in
  if bool_decide (ec <> success) then (false, l) else (true, do_accept l).

Inductive server_event : Type :=
| on_client_connected (k : nat)
| client_notice (k : nat) (n : notice)
| on_client_disconnected (k : nat) (ec : error_code)
| on_server_closed.

Section Server.
Context `{JL : JsonLib}.
Context (to_uint64 : Z -> Z).
Context (load : Tls.file_use -> string -> Tls.context -> option Z).

(** A session has the TLS context that was current when it began, or none. *)
Record server := mk_server {
  closed : bool;
  listeners : list listener;
  sessions : list (nat * option Tls.context);
  next_session : nat;
  clients : list (nat * connection);
  next_client : nat;
  signals : gset nat;
  ordered_signals : list nat;
  command_interface_port : Z;
  ssl_context : option Tls.context;
  heap : gmap nat LocalSignal.local_signal;
  events : list server_event
}.

Definition make (h : gmap nat LocalSignal.local_signal) : server :=
  mk_server false [] [] 0 [] 0 ∅ [] 0 None h [].

(** ** Assignments to members *)

Definition set_clients (cs : list (nat * connection)) (h : gmap nat LocalSignal.local_signal) (s : server)
    : server :=
  mk_server (closed s) (listeners s) (sessions s) (next_session s) cs (next_client s) (signals s)
    (ordered_signals s) (command_interface_port s) (ssl_context s) h (events s).

Definition set_sessions (l : list (nat * option Tls.context)) (n : nat) (s : server) : server :=
  mk_server (closed s) (listeners s) l n (clients s) (next_client s) (signals s) (ordered_signals s)
    (command_interface_port s) (ssl_context s) (heap s) (events s).

Definition set_listeners (l : list listener) (p : Z) (s : server) : server :=
  mk_server (closed s) l (sessions s) (next_session s) (clients s) (next_client s) (signals s)
    (ordered_signals s) p (ssl_context s) (heap s) (events s).

Definition set_ssl_context (ctx : Tls.context) (s : server) : server :=
  mk_server (closed s) (listeners s) (sessions s) (next_session s) (clients s) (next_client s) (signals s)
    (ordered_signals s) (command_interface_port s) (Some ctx) (heap s) (events s).

Definition set_signals (a : gset nat) (l : list nat) (s : server) : server :=
  mk_server (closed s) (listeners s) (sessions s) (next_session s) (clients s) (next_client s) a l
    (command_interface_port s) (ssl_context s) (heap s) (events s).

Definition raise (es : list server_event) (s : server) : server :=
  mk_server (closed s) (listeners s) (sessions s) (next_session s) (clients s) (next_client s)
    (signals s) (ordered_signals s) (command_interface_port s) (ssl_context s) (heap s) (events s ++ es).

(** ** The shared local signals *)

(** A connection looking at the signals of the application. *)
Definition with_heap (h : gmap nat LocalSignal.local_signal) (c : connection) : connection :=
  set_publishing (with_locals (LocalSignalContainer.set_signals h (locals (publishing c))) (publishing c)) c.

Definition heap_of (c : connection) : gmap nat LocalSignal.local_signal :=
  LocalSignalContainer.signals (locals (publishing c)).

(** Runs [f] on the connections of a list in order. *)
Fixpoint each_client (f : connection -> connection) (cs : list (nat * connection))
    (h : gmap nat LocalSignal.local_signal) : list (nat * connection) * gmap nat LocalSignal.local_signal :=
  match cs with
  | [] => ([], h)
  | (k, c) :: cs =>
      let c := f (with_heap h c) in
      let '(cs, h) := each_client f cs (heap_of c) in
      ((k, c) :: cs, h)
  end.

Definition for_clients (f : connection -> connection) (s : server) : server :=
  let '(cs, h) := each_client f (clients s) (heap s) in set_clients cs h s.

(** ** Local signals *)

Definition add_local_signal (a : nat) (s : server) : server :=
  if bool_decide (a ∈ signals s) then s
  else for_clients (Connection.add_local_signal a)
         (set_signals ({[a]} ∪ signals s) (ordered_signals s ++ [a]) s).

Definition remove_local_signal (a : nat) (s : server) : server :=
  if bool_decide (a ∈ signals s) then
    for_clients (Connection.remove_local_signal a)
      (set_signals (signals s ∖ {[a]}) (List.filter (fun b => negb (bool_decide (b = a))) (ordered_signals s)) s)
  else s.

(** ** Listeners and sessions *)

Definition add_listener (p : Z) (make_command_interface : bool) (s : server) : server :=
  set_listeners (listeners s ++ [make_listener p false])
    (if make_command_interface then p else command_interface_port s) s.

(** There is one TLS context for all listeners: the last one made. *)
Definition add_tls_listener (p : Z) (cert_file key_file ca_file : string) (make_command_interface : bool)
    (s : server) : result Tls.tls_error unit * server :=
  match Tls.make_server_tls_context load cert_file key_file ca_file with
  | Throw e => (Throw e, s)
  | Ok ctx =>
      (Ok tt,
       set_listeners (listeners s ++ [make_listener p true])
         (if make_command_interface then p else command_interface_port s) (set_ssl_context ctx s))
  end.

Definition add_default_listeners (s : server) : server :=
  add_listener StreamingProtocol.DEFAULT_COMMAND_INTERFACE_PORT true
    (add_listener StreamingProtocol.DEFAULT_WEBSOCKET_PORT false s).

Definition run (s : server) : server :=
  set_listeners (do_accept <$> listeners s) (command_interface_port s) s.

Definition start_session (ctx : option Tls.context) (s : server) : server :=
  set_sessions (sessions s ++ [(next_session s, ctx)]) (S (next_session s)) s.

(** [is_open]: no other slot has taken the socket. *)
Definition on_listener_accept (is_open : bool) (s : server) : server :=
  if is_open then start_session None s else s.

Definition on_tls_listener_accept (is_open : bool) (s : server) : server :=
  if is_open then start_session (ssl_context s) s else s.

(** The slot of the listener that accepts. *)
Definition accepted (i : nat) (is_open : bool) (s : server) : server :=
  match listeners s !! i with
  | Some l => if secure l then on_tls_listener_accept is_open s else on_listener_accept is_open s
  | None => s
  end.

Definition on_servicer_closed (n : nat) (s : server) : server :=
  set_sessions (List.filter (fun m => negb (bool_decide (m.1 = n))) (sessions s)) (next_session s) s.

(** ** Command interface requests *)

(** [method.substr(0, method.rfind('.'))]: all of it without a dot. *)
Definition before_last_dot (m : list ascii) : list ascii :=
  match Semver.find_split "."%char (rev m) with
  | Some (_, rest) => rev rest
  | None => m
  end.

Definition stream_of (method : string) : string :=
  String.string_of_list_ascii (before_last_dot (String.list_ascii_of_string method)).

Definition find_client (sid : string) (s : server) : option (nat * connection) :=
  List.find (fun kc => bool_decide (local_stream_id kc.2 = sid)) (clients s).

(** Replaces a connection, and what it did to the shared signals. *)
Definition update_client (k : nat) (c : connection) (s : server) : server :=
  set_clients ((fun kc => if bool_decide (kc.1 = k) then (k, c) else kc) <$> clients s) (heap_of c) s.

(** [json_rpc_exception]'s [what()]. *)
Definition rpc_what (e : json_rpc_exception json) : string :=
  String.append "JSON-RPC error " (String.append (to_string (code e)) (String.append ": " (rpc_message e))).

Definition no_client (sid : string) : json_rpc_exception json :=
  make_rpc_exception code_server_error (String.append "no client with stream id " sid).

Definition on_servicer_command_interface_request (method : string) (params : json) (s : server)
    : result (json_rpc_exception json) json * server :=
  match find_client (stream_of method) s with
  | None => (Throw (no_client (stream_of method)), s)
  | Some (k, c) =>
      let c := with_heap (heap s) c in
      let '(r, p) := do_command_interface (local_stream_id c) method params (publishing c) in
      (match r with Ok j => Ok j | Throw e => Throw (rpc_exception (local_stream_id c) method e) end,
       update_client k (set_publishing p c) s)
  end.

(** The slot as the servicer sees it. *)
Definition command_slot (method : string) (params : json) (s : server)
    : HttpServicer.slot_result json * server :=
  match on_servicer_command_interface_request method params s with
  | (Ok j, s) => (HttpServicer.returned j, s)
  | (Throw e, s) => (HttpServicer.threw (rpc_what e), s)
  end.

(** ** Connections *)

Definition http_interface (p : Z) : json :=
  jobj [("httpMethod", jstr "POST"); ("httpPath", jstr "/"); ("httpVersion", jstr "1.1");
        ("port", jstr (to_string p))].

(** The connection made for an upgraded socket, before it runs. *)
Definition new_connection (e : endpoint) (s : server) : connection :=
  let c := Connection.make false (stream_id e) (Some e.1) (heap s) in
  let c := if command_interface_port s =? 0 then c
           else register_external_command_interface "jsonrpc-http"
                  (http_interface (command_interface_port s)) c in
  fold_left (fun c a => Connection.add_local_signal a c) (ordered_signals s) c.

Definition on_servicer_websocket_upgrade (e : option endpoint) (s : server) : server :=
  match e with
  | None => s
  | Some e =>
      let c := Connection.run (new_connection e s) in
      let k := next_client s in
      raise [on_client_connected k]
        (mk_server (closed s) (listeners s) (sessions s) (next_session s) (clients s ++ [(k, c)]) (S k)
           (signals s) (ordered_signals s) (command_interface_port s) (ssl_context s) (heap_of c) (events s))
  end.

Definition on_connection_disconnected (k : nat) (ec : error_code) (s : server) : server :=
  raise [on_client_disconnected k ec]
    (set_clients (List.filter (fun kc => negb (bool_decide (kc.1 = k))) (clients s)) (heap s) s).

(** The slots on a connection, for what it raises. *)
Definition forward (k : nat) (e : connection_event) (s : server) : server :=
  match e with
  | noticed n => raise [client_notice k n] s
  | on_disconnected ec => on_connection_disconnected k ec s
  | posted _ _ => s
  end.

Definition client_of (k : nat) (s : server) : option connection :=
  snd <$> List.find (fun kc => bool_decide (kc.1 = k)) (clients s).

(** The peer object of connection [k] raises a signal. *)
Definition on_client_signal (k : nat) (x : BasePeer.signal) (s : server)
    : server * option connection_failure :=
  match client_of k s with
  | None => (s, None)
  | Some c =>
      let '(c, es, err) := on_peer_signal to_uint64 x (with_heap (heap s) c) in
      (fold_left (fun s e => forward k e s) es (update_client k c s), err)
  end.

(** ** close *)

(** Dropping the last reference to a connection destroys the entries of its
    local signals, and with them the subscriptions they hold. *)
Definition destroy_connection (c : connection) : connection :=
  let l := locals (publishing c) in
  set_publishing
    (with_locals (fold_left (fun l n => LocalSignalContainer.erase_entry n l)
                    (items (LocalSignalContainer.registered l)).*1 l) (publishing c)) c.

(** [_clients.clear()] drops the only references that the server knows of. *)
Definition close (s : server) : server :=
  if closed s then s
  else
    raise [on_server_closed]
      (mk_server true [] [] (next_session s) [] (next_client s) (signals s) (ordered_signals s)
         (command_interface_port s) (ssl_context s) (each_client destroy_connection (clients s) (heap s)).2 (events s)).

(** ** Histories *)

Inductive action : Type :=
| act_add_signal (a : nat)
| act_remove_signal (a : nat)
| act_add_listener (p : Z) (make_command_interface : bool)
| act_add_tls_listener (p : Z) (cert_file key_file ca_file : string) (make_command_interface : bool)
| act_run
| act_accept (i : nat) (is_open : bool)
| act_servicer_closed (n : nat)
| act_command (method : string) (params : json)
| act_upgrade (e : option endpoint)
| act_client_signal (k : nat) (x : BasePeer.signal)
| act_close.

Definition act (x : action) (s : server) : server :=
  match x with
  | act_add_signal a => add_local_signal a s
  | act_remove_signal a => remove_local_signal a s
  | act_add_listener p b => add_listener p b s
  | act_add_tls_listener p cert key ca b => (add_tls_listener p cert key ca b s).2
  | act_run => run s
  | act_accept i b => accepted i b s
  | act_servicer_closed n => on_servicer_closed n s
  | act_command m ps => (on_servicer_command_interface_request m ps s).2
  | act_upgrade e => on_servicer_websocket_upgrade e s
  | act_client_signal k x => (on_client_signal k x s).1
  | act_close => close s
  end.

Definition acts (xs : list action) (s : server) : server := fold_left (fun s x => act x s) xs s.

(** ** Lemmas: the connections of the server *)

(** A connected client on which the signals [A] are registered, after at most
    [m] registrations. *)
Definition good (m : Z) (A : gset nat) (c : connection) : Prop :=
  attached c = true /\ exists n, n <= m /\ placed n A (locals (publishing c)).

Lemma good_mono m m' A c : m <= m' -> good m A c -> good m' A c.
Proof. intros Hm [Ha (n & Hn & Hp)]. split; [done|]. exists n. split; [lia|done]. Qed.

Lemma good_with_heap m A h c : good m A c -> good m A (with_heap h c).
Proof. intros [Ha (n & Hn & [H1 H2 H3 H4 H5])]. split; [done|]. exists n. by split. Qed.

Lemma heap_of_with_heap h c : heap_of (with_heap h c) = h.
Proof. done. Qed.

Lemma each_client_good D m A m' A' f :
  (forall c, good m A c -> dom (heap_of c) = D -> good m' A' (f c) /\ dom (heap_of (f c)) = D) ->
  forall cs h, Forall (fun kc => good m A kc.2) cs -> dom h = D ->
  Forall (fun kc => good m' A' kc.2) (each_client f cs h).1 /\ dom (each_client f cs h).2 = D.
Proof.
  intros Hf cs. induction cs as [|[k c] cs IH]; intros h Hcs Hh; cbn; [done|].
  apply Forall_cons in Hcs as [Hc Hcs].
  destruct (Hf (with_heap h c)) as [Hg Hd]; [by apply good_with_heap|done|].
  specialize (IH (heap_of (f (with_heap h c))) Hcs Hd).
  destruct (each_client f cs _) as [cs' h']. cbn in *. destruct IH. split; [by constructor|done].
Qed.

(** The counts of the signals follow what happens to a connection. *)
Definition settles (b : nat) (c c' : connection) : Prop :=
  accounts b (locals (publishing c)) (locals (publishing c')).

Lemma good_once m A c : good m A c -> once (locals (publishing c)).
Proof. intros [_ (n & _ & Hp)]. exact (placed_once _ _ _ Hp). Qed.

Lemma add_good m A a c :
  a ∉ A -> a ∈ dom (heap_of c) -> m + 1 < 2 ^ 32 - 1 -> good m A c ->
  good (m + 1) ({[a]} ∪ A) (Connection.add_local_signal a c) /\
  dom (heap_of (Connection.add_local_signal a c)) = dom (heap_of c) /\
  forall b, settles b c (Connection.add_local_signal a c).
Proof.
  intros Ha Hd Hm [Hc (n & Hn & Hp)]. apply elem_of_dom in Hd.
  destruct (add_local_signal_placed n A a (publishing c) Hp Ha Hd) as (Hp' & Hd' & Hac); [lia|].
  split; [|split; [exact Hd'|exact Hac]]. split; [done|]. exists (n + 1). split; [lia|exact Hp'].
Qed.

Lemma remove_good m A a c :
  good m A c ->
  good m (A ∖ {[a]}) (Connection.remove_local_signal a c) /\
  dom (heap_of (Connection.remove_local_signal a c)) = dom (heap_of c) /\
  forall b, settles b c (Connection.remove_local_signal a c).
Proof.
  intros [Hc (n & Hn & Hp)]. destruct (remove_local_signal_placed n A a (publishing c) Hp) as (Hp' & Hd & Hac).
  split; [|split; [exact Hd|exact Hac]]. split; [done|]. by exists n.
Qed.

Lemma adds_good l : forall m A c,
  NoDup l -> (forall a, a ∈ l -> a ∉ A /\ a ∈ dom (heap_of c)) -> m + Z.of_nat (length l) < 2 ^ 32 - 1 ->
  good m A c ->
  let c' := fold_left (fun c a => Connection.add_local_signal a c) l c in
  good (m + Z.of_nat (length l)) (list_to_set l ∪ A) c' /\ dom (heap_of c') = dom (heap_of c) /\
  forall b, settles b c c'.
Proof.
  induction l as [|a l IH]; intros m A c Hnd Hl Hm Hc; cbn [fold_left length list_to_set].
  { rewrite union_empty_l_L. split; [|split; [done|intros b; by apply accounts_refl]].
    eapply good_mono; [|exact Hc]. cbn. lia. }
  apply NoDup_cons in Hnd as [Ha Hnd]. cbn [length] in Hm.
  destruct (Hl a) as [HaA Had]; [by left|].
  destruct (add_good m A a c HaA Had ltac:(lia) Hc) as (Hg & Hd & Hac).
  destruct (IH (m + 1) ({[a]} ∪ A) (Connection.add_local_signal a c) Hnd) as (Hg' & Hd' & Hac'); [|lia|done|].
  { intros b Hb. destruct (Hl b) as [H1 H2]; [by right|]. rewrite Hd. split; [|done].
    rewrite not_elem_of_union, not_elem_of_singleton. split; [by intros ->|done]. }
  split; [|split; [by rewrite Hd'|intros b; eapply accounts_trans; [apply Hac|apply Hac']]].
  replace ({[a]} ∪ list_to_set l ∪ A) with (list_to_set l ∪ ({[a]} ∪ A)) by set_solver.
  eapply good_mono; [|exact Hg']. lia.
Qed.

(** ** Lemmas: what a peer does to a connection *)

Lemma send_keeps m c : locals (publishing (set_publishing (send m (publishing c)) c)) = locals (publishing c).
Proof. done. Qed.

Lemma do_hello_locals c : locals (publishing (do_hello c)) = locals (publishing c).
Proof. unfold do_hello, advertise. cbn. by case_bool_decide. Qed.

Lemma handle_init_locals params c : locals (publishing (handle_init params c)) = locals (publishing c).
Proof.
  unfold handle_init. destruct (negb _); [done|].
  destruct (string_member _ _), (contains _ _); cbn zeta; (case_match; [by rewrite do_hello_locals|done]).
Qed.

Lemma request_keeps params c :
  keeps (locals (publishing c))
    (locals (publishing (handle_command_interface_request params c).1.1)).
Proof.
  unfold handle_command_interface_request, execute_request.
  destruct (if is_object params then _ else _) as [m|].
  - pose proof (do_command_interface_keeps (local_stream_id c) m (field params "params") (publishing c)) as K.
    destruct (do_command_interface _ _ _ _) as [[j|e] p]; destruct (value_of params "id"); exact K.
  - by destruct (value_of params "id").
Qed.

Lemma metadata_keeps n method params c :
  keeps (locals (publishing c))
    (locals (publishing (on_peer_metadata_received to_uint64 n method params c).1.1)).
Proof.
  assert (Hl : forall o, keeps (locals (publishing c)) (locals (publishing (lift o c).1.1))).
  { by intros [[r es] err]. }
  unfold on_peer_metadata_received.
  repeat (destruct (bool_decide _) || destruct (negb _)); try apply Hl; try apply request_keeps; cbn [quiet fst].
  - unfold handle_api_version. by repeat case_match.
  - by rewrite handle_init_locals.
  - unfold handle_command_interface_response. by repeat case_match.
  - done.
Qed.

Lemma clear_local_dom (l : LocalSignalContainer.local_state) :
  dom (LocalSignalContainer.signals (LocalSignalContainer.clear_local_signals l))
  = dom (LocalSignalContainer.signals l).
Proof.
  unfold LocalSignalContainer.clear_local_signals. rewrite erase_all_dom_signals.
  exact (keeps_dom _ _ (quiet_all_keeps _ _)).
Qed.

(** A signal of the peer object keeps the registrations, or ends the connection. *)
Lemma on_peer_signal_good m A x c :
  good m A c ->
  let '(c', es, _) := on_peer_signal to_uint64 x c in
  dom (heap_of c') = dom (heap_of c) /\ (forall b, settles b c c') /\
  ((good m A c' /\ still_up es) \/
   exists es' ec, es = es' ++ [on_disconnected ec] /\ still_up es' /\
     LocalSignalContainer.registered (locals (publishing c')) = ∅).
Proof.
  intros [Hc (n & Hn & Hp)]. unfold on_peer_signal. rewrite Hc. destruct x as [k data|k method params|ec].
  - destruct (on_peer_data_received k data (remote c)) as [[r es] err]. cbn [lift]. split; [done|].
    split; [intros b; by apply accounts_refl|]. left. split; [|apply still_up_noticed]. split; [done|]. by exists n.
  - pose proof (on_metadata_attached to_uint64 k method params c) as Ha.
    pose proof (metadata_keeps k method params c) as K.
    destruct (on_peer_metadata_received to_uint64 k method params c) as [[c' es] err]. destruct Ha as [Ha Hu].
    split; [exact (keeps_dom _ _ K)|]. split; [exact (keeps_counts _ _ K (placed_once _ _ _ Hp))|].
    left. split; [|done]. split; [by rewrite Ha|].
    exists n. split; [done|]. by eapply keeps_placed.
  - unfold on_peer_closed. destruct (clear (remote (set_attached false c))) as [r es].
    split; [apply clear_local_dom|]. split; [intros b; apply clear_local_accounts; exact (placed_once _ _ _ Hp)|].
    right. exists (noticed <$> es), ec. split; [done|]. split; [apply still_up_noticed|apply (clear_local_empty to_uint64)].
Qed.

(** ** Lemmas: the server *)

Record sound (D : gset nat) (m : Z) (s : server) : Prop := {
  sound_order : NoDup (ordered_signals s) /\ list_to_set (ordered_signals s) = signals s;
  sound_length : Z.of_nat (length (ordered_signals s)) <= m;
  sound_heap : dom (heap s) = D;
  sound_signals : signals s ⊆ D;
  sound_clients : Forall (fun kc => good m (signals s) kc.2) (clients s)
}.

Lemma sound_mono D m m' s : m <= m' -> sound D m s -> sound D m' s.
Proof.
  intros Hm [H1 H2 H3 H4 H5]. split; try done; [lia|].
  eapply Forall_impl; [exact H5|]. intros kc. by apply good_mono.
Qed.

Lemma for_clients_fields f (s : server) :
  signals (for_clients f s) = signals s /\ ordered_signals (for_clients f s) = ordered_signals s.
Proof. unfold for_clients. by destruct (each_client f (clients s) (heap s)). Qed.

Lemma for_clients_clients f (s : server) :
  clients (for_clients f s) = (each_client f (clients s) (heap s)).1 /\
  heap (for_clients f s) = (each_client f (clients s) (heap s)).2.
Proof. unfold for_clients. by destruct (each_client f (clients s) (heap s)). Qed.

Lemma add_signal_sound D m a s :
  a ∈ D -> m + 1 < 2 ^ 32 - 1 -> sound D m s -> sound D (m + 1) (add_local_signal a s).
Proof.
  intros Ha Hm Hs. unfold add_local_signal. case_bool_decide as Hin; [by eapply sound_mono; [|exact Hs]; lia|].
  destruct Hs as [[H1 H1'] H2 H3 H4 H5]. set (s1 := set_signals _ _ s).
  destruct (for_clients_fields (Connection.add_local_signal a) s1) as [E1 E2].
  destruct (for_clients_clients (Connection.add_local_signal a) s1) as [E3 E4].
  destruct (each_client_good D m (signals s) (m + 1) ({[a]} ∪ signals s) (Connection.add_local_signal a))
    with (cs := clients s) (h := heap s) as [G1 G2]; [|done|done|].
  { intros c Hg Hd. destruct (add_good m (signals s) a c) as (? & ? & _); try done; [by rewrite Hd|]. split; congruence. }
  split; rewrite ?E1, ?E2, ?E3, ?E4; cbn.
  - split.
    + apply NoDup_app. split; [done|]. split; [|apply NoDup_singleton].
      intros b Hb ->%list_elem_of_singleton. apply Hin. rewrite <- H1'. by apply elem_of_list_to_set.
    + rewrite list_to_set_app_L, H1'. cbn. set_solver.
  - rewrite length_app. cbn. lia.
  - exact G2.
  - set_solver.
  - exact G1.
Qed.

Lemma filter_ne (a : nat) l :
  NoDup l -> NoDup (List.filter (fun b => negb (bool_decide (b = a))) l) /\
  list_to_set (List.filter (fun b => negb (bool_decide (b = a))) l) = (list_to_set l ∖ {[a]} : gset nat) /\
  (length (List.filter (fun b => negb (bool_decide (b = a))) l) <= length l)%nat.
Proof.
  induction 1 as [|b l Hb _ (IH1 & IH2 & IH3)]; cbn; [split; [constructor|split; [set_solver|lia]]|].
  case_bool_decide as E; cbn.
  - subst b. split; [done|]. split; [|lia]. rewrite IH2. set_solver.
  - split; [|split; [rewrite IH2; set_solver|lia]]. apply NoDup_cons. split; [|done].
    intros Hin. apply Hb. apply list_elem_of_In in Hin. apply List.filter_In in Hin as [Hin _].
    by apply list_elem_of_In.
Qed.

Lemma remove_signal_sound D m a s : sound D m s -> sound D m (remove_local_signal a s).
Proof.
  intros Hs. unfold remove_local_signal. case_bool_decide; [|done].
  destruct Hs as [[H1 H1'] H2 H3 H4 H5]. set (s1 := set_signals _ _ s).
  destruct (for_clients_fields (Connection.remove_local_signal a) s1) as [E1 E2].
  destruct (for_clients_clients (Connection.remove_local_signal a) s1) as [E3 E4].
  destruct (each_client_good D m (signals s) m (signals s ∖ {[a]}) (Connection.remove_local_signal a))
    with (cs := clients s) (h := heap s) as [G1 G2]; [|done|done|].
  { intros c Hg Hd. destruct (remove_good m (signals s) a c Hg) as (? & ? & _). split; congruence. }
  destruct (filter_ne a _ H1) as (F1 & F2 & F3).
  split; rewrite ?E1, ?E2, ?E3, ?E4; cbn; [|lia|exact G2|set_solver|exact G1].
  split; [done|]. by rewrite F2, H1'.
Qed.

Lemma update_client_sound D m k c s :
  good m (signals s) c -> dom (heap_of c) = D -> sound D m s -> sound D m (update_client k c s).
Proof.
  intros Hc Hd [H1 H2 H3 H4 H5]. split; try done. cbn. apply Forall_fmap.
  eapply Forall_impl; [exact H5|]. intros [k' c'] Hg. cbn. by case_bool_decide.
Qed.

Lemma find_client_good D m (f : nat * connection -> bool) s kc :
  sound D m s -> List.find f (clients s) = Some kc -> good m (signals s) kc.2.
Proof.
  intros Hs [Hin _]%List.find_some. pose proof (sound_clients _ _ _ Hs) as H.
  rewrite Forall_forall in H. apply H. by apply list_elem_of_In.
Qed.

Lemma command_sound D m method params s :
  sound D m s -> sound D m (on_servicer_command_interface_request method params s).2.
Proof.
  intros Hs. unfold on_servicer_command_interface_request.
  destruct (find_client (stream_of method) s) as [[k c]|] eqn:E; [|done].
  pose proof (find_client_good _ _ _ _ _ Hs E) as Hg. cbn in Hg.
  apply (good_with_heap _ _ (heap s)) in Hg. set (c1 := with_heap (heap s) c) in *.
  pose proof (do_command_interface_keeps (local_stream_id c1) method params (publishing c1)) as K.
  destruct (do_command_interface _ _ _ _) as [r p]. cbn [snd].
  destruct Hg as [Ha (n & Hn & Hp)]. apply update_client_sound; [|rewrite <- (sound_heap _ _ _ Hs)|done].
  - split; [done|]. exists n. split; [done|]. by eapply keeps_placed.
  - exact (keeps_dom _ _ K).
Qed.

Lemma raise_sound D m es s : sound D m s -> sound D m (raise es s).
Proof. by intros [H1 H2 H3 H4 H5]. Qed.

Lemma forward_up k es : still_up es -> forall s, exists xs, fold_left (fun s e => forward k e s) es s = raise xs s.
Proof.
  induction 1 as [|e es He _ IH]; intros s; cbn [fold_left].
  { exists []. unfold raise. destruct s. cbn. by rewrite app_nil_r. }
  destruct e as [n|j req|ec]; [|apply IH|done]. cbn [forward].
  destruct (IH (raise [client_notice k n] s)) as [xs ->]. exists ([client_notice k n] ++ xs).
  unfold raise. cbn. by rewrite <- (assoc_L (++)).
Qed.

Lemma client_signal_sound D m k x s : sound D m s -> sound D m (on_client_signal k x s).1.
Proof.
  intros Hs. unfold on_client_signal, client_of. destruct (List.find _ (clients s)) as [[k' c]|] eqn:E; [|done].
  pose proof (find_client_good _ _ _ _ _ Hs E) as Hg. cbn in Hg |- *.
  apply (good_with_heap _ _ (heap s)) in Hg.
  pose proof (on_peer_signal_good m (signals s) x (with_heap (heap s) c) Hg) as Ho.
  destruct (on_peer_signal to_uint64 x (with_heap (heap s) c)) as [[c' es] err]. cbn [fst].
  destruct Ho as [Hd [_ [[Hg' Hu]|(es' & ec & -> & Hu & _)]]]; rewrite heap_of_with_heap, (sound_heap _ _ _ Hs) in Hd.
  - destruct (forward_up k es Hu (update_client k c' s)) as [xs ->].
    by apply raise_sound, update_client_sound.
  - rewrite fold_left_app. destruct (forward_up k es' Hu (update_client k c' s)) as [xs ->]. cbn [fold_left forward].
    apply raise_sound. destruct Hs as [H1 H2 H3 H4 H5]. split; try done. cbn.
    apply Forall_forall. intros [j cj] Hin. apply list_elem_of_In, List.filter_In in Hin as [Hin Hj].
    cbn in Hj. apply list_elem_of_In, list_elem_of_fmap in Hin as ([j' cj'] & Heq & Hin).
    rewrite Forall_forall in H5. cbn in Heq. destruct (decide (j' = k)) as [Ej|Ej].
    + rewrite bool_decide_true in Heq by done. injection Heq as -> ->. by rewrite bool_decide_true in Hj.
    + rewrite bool_decide_false in Heq by done. injection Heq as -> ->. exact (H5 _ Hin).
Qed.

(** The connection made for a new client: its signals are registered with it,
    and its subscriptions are counted from none. *)
Lemma new_connection_good D m e s :
  m < 2 ^ 32 - 1 -> sound D m s ->
  let c := Connection.run (new_connection e s) in
  good m (signals s) c /\ dom (heap_of c) = D /\
  forall b k, 0 <= k < 2 ^ 32 - 2 -> counted k b (heap s) ->
    counted (k + Z.b2z (holds b (locals (publishing c)))) b (heap_of c).
Proof.
  intros Hm [[H1 H1'] H2 H3 H4 H5]. unfold new_connection. set (c0 := if command_interface_port s =? 0 then _ else _).
  assert (Hc0 : locals (publishing c0) = LocalSignalContainer.fresh_locals (heap s) /\ is_client c0 = false).
  { unfold c0. by destruct (command_interface_port s =? 0). }
  destruct Hc0 as (Hl0 & Hi0). clearbody c0.
  assert (Hg0 : good 0 ∅ (set_attached true c0)).
  { split; [done|]. exists 0. split; [done|]. change (placed 0 ∅ (locals (publishing c0))). rewrite Hl0. apply fresh_placed. }
  assert (Hcomm : forall l c, fold_left (fun c a => Connection.add_local_signal a c) l (set_attached true c)
                  = set_attached true (fold_left (fun c a => Connection.add_local_signal a c) l c)).
  { induction l as [|a l IH]; intros c; [done|]. apply (IH (Connection.add_local_signal a c)). }
  assert (Hcl : forall l c, is_client (fold_left (fun c a => Connection.add_local_signal a c) l c) = is_client c).
  { induction l as [|a l IH]; intros c; [done|]. apply (IH (Connection.add_local_signal a c)). }
  assert (Hh0 : heap_of (set_attached true c0) = heap s) by (change (LocalSignalContainer.signals (locals (publishing c0)) = heap s); by rewrite Hl0).
  destruct (adds_good (ordered_signals s) 0 ∅ (set_attached true c0) H1) as (Hg & Hd & Hs); [|lia|done|].
  { intros a Ha. split; [set_solver|]. rewrite Hh0, H3. apply H4. rewrite <- H1'. by apply elem_of_list_to_set. }
  rewrite Hcomm, union_empty_r_L, H1' in Hg. rewrite Hcomm, Hh0, H3 in Hd.
  unfold Connection.run. cbn [is_client set_attached]. rewrite Hcl, Hi0.
  setoid_rewrite Hcomm in Hs. set (c1 := set_attached true _) in *. unfold heap_of in *. rewrite do_hello_locals.
  destruct Hg as [Ha (n & Hn & Hp)]. split; [|split; [done|]].
  - split; [unfold do_hello; cbn; exact Ha|]. exists n. split; [lia|by rewrite do_hello_locals].
  - intros b k Hk Hc. apply (Hs b k Hk).
    change (counted (k + Z.b2z (holds b (locals (publishing c0)))) b (LocalSignalContainer.signals (locals (publishing c0)))).
    rewrite Hl0, holds_nothing by done. by rewrite Z.add_0_r.
Qed.

Lemma upgrade_sound D m e s :
  m < 2 ^ 32 - 1 -> sound D m s -> sound D m (on_servicer_websocket_upgrade e s).
Proof.
  intros Hm Hs. destruct e as [e|]; [|done]. unfold on_servicer_websocket_upgrade. apply raise_sound.
  destruct (new_connection_good D m e s Hm Hs) as (Hg & Hd & _). destruct Hs as [[H1 H1'] H2 H3 H4 H5].
  split; try done. cbn. apply Forall_app. split; [done|]. by constructor.
Qed.

Lemma destroy_all_dom cs : forall h, dom (each_client destroy_connection cs h).2 = dom h.
Proof.
  induction cs as [|[k c] cs IH]; intros h; cbn [each_client]; [done|].
  specialize (IH (heap_of (destroy_connection (with_heap h c)))).
  destruct (each_client destroy_connection cs _) as [cs' h']. cbn [snd] in *. rewrite IH.
  exact (erase_all_dom_signals _ (locals (publishing (with_heap h c)))).
Qed.

Lemma act_sound D m x s :
  m + 1 < 2 ^ 32 - 1 -> (forall a, x = act_add_signal a -> a ∈ D) -> sound D m s -> sound D (m + 1) (act x s).
Proof.
  intros Hm Hx Hs.
  assert (Hw : forall s', sound D m s' -> sound D (m + 1) s') by (intros s'; apply sound_mono; lia).
  destruct x as [a|a|p b|p cert key ca b| |i b|n|method params|e|k x|]; cbn [act].
  - apply add_signal_sound; [by apply Hx|done|done].
  - by apply Hw, remove_signal_sound.
  - apply Hw. by destruct Hs.
  - apply Hw. unfold add_tls_listener. destruct (Tls.make_server_tls_context _ _ _ _); by destruct Hs.
  - apply Hw. by destruct Hs.
  - apply Hw. unfold accepted, on_listener_accept, on_tls_listener_accept.
    destruct (listeners s !! i) as [l|]; [|done]. destruct (secure l), b; by destruct Hs.
  - apply Hw. by destruct Hs.
  - by apply Hw, command_sound.
  - apply Hw, upgrade_sound; [lia|done].
  - by apply Hw, client_signal_sound.
  - apply Hw. unfold close. destruct (closed s); [done|]. apply raise_sound. destruct Hs as [H1 H2 H3 H4 H5].
    split; try done. cbn. by rewrite destroy_all_dom.
Qed.

Lemma acts_sound D xs : forall m s,
  m + Z.of_nat (length xs) < 2 ^ 32 - 1 -> (forall a, act_add_signal a ∈ xs -> a ∈ D) -> sound D m s ->
  sound D (m + Z.of_nat (length xs)) (acts xs s).
Proof.
  induction xs as [|x xs IH]; intros m s Hm Hx Hs; cbn [acts fold_left length] in *.
  { eapply sound_mono; [|exact Hs]. cbn. lia. }
  eapply sound_mono; [|apply (IH (m + 1)); [lia| |]]; [lia| |].
  - intros a Ha. apply Hx. by right.
  - apply act_sound; [lia| |done]. intros a ->. apply Hx. by left.
Qed.

(** ** Properties *)

(** C10: every connected client is offered exactly the signals of the server: at
    any point of a history (signals added and removed, clients upgraded at any
    moment, whatever they send and whatever is requested over HTTP, connections
    ending, the server closing) each remaining connection is attached and has
    each signal of the server registered, once, and no other; and the list that
    new connections are given holds each signal once.  The application's
    signals exist, and there are fewer than 2^32 - 1 steps. *)
Theorem clients_have_the_signals xs h :
  (forall a, act_add_signal a ∈ xs -> is_Some (h !! a)) -> Z.of_nat (length xs) < 2 ^ 32 - 1 ->
  let s := acts xs (make h) in
  NoDup (ordered_signals s) /\ (forall a, a ∈ ordered_signals s <-> a ∈ signals s) /\
  forall k c, (k, c) ∈ clients s ->
    attached c = true /\
    (forall a, a ∈ signals s <-> exists n, places (locals (publishing c)) !! n = Some a) /\
    (forall n n' a, places (locals (publishing c)) !! n = Some a ->
       places (locals (publishing c)) !! n' = Some a -> n = n').
Proof.
  intros Hx Hl. cbn zeta.
  destruct (acts_sound (dom h) xs 0 (make h)) as [[H1 H1'] H2 H3 H4 H5]; [lia| | |].
  - intros a Ha. by apply elem_of_dom, Hx.
  - by repeat constructor.
  - split; [done|]. split; [intros a; by rewrite <- H1', elem_of_list_to_set|].
    intros k c Hin. rewrite Forall_forall in H5. destruct (H5 _ Hin) as [Ha (n & _ & Hp)]. cbn in Ha, Hp.
    split; [done|]. split; [exact (placed_addresses _ _ _ Hp)|exact (placed_once _ _ _ Hp)].
Qed.

(** ** Lemmas: the subscription counts of the shared signals *)

(** How many connections hold a subscription of the signal at [b]. *)
Definition subscribers (b : nat) (cs : list (nat * connection)) : Z :=
  foldr (fun kc n => Z.b2z (holds b (locals (publishing kc.2))) + n) 0 cs.

Lemma subscribers_cons b k c cs :
  subscribers b ((k, c) :: cs) = Z.b2z (holds b (locals (publishing c))) + subscribers b cs.
Proof. done. Qed.

Lemma subscribers_app b cs cs' : subscribers b (cs ++ cs') = subscribers b cs + subscribers b cs'.
Proof. induction cs as [|[k c] cs IH]; [done|]. cbn [app]. rewrite !subscribers_cons, IH. lia. Qed.

Lemma subscribers_range b cs : 0 <= subscribers b cs <= Z.of_nat (length cs).
Proof.
  induction cs as [|[k c] cs IH]; [done|]. rewrite subscribers_cons. cbn [length].
  destruct (holds _ _); cbn; lia.
Qed.

Lemma subscribers_pos b cs :
  0 < subscribers b cs <-> exists k c, (k, c) ∈ cs /\ holds b (locals (publishing c)) = true.
Proof.
  induction cs as [|[k c] cs IH]; [split; [done|by intros (? & ? & ?%not_elem_of_nil & _)]|].
  rewrite subscribers_cons. pose proof (subscribers_range b cs). split.
  - intros Hp. destruct (holds b (locals (publishing c))) eqn:E.
    + exists k, c. split; [by left|done].
    + destruct IH as [IH _]. destruct IH as (k' & c' & Hin & Hh); [cbn in Hp; lia|].
      exists k', c'. split; [by right|done].
  - intros (k' & c' & Hin & Hh). apply elem_of_cons in Hin as [[= -> ->]|Hin]; [rewrite Hh; cbn; lia|].
    assert (0 < subscribers b cs) by (apply IH; by exists k', c'). destruct (holds b _); cbn; lia.
Qed.

(** One connection among others. *)
Lemma settles_counted b h c c' k :
  settles b (with_heap h c) c' -> 0 <= k < 2 ^ 32 - 2 ->
  counted (k + Z.b2z (holds b (locals (publishing c)))) b h ->
  counted (k + Z.b2z (holds b (locals (publishing c')))) b (heap_of c').
Proof. intros Hs Hk Hc. exact (Hs k Hk Hc). Qed.

Lemma each_client_counted D m A b f :
  (forall c, good m A c -> dom (heap_of c) = D -> settles b c (f c) /\ dom (heap_of (f c)) = D) ->
  forall cs h k, Forall (fun kc => good m A kc.2) cs -> dom h = D ->
  0 <= k -> k + Z.of_nat (length cs) < 2 ^ 32 - 1 -> counted (k + subscribers b cs) b h ->
  counted (k + subscribers b (each_client f cs h).1) b (each_client f cs h).2.
Proof.
  intros Hf cs. induction cs as [|[j c] cs IH]; intros h k Hcs Hh Hk Hlen Hc; cbn; [done|].
  apply Forall_cons in Hcs as [Hg Hcs]. rewrite subscribers_cons in Hc. cbn [length snd] in Hlen, Hg.
  pose proof (subscribers_range b cs).
  destruct (Hf (with_heap h c)) as [Hs Hd]; [by apply good_with_heap|done|].
  assert (H1 := settles_counted b h c _ (k + subscribers b cs) Hs ltac:(lia)).
  set (c' := f (with_heap h c)) in *. set (bc := Z.b2z (holds b (locals (publishing c')))) in *.
  specialize (IH (heap_of c') (k + bc) Hcs Hd). destruct (each_client f cs (heap_of c')) as [cs' h'].
  cbn [fst snd] in *. rewrite subscribers_cons. fold bc.
  replace (k + (bc + subscribers b cs')) with (k + bc + subscribers b cs') by lia.
  assert (0 <= bc <= 1) by (unfold bc; destruct (holds _ _); cbn; lia).
  apply IH; [lia|lia|]. replace (k + bc + subscribers b cs) with (k + subscribers b cs + bc) by lia.
  apply H1. replace (k + subscribers b cs + _) with (k + (Z.b2z (holds b (locals (publishing c))) + subscribers b cs)) by lia.
  exact Hc.
Qed.

(** Each signal counts the connections that subscribe it; connections have
    numbers of their own, and no more than [m] were made. *)
Record tallied (m : Z) (s : server) : Prop := {
  tally_counts : forall b, counted (subscribers b (clients s)) b (heap s);
  tally_once : NoDup (fst <$> clients s);
  tally_fresh : Forall (fun kc => (kc.1 < next_client s)%nat) (clients s);
  tally_length : Z.of_nat (length (clients s)) <= m
}.

Lemma tallied_mono m m' s : m <= m' -> tallied m s -> tallied m' s.
Proof. intros Hm [H1 H2 H3 H4]. split; try done. lia. Qed.

Lemma each_client_keys f cs : forall h, fst <$> (each_client f cs h).1 = fst <$> cs.
Proof.
  induction cs as [|[k c] cs IH]; intros h; cbn; [done|]. specialize (IH (heap_of (f (with_heap h c)))).
  destruct (each_client f cs _) as [cs' h']. cbn in *. by rewrite IH.
Qed.

Lemma Forall_keys (P : nat -> Prop) (cs : list (nat * connection)) :
  Forall (fun kc => P kc.1) cs <-> Forall P (fst <$> cs).
Proof. by rewrite Forall_fmap. Qed.

Lemma for_clients_tallied D m A f (s s1 : server) :
  (forall c, good m A c -> dom (heap_of c) = D ->
     (forall b, settles b c (f c)) /\ dom (heap_of (f c)) = D) ->
  Forall (fun kc => good m A kc.2) (clients s) -> dom (heap s) = D -> m < 2 ^ 32 - 1 ->
  clients s1 = clients s -> heap s1 = heap s -> next_client s1 = next_client s ->
  tallied m s -> tallied m (for_clients f s1).
Proof.
  intros Hf Hg Hd Hm E1 E2 E3 [H1 H2 H3 H4].
  destruct (for_clients_clients f s1) as [F1 F2]. rewrite E1, E2 in *.
  pose proof (each_client_keys f (clients s) (heap s)) as Hkeys.
  split; rewrite ?F1, ?F2.
  - intros b. assert (Hb : counted (0 + subscribers b (clients s)) b (heap s)) by apply H1.
    refine (each_client_counted D m A b f _ (clients s) (heap s) 0 Hg Hd ltac:(lia) ltac:(lia) Hb).
    intros c Hgc Hdc. destruct (Hf c Hgc Hdc) as [Hs Hd']. by split.
  - by rewrite Hkeys.
  - apply (Forall_keys (fun k => k < _)%nat). rewrite Hkeys. apply Forall_keys.
    unfold for_clients. rewrite E1, E2. destruct (each_client _ _ _). cbn. by rewrite E3.
  - apply (f_equal length) in Hkeys. rewrite !length_fmap in Hkeys. by rewrite Hkeys.
Qed.

Lemma raise_tallied m es s : tallied m s -> tallied m (raise es s).
Proof. by intros [H1 H2 H3 H4]. Qed.

(** One client among the others. *)
Lemma client_split m k c s :
  tallied m s -> (k, c) ∈ clients s ->
  exists l1 l2, clients s = l1 ++ (k, c) :: l2 /\ k ∉ l1.*1 /\ k ∉ l2.*1.
Proof.
  intros Hs Hin. apply list_elem_of_split in Hin as (l1 & l2 & E). exists l1, l2. split; [done|].
  pose proof (tally_once _ _ Hs) as Hn. rewrite E, fmap_app in Hn. cbn in Hn.
  apply NoDup_app in Hn as (_ & Hn1 & Hn2). apply NoDup_cons in Hn2 as [Hn2 _]. split; [|done].
  intros Hk. apply (Hn1 k Hk). by left.
Qed.

Lemma replace_others k (c : connection) (l : list (nat * connection)) :
  k ∉ l.*1 -> ((fun kc => if bool_decide (kc.1 = k) then (k, c) else kc) <$> l) = l.
Proof.
  induction l as [|[j cj] l IH]; intros Hk; cbn; [done|]. apply not_elem_of_cons in Hk as [Hj Hk].
  cbn in Hj. rewrite bool_decide_false by done. f_equal. by apply IH.
Qed.

Lemma remove_others k (l : list (nat * connection)) :
  k ∉ l.*1 -> List.filter (fun kc => negb (bool_decide (kc.1 = k))) l = l.
Proof.
  induction l as [|[j cj] l IH]; intros Hk; cbn; [done|]. apply not_elem_of_cons in Hk as [Hj Hk].
  cbn in Hj. rewrite bool_decide_false by done. cbn. f_equal. by apply IH.
Qed.

Lemma update_client_split k c c' s l1 l2 :
  clients s = l1 ++ (k, c) :: l2 -> k ∉ l1.*1 -> k ∉ l2.*1 ->
  clients (update_client k c' s) = l1 ++ (k, c') :: l2.
Proof.
  intros E H1 H2. cbn. rewrite E, fmap_app, fmap_cons. cbn. rewrite bool_decide_true by done.
  f_equal; [by apply replace_others|]. f_equal. by apply replace_others.
Qed.

Lemma update_client_tallied m k c c' s :
  m < 2 ^ 32 - 1 -> tallied m s -> (k, c) ∈ clients s -> (forall b, settles b (with_heap (heap s) c) c') ->
  tallied m (update_client k c' s).
Proof.
  intros Hm Hs Hin Hset. destruct (client_split m k c s Hs Hin) as (l1 & l2 & E & Hk1 & Hk2).
  pose proof (update_client_split k c c' s l1 l2 E Hk1 Hk2) as E'. destruct Hs as [H1 H2 H3 H4].
  assert (Hkeys : (clients (update_client k c' s)).*1 = (clients s).*1) by (by rewrite E', E, !fmap_app).
  assert (Hlen : length (clients (update_client k c' s)) = length (clients s)).
  { apply (f_equal length) in Hkeys. by rewrite !length_fmap in Hkeys. }
  split; [|by rewrite Hkeys| |by rewrite Hlen].
  - intros b. rewrite E', subscribers_app, subscribers_cons. specialize (H1 b). rewrite E, subscribers_app, subscribers_cons in H1.
    pose proof (subscribers_range b l1). pose proof (subscribers_range b l2).
    rewrite E, length_app in H4. cbn [length] in H4.
    assert (Hk : 0 <= subscribers b l1 + subscribers b l2 < 2 ^ 32 - 2) by lia.
    pose proof (settles_counted b (heap s) c c' _ (Hset b) Hk) as Hc.
    replace (subscribers b l1 + (Z.b2z (holds b (locals (publishing c'))) + subscribers b l2))
      with (subscribers b l1 + subscribers b l2 + Z.b2z (holds b (locals (publishing c')))) by lia.
    apply Hc. by replace (subscribers b l1 + subscribers b l2 + Z.b2z (holds b (locals (publishing c))))
      with (subscribers b l1 + (Z.b2z (holds b (locals (publishing c))) + subscribers b l2)) by lia.
  - apply (Forall_keys (fun k => k < next_client s)%nat). rewrite Hkeys. by apply Forall_keys.
Qed.

(** A client that has nothing registered leaves. *)
Lemma disconnect_tallied m k c ec s :
  tallied m s -> (k, c) ∈ clients s -> LocalSignalContainer.registered (locals (publishing c)) = ∅ ->
  tallied m (on_connection_disconnected k ec s).
Proof.
  intros Hs Hin Hr. destruct (client_split m k c s Hs Hin) as (l1 & l2 & E & Hk1 & Hk2).
  apply raise_tallied. destruct Hs as [H1 H2 H3 H4].
  assert (E' : List.filter (fun kc => negb (bool_decide (kc.1 = k))) (clients s) = l1 ++ l2).
  { rewrite E, List.filter_app. cbn. rewrite bool_decide_true by done. cbn. by rewrite !remove_others. }
  set (s1 := set_clients _ _ s). assert (Hcl : clients s1 = l1 ++ l2) by exact E'.
  split; rewrite ?Hcl; change (next_client s1) with (next_client s); change (heap s1) with (heap s); rewrite E in *.
  - intros b. specialize (H1 b). rewrite subscribers_app, subscribers_cons, holds_nothing in H1 by done.
    by rewrite subscribers_app.
  - rewrite fmap_app in *. cbn in H2. apply NoDup_app in H2 as (A1 & A2 & A3). apply NoDup_cons in A3 as [_ A3].
    apply NoDup_app. split; [done|]. split; [|done]. intros x Hx Hx2. apply (A2 x Hx). by right.
  - apply Forall_app in H3 as [B1 B2]. apply Forall_cons in B2 as [_ B2]. by apply Forall_app.
  - rewrite length_app in *. cbn in H4. lia.
Qed.

Lemma add_signal_tallied D m a s :
  a ∈ D -> m + 1 < 2 ^ 32 - 1 -> sound D m s -> tallied m s -> tallied m (add_local_signal a s).
Proof.
  intros Ha Hm Hs Ht. unfold add_local_signal. case_bool_decide as Hin; [done|]. destruct Hs as [_ _ H3 _ H5].
  eapply (for_clients_tallied D m (signals s)); [|done|done|lia|done..|done].
  intros c Hg Hd. destruct (add_good m (signals s) a c) as (_ & Hd' & Hs'); [done|by rewrite Hd|lia|done|].
  split; [done|congruence].
Qed.

Lemma remove_signal_tallied D m a s :
  m < 2 ^ 32 - 1 -> sound D m s -> tallied m s -> tallied m (remove_local_signal a s).
Proof.
  intros Hm Hs Ht. unfold remove_local_signal. case_bool_decide as Hin; [|done]. destruct Hs as [_ _ H3 _ H5].
  eapply (for_clients_tallied D m (signals s)); [|done|done|lia|done..|done].
  intros c Hg Hd. destruct (remove_good m (signals s) a c Hg) as (_ & Hd' & Hs'). split; [done|congruence].
Qed.

Lemma command_tallied D m method params s :
  m < 2 ^ 32 - 1 -> sound D m s -> tallied m s ->
  tallied m (on_servicer_command_interface_request method params s).2.
Proof.
  intros Hm Hs Ht. unfold on_servicer_command_interface_request.
  destruct (find_client (stream_of method) s) as [[k c]|] eqn:E; [|done].
  pose proof (find_client_good _ _ _ _ _ Hs E) as Hg. cbn in Hg. apply (good_with_heap _ _ (heap s)) in Hg.
  pose proof (do_command_interface_keeps (local_stream_id (with_heap (heap s) c)) method params
                (publishing (with_heap (heap s) c))) as K.
  destruct (do_command_interface _ _ _ _) as [r p]. cbn [snd].
  apply List.find_some in E as [Hin _]. apply list_elem_of_In in Hin.
  apply (update_client_tallied m k c); [done..|]. exact (keeps_counts _ _ K (good_once _ _ _ Hg)).
Qed.

Lemma client_signal_tallied D m k x s :
  m < 2 ^ 32 - 1 -> sound D m s -> tallied m s -> tallied m (on_client_signal k x s).1.
Proof.
  intros Hm Hs Ht. unfold on_client_signal, client_of. destruct (List.find _ (clients s)) as [[k' c]|] eqn:E; [|done].
  pose proof (find_client_good _ _ _ _ _ Hs E) as Hg. cbn in Hg |- *. apply (good_with_heap _ _ (heap s)) in Hg.
  apply List.find_some in E as [Hin Hk%bool_decide_eq_true]. cbn in Hk. subst k'. apply list_elem_of_In in Hin.
  pose proof (on_peer_signal_good m (signals s) x (with_heap (heap s) c) Hg) as Ho.
  destruct (on_peer_signal to_uint64 x (with_heap (heap s) c)) as [[c' es] err]. cbn [fst].
  destruct Ho as (_ & Hset & Hcase).
  pose proof (update_client_tallied m k c c' s Hm Ht Hin Hset) as Hu.
  destruct Hcase as [[_ Hup]|(es' & ec & -> & Hup & Hr)].
  - destruct (forward_up k es Hup (update_client k c' s)) as [xs ->]. by apply raise_tallied.
  - rewrite fold_left_app. destruct (forward_up k es' Hup (update_client k c' s)) as [xs ->]. cbn [fold_left forward].
    apply (disconnect_tallied m k c'); [by apply raise_tallied| |done]. cbn.
    apply list_elem_of_fmap. exists (k, c). cbn. by rewrite bool_decide_true.
Qed.

Lemma upgrade_tallied D m e s :
  m + 1 < 2 ^ 32 - 1 -> sound D m s -> tallied m s -> tallied (m + 1) (on_servicer_websocket_upgrade e s).
Proof.
  intros Hm Hs Ht. destruct e as [e|]; [|by eapply tallied_mono; [|exact Ht]; lia].
  unfold on_servicer_websocket_upgrade. apply raise_tallied.
  destruct (new_connection_good D m e s ltac:(lia) Hs) as (_ & _ & Hc). set (c := Connection.run _) in *.
  destruct Ht as [H1 H2 H3 H4]. split; cbn [clients heap next_client].
  - intros b. rewrite subscribers_app, subscribers_cons. cbn [subscribers foldr]. rewrite Z.add_0_r.
    pose proof (subscribers_range b (clients s)). apply Hc; [lia|apply H1].
  - rewrite fmap_app. apply NoDup_app. split; [done|]. split; [|apply NoDup_singleton].
    intros k Hk ->%list_elem_of_singleton. apply (Forall_keys (fun k => k < next_client s)%nat) in H3.
    rewrite Forall_forall in H3. specialize (H3 _ Hk). cbn in H3. lia.
  - apply Forall_app. split; [|by constructor; [cbn; lia|constructor]].
    eapply Forall_impl; [exact H3|]. intros kc. cbn. lia.
  - rewrite length_app. cbn. lia.
Qed.

Lemma destroyed_holds_nothing b cs : forall h, subscribers b (each_client destroy_connection cs h).1 = 0.
Proof.
  induction cs as [|[k c] cs IH]; intros h; cbn [each_client]; [done|].
  specialize (IH (heap_of (destroy_connection (with_heap h c)))).
  destruct (each_client destroy_connection cs _) as [cs' h']. cbn [fst] in *. rewrite subscribers_cons, IH.
  rewrite holds_nothing; [done|]. apply dom_empty_inv_L. unfold destroy_connection. cbn [publishing set_publishing locals with_locals].
  rewrite (erase_all_dom to_uint64). apply set_eq. intros n. split; [|set_solver].
  intros [[e He]%elem_of_dom Hn]%elem_of_difference. destruct Hn.
  apply elem_of_list_to_set, list_elem_of_fmap. exists (n, e). split; [done|]. by apply elem_of_items.
Qed.

Lemma close_tallied D m s : m < 2 ^ 32 - 1 -> sound D m s -> tallied m s -> tallied m (close s).
Proof.
  intros Hm Hs Ht. unfold close. destruct (closed s); [done|]. apply raise_tallied.
  destruct Hs as [_ _ H3 _ H5], Ht as [T1 T2 T3 T4].
  split; cbn [clients heap next_client]; [|constructor|constructor|cbn; lia].
  intros b. cbn [subscribers foldr]. rewrite <- (destroyed_holds_nothing b (clients s) (heap s)).
  assert (Hb : counted (0 + subscribers b (clients s)) b (heap s)) by apply T1.
  refine (each_client_counted D m (signals s) b destroy_connection _ (clients s) (heap s) 0 H5 H3 ltac:(lia) ltac:(lia) Hb).
  intros c Hg Hd. split; [|by rewrite <- Hd; exact (erase_all_dom_signals _ (locals (publishing c)))].
  apply erase_all_accounts. by eapply good_once.
Qed.

Lemma act_tallied D m x s :
  m + 1 < 2 ^ 32 - 1 -> (forall a, x = act_add_signal a -> a ∈ D) -> sound D m s -> tallied m s ->
  tallied (m + 1) (act x s).
Proof.
  intros Hm Hx Hs Ht.
  assert (Hw : forall s', tallied m s' -> tallied (m + 1) s') by (intros s'; apply tallied_mono; lia).
  destruct x as [a|a|p b|p cert key ca b| |i b|n|method params|e|k x|]; cbn [act].
  - apply Hw, (add_signal_tallied D); [by apply Hx|done..].
  - apply Hw, (remove_signal_tallied D); [lia|done..].
  - apply Hw. by destruct Ht.
  - apply Hw. unfold add_tls_listener. destruct (Tls.make_server_tls_context _ _ _ _); by destruct Ht.
  - apply Hw. by destruct Ht.
  - apply Hw. unfold accepted, on_listener_accept, on_tls_listener_accept.
    destruct (listeners s !! i) as [l|]; [|done]. destruct (secure l), b; by destruct Ht.
  - apply Hw. by destruct Ht.
  - apply Hw, (command_tallied D); [lia|done..].
  - by apply (upgrade_tallied D).
  - apply Hw, (client_signal_tallied D); [lia|done..].
  - apply Hw, (close_tallied D); [lia|done..].
Qed.

Lemma acts_tallied D xs : forall m s,
  m + Z.of_nat (length xs) < 2 ^ 32 - 1 -> (forall a, act_add_signal a ∈ xs -> a ∈ D) ->
  sound D m s -> tallied m s -> tallied (m + Z.of_nat (length xs)) (acts xs s).
Proof.
  induction xs as [|x xs IH]; intros m s Hm Hx Hs Ht; cbn [acts fold_left length] in *.
  { eapply tallied_mono; [|exact Ht]. cbn. lia. }
  assert (Hx1 : forall a, x = act_add_signal a -> a ∈ D) by (intros a ->; apply Hx; by left).
  eapply tallied_mono; [|apply (IH (m + 1))]; [lia|lia| | |].
  - intros a Ha. apply Hx. by right.
  - apply act_sound; [lia|done|done].
  - apply (act_tallied D); [lia|done..].
Qed.

(** C11: the application's signals are shared by all connections, and each knows
    when it is needed: at any point of a history of the server, the
    subscription count of a signal is the number of connected clients whose
    entry holds a subscription, so that it is subscribed exactly while some
    client wants it (removing the signal, the end of a client and closing the
    server included), and its subscribed and unsubscribed events alternate. *)
Theorem subscribed_while_wanted xs h :
  (forall a sg, h !! a = Some sg -> LocalSignal.subscribe_count sg = 0 /\ LocalSignal.subscriptions (LocalSignal.events sg) = []) ->
  (forall a, act_add_signal a ∈ xs -> is_Some (h !! a)) -> Z.of_nat (length xs) < 2 ^ 32 - 1 ->
  let s := acts xs (make h) in
  forall a sg, heap s !! a = Some sg ->
    LocalSignal.subscribe_count sg = subscribers a (clients s) /\
    (LocalSignal.is_subscribed sg = true <->
       exists k c, (k, c) ∈ clients s /\ holds a (locals (publishing c)) = true) /\
    LocalSignal.alternating (LocalSignal.is_subscribed sg) (LocalSignal.subscriptions (LocalSignal.events sg)).
Proof.
  intros Hh Hx Hl s a sg Ha.
  destruct (acts_tallied (dom h) xs 0 (make h)) as [Hc _ _ _]; [lia| | | |].
  - intros b Hb. by apply elem_of_dom, Hx.
  - by repeat constructor.
  - split; [|constructor..|done]. intros b sg0 Hb. destruct (Hh b sg0 Hb) as [H0 H1].
    split; [done|]. unfold LocalSignal.is_subscribed. rewrite H0, H1. constructor.
  - destruct (Hc a sg Ha) as [Hn Halt]. split; [done|]. split; [|done].
    rewrite <- subscribers_pos. unfold LocalSignal.is_subscribed. rewrite Hn. apply Z.ltb_lt.
Qed.

(** The TLS listeners of a server share one context, the one made last, as
    the documentation of [add_tls_listener] says: when a listener that admits
    only clients with a certificate is followed by one that asks for none,
    connections to the first listener too are served to clients without a
    certificate. *)
Theorem last_tls_listener_decides {C : Type} (trusted : string -> C -> bool)
    p cert key ca b p' cert' key' b' s i l :
  ca <> "" ->
  (add_tls_listener p cert key ca b s).1 = Ok tt ->
  let s1 := (add_tls_listener p cert key ca b s).2 in
  (add_tls_listener p' cert' key' "" b' s1).1 = Ok tt ->
  let s2 := (add_tls_listener p' cert' key' "" b' s1).2 in
  listeners s2 !! i = Some l -> secure l = true ->
  exists ctx ctx', ssl_context s1 = Some ctx /\ Tls.accepts trusted ctx None = false /\
    sessions (accepted i true s2) = sessions s ++ [(next_session s, Some ctx')] /\
    Tls.accepts trusted ctx' None = true.
Proof.
  intros Hca. unfold add_tls_listener.
  destruct (Tls.make_server_tls_context load cert key ca) as [ctx|] eqn:E; [|done]. intros _. cbn zeta. cbn [snd].
  destruct (Tls.make_server_tls_context load cert' key' "") as [ctx'|] eqn:E'; [|done]. intros _. cbn [snd].
  intros Hl Hsec. exists ctx, ctx'.
  apply Tls.server_context_ok in E as (R & _ & _ & _ & V), E' as (R' & _ & _ & _ & V').
  rewrite bool_decide_false in V by done. destruct V as [V A].
  split; [done|]. split; [unfold Tls.accepts; by rewrite V, R|]. split.
  - unfold accepted. rewrite Hl, Hsec. done.
  - unfold Tls.accepts. by rewrite V', R'.
Qed.

(** ** Lemmas: routing *)

Lemma find_split_first c a b : c ∉ a -> Semver.find_split c (a ++ c :: b) = Some (a, b).
Proof.
  induction a as [|x a IH]; intros Hc; cbn; [by rewrite bool_decide_true|].
  apply not_elem_of_cons in Hc as [Hx Hc]. rewrite bool_decide_false by done. by rewrite IH.
Qed.

Lemma list_of_append s t :
  String.list_ascii_of_string (String.append s t)
  = String.list_ascii_of_string s ++ String.list_ascii_of_string t.
Proof.
  induction s as [|c s IH]; [done|].
  change (c :: String.list_ascii_of_string (String.append s t)
          = c :: (String.list_ascii_of_string s ++ String.list_ascii_of_string t)). by rewrite IH.
Qed.

Lemma stream_of_command (sub : bool) sid : stream_of (String.append sid (suffix_of sub)) = sid.
Proof.
  unfold stream_of, before_last_dot. rewrite list_of_append.
  set (l := String.list_ascii_of_string sid).
  assert (Hd : exists d, String.list_ascii_of_string (suffix_of sub) = "."%char :: d /\ "."%char ∉ rev d).
  { destruct sub;
      [exists (String.list_ascii_of_string "subscribe")|exists (String.list_ascii_of_string "unsubscribe")];
      (split; [done|]); apply (bool_decide_unpack ("."%char ∉ rev _)); by vm_compute. }
  destruct Hd as (d & -> & Hd). rewrite rev_app_distr. cbn [rev]. rewrite <- (assoc_L (++)). cbn [app].
  rewrite find_split_first by done. rewrite rev_involutive.
  apply String.string_of_list_ascii_of_string.
Qed.

(** C15: a command sent over HTTP reaches the right connection: a POST request
    whose body asks for the subscription (or the end of it) of one signal on a
    stream performs exactly that operation on the first client with this stream
    id, on no other, and is answered with status 200, with the text [Succeeded]
    exactly when the operation succeeds; for a stream no client has nothing
    happens and the status is 500. *)
Theorem http_command_performed `{!Base64.ArchiveIterators} `{!Base64.Sha1}
    parse_what keep_alive default_keep product (sub : bool) req n stream sid s failure error :
  Http.method req = verb_post -> get_header upgrade_field (request_fields req) <> "websocket" ->
  parse (request_body req) = Ok (request_object n (String.append stream (suffix_of sub)) (jarr [jstr sid])) ->
  dump (jarr [jbool false]) = Ok failure ->
  dump (HttpServicer.error_object (rpc_what (no_client stream))) = Ok error ->
  let '(res, s') := HttpServicer.respond command_slot parse_what keep_alive default_keep product req s in
  match find_client stream s with
  | Some (k, c) =>
      let '(done, pub) := operation_of sub sid (publishing (with_heap (heap s) c)) in
      s' = update_client k (set_publishing pub (with_heap (heap s) c)) s /\
      exists r a, res = Ok (r, a) /\ status r = status_ok /\
        response_body r = (if done then Base64.string_bytes "Succeeded" else failure)
  | None => s' = s /\ exists r a, res = Ok (r, a) /\ status r = internal_server_error
  end.
Proof.
  intros Hm Hu Hp Hf He. unfold HttpServicer.respond. rewrite bool_decide_false by done. cbn [andb].
  rewrite bool_decide_true by done. unfold HttpServicer.respond_post. rewrite Hp.
  destruct (request_object_fields n (String.append stream (suffix_of sub)) (jarr [jstr sid])) as (H1 & H2 & H3 & H4).
  unfold string_member in H2. destruct (_ && _) eqn:E in H2; [|done]. injection H2 as H2.
  rewrite <- andb_assoc, H1, E, H2. cbn [andb negb].
  assert (Hc : contains (request_object n (String.append stream (suffix_of sub)) (jarr [jstr sid])) "params" = true).
  { unfold request_object. rewrite contains_jobj. by simplify_map_eq. }
  rewrite Hc, H3. unfold command_slot, on_servicer_command_interface_request. rewrite stream_of_command.
  destruct (find_client stream s) as [[k c]|] eqn:Ec.
  - assert (Hk : local_stream_id (with_heap (heap s) c) = stream).
    { apply List.find_some in Ec as [_ Hb]. by apply bool_decide_eq_true in Hb. }
    rewrite Hk, do_command_one. destruct (operation_of sub sid _) as [b pub]. split; [done|].
    unfold HttpServicer.json_response, HttpServicer.is_success, is_null, is_array.
    rewrite view_jarr, elements_jarr. cbn [forallb]. rewrite view_jbool, andb_true_r.
    destruct b; [by eexists _, _|]. rewrite Hf. by eexists _, _.
  - split; [done|]. unfold HttpServicer.json_response, HttpServicer.is_success, is_null, is_array.
    unfold HttpServicer.error_object in *. rewrite view_jobj, He. by eexists _, _.
Qed.

End Server.

(** ** Instances *)

#[local] Existing Instances jv_json Base64.reference_iterators Base64.checksum_sha1.

Definition sample_heap : gmap nat LocalSignal.local_signal :=
  {[0%nat := LocalSignal.make "a" (jobj [])]}.

(** A server with one signal and one client. *)
Definition sample_history : list action :=
  [act_add_listener 7438 true; act_run; act_accept 0 true; act_add_signal 0;
   act_upgrade (Some ("10.0.0.1", 4000))].

Definition sample_server : server := acts Datatypes.id Tls.sample_load sample_history (make sample_heap).

Lemma clients_have_the_signals_witness :
  length (clients sample_server) = 1%nat /\ NoDup (ordered_signals sample_server) /\
  forall k c, (k, c) ∈ clients sample_server -> attached c = true.
Proof.
  assert (Hh : forall a, act_add_signal a ∈ sample_history -> is_Some (sample_heap !! a)).
  { intros a Ha. unfold sample_history in Ha. rewrite !elem_of_cons in Ha.
    destruct Ha as [?|[?|[?|[Ha|[?|Ha]]]]]; try done; [|by apply not_elem_of_nil in Ha].
    injection Ha as ->. by eexists. }
  destruct (clients_have_the_signals Datatypes.id Tls.sample_load sample_history sample_heap Hh ltac:(done)) as (H1 & H2 & H3).
  split; [by vm_compute|]. split; [exact H1|]. intros k c Hc. exact (proj1 (H3 k c Hc)).
Defined.

Definition sample_post : request :=
  mk_request verb_post "/" 11 []
    (jv_encode (request_object 1 (String.append "10.0.0.1:4000" ".subscribe") (jarr [jstr "a"]))).

Lemma http_command_performed_witness :
  exists r a, (HttpServicer.respond command_slot (fun _ => "") (fun _ => true) (fun _ => true) "ws"
                 sample_post sample_server).1 = Ok (r, a) /\
  status r = status_ok /\ response_body r = Base64.string_bytes "Succeeded".
Proof.
  pose proof (http_command_performed (fun _ => "") (fun _ => true) (fun _ => true) "ws" true sample_post 1
                "10.0.0.1:4000" "a" sample_server (jv_encode (jarr [jbool false]))
                (jv_encode (HttpServicer.error_object (rpc_what (no_client "10.0.0.1:4000"))))
                eq_refl ltac:(done) ltac:(vm_compute; reflexivity) eq_refl eq_refl) as Hw.
  destruct (HttpServicer.respond _ _ _ _ _ sample_post sample_server) as [res s'].
  assert (Hc : exists k c, find_client "10.0.0.1:4000" sample_server = Some (k, c) /\
    (operation_of true "a" (publishing (with_heap (heap sample_server) c))).1 = true).
  { eexists _, _. split; [vm_compute; reflexivity|vm_compute; reflexivity]. }
  destruct Hc as (k & c & Hc & Hb). rewrite Hc in Hw.
  destruct (operation_of true "a" (publishing (with_heap (heap sample_server) c))) as [b pub].
  cbn in Hb. subst b. exact (proj2 Hw).
Defined.

(** A client subscribes over HTTP, another one connects, the first one goes. *)
Definition sharing_history : list action :=
  sample_history ++
  [act_upgrade (Some ("10.0.0.2", 4001));
   act_command (String.append "10.0.0.1:4000" ".subscribe") (jarr [jstr "a"]);
   act_command (String.append "10.0.0.2:4001" ".subscribe") (jarr [jstr "a"]);
   act_client_signal 0 (BasePeer.on_closed BasePeer.success)].

Lemma subscribed_while_wanted_witness :
  let s := acts Datatypes.id Tls.sample_load sharing_history (make sample_heap) in
  exists sg, heap s !! 0%nat = Some sg /\ LocalSignal.subscribe_count sg = 1 /\
    LocalSignal.is_subscribed sg = true /\
    exists k c, (k, c) ∈ clients s /\ holds 0 (locals (publishing c)) = true.
Proof.
  intros s.
  assert (H0 : forall a sg, sample_heap !! a = Some sg ->
    LocalSignal.subscribe_count sg = 0 /\ LocalSignal.subscriptions (LocalSignal.events sg) = []).
  { intros a sg. unfold sample_heap. intros [<- <-]%lookup_singleton_Some. done. }
  assert (Hh : forall a, act_add_signal a ∈ sharing_history -> is_Some (sample_heap !! a)).
  { intros a Ha. unfold sharing_history, sample_history in Ha. cbn [app] in Ha. rewrite !elem_of_cons in Ha.
    repeat (destruct Ha as [Ha|Ha]; [try done; injection Ha as ->; by eexists|]).
    by apply not_elem_of_nil in Ha. }
  assert (Hs : match heap s !! 0%nat with
               | Some sg => bool_decide (subscribers 0 (clients s) = 1)
               | None => false
               end = true) by (vm_compute; reflexivity).
  destruct (heap s !! 0%nat) as [sg|] eqn:E; [|done]. apply bool_decide_eq_true in Hs.
  destruct (subscribed_while_wanted Datatypes.id Tls.sample_load sharing_history sample_heap H0 Hh eq_refl 0%nat sg E) as (H1 & H2 & _).
  fold s in H1, H2. rewrite Hs in H1. exists sg.
  assert (H3 : LocalSignal.is_subscribed sg = true) by (unfold LocalSignal.is_subscribed; by rewrite H1).
  exact (conj eq_refl (conj H1 (conj H3 (proj1 H2 H3)))).
Defined.

Lemma last_tls_listener_decides_witness :
  let s1 := (add_tls_listener Tls.sample_load 7415 "a.crt" "a.key" "clients.crt" false (make ∅)).2 in
  let s2 := (add_tls_listener Tls.sample_load 7416 "b.crt" "b.key" "" false s1).2 in
  exists ctx ctx', ssl_context s1 = Some ctx /\ Tls.accepts Tls.sample_trusted ctx None = false /\
    sessions (accepted 0 true s2) = [(0%nat, Some ctx')] /\ Tls.accepts Tls.sample_trusted ctx' None = true.
Proof.
  exact (last_tls_listener_decides Tls.sample_load Tls.sample_trusted 7415 "a.crt" "a.key" "clients.crt" false
           7416 "b.crt" "b.key" false (make ∅) 0 (make_listener 7415 true) ltac:(done) eq_refl eq_refl eq_refl eq_refl).
Defined.
