(* ===== verification/ClientIterator.v ===== *)
(** * The iterator over the connected clients

    [connected_client_iterator.hpp] and [begin] and [end] of server.hpp.  An
    iterator of a [std::list] stays valid while its element is in the list; here
    it is the number the element was given when it was inserted. *)
From S2P Require Import Prelude Json.
From S2P Require Import Connection Server.

Section ClientIterator.
Context `{JL : JsonLib}.

(** [None] is the iterator past the last client. *)
Definition connected_client_iterator : Type := option nat.

Definition begin (s : server) : connected_client_iterator := fst <$> head (clients s).

Definition end_ : connected_client_iterator := None.

(** [operator*], where the iterator refers to a client. *)
Definition dereference (it : connected_client_iterator) (s : server) : option connection :=
  it ≫= fun k => snd <$> List.find (fun kc => bool_decide (kc.1 = k)) (clients s).

Fixpoint following (k : nat) (l : list (nat * connection)) : connected_client_iterator :=
  match l with
  | [] => None
  | x :: l => if bool_decide (x.1 = k) then fst <$> head l else following k l
  end.

(** [operator++] *)
Definition increment (it : connected_client_iterator) (s : server) : connected_client_iterator :=
  it ≫= fun k => following k (clients s).

(** [operator!=] *)
Definition differs (a b : connected_client_iterator) : bool := negb (bool_decide (a = b)).

(** [for (; it != end(); ++it)] *)
Fixpoint visit (fuel : nat) (it : connected_client_iterator) (s : server) : option (list connection) :=
  if differs it end_ then
    match fuel, dereference it s with
    | S fuel, Some c => cons c <$> visit fuel (increment it s) s
    | _, _ => None
    end
  else Some [].

Lemma find_at (l1 l2 : list (nat * connection)) x :
  NoDup (l1 ++ x :: l2).*1 -> List.find (fun kc => bool_decide (kc.1 = x.1)) (l1 ++ x :: l2) = Some x /\
  following x.1 (l1 ++ x :: l2) = fst <$> head l2.
Proof.
  induction l1 as [|y l1 IH]; cbn; [by rewrite bool_decide_true|].
  intros [Hy Hn]%NoDup_cons. rewrite bool_decide_false; [by apply IH|].
  intros E. apply Hy. rewrite E, fmap_app. set_solver.
Qed.

Lemma visit_rest s l2 : forall l1,
  clients s = l1 ++ l2 -> NoDup (clients s).*1 ->
  visit (length l2) (fst <$> head l2) s = Some l2.*2.
Proof.
  induction l2 as [|x l2 IH]; intros l1 Hs Hn; [done|]. rewrite Hs in Hn.
  destruct (find_at l1 l2 x Hn) as [Hf Hnext]. cbn [length visit head fmap option_fmap option_map].
  unfold differs, dereference, increment. rewrite bool_decide_false by done. cbn [negb mbind option_bind].
  rewrite Hs, Hf, Hnext. cbn [fmap option_fmap option_map]. rewrite (IH (l1 ++ [x])); [done| |by rewrite Hs].
  by rewrite <- (assoc_L (++)).
Qed.

(** The loop from [begin] to [end] visits every connected client once, in the
    order in which they connected. *)
Theorem iteration_visits_clients s :
  NoDup (clients s).*1 -> visit (length (clients s)) (begin s) s = Some (clients s).*2.
Proof. intros Hn. by apply (visit_rest s (clients s) []). Qed.

(** Removing one client leaves the iterators to the others as they are. *)
Theorem iterator_survives s k c j :
  j <> k -> NoDup (clients s).*1 -> (j, c) ∈ clients s ->
  dereference (Some j) s = Some c /\
  dereference (Some j) (set_clients (List.filter (fun kc => negb (bool_decide (kc.1 = k))) (clients s)) (heap s) s) = Some c.
Proof.
  intros Hj Hn Hin. unfold dereference. cbn [mbind option_bind set_clients clients].
  apply list_elem_of_split in Hin as (l1 & l2 & E). rewrite E in *.
  destruct (find_at l1 l2 (j, c) Hn) as [Hf _]. cbn [fst] in Hf. rewrite Hf. split; [done|].
  rewrite List.filter_app. cbn [List.filter fst]. rewrite bool_decide_false by done. cbn [negb].
  clear E. induction l1 as [|y l1 IH]; cbn in *; [by rewrite bool_decide_true|].
  apply NoDup_cons in Hn as [Hy Hn]. rewrite bool_decide_false in Hf by (intros E; apply Hy; rewrite E, fmap_app; set_solver).
  destruct (bool_decide_reflect (y.1 = k)); cbn; [by apply IH|].
  rewrite bool_decide_false by (intros E; apply Hy; rewrite E, fmap_app; set_solver). by apply IH.
Qed.
End ClientIterator.
