(* ===== verification/UnitTests.v ===== *)
(** * The repository's unit tests, run on the model

    [tests/test_base64.cpp], [tests/test_dynamic_buffer.cpp],
    [tests/test_metadata.cpp], [tests/test_semver.cpp],
    [tests/test_streaming_protocol.cpp] and the tests of contexts and settings in
    [tests/test_tls.cpp], and [tests/test_peer_limits.cpp].  Each test is a boolean: the conjunction of what the
    test expects, with the program's functions replaced by their definitions
    here.  That they all evaluate to [true] says nothing new about the program;
    it compares the definitions with the behaviour its authors wrote down.  The
    tests of the receive buffer move buffers too large to evaluate: they are
    instances of the lemmas of [PeerLimits]. *)
From S2P Require Import Prelude Json.
From S2P Require DynamicBuffer Metadata Semver StreamingProtocol Base64 Tls Client Server.
From S2P Require BasePeer Peer PeerLimits.
From Stdlib Require Import Ascii.

Module Import Expectations.
(** EXPECT_EQ *)
Definition expect_eq {A} `{EqDecision A} (x y : A) : bool := bool_decide (x = y).

Definition chars (s : string) : list ascii := String.list_ascii_of_string s.
End Expectations.

(** ** test_base64.cpp *)

Module TestBase64.
#[local] Existing Instance Base64.reference_iterators.

Definition base64 (s : string) : string := String.string_of_list_ascii (Base64.base64 (Base64.string_bytes s)).

(** A literal is an array that ends with a NUL. *)
Definition base64_literal (s : string) : string :=
  String.string_of_list_ascii (Base64.base64 (Base64.string_bytes s ++ [0])).

Definition CharStrings : bool :=
  expect_eq (base64 "") "" && expect_eq (base64 "f") "Zg==" && expect_eq (base64 "fo") "Zm8=" &&
  expect_eq (base64 "foo") "Zm9v" && expect_eq (base64 "foob") "Zm9vYg==" &&
  expect_eq (base64 "fooba") "Zm9vYmE=" && expect_eq (base64 "foobar") "Zm9vYmFy".

Definition CharLiterals : bool :=
  expect_eq (base64_literal "") "AA==" && expect_eq (base64_literal "f") "ZgA=" &&
  expect_eq (base64_literal "fo") "Zm8A" && expect_eq (base64_literal "foo") "Zm9vAA==" &&
  expect_eq (base64_literal "foob") "Zm9vYgA=" && expect_eq (base64_literal "fooba") "Zm9vYmEA" &&
  expect_eq (base64_literal "foobar") "Zm9vYmFyAA==".

Definition ByteArrays : bool :=
  expect_eq (Base64.base64 []) (chars "") && expect_eq (Base64.base64 [1]) (chars "AQ==") &&
  expect_eq (Base64.base64 [1; 2]) (chars "AQI=") && expect_eq (Base64.base64 [1; 2; 3]) (chars "AQID").

Lemma base64_tests_pass : CharStrings && CharLiterals && ByteArrays = true.
Proof. by vm_compute. Qed.
End TestBase64.

(** ** test_semver.cpp *)

Module TestSemver.
Import Semver.

Definition DefaultConstructor : bool :=
  expect_eq (major default_semver) 0 && expect_eq (minor default_semver) 0 &&
  expect_eq (revision default_semver) 0.

Definition ExplicitConstructor : bool :=
  let ver := mk_semver 1 2 3 in
  expect_eq (major ver) 1 && expect_eq (minor ver) 2 && expect_eq (revision ver) 3.

Definition TryParse : bool :=
  forallb (fun s => expect_eq (try_parse (chars s)) None)
    [""; "1"; "1.2"; "1.2.3x"; "1.2.x3"; "1.2x.3"; "1.x2.3"; "1x.2.3"; "x1.2.3"] &&
  expect_eq (try_parse (chars "1.2.3")) (Some (mk_semver 1 2 3)).

Definition Compare : bool :=
  geb (mk_semver 2 0 0) (mk_semver 1 0 0) && geb (mk_semver 2 2 0) (mk_semver 2 1 0) &&
  geb (mk_semver 2 2 2) (mk_semver 2 2 1) &&
  leb (mk_semver 1 0 0) (mk_semver 2 0 0) && leb (mk_semver 2 1 0) (mk_semver 2 2 0) &&
  leb (mk_semver 2 2 1) (mk_semver 2 2 2) &&
  neqb (mk_semver 1 1 1) (mk_semver 1 1 2) && neqb (mk_semver 1 1 1) (mk_semver 1 2 1) &&
  neqb (mk_semver 1 1 1) (mk_semver 2 1 1).

Lemma semver_tests_pass : DefaultConstructor && ExplicitConstructor && TryParse && Compare = true.
Proof. by vm_compute. Qed.
End TestSemver.

(** ** test_streaming_protocol.cpp *)

Module TestStreamingProtocol.
Import StreamingProtocol.

Definition header_bytes (signo type payload_size : Z) : list Z :=
  match generate_header signo type payload_size with Ok h => h | Throw _ => [] end.

Definition make_packet (signo type : Z) (payload_size : nat) : list Z :=
  header_bytes signo type (Z.of_nat payload_size) ++ replicate payload_size 0.

Definition round_trip (signo type : Z) (payload_size : nat) : decoded_header :=
  decode_header (make_packet signo type payload_size).

Definition has_fields (h : decoded_header) (s t n : Z) : bool :=
  expect_eq (signo h) s && expect_eq (type h) t && expect_eq (payload_size h) n.

Definition RoundTripsAPacketWithAnInlineSize : bool :=
  let header := round_trip 7 packet_type_DATA 24 in
  expect_eq (header_size header) 4 && has_fields header 7 packet_type_DATA 24.

Definition RoundTripsAPacketWithAnExtendedSize : bool :=
  let header := round_trip 7 packet_type_DATA 800 in
  expect_eq (header_size header) 8 && has_fields header 7 packet_type_DATA 800.

Definition RoundTripsMetadataPackets : bool :=
  has_fields (round_trip 0 packet_type_METADATA 300) 0 packet_type_METADATA 300.

Definition RoundTripsAcrossTheInlineSizeBoundary : bool :=
  forallb (fun n => has_fields (round_trip 1 packet_type_DATA n) 1 packet_type_DATA (Z.of_nat n))
    [0; 1; 254; 255; 256; 257]%nat.

Definition RoundTripsTheLargestSignalNumber : bool :=
  has_fields (round_trip 0xFFFFF packet_type_DATA 24) 0xFFFFF packet_type_DATA 24.

Definition MatchesTheReferenceWireFormat : bool :=
  expect_eq (header_bytes 7 packet_type_DATA 24) [0x07; 0x00; 0x80; 0x11].

Definition MatchesTheReferenceWireFormatWithAnExtendedSize : bool :=
  expect_eq (header_bytes 7 packet_type_DATA 800) [0x07; 0x00; 0x00; 0x10; 0x20; 0x03; 0x00; 0x00].

Definition ReportsTruncatedHeadersAsIncomplete : bool :=
  let packet := make_packet 7 packet_type_DATA 800 in
  forallb (fun size => expect_eq (header_size (decode_header (take size packet))) 0)
    [3; 7; length packet - 1]%nat.

Definition ReportsACompletePacketAsComplete : bool :=
  let packet := make_packet 7 packet_type_DATA 800 in
  negb (expect_eq (header_size (decode_header packet)) 0) &&
  expect_eq (payload_size (decode_header (packet ++ replicate 100 0))) 800.

Lemma streaming_protocol_tests_pass :
  RoundTripsAPacketWithAnInlineSize && RoundTripsAPacketWithAnExtendedSize &&
  RoundTripsMetadataPackets && RoundTripsAcrossTheInlineSizeBoundary &&
  RoundTripsTheLargestSignalNumber && MatchesTheReferenceWireFormat &&
  MatchesTheReferenceWireFormatWithAnExtendedSize && ReportsTruncatedHeadersAsIncomplete &&
  ReportsACompletePacketAsComplete = true.
Proof. by vm_compute. Qed.
End TestStreamingProtocol.

(** ** test_dynamic_buffer.cpp *)

Module TestDynamicBuffer.
Import DynamicBuffer.

(** The default of the constructor's second parameter. *)
Definition default_block_size : nat := N.to_nat (64 * 1024).

Definition contents (b : dynamic_buffer) : list Z := mjoin (data b).

Definition sequence (first : Z) (count : nat) : list Z := (fun i => u8 (first + Z.of_nat i)) <$> seq 0 count.

(** The statements of a test: a write that is expected to accept a number of
    bytes, a write whose result is not looked at, a consume, and the two
    expectations about what is buffered. *)
Inductive statement : Type :=
| accepts (src : list Z) (n : nat)
| writes (src : list Z)
| consumes (n : nat)
| holds (expected : list Z)
| buffers (n : nat).

Fixpoint check (b : dynamic_buffer) (l : list statement) : bool :=
  match l with
  | [] => true
  | accepts src n :: l =>
      match write src b with Some (b, m) => expect_eq m n && check b l | None => false end
  | writes src :: l => match write src b with Some (b, _) => check b l | None => false end
  | consumes n :: l => match consume n b with Some b => check b l | None => false end
  | holds expected :: l =>
      expect_eq (contents b) expected && expect_eq (empty b) (length expected =? 0)%nat && check b l
  | buffers n :: l => expect_eq (length (contents b)) n && check b l
  end.

Definition StartsEmpty : bool := check (make 16 default_block_size) [holds []; buffers 0].

Definition ConsumeOnEmptyBufferIsHarmless : bool :=
  check (make 16 default_block_size) [consumes 0; consumes 100; holds []; buffers 0].

Definition WritesSingleBuffer : bool :=
  check (make 16 default_block_size) [accepts (sequence 10 6) 6; buffers 6; holds (sequence 10 6)].

Definition WritesBufferSequenceWithoutFlattening : bool :=
  check (make 16 default_block_size)
    [accepts (sequence 1 4 ++ sequence 100 5) 9; holds (sequence 1 4 ++ sequence 100 5)].

Definition WriteOfEmptySequenceChangesNothing : bool :=
  check (make 16 default_block_size) [writes (sequence 1 4); accepts [] 0; holds (sequence 1 4)].

Definition WriteStopsAtTheLimit : bool :=
  check (make 8 default_block_size) [accepts (sequence 1 10) 8; buffers 8; holds (sequence 1 8)].

Definition WriteToFullBufferAcceptsNothing : bool :=
  check (make 8 default_block_size)
    [accepts (sequence 1 8) 8; accepts (sequence 200 4) 0; holds (sequence 1 8)].

Definition PartialConsumeKeepsTheRemainder : bool :=
  check (make 16 default_block_size) [writes (sequence 1 10); consumes 4; buffers 6; holds (sequence 5 6)].

Definition ConsumingEverythingEmptiesTheBuffer : bool :=
  check (make 16 default_block_size) [writes (sequence 1 10); consumes 10; holds []; buffers 0].

Definition ConsumingMoreThanBufferedDiscardsEverything : bool :=
  check (make 16 default_block_size) [writes (sequence 1 10); consumes 1000; holds []].

Definition ConsumeOfZeroIsANoOp : bool :=
  check (make 16 default_block_size) [writes (sequence 1 10); consumes 0; holds (sequence 1 10)].

Definition RoomFreedByConsumeIsReusable : bool :=
  check (make 16 8)
    (mjoin ((fun round => [accepts (sequence (10 * round) 8) 8; holds (sequence (10 * round) 8);
                           consumes 8; holds []]) <$> [0; 1; 2; 3])).

Definition WriteSpansSeveralBlocks : bool :=
  check (make 64 8) [accepts (sequence 1 20) 20; buffers 20; holds (sequence 1 20)].

Definition ConsumeCrossesBlockBoundaries : bool :=
  check (make 64 8)
    [writes (sequence 1 20); consumes 10; holds (sequence 11 10); consumes 6; holds (sequence 17 4);
     consumes 4; holds []].

Definition AppendsToThePartiallyFilledLastBlock : bool :=
  check (make 64 8) [accepts (sequence 1 5) 5; accepts (sequence 6 7) 7; holds (sequence 1 12)].

Definition TailOfABlockKeepsFillingAfterAPartialConsume : bool :=
  check (make 16 8) [accepts (sequence 1 4) 4; consumes 2; accepts (sequence 10 12) 12; buffers 14].

Definition ConsumedSpaceReturnsOnlyWhenTheBlockEmpties : bool :=
  check (make 8 8)
    [accepts (sequence 1 8) 8; consumes 5; accepts (sequence 100 3) 0; holds (sequence 6 3);
     consumes 3; accepts (sequence 100 8) 8].

Definition AllocatesNoMoreBlocksThanTheLimitAllows : bool :=
  check (make 64 8) [accepts (sequence 1 100) 64; buffers 64; accepts (sequence 1 8) 0].

Definition LimitNotDivisibleByBlockSizeRoundsDown : bool :=
  check (make 100 8) [accepts (sequence 1 100) 96].

Definition BlockSizeLargerThanTheLimitIsClamped : bool :=
  check (make 10 default_block_size) [accepts (sequence 1 20) 10; holds (sequence 1 10)].

Definition DataOnEmptyBufferIsAnEmptySequence : bool :=
  check (make 64 8) [buffers 0; writes (sequence 1 20); consumes 20; buffers 0].

(** One round of the last two tests: the buffer, what was written, what was read
    and the next byte. *)
Definition cycle (chunk_mod take_mod i : nat) (st : option (dynamic_buffer * list Z * list Z * Z))
    : option (dynamic_buffer * list Z * list Z * Z) :=
  '(b, written, read, next_value) ← st;
  let chunk := sequence next_value (1 + i mod chunk_mod) in
  '(b, accepted) ← write chunk b;
  let buffered := contents b in
  let taken := (length buffered `min` (1 + i mod take_mod))%nat in
  b ← consume taken b;
  Some (b, written ++ take accepted chunk, read ++ take taken buffered, u8 (next_value + Z.of_nat accepted)).

Definition cycles (chunk_mod take_mod rounds : nat) (b : dynamic_buffer) : option (dynamic_buffer * list Z * list Z) :=
  '(b, written, read, _) ←
    fold_left (fun st i => cycle chunk_mod take_mod i st) (seq 0 rounds) (Some (b, [], [], 0));
  let remaining := contents b in
  b ← consume (length remaining) b;
  Some (b, written, read ++ remaining).

Definition ReusesBlocksAcrossFarMoreDataThanItHolds : bool :=
  match cycles 23 19 100 (make 64 8) with
  | Some (b, written, read) => empty b && expect_eq read written && (10 * 64 <? length written)%nat
  | None => false
  end.

Definition PreservesOrderAcrossManyWriteConsumeCycles : bool :=
  match cycles 17 11 200 (make 64 default_block_size) with
  | Some (b, written, read) => empty b && expect_eq read written
  | None => false
  end.

Lemma dynamic_buffer_tests_pass :
  StartsEmpty && ConsumeOnEmptyBufferIsHarmless && WritesSingleBuffer &&
  WritesBufferSequenceWithoutFlattening && WriteOfEmptySequenceChangesNothing &&
  WriteStopsAtTheLimit && WriteToFullBufferAcceptsNothing && PartialConsumeKeepsTheRemainder &&
  ConsumingEverythingEmptiesTheBuffer && ConsumingMoreThanBufferedDiscardsEverything &&
  ConsumeOfZeroIsANoOp && RoomFreedByConsumeIsReusable && WriteSpansSeveralBlocks &&
  ConsumeCrossesBlockBoundaries && AppendsToThePartiallyFilledLastBlock &&
  TailOfABlockKeepsFillingAfterAPartialConsume && ConsumedSpaceReturnsOnlyWhenTheBlockEmpties &&
  AllocatesNoMoreBlocksThanTheLimitAllows && LimitNotDivisibleByBlockSizeRoundsDown &&
  BlockSizeLargerThanTheLimitIsClamped && DataOnEmptyBufferIsAnEmptySequence &&
  ReusesBlocksAcrossFarMoreDataThanItHolds && PreservesOrderAcrossManyWriteConsumeCycles = true.
Proof. by vm_compute. Qed.
End TestDynamicBuffer.

(** ** test_metadata.cpp *)

Module TestMetadata.
#[local] Existing Instance jv_json.
Import Metadata.

Definition linear_parameters (start delta : json) : string * json :=
  ("interpretation", jobj [("rule", jobj [("type", jint 1);
     ("parameters", jobj [("start", start); ("delta", delta)])])]).

Definition linear_definition (rule : string) : string * json :=
  ("definition", jobj [("rule", jstr rule); ("linear", jobj [("start", jint 200); ("delta", jint 9)])]).

Definition bare_definition (rule : string) : string * json := ("definition", jobj [("rule", jstr rule)]).

Definition start_delta (members : list (string * json)) (start delta : option Z) : bool :=
  expect_eq (linear_start_delta (metadata (jobj members))) (start, delta).

Definition LinearStartDeltaFromInterpretation : bool :=
  start_delta [bare_definition "linear"; linear_parameters (jint 100) (jint 7)] (Some 100) (Some 7).

Definition LinearStartDeltaFromDefinition : bool :=
  start_delta [linear_definition "linear"] (Some 200) (Some 9).

Definition LinearStartDeltaPrefersInterpretation : bool :=
  start_delta [linear_definition "linear"; linear_parameters (jint 100) (jint 7)] (Some 100) (Some 7).

Definition LinearStartDeltaIgnoresNonLinearRules : bool :=
  start_delta [linear_definition "explicit"; linear_parameters (jint 100) (jint 7)] None None.

Definition LinearStartDeltaAbsent : bool := start_delta [bare_definition "linear"] None None.

Definition LinearStartDeltaIgnoresNonNumericParameters : bool :=
  start_delta [bare_definition "linear"; linear_parameters (jstr "x") jnull] None None.

Definition interpretation_unit : string * json :=
  ("interpretation", jobj [("unit", jobj [("id", jint 5); ("name", jstr "volts");
     ("quantity", jstr "voltage"); ("symbol", jstr "V")])]).

Definition definition_unit (uid : Z) (display_name quantity : string) : string * json :=
  ("definition", jobj [("unit", jobj [("unitId", jint uid); ("displayName", jstr display_name);
     ("quantity", jstr quantity)])]).

Definition unit_is (members : list (string * json)) (test : unit -> bool) : bool :=
  if get_unit (metadata (jobj members)) is Some u then test u else false.

Definition UnitFromInterpretation : bool :=
  unit_is [interpretation_unit] (fun u =>
    expect_eq (id u) 5 && expect_eq (unit_name u) "volts" && expect_eq (quantity u) "voltage" &&
    expect_eq (symbol u) "V").

Definition UnitFromDefinition : bool :=
  unit_is [definition_unit 5 "V" "voltage"] (fun u =>
    expect_eq (id u) 5 && expect_eq (quantity u) "voltage" && expect_eq (symbol u) "V" &&
    expect_eq (unit_name u) "V").

Definition UnitPrefersInterpretation : bool :=
  unit_is [definition_unit 9 "A" "current"; interpretation_unit] (fun u =>
    expect_eq (id u) 5 && expect_eq (symbol u) "V").

Definition UnitAbsent : bool :=
  if get_unit (metadata (jobj [bare_definition "explicit"])) is None then true else false.

Lemma metadata_tests_pass :
  LinearStartDeltaFromInterpretation && LinearStartDeltaFromDefinition &&
  LinearStartDeltaPrefersInterpretation && LinearStartDeltaIgnoresNonLinearRules &&
  LinearStartDeltaAbsent && LinearStartDeltaIgnoresNonNumericParameters &&
  UnitFromInterpretation && UnitFromDefinition && UnitPrefersInterpretation && UnitAbsent = true.
Proof. by vm_compute. Qed.
End TestMetadata.

(** ** test_tls.cpp

    The exchanges over sockets are reduced to the two verification decisions of
    their handshakes: the client's about the server's certificate and the
    server's about the client's.  [ca.crt] has signed the certificates of the
    server and of the client; [other-ca.crt] has signed neither. *)

Module TestTls.

Inductive certificate : Type := server_certificate | client_certificate.

Definition trusted (ca : string) (c : certificate) : bool := bool_decide (ca = "ca.crt").

Definition load (u : Tls.file_use) (f : string) (c : Tls.context) : option Z :=
  if existsb (fun g => bool_decide (f = g)) ["does-not-exist.crt"; "does-not-exist.key"] then Some 2 else None.

(** The certificate a client's context presents when it is asked for one. *)
Definition presented (ctx : Tls.context) : option certificate :=
  if Tls.chain ctx is Some _ then Some client_certificate else None.

(** Whether the handshake between a client and a listener's context succeeds. *)
Definition handshake (client server : result Tls.tls_error Tls.context) : bool :=
  match client, server with
  | Ok c, Ok s => Tls.accepts trusted c (Some server_certificate) && Tls.accepts trusted s (presented c)
  | _, _ => false
  end.

Definition listener (server_ca_for_mtls : string) : result Tls.tls_error Tls.context :=
  Tls.make_server_tls_context load "server.crt" "server.key" server_ca_for_mtls.

Definition ServerAuthenticatedExchange : bool :=
  handshake (Tls.make_client_tls_context load "ca.crt" "" "") (listener "").

Definition MutualTlsExchange : bool :=
  handshake (Tls.make_client_tls_context load "ca.crt" "client.crt" "client.key") (listener "ca.crt").

Definition UntrustedServerRejected : bool :=
  negb (handshake (Tls.make_client_tls_context load "other-ca.crt" "" "") (listener "")).

Definition MutualTlsRejectsClientWithoutCertificate : bool :=
  negb (handshake (Tls.make_client_tls_context load "ca.crt" "" "") (listener "ca.crt")).

Definition UnverifiedClientAcceptsUntrustedServer : bool :=
  handshake (Ok Tls.make_client_tls_context_without_verification) (listener "").

Definition UnverifiedClientRejectedByMutualTlsServer : bool :=
  negb (handshake (Ok Tls.make_client_tls_context_without_verification) (listener "ca.crt")).

Definition throws_invalid_argument {A} (r : result Tls.tls_error A) : bool :=
  if r is Throw Tls.invalid_argument then true else false.

Definition throws_system_error {A} (r : result Tls.tls_error A) : bool :=
  if r is Throw (Tls.system_error _) then true else false.

Definition ClientContextRequiresCaFile : bool :=
  throws_invalid_argument (Tls.make_client_tls_context load "" "" "").

Definition ClientContextRejectsCertWithoutKey : bool :=
  throws_invalid_argument (Tls.make_client_tls_context load "ca.crt" "client.crt" "") &&
  throws_invalid_argument (Tls.make_client_tls_context load "ca.crt" "" "client.key").

Definition ClientContextThrowsOnMissingCaFile : bool :=
  throws_system_error (Tls.make_client_tls_context load "does-not-exist.crt" "" "").

Definition ServerContextThrowsOnMissingCertFiles : bool :=
  throws_system_error (Tls.make_server_tls_context load "does-not-exist.crt" "does-not-exist.key" "").

Definition EnableTlsThrowsOnMissingCaFile : bool :=
  throws_system_error
    (Client.enable_tls load "does-not-exist.crt" "" "" (Client.make_client (Handler := nat))).1.

Definition AddTlsListenerThrowsOnMissingCertFiles : bool :=
  throws_system_error
    (Server.add_tls_listener (JL := jv_json) load 17423 "does-not-exist.crt" "does-not-exist.key" "" false
       (Server.make (JL := jv_json) ∅)).1.

Lemma tls_tests_pass :
  ServerAuthenticatedExchange && MutualTlsExchange && UntrustedServerRejected &&
  MutualTlsRejectsClientWithoutCertificate && UnverifiedClientAcceptsUntrustedServer &&
  UnverifiedClientRejectedByMutualTlsServer && ClientContextRequiresCaFile &&
  ClientContextRejectsCertWithoutKey && ClientContextThrowsOnMissingCaFile &&
  ServerContextThrowsOnMissingCertFiles && EnableTlsThrowsOnMissingCaFile &&
  AddTlsListenerThrowsOnMissingCertFiles = true.
Proof. by vm_compute. Qed.
End TestTls.

(** ** test_peer_limits.cpp *)

Module TestPeerLimits.
Import BasePeer PeerLimits.
#[local] Open Scope nat_scope.

Definition SIGNO : Z := 7.
Definition RX_BUFFER_MAX : nat := N.to_nat (128 * 1024).
Definition LARGE_PAYLOAD : nat := N.to_nat (100 * 1024).
Definition OVERSIZED_PAYLOAD : nat := N.to_nat (1024 * 1024).
Definition SMALL_MAX : nat := N.to_nat (16 * 1024).

Lemma constants :
  Z.of_nat RX_BUFFER_MAX = (128 * 1024)%Z /\ Z.of_nat LARGE_PAYLOAD = (100 * 1024)%Z /\
  Z.of_nat OVERSIZED_PAYLOAD = (1024 * 1024)%Z /\ Z.of_nat SMALL_MAX = (16 * 1024)%Z.
Proof. unfold RX_BUFFER_MAX, LARGE_PAYLOAD, OVERSIZED_PAYLOAD, SMALL_MAX. by rewrite !N_nat_Z. Qed.

#[local] Opaque RX_BUFFER_MAX LARGE_PAYLOAD OVERSIZED_PAYLOAD SMALL_MAX.

Definition pattern (size : nat) : list Z := (fun i => u8 (Z.of_nat i * 31 + 7)%Z) <$> seq 0 size.

Definition packet_header (signo type payload_size : Z) : list Z :=
  let extended := (256 <=? payload_size)%Z in
  le_bytes 4 (Z.lor (Z.lor signo (if extended then 0 else u32 (u32 payload_size ≪ 20))) (u32 (type ≪ 28)))%Z ++
  (if extended then le_bytes 4 (u32 payload_size) else []).

Definition make_packet (signo : Z) (payload : list Z) : list Z :=
  packet_header signo SP.packet_type_DATA (size_of payload) ++ payload.

Definition make_ws_frame (payload : list Z) : list Z :=
  WS.generate_header WS.opcode_BINARY WS.flags_FIN (size_of payload) ++ payload.

Definition make_frame (tcp : bool) (packet : list Z) : list Z := if tcp then packet else make_ws_frame packet.

Lemma length_pattern n : length (pattern n) = n.
Proof. unfold pattern. by rewrite length_fmap, length_seq. Qed.

Lemma size_pattern n : size_of (pattern n) = Z.of_nat n.
Proof. unfold size_of. by rewrite length_pattern. Qed.

Lemma pattern_byte n : Forall is_byte (pattern n).
Proof. apply Forall_fmap, Forall_true. intros i. apply wrap_range. lia. Qed.

Lemma make_packet_message `{JL : JsonLib} tcp signo payload :
  (size_of payload <= 2 ^ 32 - 1)%Z ->
  make_frame tcp (make_packet signo payload) = Peer.message_bytes tcp (Peer.data_message signo payload).
Proof.
  intros Hn. unfold make_frame, make_packet, packet_header, Peer.message_bytes, SP.generate_header. cbn [Peer.message_packet].
  destruct (Z.ltb_spec (size_of payload) 256), (Z.leb_spec 256 (size_of payload)); try lia.
  - unfold Peer.framed, make_ws_frame. rewrite app_nil_r. by destruct tcp.
  - rewrite (proj2 (Z.leb_le _ _) Hn), Z.lor_0_r. unfold Peer.framed, make_ws_frame. by destruct tcp.
Qed.

Lemma pattern_sendable `{JL : JsonLib} signo n :
  in_u 20 signo -> (1 <= Z.of_nat n <= 1024 * 1024)%Z -> Peer.sendable (Peer.data_message signo (pattern n)).
Proof.
  intros Hs Hn. split; [done|]. rewrite size_pattern. split; [lia|apply pattern_byte].
Qed.

Lemma length_frame `{JL : JsonLib} tcp signo payload :
  (256 <= size_of payload)%Z ->
  length payload + 8 <= length (make_frame tcp (make_packet signo payload)) <= length payload + 22.
Proof.
  intros Hn. unfold make_frame, make_ws_frame, make_packet, packet_header. rewrite (proj2 (Z.leb_le _ _) Hn).
  destruct tcp; [len|]. unfold WS.generate_header. repeat case_match; len.
Qed.

Section Tests.
Context `{JL : JsonLib} {T : Type} `{!Transport T} `{!ControlSender T}.
Variable t : T.
Hypothesis started : transport_wf false t.

(** TcpFrameLargerThanTheInitialBufferIsReceived, TcpFrameSplitAcrossReadsIsReassembled
    and WsFrameLargerThanTheInitialBufferIsReceived. *)
Lemma FrameLargerThanTheInitialBufferIsReceived tcp chunks (p : base_peer * T) :
  fed chunks (make tcp RX_BUFFER_MAX, t) p ->
  mjoin chunks = make_frame tcp (make_packet SIGNO (pattern LARGE_PAYLOAD)) ->
  deliveries p.1 = [on_data_received SIGNO (pattern LARGE_PAYLOAD)].
Proof.
  intros Hf Heq. pose proof constants as (C1 & C2 & C3 & C4). set (m := Peer.data_message SIGNO (pattern LARGE_PAYLOAD)).
  assert (Hm : make_frame tcp (make_packet SIGNO (pattern LARGE_PAYLOAD)) = Peer.message_bytes tcp m)
    by (apply make_packet_message; rewrite size_pattern; lia).
  assert (Hmax : 0 < RX_BUFFER_MAX) by lia.
  assert (Hs : Peer.sendable m) by (apply pattern_sendable; [split; unfold SIGNO; lia|lia]).
  destruct (length_frame tcp SIGNO (pattern LARGE_PAYLOAD)) as [_ Hl]; rewrite ?size_pattern, ?length_pattern in *; [lia|].
  rewrite Hm in Heq, Hl.
  refine (proj2 (fitting_messages_received tcp RX_BUFFER_MAX [m] chunks t p started Hmax _ _ _ Hf _)).
  - apply Forall_singleton. exact Hs.
  - intros _. by apply Forall_singleton.
  - apply Forall_singleton. lia.
  - rewrite Heq. symmetry. apply app_nil_r.
Qed.

(** Tcp- and WsFrameLargerThanTheMaximumClosesTheConnection, and
    MaximumSmallerThanTheInitialBufferIsHonoured: a packet of 1 MiB is announced,
    and as much of it as can be is read. *)
Lemma FrameLargerThanTheMaximumClosesTheConnection tcp max chunks (p : base_peer * T) :
  max ∈ [RX_BUFFER_MAX; SMALL_MAX] -> fed chunks (make tcp max, t) p ->
  mjoin chunks = take max (make_frame tcp (make_packet SIGNO (pattern OVERSIZED_PAYLOAD))) ->
  deliveries p.1 = [] /\ closings p.1 = [on_closed no_buffer_space].
Proof.
  intros Hin Hf Heq. pose proof constants as (C1 & C2 & C3 & C4). set (m := Peer.data_message SIGNO (pattern OVERSIZED_PAYLOAD)).
  assert (Hm : make_frame tcp (make_packet SIGNO (pattern OVERSIZED_PAYLOAD)) = Peer.message_bytes tcp m)
    by (apply make_packet_message; rewrite size_pattern; lia).
  assert (Hs : Peer.sendable m) by (apply pattern_sendable; [split; unfold SIGNO; lia|lia]).
  assert (Hmax : 0 < max < OVERSIZED_PAYLOAD).
  { apply elem_of_cons in Hin as [->|[->|[]%elem_of_nil]%elem_of_cons]; lia. }
  destruct (length_frame tcp SIGNO (pattern OVERSIZED_PAYLOAD)) as [Hl _]; rewrite ?size_pattern, ?length_pattern in *; [lia|].
  rewrite Hm in Heq, Hl.
  assert (Hpos : 0 < max) by lia. assert (Hlen : max < length (Peer.message_bytes tcp m)) by lia.
  pose proof (oversized_unit_refused tcp max (Peer.message_bytes tcp m) chunks t p started Hpos
    (Peer.message_bytes_byte tcp m Hs) (message_unit tcp m Hs) Hlen Hf Heq) as [H1 H2].
  split; [exact H2|exact H1].
Qed.

Definition batch (tcp : bool) (l : list (Z * nat)) : list Z :=
  mjoin ((fun x => make_frame tcp (make_packet x.1 (pattern x.2))) <$> l).

Definition expected (l : list (Z * nat)) : list signal := (fun x => on_data_received x.1 (pattern x.2)) <$> l.

(** TcpPacketsArrivingInOneReadAreAllReceived and
    WsFramesArrivingInOneReadAreAllReceived, in one read or in several. *)
Lemma PacketsArrivingInOneReadAreAllReceived tcp chunks (p : base_peer * T) :
  let l := [(SIGNO, 300); ((SIGNO + 1)%Z, 300); ((SIGNO + 2)%Z, 300)] in
  fed chunks (make tcp RX_BUFFER_MAX, t) p -> mjoin chunks = batch tcp l -> deliveries p.1 = expected l.
Proof.
  intros l Hf Heq. pose proof constants as (C1 & _). set (ms := (fun x => Peer.data_message x.1 (pattern x.2)) <$> l).
  assert (Hl : Forall (fun x : Z * nat => in_u 20 x.1 /\ (256 <= Z.of_nat x.2 <= 300)%Z) l)
    by (unfold l, SIGNO; repeat constructor; cbn; lia).
  assert (Hb : batch tcp l = mjoin (Peer.message_bytes tcp <$> ms)).
  { unfold batch, ms. rewrite <- list_fmap_compose. apply (f_equal mjoin), list_fmap_ext. intros i x Hx. cbn [compose].
    apply make_packet_message. rewrite size_pattern. pose proof (Forall_lookup_1 _ _ _ _ Hl Hx) as [_ ?]. lia. }
  rewrite Hb in Heq. unfold expected. replace (_ <$> l) with (Peer.message_signal <$> ms)
    by (unfold ms; by rewrite <- list_fmap_compose).
  refine (proj2 (fitting_messages_received tcp RX_BUFFER_MAX ms chunks t p started _ _ _ _ Hf Heq)); [lia|..].
  - apply Forall_fmap. eapply Forall_impl; [exact Hl|]. intros x [? ?]. apply pattern_sendable; [done|lia].
  - intros _. apply Forall_fmap, Forall_true. done.
  - apply Forall_fmap. eapply Forall_impl; [exact Hl|]. intros x [? ?]. cbn [compose].
    rewrite <- make_packet_message by (rewrite size_pattern; lia).
    destruct (length_frame tcp x.1 (pattern x.2)) as [_ Hlen]; rewrite ?size_pattern, ?length_pattern in *; lia.
Qed.

(** HandedOverDataLargerThanTheMaximumClosesTheConnection *)
Lemma HandedOverDataLargerThanTheMaximumClosesTheConnection data :
  RX_BUFFER_MAX < length data -> Forall is_byte data -> exists p,
  (run_data data (make true RX_BUFFER_MAX, t) ≫= run_posted) = Some p /\
  closings p.1 = [on_closed no_buffer_space] /\ deliveries p.1 = [].
Proof.
  intros Hl Hb. destruct (handed_over_limit true RX_BUFFER_MAX data t started Hb (or_introl eq_refl)) as (p & E & H).
  exists p. split; [exact E|]. by rewrite (proj2 (Nat.ltb_lt _ _) Hl) in H.
Qed.
End Tests.
End TestPeerLimits.
